(* ===== verification/_CoqProject ===== *)
-Q . S2P
Prelude.v
Mem.v
CString.v
Ring.v
Riscv.v
Kalloc.v
Vm.v
VmSpec.v
VmProps.v
Copy.v
Pipe.v
Spinlock.v
Uart.v
Console.v
Sleeplock.v
Bio.v
BioSpec.v
Log.v
LogSpec.v
LogProps.v
LogOps.v
Fs.v
FsTxn.v
FsAlloc.v
FsFile.v
FsInode.v
FsRw.v
FsProps.v
FsDir.v
FsTable.v
File.v
FileProps.v
Hoare.v
Proc.v
ProcSpec.v
ProcInv.v
ProcProps.v
Wakeup.v
Virtio.v
VirtioProps.v
Syscall.v
Printf.v
Exec.v
Trap.v
SyscallProps.v
ExecProps.v
Ulib.v
Umalloc.v
UmallocProps.v
Grep.v
PsTree.v
Sh.v
ShRun.v
ShProc.v
ShMain.v
Asm.v
AsmProps.v
Switch.v
Boot.v
UserReturn.v
Tools.v
