(* ===== verification/Prelude.v ===== *)
(** * xv6-riscv: a verification library

    The program is the xv6-riscv teaching kernel with its user library and
    shell (src/xv6-riscv-labs-riscv, directories kernel/ and user/).  The
    kernel runs on several CPUs: spinlocks protect its shared structures,
    sleeping processes wait on channels, memory is a list of free pages under
    RISC-V page tables, and the file system sits on a write-ahead log, which
    sits on a buffer cache, which sits on the disk driver.  System calls reach
    processes, files and memory through the trap handler; user programs reach
    system calls through a small C library.

    ** How code is modelled

    A kernel routine is a function in the monad [M S] of this file: it takes
    the state [S] of its component and the spinlocks held, and returns
    ([Ok]), calls [panic] ([Panic] with the message), waits for a wakeup that
    this run does not contain ([Blocked]) or spins ([Spin]).  Routines of one
    component run inside a larger state with [zoom].  A routine that sleeps or
    switches context is cut there: what follows is a run of its own, so that
    other processes may act in between.  Integers are [Z] with the wrap-around
    of their C type written out ([u8] to [u64], [i32]); memory is a map from
    addresses to bytes; an out-of-range access is a value of the model only
    where the theorems exclude it.  A loop that is not structural takes fuel,
    computed from the state it works on; the theorems that a routine returns
    show that the fuel is enough ([Spin] or [None] is not the outcome).

    ** Files

    - Prelude (this file): the monad, its lemmas and tactics ([minv], [mstep],
      [held_tac], [ztests]), integer wrapping.  Hoare: partial-correctness
      triples for [M].  Ring: rings with free-running counters, shared by
      pipes, UART, console and virtio queues.
    - Mem, CString, Riscv: memory, kernel/string.c, constants of
      kernel/riscv.h and kernel/memlayout.h.
    - Kalloc, Vm: kernel/kalloc.c and kernel/vm.c; VmSpec and VmProps relate
      page tables to maps from virtual pages to entries; Copy: copyin and
      copyout.
    - Spinlock, Sleeplock: kernel/spinlock.c and kernel/sleeplock.c; the first
      also as steps of all CPUs.
    - Pipe, Uart, Console: kernel/pipe.c, kernel/uart.c, kernel/console.c.
    - Bio, BioSpec: kernel/bio.c.  Log is kernel/log.c against the class
      [BlockOps] of block operations, whose laws are the class [BlockCache]
      that BioSpec discharges; LogSpec, LogProps, LogOps hold its theorems.
    - Fs: kernel/fs.c; FsTxn, FsAlloc, FsFile, FsInode, FsRw hold the lemmas on
      transactions, bitmaps, block maps, inodes and reading and writing;
      FsProps, FsDir, FsTable the theorems on files, directories and the inode
      table.  File, FileProps: kernel/file.c and pipealloc.
    - Proc: kernel/proc.c; ProcSpec and ProcInv the invariant of the process
      table and a triple for every operation; ProcProps the theorems on single
      operations and the steps of proc.c; Wakeup sleep and wakeup as
      interleaved steps.
    - Virtio, VirtioProps: kernel/virtio_disk.c with processes, interrupts and
      a device that may report failures interleaved.
    - Printf: kernel/printf.c and procdump.
    - Syscall, Exec, Trap: kernel/syscall.c, sysproc.c, sysfile.c, exec.c and
      trap.c, with the interrupt handlers of the clock, the UART and the disk;
      SyscallProps, ExecProps their theorems.
    - Ulib: user/ulib.c and user/printf.c.  Umalloc, UmallocProps:
      user/umalloc.c.  Grep: user/grep.c.  PsTree: user/ps.c and
      user/pstree.c.  Sh: the parser of user/sh.c; ShRun: runcmd as the tree
      of system calls it makes, the processes that run such trees, and the
      tasks a command stands for; ShProc: the processes carry out the tasks;
      ShMain: the main loop.  Tools: the small programs (cat, wc, echo, ls, mkdir, rm, ln, kill, sleep) and main of
      grep against the classes [Sys] and [SysLaws] of the system calls they
      make.
    - Asm: a hart (registers, control and status registers, privilege mode,
      memory, address translation), the instructions the kernel's assembly
      uses, and the listings of entry.S, swtch.S, trampoline.S and
      kernelvec.S.  AsmProps: runs of saves and loads, the trampoline; Switch:
      swtch and kernelvec; Boot: start.c, main.c, the set-up in plic.c, kvminit
      and the timer; UserReturn: [usertrapret] of Trap and the trampoline on
      one machine.

    ** What the theorems show

    - Crash safety: whatever prefix of the disk writes of [commit] reached the
      disk, recovery leaves every block of the transaction old or every one new
      ([LogProps.crash_recovery]); admitted operations fit in the log
      ([LogOps.log_space_suffices], [FileProps.filewrite_turn_fits]).
    - Isolation: the kernel enters user space with the saved registers, and
      after any user code the next trap comes back to the kernel on its own
      page table and stack ([UserReturn.user_space_contained]).
    - The machine: context switches and interrupts of kernel code are
      transparent ([Switch]), so are timer interrupts, every hart reaches main
      with its own stack and clock, and every call of main comes after the
      calls it relies on, on whatever hart ([Boot]).
    - Memory: page-table operations refine updates of an abstract map
      ([VmProps]), user memory is read back as written ([Copy]), the page
      allocator is a stack ([Kalloc]).
    - Concurrency: mutual exclusion and the view of one CPU ([Spinlock]), no
      lost wakeup ([Wakeup]), exactly-once disk requests, and a panic of the
      driver only when the device has reported a failure ([VirtioProps]), fairness of the scheduler ([ProcProps]).
    - Processes: one invariant of the process table is kept from boot by every
      trap with the system call or the interrupt it serves, by every routine of
      proc.c and by the scheduler, on one CPU and for the pids an int can count
      ([SyscallProps]); fork, wait and kill on every branch ([ProcProps]); the
      argument stack of exec lies in its page ([ExecProps]).
    - Files: writei and readi on file contents, round trips of data and
      inodes, directory lookup and insertion, reference counts ([FsProps],
      [FsInode], [FsDir], [FsTable]); pipes as queues ([Pipe]); the cache
      returns current contents ([BioSpec]); line editing ([Console]).
    - User code: the allocator hands out blocks that are large enough and never
      overlap, and loses none ([UmallocProps]); the shell parses every line,
      keeps its words apart in the shared buffer, connects descriptors as the
      command means, and in every interleaving of its processes starts a
      program only after those it waits for have ended ([Sh], [ShRun],
      [ShProc], [ShMain]); grep decides its patterns ([Grep]); pstree prints
      each descendant once, in preorder and indented ([PsTree]); numbers are
      printed as their numerals and read back ([Ulib]); cat copies and wc
      counts whatever the sizes of the reads ([Tools]).

    ** Fuel and bounds

    Loops over tables and lists recurse on the table.  Page-table walks use
    the three levels; loops over pages the number of pages; copy loops the
    number of bytes; the driver's interrupt loop the 2^16 values of its
    counter; [free_chain] the number of descriptors; the user allocator the
    number of headers; the parser four calls for each character; [grep] and
    the main loop of the shell the length of their input; [cat], [wc] and [ls]
    take fuel that the theorems bound by the length of the file.

    ** Not modelled

    The RAM disk, which is not linked in and refers to fields struct buf no
    longer has; the test programs (usertests, grind, forktest, stressfs),
    which exercise the kernel from outside and have no logic of their own;
    init, zombie and pstest, which only fork, wait and sleep; accessors of
    control registers that nothing calls.
    In assembly the instructions of a listing are fetched through the page of
    its first instruction (each listing lies in one page) and nothing is
    cached, so sfence.vma has no effect.  Weak memory ordering is not
    modelled: steps of different CPUs interleave.  Spinlocks, sleep and
    wakeup, and main are modelled on all CPUs; the process table is driven by
    one.  In the sessions of the shell, fork, pipe, open, exec and chdir find
    the resources they need.  A disk request of the
    buffer cache is one atomic effect on the disk; [VirtioProps] shows that
    the driver carries out each request exactly once before it returns. *)

From stdpp Require Export base tactics option list list_numbers gmap strings numbers relations.
From Stdlib Require Export ZArith Lia.
#[global] Set Default Goal Selector "!".
#[global] Open Scope Z_scope.

(** ** Outcomes of kernel code

    A kernel routine either returns ([Ok]), calls [panic] ([Panic], with the
    message it prints), reaches a [sleep] that no step of this execution ends
    ([Blocked], with the channel), or spins for ever ([Spin]).  [world] pairs
    a component's state with the spinlocks the running thread holds. *)

Definition lockid : Type := string * Z.

Record world (S : Type) : Type := World { held : list lockid; st : S }.
Arguments World {S} _ _.
Arguments held {S} _.
Arguments st {S} _.

Inductive outcome (S A : Type) : Type :=
| Ok (a : A) (w : world S)
| Panic (msg : string)
| Blocked (chan : lockid)
| Spin.
Arguments Ok {S A} _ _.
Arguments Panic {S A} _.
Arguments Blocked {S A} _.
Arguments Spin {S A}.

Definition M (S A : Type) : Type := world S -> outcome S A.

#[export] Instance M_ret S : MRet (M S) := fun A a w => Ok a w.
#[export] Instance M_bind S : MBind (M S) := fun A B k m w =>
  match m w with
  | Ok a w' => k a w'
  | Panic msg => Panic msg
  | Blocked c => Blocked c
  | Spin => Spin
  end.

Definition panic {S A} (msg : string) : M S A := fun _ => Panic msg.
Definition spin {S A} : M S A := fun _ => Spin.
Definition gets {S A} (f : S -> A) : M S A := fun w => Ok (f (st w)) w.
Definition modify {S} (f : S -> S) : M S unit := fun w => Ok tt (World (held w) (f (st w))).
Definition when {S} (b : bool) (m : M S unit) : M S unit := if b then m else mret tt.

(** A component's routine run inside a larger state. *)
Definition zoom {S T A} (get : T -> S) (put : S -> T -> T) (m : M S A) : M T A :=
  fun w =>
    match m (World (held w) (get (st w))) with
    | Ok a w' => Ok a (World (held w') (put (st w') (st w)))
    | Panic msg => Panic msg
    | Blocked c => Blocked c
    | Spin => Spin
    end.

(** The thread's view of a spinlock: the set of locks it holds.  [Spinlock]
    proves that the per-CPU implementation gives exactly this view. *)
Definition drop_lock (lk : lockid) (h : list lockid) : list lockid := filter (fun l => l <> lk) h.

Definition acquire {S} (lk : lockid) : M S unit := fun w =>
  if decide (lk ∈ held w) then Panic "acquire" else Ok tt (World (lk :: held w) (st w)).
Definition release {S} (lk : lockid) : M S unit := fun w =>
  if decide (lk ∈ held w) then Ok tt (World (drop_lock lk (held w)) (st w)) else Panic "release".

Definition initlock {S} (lk : lockid) : M S unit := fun w =>
  Ok tt (World (drop_lock lk (held w)) (st w)).

(** [sleep] when nothing in the execution under study wakes the sleeper. *)
Definition sleep {S A} (chan : lockid) : M S A := fun _ => Blocked chan.

Lemma filter_ne_notin {A} `{EqDecision A} (x : A) (l : list A) : x ∉ l -> filter (fun y => y <> x) l = l.
Proof.
  induction l as [|y l IH]; intros Hni; [done|]. apply not_elem_of_cons in Hni as [Hne Hni].
  rewrite filter_cons_True by congruence. f_equal. auto.
Qed.

Create HintDb held discriminated.

Section monad_lemmas.
Context {S : Type}.

Lemma bind_Ok {A B} (m : M S A) (k : A -> M S B) w b w'' :
  (m ≫= k) w = Ok b w'' <-> exists a w', m w = Ok a w' /\ k a w' = Ok b w''.
Proof.
  unfold mbind, M_bind. split.
  - destruct (m w) eqn:E; try discriminate. eauto.
  - intros (a & w' & -> & Hk). exact Hk.
Qed.

Lemma bind_run {A B} (m : M S A) (k : A -> M S B) w a w' :
  m w = Ok a w' -> (m ≫= k) w = k a w'.
Proof. unfold mbind, M_bind. by intros ->. Qed.

Lemma bind_panic {A B} (m : M S A) (k : A -> M S B) w msg :
  m w = Panic msg -> (m ≫= k) w = Panic msg.
Proof. unfold mbind, M_bind. by intros ->. Qed.

Lemma bind_assoc {A B C} (m : M S A) (f : A -> M S B) (g : B -> M S C) w :
  ((m ≫= f) ≫= g) w = (m ≫= (fun a => f a ≫= g)) w.
Proof. unfold mbind, M_bind. by destruct (m w). Qed.

Lemma bind_ext {A B} (m : M S A) (f g : A -> M S B) w :
  (forall a w', f a w' = g a w') -> (m ≫= f) w = (m ≫= g) w.
Proof. intros E. unfold mbind, M_bind. by destruct (m w). Qed.

Lemma bind_ret_r (m : M S unit) w : (m ≫= (fun _ => mret tt)) w = m w.
Proof. unfold mbind, M_bind. destruct (m w) as [[] w'| | |]; done. Qed.

Lemma drop_lock_head lk h : lk ∉ h -> drop_lock lk (lk :: h) = h.
Proof. intros Hni. unfold drop_lock. rewrite filter_cons_False by naive_solver. by apply filter_ne_notin. Qed.

Lemma acquire_run {A} lk (k : unit -> M S A) h s :
  lk ∉ h -> (acquire lk ≫= k) (World h s) = k tt (World (lk :: h) s).
Proof. intros Hni. apply bind_run. unfold acquire. by rewrite decide_False. Qed.

Lemma release_run {A} lk (k : unit -> M S A) h s :
  lk ∉ h -> (release lk ≫= k) (World (lk :: h) s) = k tt (World h s).
Proof.
  intros Hni. apply bind_run. unfold release. cbn [held st].
  rewrite decide_True by (apply elem_of_cons; auto). by rewrite drop_lock_head.
Qed.

Lemma release_last lk h (s : S) :
  lk ∉ h -> release lk (World (lk :: h) s) = Ok tt (World h s).
Proof.
  intros Hni. unfold release. cbn [held st].
  rewrite decide_True by (apply elem_of_cons; auto). by rewrite drop_lock_head.
Qed.

Lemma gets_run {A B} (f : S -> A) (k : A -> M S B) h s :
  (gets f ≫= k) (World h s) = k (f s) (World h s).
Proof. done. Qed.

Lemma modify_run {B} (f : S -> S) (k : unit -> M S B) h s :
  (modify f ≫= k) (World h s) = k tt (World h (f s)).
Proof. done. Qed.

(** Routines that leave the set of held spinlocks as they found it, and
    routines that end the critical section of [lk]. *)
Definition held_same {A} (m : M S A) : Prop := forall w r w', m w = Ok r w' -> held w' = held w.
Definition leaves {A} (lk : lockid) (m : M S A) : Prop :=
  forall h s r w', lk ∉ h -> m (World (lk :: h) s) = Ok r w' -> held w' = h.

Lemma held_gets {A} (f : S -> A) : held_same (gets f).
Proof. intros w r w' E. by injection E as <- <-. Qed.
Lemma held_modify (f : S -> S) : held_same (modify f).
Proof. intros w r w' E. by injection E as _ <-. Qed.
Lemma held_ret {A} (a : A) : held_same (mret a).
Proof. intros w r w' E. by injection E as <- <-. Qed.
Lemma held_panic {A} msg : held_same (panic (A := A) msg).
Proof. done. Qed.
Lemma held_sleep {A} c : held_same (sleep (A := A) c).
Proof. done. Qed.
Lemma held_when b m : held_same m -> held_same (when b m).
Proof. destruct b; [done|intros _; apply held_ret]. Qed.
Lemma held_bind {A B} (m : M S A) (k : A -> M S B) : held_same m -> (forall a, held_same (k a)) -> held_same (m ≫= k).
Proof. intros Hm Hk w r w' E. apply bind_Ok in E as (a & w1 & E1 & E2). apply Hm in E1. apply Hk in E2. congruence. Qed.
Lemma held_acquire {A} lk (k : unit -> M S A) : leaves lk (k tt) -> held_same (acquire lk ≫= k).
Proof.
  intros Hk [h s] r w' E. apply bind_Ok in E as ([] & w1 & E1 & E2). unfold acquire in E1. cbn in E1.
  destruct (decide (lk ∈ h)); [done|]. injection E1 as <-. by eapply Hk.
Qed.
Lemma leaves_bind {A B} lk (m : M S A) (k : A -> M S B) : held_same m -> (forall a, leaves lk (k a)) -> leaves lk (m ≫= k).
Proof.
  intros Hm Hk h s r w' Hni E. apply bind_Ok in E as (a & [h1 s1] & E1 & E2). apply Hm in E1. cbn in E1. subst h1.
  by eapply Hk.
Qed.
Lemma leaves_release lk : leaves lk (release (S := S) lk).
Proof. intros h s r w' Hni E. rewrite release_last in E by done. by injection E as _ <-. Qed.
Lemma leaves_after {A} lk (k : unit -> M S A) : held_same (k tt) -> leaves lk (release lk ≫= k).
Proof. intros Hk h s r w' Hni E. rewrite release_run in E by done. by apply Hk in E. Qed.
Lemma leaves_panic {A} lk msg : leaves lk (panic (A := A) msg).
Proof. done. Qed.
Lemma leaves_sleep {A} lk c : leaves lk (sleep (A := A) c).
Proof. done. Qed.
End monad_lemmas.

#[export] Hint Resolve held_gets held_modify held_ret held_panic held_sleep leaves_release leaves_panic leaves_sleep : held.

(** Follows the statements of a routine that takes and releases spinlocks. *)
Ltac held_step :=
  lazymatch goal with
  | |- held_same (acquire _ ≫= _) => apply held_acquire; cbv beta
  | |- held_same (_ ≫= _) => apply held_bind; [|intros ?]
  | |- leaves ?lk (release ?lk ≫= _) => apply leaves_after; cbv beta
  | |- leaves _ (_ ≫= _) => apply leaves_bind; [|intros ?]
  | |- held_same (when _ _) => apply held_when
  | |- held_same (match ?x with _ => _ end) => destruct x
  | |- leaves _ (match ?x with _ => _ end) => destruct x
  end.
Ltac held_tac := repeat held_step; auto with held.

(** ** Proof automation for routines in [M] *)

Create HintDb xv6.

(** Decompose a successful run into the runs of its statements. *)
Ltac minv H :=
  let a := fresh "a" in let w := fresh "w" in let H1 := fresh "Hrun" in
  repeat (apply bind_Ok in H as (a & w & H1 & H);
          try (lazymatch type of H1 with
               | mret _ _ = _ => injection H1 as <- <-
               | gets _ _ = _ => unfold gets in H1; injection H1 as <- <-
               | modify _ _ = _ => unfold modify in H1; injection H1 as <- <-
               | panic _ _ = _ => discriminate H1
               end)).

(** One statement of a routine whose effect is known. *)
Ltac mstep :=
  first [ rewrite acquire_run by (simpl; auto with xv6)
        | rewrite release_run by (simpl; auto with xv6)
        | rewrite release_last by (simpl; auto with xv6)
        | rewrite gets_run
        | rewrite modify_run ].

(** Case analysis on the boolean tests of the source. *)
Ltac ztests :=
  repeat match goal with
         | |- context [Z.eqb ?x ?y] => destruct (Z.eqb_spec x y)
         | |- context [Z.ltb ?x ?y] => destruct (Z.ltb_spec x y)
         | |- context [Z.leb ?x ?y] => destruct (Z.leb_spec x y)
         end; cbn [negb andb orb].

(** ** Machine integers *)

Definition u8 (z : Z) : Z := z mod 2^8.
Definition u16 (z : Z) : Z := z mod 2^16.
Definition u32 (z : Z) : Z := z mod 2^32.
Definition u64 (z : Z) : Z := z mod 2^64.

(** The value of a [w]-bit pattern read as two's complement. *)
Definition signed (w z : Z) : Z :=
  let u := z mod 2^w in if u <? 2^(w-1) then u else u - 2^w.
Definition i8 : Z -> Z := signed 8.
Definition i16 : Z -> Z := signed 16.
Definition i32 : Z -> Z := signed 32.

(** C booleans of flag tests: [x & m] as a truth value. *)
Definition flag (x m : Z) : bool := negb (Z.land x m =? 0).

Lemma u32_range z : 0 <= u32 z < 2^32.
Proof. unfold u32. apply Z.mod_pos_bound. lia. Qed.
Lemma u64_range z : 0 <= u64 z < 2^64.
Proof. unfold u64. apply Z.mod_pos_bound. lia. Qed.
Lemma u8_range z : 0 <= u8 z < 256.
Proof. unfold u8. change 256 with (2^8). apply Z.mod_pos_bound. lia. Qed.
Lemma u32_small z : 0 <= z < 2^32 -> u32 z = z.
Proof. intros. unfold u32. by apply Z.mod_small. Qed.
Lemma u64_small z : 0 <= z < 2^64 -> u64 z = z.
Proof. intros. unfold u64. by apply Z.mod_small. Qed.
Lemma u8_small z : 0 <= z < 2^8 -> u8 z = z.
Proof. intros. unfold u8. by apply Z.mod_small. Qed.
Lemma u16_small z : 0 <= z < 2^16 -> u16 z = z.
Proof. intros. unfold u16. by apply Z.mod_small. Qed.

Lemma signed_range w z : 0 < w -> - 2^(w-1) <= signed w z < 2^(w-1).
Proof.
  intros Hw. unfold signed.
  assert (2^w = 2 * 2^(w-1)) as Hp by (rewrite <- Z.pow_succ_r by lia; f_equal; lia).
  assert (0 < 2^(w-1)) by (apply Z.pow_pos_nonneg; lia).
  pose proof (Z.mod_pos_bound z (2^w) ltac:(lia)).
  destruct (Z.ltb_spec (z mod 2^w) (2^(w-1))); lia.
Qed.

Lemma signed_small w z : 0 < w -> - 2^(w-1) <= z < 2^(w-1) -> signed w z = z.
Proof.
  intros Hw Hz. unfold signed.
  assert (2^w = 2 * 2^(w-1)) as Hp by (rewrite <- Z.pow_succ_r by lia; f_equal; lia).
  assert (0 < 2^(w-1)) by (apply Z.pow_pos_nonneg; lia).
  destruct (decide (0 <= z)).
  - rewrite Z.mod_small by lia. destruct (Z.ltb_spec z (2^(w-1))); lia.
  - rewrite <- (Z.mod_unique z (2^w) (-1) (z + 2^w)) by lia.
    destruct (Z.ltb_spec (z + 2^w) (2^(w-1))); lia.
Qed.

#[export] Hint Resolve u8_range u32_range u64_range : xv6.

(** ** Lists *)

Lemma lookup_seqZ_nth (n : nat) m i : (i < n)%nat -> seqZ m (Z.of_nat n) !! i = Some (m + Z.of_nat i).
Proof. intros Hi. apply lookup_seqZ. lia. Qed.

(** [splice l n l']: the elements of [l'] written over [l] from index [n]. *)
Definition splice {A} (l : list A) (n : nat) (l' : list A) : list A :=
  take n l ++ l' ++ drop (n + length l') l.

Section splice.
Context {A : Type}.
Implicit Types l : list A.

Lemma length_splice l n l' : (n + length l' <= length l)%nat -> length (splice l n l') = length l.
Proof. intros. unfold splice. rewrite !length_app, length_take, length_drop. lia. Qed.

Lemma lookup_splice_old l n l' i :
  (n + length l' <= length l)%nat -> (i < n \/ n + length l' <= i)%nat ->
  splice l n l' !! i = l !! i.
Proof.
  intros Hlen Hi. unfold splice. destruct Hi as [Hi|Hi].
  - rewrite lookup_app_l by (rewrite length_take; lia). apply lookup_take_lt. lia.
  - rewrite !lookup_app_r; rewrite ?length_take; try lia.
    rewrite lookup_drop. f_equal. lia.
Qed.

Lemma lookup_splice_new l n l' i :
  (n + length l' <= length l)%nat -> (n <= i < n + length l')%nat ->
  splice l n l' !! i = l' !! (i - n)%nat.
Proof.
  intros Hlen Hi. unfold splice.
  rewrite lookup_app_r; rewrite length_take; [|lia].
  rewrite lookup_app_l by lia. f_equal. lia.
Qed.

Lemma splice_read l n l' :
  (n + length l' <= length l)%nat -> take (length l') (drop n (splice l n l')) = l'.
Proof.
  intros Hlen. unfold splice.
  rewrite drop_app_length' by (rewrite length_take; lia).
  by rewrite take_app_length.
Qed.
End splice.
