(* ===== verification/Mem.v ===== *)
(** * Byte-addressed memory

    The kernel's physical memory (and the address space of a user program) as
    a finite map from addresses to bytes, with the little-endian word accesses
    a RISC-V load or store performs. *)

From S2P Require Import Prelude.

Abbreviation mem := (gmap Z Z).

(** A load of an address that was never written reads 0. *)
Definition ld (m : mem) (a : Z) : Z := default 0 (m !! a).
Definition st8 (m : mem) (a v : Z) : mem := <[a := u8 v]> m.

Fixpoint ldn (m : mem) (a : Z) (n : nat) : list Z :=
  match n with
  | O => []
  | S n => ld m a :: ldn m (a + 1) n
  end.
Fixpoint stn (m : mem) (a : Z) (bs : list Z) : mem :=
  match bs with
  | [] => m
  | b :: bs => stn (st8 m a b) (a + 1) bs
  end.

(** Words of [n] bytes. *)
Definition ldw (n : nat) (m : mem) (a : Z) : Z := little_endian_to_Z 8 (ldn m a n).
Definition stw (n : nat) (m : mem) (a v : Z) : mem := stn m a (Z_to_little_endian (Z.of_nat n) 8 v).
Definition ld32 : mem -> Z -> Z := ldw 4.
Definition st32 : mem -> Z -> Z -> mem := stw 4.
Definition ld64 : mem -> Z -> Z := ldw 8.
Definition st64 : mem -> Z -> Z -> mem := stw 8.

(** Every cell holds a byte. *)
Definition bytes_ok (m : mem) : Prop := forall a, 0 <= ld m a < 256.

Definition inb (a n x : Z) : bool := (a <=? x) && (x <? a + n).

(** Two memories that agree outside [a, a+n). *)
Definition same_off (a n : Z) (m m' : mem) : Prop := forall x, inb a n x = false -> ld m' x = ld m x.

Lemma inb_true a n x : inb a n x = true <-> a <= x < a + n.
Proof. unfold inb. rewrite andb_true_iff, Z.leb_le, Z.ltb_lt. lia. Qed.
Lemma inb_false a n x : inb a n x = false <-> ~ (a <= x < a + n).
Proof. rewrite <- inb_true. by destruct (inb a n x). Qed.

Section loads_stores.
Implicit Types m : mem.

Lemma ld_st8 m a v x : ld (st8 m a v) x = if x =? a then u8 v else ld m x.
Proof.
  unfold ld, st8. destruct (Z.eqb_spec x a) as [->|Hne].
  - by rewrite lookup_insert_eq.
  - by rewrite lookup_insert_ne by congruence.
Qed.

Lemma ld_st8_eq m a v : ld (st8 m a v) a = u8 v.
Proof. rewrite ld_st8. by rewrite Z.eqb_refl. Qed.
Lemma ld_st8_ne m a v x : x <> a -> ld (st8 m a v) x = ld m x.
Proof. intros. rewrite ld_st8. by destruct (Z.eqb_spec x a). Qed.

Lemma length_ldn m a n : length (ldn m a n) = n.
Proof. revert a. induction n as [|n IH]; intros a; simpl; [done|]. by rewrite IH. Qed.

Lemma lookup_ldn m a n i : (i < n)%nat -> ldn m a n !! i = Some (ld m (a + Z.of_nat i)).
Proof.
  revert a i. induction n as [|n IH]; intros a i Hi; [lia|].
  destruct i as [|i]; simpl.
  - do 2 f_equal. lia.
  - rewrite IH by lia. do 2 f_equal. lia.
Qed.

Lemma ldn_ext m m' a n :
  (forall x, a <= x < a + Z.of_nat n -> ld m' x = ld m x) -> ldn m' a n = ldn m a n.
Proof.
  revert a. induction n as [|n IH]; intros a Heq; simpl; [done|].
  f_equal; [apply Heq; lia|]. apply IH. intros x Hx. apply Heq. lia.
Qed.

Lemma ld_stn_out m a bs x :
  ~ (a <= x < a + Z.of_nat (length bs)) -> ld (stn m a bs) x = ld m x.
Proof.
  revert m a. induction bs as [|b bs IH]; intros m a Hx; simpl in *; [done|].
  rewrite IH by lia. apply ld_st8_ne. lia.
Qed.

Lemma ld_stn_in m a bs (i : nat) b :
  bs !! i = Some b -> ld (stn m a bs) (a + Z.of_nat i) = u8 b.
Proof.
  revert m a i. induction bs as [|b' bs IH]; intros m a i Hi; [done|].
  destruct i as [|i]; simpl in *.
  - injection Hi as ->. rewrite ld_stn_out by lia. rewrite ?Z.add_0_r.
    replace (a + Z.of_nat 0) with a by lia. apply ld_st8_eq.
  - replace (a + Z.of_nat (S i)) with (a + 1 + Z.of_nat i) by lia. by apply IH.
Qed.

Lemma ldn_stn m a bs :
  Forall (fun b => 0 <= b < 256) bs -> ldn (stn m a bs) a (length bs) = bs.
Proof.
  intros Hb. apply list_eq. intros i.
  destruct (decide (i < length bs)%nat) as [Hi|Hi].
  - rewrite lookup_ldn by done.
    destruct (lookup_lt_is_Some_2 bs i Hi) as [b Hib]. rewrite Hib.
    rewrite (ld_stn_in _ _ _ _ b) by done. f_equal. apply u8_small.
    exact (proj1 (Forall_lookup _ _) Hb i b Hib).
  - rewrite !lookup_ge_None_2; rewrite ?length_ldn; [done|lia|lia].
Qed.

Lemma ldn_stn_out m a bs x n :
  (x + Z.of_nat n <= a \/ a + Z.of_nat (length bs) <= x) -> ldn (stn m a bs) x n = ldn m x n.
Proof. intros Hd. apply ldn_ext. intros y Hy. apply ld_stn_out. lia. Qed.

Lemma length_le (n : nat) v : length (Z_to_little_endian (Z.of_nat n) 8 v) = n.
Proof. apply Nat2Z.inj. rewrite length_Z_to_little_endian; lia. Qed.

Lemma ldw_stw n m a v : ldw n (stw n m a v) a = v mod 2 ^ (Z.of_nat n * 8).
Proof.
  unfold ldw, stw. pose proof (ldn_stn m a (Z_to_little_endian (Z.of_nat n) 8 v)) as E.
  rewrite length_le in E. rewrite E.
  - apply little_endian_to_Z_to_little_endian; lia.
  - apply (Z_to_little_endian_bound (Z.of_nat n) 8 v); lia.
Qed.

Lemma ldw_stw_out k n m a v x :
  (x + Z.of_nat k <= a \/ a + Z.of_nat n <= x) -> ldw k (stw n m a v) x = ldw k m x.
Proof. intros Hd. unfold ldw, stw. f_equal. apply ldn_stn_out. rewrite length_le. lia. Qed.

Lemma ld_stw_out n m a v x : ~ (a <= x < a + Z.of_nat n) -> ld (stw n m a v) x = ld m x.
Proof. intros Hd. unfold stw. apply ld_stn_out. rewrite length_le. lia. Qed.

Lemma ldw_ext n m m' a :
  (forall x, a <= x < a + Z.of_nat n -> ld m' x = ld m x) -> ldw n m' a = ldw n m a.
Proof. intros Heq. unfold ldw. f_equal. by apply ldn_ext. Qed.

Lemma ld64_st64 m a v : ld64 (st64 m a v) a = u64 v.
Proof. apply ldw_stw. Qed.
Lemma ld64_st64_out m a v x : (x + 8 <= a \/ a + 8 <= x) -> ld64 (st64 m a v) x = ld64 m x.
Proof. intros Hd. apply ldw_stw_out. lia. Qed.

Lemma bytes_ok_st8 m a v : bytes_ok m -> bytes_ok (st8 m a v).
Proof.
  intros Hm x. rewrite ld_st8. destruct (x =? a); [apply u8_range|apply Hm].
Qed.
Lemma bytes_ok_stn m a bs : bytes_ok m -> bytes_ok (stn m a bs).
Proof. revert m a. induction bs as [|b bs IH]; intros m a Hm; simpl; auto using bytes_ok_st8. Qed.
Lemma bytes_ok_stw n m a v : bytes_ok m -> bytes_ok (stw n m a v).
Proof. apply bytes_ok_stn. Qed.

Lemma bytes_ok_empty : bytes_ok ∅.
Proof. intros a. unfold ld. rewrite lookup_empty. simpl. lia. Qed.

Lemma ldn_bytes m a n : bytes_ok m -> Forall (fun b => 0 <= b < 256) (ldn m a n).
Proof.
  intros Hm. revert a. induction n as [|n IH]; intros a; simpl; constructor; auto.
Qed.

Lemma ldw_range n m a : bytes_ok m -> 0 <= ldw n m a < 2 ^ (Z.of_nat n * 8).
Proof.
  intros Hm. unfold ldw.
  pose proof (little_endian_to_Z_bound 8 (ldn m a n) ltac:(lia)) as Hb.
  rewrite length_ldn in Hb. apply Hb.
  by apply (ldn_bytes m a n).
Qed.

Lemma ld64_range m a : bytes_ok m -> 0 <= ld64 m a < 2 ^ 64.
Proof. apply ldw_range. Qed.

(** A zeroed word. *)
Lemma ld64_zero m a : (forall x, a <= x < a + 8 -> ld m x = 0) -> ld64 m a = 0.
Proof.
  intros Hz. unfold ld64, ldw. cbn [ldn].
  rewrite !Hz by lia. done.
Qed.

Lemma same_off_refl a n m : same_off a n m m.
Proof. by intros x. Qed.
Lemma same_off_trans a n m1 m2 m3 : same_off a n m1 m2 -> same_off a n m2 m3 -> same_off a n m1 m3.
Proof. intros H12 H23 x Hx. rewrite H23 by done. by apply H12. Qed.

Lemma same_off_ldw a n m m' (k : nat) x :
  same_off a n m m' -> (x + Z.of_nat k <= a \/ a + n <= x) -> ldw k m' x = ldw k m x.
Proof. intros Hs Hx. apply ldw_ext. intros y Hy. apply Hs. apply inb_false. lia. Qed.
End loads_stores.

#[export] Instance same_off_preorder a n : PreOrder (same_off a n).
Proof. split; [exact (same_off_refl a n)|exact (same_off_trans a n)]. Qed.

#[export] Hint Resolve bytes_ok_st8 bytes_ok_stn bytes_ok_stw bytes_ok_empty same_off_refl : xv6.

#[global] Opaque ldw stw.
