(* ===== verification/CString.v ===== *)
(** * kernel/string.c

    The kernel's memory and string routines, over [Mem.mem].  A pointer is an
    address; each routine returns the memory it leaves (the C functions return
    their first argument unchanged).  [char] is unsigned on RISC-V. *)

From S2P Require Import Prelude Mem.

Fixpoint memset_loop (m : mem) (cdst c i : Z) (k : nat) : mem :=
  match k with
  | O => m
  | S k => memset_loop (st8 m (cdst + i) c) cdst c (i + 1) k
  end.
Definition memset (m : mem) (dst c n : Z) : mem := memset_loop m dst c 0 (Z.to_nat n).

Fixpoint memcmp_loop (m : mem) (s1 s2 : Z) (n : nat) : Z :=
  match n with
  | O => 0
  | S n => if negb (ld m s1 =? ld m s2) then ld m s1 - ld m s2
           else memcmp_loop m (s1 + 1) (s2 + 1) n
  end.
Definition memcmp (m : mem) (v1 v2 n : Z) : Z := memcmp_loop m v1 v2 (Z.to_nat n).

(** [while(n-- > 0) *--d = *--s;] *)
Fixpoint memmove_down (m : mem) (d s : Z) (n : nat) : mem :=
  match n with
  | O => m
  | S n => memmove_down (st8 m (d - 1) (ld m (s - 1))) (d - 1) (s - 1) n
  end.
(** [while(n-- > 0) *d++ = *s++;] *)
Fixpoint memmove_up (m : mem) (d s : Z) (n : nat) : mem :=
  match n with
  | O => m
  | S n => memmove_up (st8 m d (ld m s)) (d + 1) (s + 1) n
  end.
Definition memmove (m : mem) (dst src n : Z) : mem :=
  if n =? 0 then m
  else if (src <? dst) && (dst <? src + n)
       then memmove_down m (dst + n) (src + n) (Z.to_nat n)
       else memmove_up m dst src (Z.to_nat n).

Definition memcpy (m : mem) (dst src n : Z) : mem := memmove m dst src n.

Fixpoint strncmp_loop (m : mem) (p q : Z) (n : nat) : Z :=
  match n with
  | O => 0
  | S n' => if negb (ld m p =? 0) && (ld m p =? ld m q)
            then strncmp_loop m (p + 1) (q + 1) n'
            else ld m p - ld m q
  end.
Definition strncmp (m : mem) (p q n : Z) : Z := strncmp_loop m p q (Z.to_nat n).

(** [while(n-- > 0) *s++ = 0;] *)
Fixpoint strncpy_fill (m : mem) (s : Z) (n : nat) : mem :=
  match n with
  | O => m
  | S n => strncpy_fill (st8 m s 0) (s + 1) n
  end.
(** [while(n-- > 0 && ( *s++ = *t++ ) != 0);] followed by the fill. *)
Fixpoint strncpy_copy (m : mem) (s t : Z) (n : nat) : mem :=
  match n with
  | O => m
  | S n => let c := ld m t in
           let m := st8 m s c in
           if negb (c =? 0) then strncpy_copy m (s + 1) (t + 1) n
           else strncpy_fill m (s + 1) n
  end.
Definition strncpy (m : mem) (s t n : Z) : mem := strncpy_copy m s t (Z.to_nat n).

(** [while(--n > 0 && ( *s++ = *t++ ) != 0); *s = 0;] with [k] = n-1. *)
Fixpoint safestrcpy_loop (m : mem) (s t : Z) (k : nat) : mem :=
  match k with
  | O => st8 m s 0
  | S k => let c := ld m t in
           let m := st8 m s c in
           if negb (c =? 0) then safestrcpy_loop m (s + 1) (t + 1) k
           else st8 m (s + 1) 0
  end.
Definition safestrcpy (m : mem) (s t n : Z) : mem :=
  if n <=? 0 then m else safestrcpy_loop m s t (Z.to_nat (n - 1)).

(** [for(n = 0; s[n]; n++);] with a bound on the number of iterations: [None]
    when no NUL is met within it. *)
Fixpoint strlen_loop (m : mem) (s n : Z) (fuel : nat) : option Z :=
  match fuel with
  | O => None
  | S fuel => if ld m (s + n) =? 0 then Some n else strlen_loop m s (n + 1) fuel
  end.
Definition strlen (m : mem) (s : Z) (fuel : nat) : option Z := strlen_loop m s 0 fuel.

(** ** Lemmas *)

Section cstring_lemmas.
Implicit Types m : mem.

Lemma ld_memset_loop m d c i k x :
  ld (memset_loop m d c i k) x = if inb (d + i) (Z.of_nat k) x then u8 c else ld m x.
Proof.
  revert m i. induction k as [|k IH]; intros m i; simpl memset_loop.
  - destruct (inb _ _ x) eqn:E; [apply inb_true in E; lia|done].
  - rewrite IH. rewrite ld_st8.
    destruct (inb (d + (i + 1)) (Z.of_nat k) x) eqn:E1, (inb (d + i) (Z.of_nat (S k)) x) eqn:E2,
      (Z.eqb_spec x (d + i)); try done; exfalso;
      rewrite ?inb_true, ?inb_false in *; lia.
Qed.

Lemma ld_memset m d c n x : ld (memset m d c n) x = if inb d n x then u8 c else ld m x.
Proof.
  unfold memset. rewrite ld_memset_loop.
  destruct (inb _ _ x) eqn:E1, (inb d n x) eqn:E2; try done; exfalso;
    rewrite ?inb_true, ?inb_false in *; lia.
Qed.

Lemma bytes_ok_memset m d c n : bytes_ok m -> bytes_ok (memset m d c n).
Proof. intros Hm x. rewrite ld_memset. destruct (inb d n x); [apply u8_range|apply Hm]. Qed.

Lemma same_off_memset m d c n : same_off d n m (memset m d c n).
Proof. intros x Hx. by rewrite ld_memset, Hx. Qed.

(** One pass of either copying loop, in the direction that is safe for the
    overlap at hand: what is read has not been overwritten yet. *)
Lemma ld_memmove_up m d s n x :
  bytes_ok m -> (d <= s \/ s + Z.of_nat n <= d) ->
  ld (memmove_up m d s n) x = if inb d (Z.of_nat n) x then ld m (s + (x - d)) else ld m x.
Proof.
  revert m d s. induction n as [|n IH]; intros m d s Hm Hov; simpl memmove_up.
  - destruct (inb _ _ x) eqn:E; [apply inb_true in E; lia|done].
  - rewrite IH by (auto with xv6; lia). rewrite !ld_st8, (u8_small (ld m s)) by apply Hm.
    destruct (inb (d + 1) (Z.of_nat n) x) eqn:E1, (inb d (Z.of_nat (S n)) x) eqn:E2;
      rewrite ?inb_true, ?inb_false in *; ztests; try lia; try done; f_equal; lia.
Qed.

Lemma ld_memmove_down m d s n x :
  bytes_ok m -> s <= d ->
  ld (memmove_down m d s n) x
  = if inb (d - Z.of_nat n) (Z.of_nat n) x then ld m (s + (x - d)) else ld m x.
Proof.
  revert m d s. induction n as [|n IH]; intros m d s Hm Hov; simpl memmove_down.
  - destruct (inb _ _ x) eqn:E; [apply inb_true in E; lia|done].
  - rewrite IH by (auto with xv6; lia). rewrite !ld_st8, (u8_small (ld m (s - 1))) by apply Hm.
    destruct (inb (d - 1 - Z.of_nat n) (Z.of_nat n) x) eqn:E1,
      (inb (d - Z.of_nat (S n)) (Z.of_nat (S n)) x) eqn:E2;
      rewrite ?inb_true, ?inb_false in *; ztests; try lia; try done; f_equal; lia.
Qed.

Lemma bytes_ok_memmove_up m d s n : bytes_ok m -> bytes_ok (memmove_up m d s n).
Proof. revert m d s. induction n as [|n IH]; intros; simpl; auto with xv6. Qed.
Lemma bytes_ok_memmove_down m d s n : bytes_ok m -> bytes_ok (memmove_down m d s n).
Proof. revert m d s. induction n as [|n IH]; intros; simpl; auto with xv6. Qed.
Lemma bytes_ok_memmove m d s n : bytes_ok m -> bytes_ok (memmove m d s n).
Proof.
  intros. unfold memmove.
  destruct (n =? 0), ((s <? d) && (d <? s + n)); auto using bytes_ok_memmove_up, bytes_ok_memmove_down.
Qed.

Lemma ld_memmove m d s n x :
  bytes_ok m -> 0 <= n -> ld (memmove m d s n) x = if inb d n x then ld m (s + (x - d)) else ld m x.
Proof.
  intros Hm Hn. unfold memmove.
  destruct (Z.eqb_spec n 0) as [->|Hn0].
  - destruct (inb d 0 x) eqn:E; [apply inb_true in E; lia|done].
  - destruct ((s <? d) && (d <? s + n)) eqn:E.
    + apply andb_true_iff in E as [E1 E2]. apply Z.ltb_lt in E1, E2.
      rewrite ld_memmove_down by (auto; lia). rewrite Z2Nat.id by lia.
      replace (d + n - n) with d by lia. replace (s + n + (x - (d + n))) with (s + (x - d)) by lia. done.
    + apply andb_false_iff in E. rewrite !Z.ltb_ge in E.
      rewrite ld_memmove_up by (auto; lia). by rewrite Z2Nat.id by lia.
Qed.

Lemma same_off_memmove m d s n : bytes_ok m -> 0 <= n -> same_off d n m (memmove m d s n).
Proof. intros Hm Hn x Hx. by rewrite ld_memmove, Hx. Qed.

Lemma ld_strncpy_fill m s n x :
  ld (strncpy_fill m s n) x = if inb s (Z.of_nat n) x then 0 else ld m x.
Proof.
  revert m s. induction n as [|n IH]; intros m s; simpl strncpy_fill.
  - destruct (inb _ _ x) eqn:E; [apply inb_true in E; lia|done].
  - rewrite IH, ld_st8.
    destruct (inb (s + 1) (Z.of_nat n) x) eqn:E1, (inb s (Z.of_nat (S n)) x) eqn:E2,
      (Z.eqb_spec x s); try done; exfalso; rewrite ?inb_true, ?inb_false in *; lia.
Qed.
End cstring_lemmas.

(** The C string stored at an address: the bytes before the first NUL. *)
Fixpoint cstr_at (m : mem) (s : Z) (cs : list Z) : Prop :=
  match cs with
  | [] => ld m s = 0
  | c :: cs => c <> 0 /\ ld m s = c /\ cstr_at m (s + 1) cs
  end.

Lemma cstr_at_ext m m' s cs :
  (forall x, s <= x <= s + Z.of_nat (length cs) -> ld m' x = ld m x) -> cstr_at m s cs -> cstr_at m' s cs.
Proof.
  revert s. induction cs as [|c cs IH]; intros s Heq; simpl in *.
  - rewrite Heq by lia. done.
  - intros (Hc & Hs & Hr). rewrite Heq by lia. split_and!; [done..|].
    apply IH; [|done]. intros x Hx. apply Heq. lia.
Qed.

Lemma strlen_cstr m s cs n fuel :
  cstr_at m (s + n) cs -> (length cs < fuel)%nat ->
  strlen_loop m s n fuel = Some (n + Z.of_nat (length cs)).
Proof.
  revert n fuel. induction cs as [|c cs IH]; intros n fuel Hcs Hf; (destruct fuel as [|fuel]; [simpl in Hf; lia|]);
    simpl in *.
  - rewrite Hcs. simpl. f_equal. lia.
  - destruct Hcs as (Hc & Hs & Hr). rewrite Hs.
    destruct (Z.eqb_spec c 0); [done|].
    rewrite IH; [f_equal; lia| |lia]. by replace (s + (n + 1)) with (s + n + 1) by lia.
Qed.

(** The bytes [strncpy(s, t, n)] leaves when [t] is the string [cs]. *)
Definition padded (cs : list Z) (n : nat) : list Z := take n (cs ++ replicate n 0).

Lemma length_padded cs n : length (padded cs n) = n.
Proof. unfold padded. rewrite length_take, length_app, length_replicate. lia. Qed.

Lemma ldn_fill m s n : ldn (strncpy_fill m s n) s n = replicate n 0.
Proof.
  apply list_eq. intros i. destruct (decide (i < n)%nat) as [Hi|Hi].
  - rewrite lookup_ldn, lookup_replicate_2 by lia. f_equal. rewrite ld_strncpy_fill.
    destruct (inb s (Z.of_nat n) _) eqn:E; [done|]. apply inb_false in E. lia.
  - rewrite !lookup_ge_None_2; rewrite ?length_ldn, ?length_replicate; [done|lia|lia].
Qed.

Lemma strncpy_copy_out m s t n x : ~ (s <= x < s + Z.of_nat n) -> ld (strncpy_copy m s t n) x = ld m x.
Proof.
  revert m s t. induction n as [|n IH]; intros m s t Hx; simpl; [done|].
  destruct (negb (ld m t =? 0)).
  - rewrite IH by lia. apply ld_st8_ne. lia.
  - rewrite ld_strncpy_fill. destruct (inb _ _ x) eqn:E; [apply inb_true in E; lia|].
    apply ld_st8_ne. lia.
Qed.

Lemma strncpy_copy_spec m s t n cs :
  bytes_ok m -> cstr_at m t cs ->
  (s + Z.of_nat n <= t \/ t + Z.of_nat (length cs) < s) ->
  ldn (strncpy_copy m s t n) s n = padded cs n.
Proof.
  revert m s t cs. induction n as [|n IH]; intros m s t cs Hm Hcs Hd; [done|].
  unfold padded. cbn [strncpy_copy ldn].
  destruct cs as [|c cs]; cbn [cstr_at length app take replicate] in *.
  - rewrite Hcs. cbn. rewrite ld_strncpy_fill. rewrite ldn_fill.
    replace (inb (s + 1) (Z.of_nat n) s) with false by (symmetry; apply inb_false; lia).
    rewrite ld_st8_eq. f_equal. by rewrite take_ge by (rewrite length_replicate; lia).
  - destruct Hcs as (Hc & Ht & Hr). rewrite Ht.
    destruct (Z.eqb_spec c 0); [done|]. cbn [negb].
    rewrite strncpy_copy_out by lia. rewrite ld_st8_eq, u8_small by (rewrite <- Ht; apply Hm).
    f_equal. rewrite (IH _ _ _ cs); [| auto with xv6 | | lia].
    + unfold padded. change (0 :: replicate n 0) with (replicate (S n) 0).
      rewrite !take_app, !take_replicate. do 2 f_equal. lia.
    + eapply cstr_at_ext; [|exact Hr]. intros x Hx. apply ld_st8_ne. lia.
Qed.

Lemma safestrcpy_loop_out m s t k x :
  ~ (s <= x <= s + Z.of_nat k) -> ld (safestrcpy_loop m s t k) x = ld m x.
Proof.
  revert m s t. induction k as [|k IH]; intros m s t Hx; simpl.
  - apply ld_st8_ne. lia.
  - destruct (negb (ld m t =? 0)).
    + rewrite IH by lia. apply ld_st8_ne. lia.
    + rewrite !ld_st8_ne by lia. done.
Qed.

Lemma safestrcpy_loop_spec m s t k cs :
  bytes_ok m -> cstr_at m t cs ->
  (s + Z.of_nat k < t \/ t + Z.of_nat (length cs) < s) ->
  cstr_at (safestrcpy_loop m s t k) s (take k cs).
Proof.
  revert m s t cs. induction k as [|k IH]; intros m s t cs Hm Hcs Hd; cbn [safestrcpy_loop].
  - cbn. apply ld_st8_eq.
  - destruct cs as [|c cs]; cbn [cstr_at length take] in *.
    + rewrite Hcs. cbn. rewrite ld_st8_ne by lia. apply ld_st8_eq.
    + destruct Hcs as (Hc & Ht & Hr). rewrite Ht. destruct (Z.eqb_spec c 0); [done|]. cbn [negb].
      split_and!; [done| |].
      * rewrite safestrcpy_loop_out by lia. rewrite ld_st8_eq, u8_small by (rewrite <- Ht; apply Hm). done.
      * apply IH; [auto with xv6| |lia].
        eapply cstr_at_ext; [|exact Hr]. intros x Hx. apply ld_st8_ne. lia.
Qed.

(** ** Theorems *)

(** [memmove] copies the [n] bytes that were at [src] to [dst] and changes
    nothing else, also when the two ranges overlap in either direction. *)
Theorem memmove_copies (m : mem) (dst src : Z) (n : nat) :
  bytes_ok m ->
  ldn (memmove m dst src (Z.of_nat n)) dst n = ldn m src n /\
  same_off dst (Z.of_nat n) m (memmove m dst src (Z.of_nat n)).
Proof.
  intros Hm. split; [|apply same_off_memmove; [done|lia]].
  apply list_eq. intros i. destruct (decide (i < n)%nat) as [Hi|Hi].
  - rewrite !lookup_ldn, ld_memmove by (done || lia).
    replace (inb dst (Z.of_nat n) (dst + Z.of_nat i)) with true by (symmetry; apply inb_true; lia).
    do 2 f_equal. lia.
  - rewrite !lookup_ge_None_2 by (rewrite length_ldn; lia). done.
Qed.

(** Four bytes moved up by one over themselves. *)
Definition demo_mem : mem := stn ∅ 100 [7; 8; 9; 10].
Lemma demo_mem_ok : bytes_ok demo_mem.
Proof. unfold demo_mem. cbn [stn]. repeat apply bytes_ok_st8. intros a. unfold ld. rewrite lookup_empty. cbn. lia. Qed.
Lemma memmove_copies_witness :
  ldn (memmove demo_mem 101 100 4) 101 4 = [7; 8; 9; 10] /\ same_off 101 4 demo_mem (memmove demo_mem 101 100 4).
Proof. exact (memmove_copies demo_mem 101 100 4 demo_mem_ok). Defined.

(** [safestrcpy(s, t, n)] with [n > 0] always leaves a NUL-terminated
    string at [s]: the string at [t] cut to [n-1] bytes; it writes only the
    [n] bytes at [s]. *)
Theorem safestrcpy_terminated (m : mem) (s t n : Z) (cs : list Z) :
  bytes_ok m -> 0 < n -> cstr_at m t cs ->
  s + n <= t \/ t + Z.of_nat (length cs) < s ->
  cstr_at (safestrcpy m s t n) s (take (Z.to_nat (n - 1)) cs) /\
  same_off s n m (safestrcpy m s t n).
Proof.
  intros Hm Hn Hcs Hd. unfold safestrcpy. destruct (Z.leb_spec n 0); [lia|]. split.
  - apply safestrcpy_loop_spec; [done|done|lia].
  - intros x Hx. apply inb_false in Hx. apply safestrcpy_loop_out. lia.
Qed.

Lemma safestrcpy_terminated_witness :
  cstr_at (safestrcpy demo_mem 200 100 3) 200 [7; 8] /\
  same_off 200 3 demo_mem (safestrcpy demo_mem 200 100 3).
Proof.
  apply (safestrcpy_terminated demo_mem 200 100 3 [7; 8; 9; 10]).
  - apply demo_mem_ok.
  - lia.
  - vm_compute. repeat split; discriminate.
  - right. simpl. lia.
Defined.

#[export] Hint Resolve bytes_ok_memset bytes_ok_memmove same_off_memset : xv6.
#[global] Opaque memset memmove.
