(* ===== verification/Ring.v ===== *)
(** * Ring buffers with free-running counters

    The pipe, the console's input line and the UART's transmit buffer are
    arrays of [N] bytes indexed by counters of [W] bits that are only ever
    incremented (or, for the console, decremented) and reduced modulo [N] at
    each access.  [contents d r w] is the queue between counters [r] and [w]. *)

From S2P Require Import Prelude.

Section ring.
Context (W N : Z).
Implicit Types (d : list Z) (r w c : Z).

Definition wrap (z : Z) : Z := z mod 2^W.
Definition count r w : Z := wrap (w - r).
Definition slot (k : Z) : nat := Z.to_nat (k mod N).
Definition peek d k : Z := default 0 (d !! slot k).
Definition poke d k c : list Z := <[slot k := c]> d.
Definition contents d r w : list Z := (fun k => peek d (r + k)) <$> seqZ 0 (count r w).

Context (HN : 0 < N) (HW : N < 2^W) (Hdiv : (N | 2^W)).

Lemma wrap_range z : 0 <= wrap z < 2^W.
Proof using HN HW. unfold wrap. apply Z.mod_pos_bound. lia. Qed.

Lemma wrap_mod z : wrap z mod N = z mod N.
Proof using HN HW Hdiv. unfold wrap. by apply Z.mod_mod_divide. Qed.

Lemma count_range r w : 0 <= count r w < 2^W.
Proof using HN HW. apply wrap_range. Qed.

Lemma wrap_shift a b k : wrap (wrap a - b + k) = wrap (a - b + k).
Proof using HN HW.
  unfold wrap. replace (a mod 2^W - b + k) with (a mod 2^W + (k - b)) by lia.
  rewrite Zplus_mod_idemp_l. f_equal. lia.
Qed.

Lemma count_same r : count r r = 0.
Proof. unfold count, wrap. by rewrite Z.sub_diag. Qed.
Lemma contents_same d r : contents d r r = [].
Proof. unfold contents. by rewrite count_same. Qed.

Lemma count_move r w k : 0 <= count r w + k < 2^W -> count r (wrap (w + k)) = count r w + k.
Proof using HN HW.
  intros Hk. unfold count in *. replace (wrap (w + k) - r) with (wrap (w + k) - r + 0) by lia.
  rewrite wrap_shift. unfold wrap at 1. unfold wrap in Hk |- *.
  replace (w + k - r + 0) with (w - r + k) by lia. rewrite <- Zplus_mod_idemp_l. by apply Z.mod_small.
Qed.

Lemma count_move_r r w k : 0 <= count r w - k < 2^W -> count (wrap (r + k)) w = count r w - k.
Proof using HN HW.
  intros Hk. unfold count, wrap in *.
  rewrite Zminus_mod_idemp_r. replace (w - (r + k)) with (w - r - k) by lia.
  rewrite <- Zminus_mod_idemp_l. by apply Z.mod_small.
Qed.

(** The tests the code makes on the counters. *)
Lemma empty_test r w : 0 <= r < 2^W -> 0 <= w < 2^W -> (r =? w) = (count r w =? 0).
Proof using HN HW.
  intros Hr Hw. apply eq_true_iff_eq. rewrite !Z.eqb_eq. unfold count, wrap. split.
  - intros ->. by rewrite Z.sub_diag.
  - intros E. destruct (decide (r <= w)); [rewrite Z.mod_small in E; lia|].
    rewrite <- (Z.mod_unique (w - r) (2^W) (-1) (w - r + 2^W)) in E; lia.
Qed.
Lemma full_test r w :
  0 <= r < 2^W -> 0 <= w < 2^W -> count r w <= N -> (w =? wrap (r + N)) = (count r w =? N).
Proof using HN HW.
  intros Hr Hw Hc. apply eq_true_iff_eq. rewrite !Z.eqb_eq. split.
  - intros ->. unfold count, wrap. rewrite Zminus_mod_idemp_l. replace (r + N - r) with N by lia.
    apply Z.mod_small. lia.
  - intros E. unfold count in E. rewrite <- E. unfold wrap. rewrite Zplus_mod_idemp_r.
    replace (r + (w - r)) with w by lia. symmetry. by apply Z.mod_small.
Qed.

Lemma slot_lt k : (slot k < Z.to_nat N)%nat.
Proof using HN. clear - HN. unfold slot. pose proof (Z.mod_pos_bound k N HN). lia. Qed.

Lemma slot_w r w : slot w = slot (r + count r w).
Proof using HN HW Hdiv.
  unfold slot. f_equal. unfold count.
  rewrite <- (Zplus_mod_idemp_r (wrap (w - r))), wrap_mod, Zplus_mod_idemp_r. f_equal. lia.
Qed.

Lemma slot_ne a b : a < b < a + N -> slot a <> slot b.
Proof using HN.
  clear - HN. intros Hab E. unfold slot in E. apply Z2Nat.inj in E; [|apply Z.mod_pos_bound; lia..].
  assert ((b - a) mod N = 0) as E0 by (rewrite Zminus_mod, E, Z.sub_diag; by apply Z.mod_0_l; lia).
  rewrite Z.mod_small in E0; lia.
Qed.

Lemma peek_poke d k c : length d = Z.to_nat N -> peek (poke d k c) k = c.
Proof using HN. intros Hl. unfold peek, poke. rewrite list_lookup_insert_eq; [done|]. rewrite Hl. apply slot_lt. Qed.
Lemma peek_poke_ne d k k' c : slot k <> slot k' -> peek (poke d k c) k' = peek d k'.
Proof. intros Hne. unfold peek, poke. by rewrite list_lookup_insert_ne. Qed.
Lemma length_poke d k c : length (poke d k c) = length d.
Proof. apply length_insert. Qed.

Lemma peek_slot d k k' : slot k = slot k' -> peek d k = peek d k'.
Proof. unfold peek. by intros ->. Qed.

Lemma seqZ_snoc m n : 0 <= n -> seqZ m (n + 1) = seqZ m n ++ [m + n].
Proof. intros Hn. rewrite seqZ_app by lia. f_equal. Qed.

Lemma length_contents d r w : length (contents d r w) = Z.to_nat (count r w).
Proof. unfold contents. by rewrite length_fmap, length_seqZ. Qed.

(** A store outside the queue leaves it. *)
Lemma contents_poke d r w k c :
  (forall j, 0 <= j < count r w -> slot k <> slot (r + j)) -> contents (poke d k c) r w = contents d r w.
Proof.
  intros Hne. unfold contents. apply list_fmap_ext. intros i j Hj. apply lookup_seqZ in Hj as [-> Hj].
  apply peek_poke_ne. apply Hne. lia.
Qed.

Lemma contents_snoc d r w : count r w + 1 < 2^W -> contents d r (wrap (w + 1)) = contents d r w ++ [peek d w].
Proof using HN HW Hdiv.
  intros Hc. pose proof (count_range r w) as Hr. unfold contents.
  rewrite count_move by lia. rewrite seqZ_snoc by lia. rewrite fmap_app. f_equal. cbn. f_equal.
  apply peek_slot. rewrite Z.add_0_l. symmetry. apply slot_w.
Qed.

Lemma contents_push d r w c :
  length d = Z.to_nat N -> count r w < N -> contents (poke d w c) r (wrap (w + 1)) = contents d r w ++ [c].
Proof using HN HW Hdiv.
  intros Hl Hc. rewrite contents_snoc, peek_poke by (done || lia). f_equal. apply contents_poke.
  intros j Hj. rewrite (slot_w r w). intros E. symmetry in E. revert E. apply slot_ne. lia.
Qed.

Lemma contents_pop d r w : 0 < count r w -> contents d r w = peek d r :: contents d (wrap (r + 1)) w.
Proof using HN HW Hdiv.
  intros Hc. pose proof (count_range r w) as Hr. unfold contents. rewrite count_move_r by lia.
  rewrite (seqZ_cons 0) by lia. cbn [fmap list_fmap]. rewrite Z.add_0_r. f_equal.
  change (Z.succ 0) with (1 + 0). replace (Z.pred (count r w)) with (count r w - 1) by lia.
  rewrite <- (fmap_add_seqZ 1 0), <- list_fmap_compose. apply list_fmap_ext. intros i k _.
  unfold compose. apply peek_slot. unfold slot. f_equal.
  rewrite <- (Zplus_mod_idemp_l (wrap (r + 1))), wrap_mod, Zplus_mod_idemp_l. f_equal. lia.
Qed.

(** Taking back the newest byte. *)
Lemma contents_unpush d r w :
  0 < count r w -> contents d r w = contents d r (wrap (w - 1)) ++ [peek d (w - 1)].
Proof using HN HW Hdiv.
  intros Hc. pose proof (count_range r w) as Hr. unfold contents.
  change (w - 1) with (w + -1). rewrite (count_move r w (-1)) by lia. replace (count r w) with (count r w + -1 + 1) at 1 by lia.
  rewrite seqZ_snoc by lia. rewrite fmap_app. f_equal. cbn. f_equal. apply peek_slot.
  rewrite Z.add_0_l. unfold slot. f_equal. unfold count.
  replace (r + (wrap (w - r) + -1)) with (wrap (w - r) + (r - 1)) by lia.
  rewrite <- (Zplus_mod_idemp_l (wrap (w - r))), wrap_mod, Zplus_mod_idemp_l. f_equal. lia.
Qed.

(** Two adjacent queues in one ring. *)
Lemma contents_split d r w e :
  count r w + count w e < 2^W -> contents d r w ++ contents d w e = contents d r e.
Proof using HN HW Hdiv.
  intros Hc. pose proof (count_range r w). pose proof (count_range w e).
  assert (count r e = count r w + count w e) as Hre.
  { unfold count, wrap in *. rewrite <- (Z.mod_small ((w - r) mod 2^W + (e - w) mod 2^W) (2^W)) by lia.
    rewrite <- Zplus_mod. f_equal. lia. }
  unfold contents. rewrite Hre, seqZ_app by lia. rewrite fmap_app. f_equal.
  replace (0 + count r w) with (count r w + 0) by lia.
  rewrite <- (fmap_add_seqZ (count r w) 0), <- list_fmap_compose. apply list_fmap_ext. intros i k _.
  unfold compose. apply peek_slot. unfold slot. f_equal.
  assert (w mod N = (r + count r w) mod N) as Hw.
  { unfold count. rewrite <- (Zplus_mod_idemp_r (wrap (w - r))), wrap_mod, Zplus_mod_idemp_r. f_equal. lia. }
  rewrite <- (Zplus_mod_idemp_l w k), Hw, Zplus_mod_idemp_l. f_equal. lia.
Qed.
End ring.
