(* ===== verification/Riscv.v ===== *)
(** * kernel/riscv.h, kernel/memlayout.h: pages, page-table entries, layout

    The Sv39 arithmetic of the kernel's macros on 64-bit values, and the
    facts about it that the page-table code relies on. *)

From S2P Require Import Prelude.

Definition PGSIZE : Z := 4096.
Definition PGSHIFT : Z := 12.

Definition PGROUNDUP (sz : Z) : Z := Z.land (u64 (sz + PGSIZE - 1)) (Z.lnot (PGSIZE - 1)).
Definition PGROUNDDOWN (a : Z) : Z := Z.land a (Z.lnot (PGSIZE - 1)).

Definition PTE_V : Z := Z.shiftl 1 0.
Definition PTE_R : Z := Z.shiftl 1 1.
Definition PTE_W : Z := Z.shiftl 1 2.
Definition PTE_X : Z := Z.shiftl 1 3.
Definition PTE_U : Z := Z.shiftl 1 4.

Definition PA2PTE (pa : Z) : Z := u64 (Z.shiftl (Z.shiftr pa 12) 10).
Definition PTE2PA (pte : Z) : Z := u64 (Z.shiftl (Z.shiftr pte 10) 12).
Definition PTE_FLAGS (pte : Z) : Z := Z.land pte 0x3FF.

Definition PXMASK : Z := 0x1FF.
Definition PXSHIFT (level : Z) : Z := PGSHIFT + 9 * level.
Definition PX (level va : Z) : Z := Z.land (Z.shiftr va (PXSHIFT level)) PXMASK.

Definition MAXVA : Z := Z.shiftl 1 (9 + 9 + 9 + 12 - 1).

Definition SATP_SV39 : Z := Z.shiftl 8 60.
Definition MAKE_SATP (pagetable : Z) : Z := Z.lor SATP_SV39 (Z.shiftr pagetable 12).

Definition KERNBASE : Z := 0x80000000.
Definition PHYSTOP : Z := KERNBASE + 128 * 1024 * 1024.
Definition TRAMPOLINE : Z := MAXVA - PGSIZE.
Definition KSTACK (p : Z) : Z := TRAMPOLINE - (p + 1) * 2 * PGSIZE.
Definition TRAPFRAME : Z := TRAMPOLINE - PGSIZE.

Ltac riscv_consts :=
  unfold PGROUNDUP, PGROUNDDOWN, PTE_FLAGS, PXSHIFT, PGSHIFT, PXMASK, MAXVA, TRAPFRAME, TRAMPOLINE,
    PHYSTOP, KERNBASE, PGSIZE in *.

(** ** Page rounding *)

Lemma land_lnot_ones x n : 0 <= n -> Z.land x (Z.lnot (Z.ones n)) = x - x mod 2^n.
Proof.
  intros Hn. rewrite <- Z.ldiff_land, Z.ldiff_ones_r, Z.shiftl_mul_pow2, Z.shiftr_div_pow2 by lia.
  pose proof (Z.div_mod x (2^n) ltac:(apply Z.pow_nonzero; lia)). lia.
Qed.

Lemma PGROUNDDOWN_eq a : PGROUNDDOWN a = a - a mod 4096.
Proof. unfold PGROUNDDOWN. change (PGSIZE - 1) with (Z.ones 12). by rewrite land_lnot_ones. Qed.

Lemma PGROUNDUP_eq sz :
  0 <= sz -> sz + 4095 < 2^64 -> PGROUNDUP sz = (sz + 4095) - (sz + 4095) mod 4096.
Proof.
  intros. unfold PGROUNDUP. change (PGSIZE - 1) with (Z.ones 12). rewrite land_lnot_ones by lia.
  unfold PGSIZE. rewrite u64_small by lia. change (2^12) with 4096. f_equal; [lia|f_equal; lia].
Qed.

Lemma PGROUNDDOWN_bounds a : PGROUNDDOWN a <= a < PGROUNDDOWN a + 4096 /\ PGROUNDDOWN a mod 4096 = 0.
Proof.
  rewrite PGROUNDDOWN_eq. pose proof (Z.mod_pos_bound a 4096 ltac:(lia)).
  split; [lia|]. rewrite Zminus_mod, Z.mod_mod by lia. by rewrite Z.sub_diag.
Qed.

Lemma PGROUNDUP_bounds sz :
  0 <= sz -> sz + 4095 < 2^64 ->
  sz <= PGROUNDUP sz < sz + 4096 /\ PGROUNDUP sz mod 4096 = 0.
Proof.
  intros. rewrite PGROUNDUP_eq by lia. pose proof (Z.mod_pos_bound (sz + 4095) 4096 ltac:(lia)).
  split; [lia|]. rewrite Zminus_mod, Z.mod_mod by lia. by rewrite Z.sub_diag.
Qed.

Lemma PGROUNDUP_aligned sz : 0 <= sz -> sz + 4095 < 2^64 -> sz mod 4096 = 0 -> PGROUNDUP sz = sz.
Proof. intros H1 H2 H3. pose proof (PGROUNDUP_bounds sz H1 H2) as [Hb Ha].
  Z.to_euclidean_division_equations. lia. Qed.

Lemma PGROUNDDOWN_aligned a : a mod 4096 = 0 -> PGROUNDDOWN a = a.
Proof. rewrite PGROUNDDOWN_eq. lia. Qed.

(** ** Page-table entries *)

Lemma PX_eq level va : 0 <= level -> PX level va = (va / 2 ^ (12 + 9 * level)) mod 512.
Proof.
  intros. unfold PX, PXSHIFT, PGSHIFT. change PXMASK with (Z.ones 9).
  rewrite Z.land_ones, Z.shiftr_div_pow2 by lia. done.
Qed.

Lemma PX_range level va : 0 <= PX level va < 512.
Proof.
  unfold PX. change PXMASK with (Z.ones 9). rewrite Z.land_ones by lia.
  apply Z.mod_pos_bound. lia.
Qed.

(** The three indices of a virtual address below [MAXVA] determine its page. *)
Lemma PX_decompose va :
  0 <= va < MAXVA -> PGROUNDDOWN va = (PX 2 va * 512 * 512 + PX 1 va * 512 + PX 0 va) * 4096.
Proof.
  intros Hva. rewrite PGROUNDDOWN_eq, !PX_eq by lia.
  change (12 + 9 * 2) with 30. change (12 + 9 * 1) with 21. change (12 + 9 * 0) with 12.
  change (2^30) with (4096 * 512 * 512). change (2^21) with (4096 * 512). change (2^12) with 4096.
  assert (va < 4096 * 512 * 512 * 512) by (change MAXVA with (2^38) in Hva; lia).
  rewrite <- !Z.div_div by lia. set (q := va / 4096).
  assert (0 <= q < 512 * 512 * 512) by (unfold q; split; [apply Z.div_pos; lia|apply Z.div_lt_upper_bound; lia]).
  rewrite (Z.mod_small (q / 512 / 512)).
  2:{ rewrite Z.div_div by lia. split; [apply Z.div_pos; lia|apply Z.div_lt_upper_bound; lia]. }
  pose proof (Z.div_mod va 4096 ltac:(lia)). pose proof (Z.div_mod q 512 ltac:(lia)).
  pose proof (Z.div_mod (q / 512) 512 ltac:(lia)). fold q in H1. lia.
Qed.

Lemma PX_inj va va' :
  0 <= va < MAXVA -> 0 <= va' < MAXVA ->
  PX 2 va = PX 2 va' -> PX 1 va = PX 1 va' -> PX 0 va = PX 0 va' -> PGROUNDDOWN va = PGROUNDDOWN va'.
Proof. intros. rewrite !PX_decompose by done. congruence. Qed.

Lemma PX_page level va : 0 <= level -> PX level (PGROUNDDOWN va) = PX level va.
Proof.
  intros. rewrite !PX_eq by lia. f_equal. rewrite PGROUNDDOWN_eq.
  rewrite Z.pow_add_r by lia. change (2^12) with 4096.
  rewrite <- !Z.div_div by (try apply Z.pow_nonzero; lia). f_equal.
  pose proof (Z.div_mod va 4096 ltac:(lia)). replace (va - va mod 4096) with (va / 4096 * 4096) by lia.
  apply Z.div_mul. lia.
Qed.

Lemma PA2PTE_eq pa : 0 <= pa < 2^56 -> PA2PTE pa = pa / 4096 * 1024.
Proof.
  intros. unfold PA2PTE. rewrite Z.shiftr_div_pow2, Z.shiftl_mul_pow2 by lia.
  change (2^12) with 4096. change (2^10) with 1024. apply u64_small.
  assert (0 <= pa / 4096 < 2^44) by (split; [apply Z.div_pos; lia|apply Z.div_lt_upper_bound; lia]). lia.
Qed.

(** A PTE built from an aligned physical address and ten bits of flags gives
    both back. *)
Lemma PTE_lor pa f :
  0 <= pa < 2^56 -> 0 <= f < 1024 -> Z.lor (PA2PTE pa) f = pa / 4096 * 1024 + f.
Proof.
  intros Hpa Hf. rewrite PA2PTE_eq by done.
  assert (Z.land (pa / 4096 * 1024) f = 0) as Hd.
  { change 1024 with (2^10). rewrite <- Z.shiftl_mul_pow2 by lia. apply Z.bits_inj'. intros n Hn.
    rewrite Z.land_spec, Z.bits_0. destruct (decide (n < 10)).
    - by rewrite Z.shiftl_spec_low.
    - rewrite (Z.bits_above_log2 f n); [apply andb_false_r|lia|].
      destruct (decide (f = 0)) as [->|]; [simpl; lia|]. apply Z.log2_lt_pow2; [lia|].
      assert (2^10 <= 2^n) by (apply Z.pow_le_mono_r; lia). lia. }
  pose proof (Z.add_lor_land (pa / 4096 * 1024) f) as E. rewrite Hd in E. lia.
Qed.

Lemma PTE2PA_lor pa f :
  0 <= pa < 2^56 -> pa mod 4096 = 0 -> 0 <= f < 1024 -> PTE2PA (Z.lor (PA2PTE pa) f) = pa.
Proof.
  intros Hpa Hal Hf. rewrite PTE_lor by done. unfold PTE2PA.
  rewrite Z.shiftr_div_pow2, Z.shiftl_mul_pow2 by lia. change (2^10) with 1024. change (2^12) with 4096.
  replace (pa / 4096 * 1024 + f) with (f + pa / 4096 * 1024) by lia.
  rewrite Z.div_add, (Z.div_small f) by lia. pose proof (Z.div_mod pa 4096 ltac:(lia)).
  rewrite u64_small; lia.
Qed.

Lemma PTE_FLAGS_lor pa f :
  0 <= pa < 2^56 -> 0 <= f < 1024 -> PTE_FLAGS (Z.lor (PA2PTE pa) f) = f.
Proof.
  intros Hpa Hf. rewrite PTE_lor by done. unfold PTE_FLAGS. change 0x3FF with (Z.ones 10).
  rewrite Z.land_ones by lia. change (2^10) with 1024.
  rewrite Z.add_comm, Z.mod_add by lia. by apply Z.mod_small.
Qed.

Lemma PTE2PA_aligned pte : PTE2PA pte mod 4096 = 0.
Proof.
  unfold PTE2PA, u64. rewrite Z.shiftl_mul_pow2 by lia.
  change (2^64) with (4096 * 2^52). rewrite Z.mul_comm at 1. change (2^12) with 4096.
  rewrite Z.mul_mod_distr_l by lia. rewrite Z.mul_comm. apply Z.mod_mul. lia.
Qed.

(** Flag bits of a PTE are flag bits of its [PTE_FLAGS]. *)
Lemma flag_FLAGS pte f : 0 <= f < 1024 -> flag (PTE_FLAGS pte) f = flag pte f.
Proof.
  intros Hf. unfold flag, PTE_FLAGS. do 2 f_equal. rewrite <- Z.land_assoc. f_equal.
  change 0x3FF with (Z.ones 10). rewrite Z.land_comm, Z.land_ones by lia. by apply Z.mod_small.
Qed.

Lemma flag_lor_pte pa f g :
  0 <= pa < 2^56 -> 0 <= f < 1024 -> 0 <= g < 1024 -> flag (Z.lor (PA2PTE pa) f) g = flag f g.
Proof. intros. rewrite <- flag_FLAGS by done. by rewrite PTE_FLAGS_lor. Qed.

Lemma flag_lor_r x g : 0 < g -> flag (Z.lor x g) g = true.
Proof.
  intros Hg. unfold flag. rewrite Z.land_comm, Z.lor_comm, Z.land_lor_distr_r, Z.land_diag.
  destruct (Z.eqb_spec (Z.lor g (Z.land g x)) 0) as [E|]; [|done].
  apply Z.lor_eq_0_iff in E as [-> _]. lia.
Qed.

Lemma lor_flags_range f g : 0 <= f < 1024 -> 0 <= g < 1024 -> 0 <= Z.lor f g < 1024.
Proof.
  intros Hf Hg. split; [apply Z.lor_nonneg; lia|].
  destruct (decide (Z.lor f g = 0)) as [->|Hne]; [lia|].
  assert (0 <= Z.lor f g) by (apply Z.lor_nonneg; lia).
  change 1024 with (2^10). apply Z.log2_lt_pow2; [lia|]. rewrite Z.log2_lor by lia.
  assert (forall x, 0 <= x < 1024 -> Z.log2 x < 10) as Hl.
  { intros x Hx. destruct (decide (x = 0)) as [->|]; [simpl; lia|]. apply Z.log2_lt_pow2; lia. }
  apply Z.max_lub_lt; auto.
Qed.

(** ** Layout *)

Lemma kstack_guard_gap p q :
  0 <= p < 64 -> 0 <= q < 64 -> p <> q ->
  KSTACK p + PGSIZE < KSTACK q \/ KSTACK q + PGSIZE < KSTACK p.
Proof. intros. unfold KSTACK, PGSIZE. lia. Qed.
