(* ===== verification/Kalloc.v ===== *)
(** * kernel/kalloc.c: the physical page allocator

    The free list is threaded through the free pages themselves: [r->next] is
    the first word of the page, in [Mem.mem].  [kmem_inv s ps] says that the
    list in memory is the stack [ps] of free pages; [kalloc] pops it and
    [kfree] pushes. *)

From S2P Require Import Prelude Mem CString Riscv.

(** Addresses fixed by kernel.ld when the kernel is linked. *)
Class Layout : Type := {
  kend : Z;            (* [end]: first address after the kernel *)
  etext : Z;           (* end of kernel code *)
  trampoline_pa : Z    (* physical address of trampoline.S *)
}.

(** What the kernel relies on about them: the kernel is linked inside RAM,
    and its text and the trampoline are page-aligned. *)
Class LayoutOk (L : Layout) : Prop := {
  kend_ram : KERNBASE < kend <= PHYSTOP;
  etext_ram : KERNBASE < etext <= kend /\ etext mod 4096 = 0;
  trampoline_ram : KERNBASE <= trampoline_pa < kend /\ trampoline_pa mod 4096 = 0
}.

(** Physical memory and [kmem.freelist] (0 is the null pointer). *)
Record kstate : Type := KState { kmem : mem; freelist : Z }.

Definition upd_mem (f : mem -> mem) (s : kstate) : kstate := KState (f (kmem s)) (freelist s).
Definition set_freelist (p : Z) (s : kstate) : kstate := KState (kmem s) p.

Definition kmem_lock : lockid := ("kmem"%string, 0).

Section kalloc.
Context {L : Layout}.

Definition kfree (pa : Z) : M kstate unit :=
  if negb (pa mod PGSIZE =? 0) || (pa <? kend) || (PHYSTOP <=? pa) then panic "kfree" else
  modify (upd_mem (fun m => memset m pa 1 PGSIZE));;   (* fill with junk *)
  acquire kmem_lock;;
  fl ← gets freelist;
  modify (upd_mem (fun m => st64 m pa fl));;           (* r->next = kmem.freelist *)
  modify (set_freelist pa);;
  release kmem_lock.

Definition kalloc : M kstate Z :=
  acquire kmem_lock;;
  r ← gets freelist;
  when (negb (r =? 0)) (modify (fun s => set_freelist (ld64 (kmem s) r) s));;
  release kmem_lock;;
  when (negb (r =? 0)) (modify (upd_mem (fun m => memset m r 5 PGSIZE)));;
  mret r.

Fixpoint freerange_loop (fuel : nat) (p pa_end : Z) : M kstate unit :=
  match fuel with
  | O => spin
  | S fuel => if p + PGSIZE <=? pa_end
              then kfree p;; freerange_loop fuel (p + PGSIZE) pa_end
              else mret tt
  end.
(** The loop advances by [PGSIZE] each time, so it makes at most
    [(pa_end - p) / PGSIZE] turns and one test more. *)
Definition freerange (pa_start pa_end : Z) : M kstate unit :=
  let p := PGROUNDUP pa_start in
  freerange_loop (Z.to_nat ((pa_end - p) / PGSIZE + 2)) p pa_end.

Definition kinit : M kstate unit := initlock kmem_lock;; freerange kend PHYSTOP.

End kalloc.

(** ** The free list as a stack of pages *)

Section kalloc_spec.
Context {L : Layout} {LO : LayoutOk L}.

Definition page_ok (p : Z) : Prop := p mod 4096 = 0 /\ kend <= p < PHYSTOP.
#[export] Instance page_ok_dec p : Decision (page_ok p).
Proof. unfold page_ok. apply _. Defined.

Fixpoint chain (m : mem) (p : Z) (ps : list Z) : Prop :=
  match ps with
  | [] => p = 0
  | q :: ps => p = q /\ chain m (ld64 m q) ps
  end.

Definition kmem_inv (s : kstate) (ps : list Z) : Prop :=
  bytes_ok (kmem s) /\ chain (kmem s) (freelist s) ps /\ NoDup ps /\ Forall page_ok ps.

Lemma page_ok_pos p : page_ok p -> 0 < p < 2^32.
Proof. intros [_ Hp]. pose proof (kend_ram (L:=L)). riscv_consts. lia. Qed.

Lemma page_disjoint p q : p mod 4096 = 0 -> q mod 4096 = 0 -> p <> q -> p + 4096 <= q \/ q + 4096 <= p.
Proof. intros. Z.to_euclidean_division_equations. lia. Qed.

Lemma chain_ext m m' p ps :
  (forall q, q ∈ ps -> ld64 m' q = ld64 m q) -> chain m p ps -> chain m' p ps.
Proof.
  revert p. induction ps as [|q ps IH]; intros p Heq; simpl; [done|].
  intros [-> Hc]. split; [done|]. rewrite Heq by (apply elem_of_cons; auto).
  apply IH; [|done]. intros q' Hq'. apply Heq. apply elem_of_cons. auto.
Qed.

(** A change confined to one page leaves the list through other pages. *)
Lemma chain_same_off m m' p fl ps :
  same_off p 4096 m m' -> p mod 4096 = 0 -> p ∉ ps -> Forall page_ok ps ->
  chain m fl ps -> chain m' fl ps.
Proof.
  intros Hs Hp Hni Hok. apply chain_ext. intros q Hq.
  apply (same_off_ldw p 4096 m m' 8); [done|].
  rewrite Forall_forall in Hok. destruct (Hok q Hq) as [Hq0 _].
  assert (q <> p) by naive_solver.
  destruct (page_disjoint p q); [done..|lia|lia].
Qed.

Lemma kfree_run pa h s :
  page_ok pa -> kmem_lock ∉ h ->
  kfree pa (World h s)
  = Ok tt (World h (KState (st64 (memset (kmem s) pa 1 PGSIZE) pa (freelist s)) pa)).
Proof.
  intros [Hal [Hlo Hhi]] Hh. unfold kfree. change PGSIZE with 4096 in *. rewrite Hal.
  destruct (Z.ltb_spec pa kend); [lia|]. destruct (Z.leb_spec PHYSTOP pa); [lia|]. cbn [negb orb Z.eqb].
  repeat mstep. done.
Qed.

Lemma kfree_bad pa w : ~ page_ok pa -> kfree pa w = Panic "kfree".
Proof.
  intros Hbad. unfold kfree. change PGSIZE with 4096.
  destruct (Z.eqb_spec (pa mod 4096) 0), (Z.ltb_spec pa kend), (Z.leb_spec PHYSTOP pa); try done.
  exfalso. apply Hbad. unfold page_ok. lia.
Qed.

Lemma kalloc_run h s :
  kmem_lock ∉ h ->
  kalloc (World h s) =
  Ok (freelist s) (World h (if freelist s =? 0 then s
                            else KState (memset (kmem s) (freelist s) 5 PGSIZE) (ld64 (kmem s) (freelist s)))).
Proof.
  intros Hh. unfold kalloc. repeat mstep. unfold when.
  destruct (Z.eqb_spec (freelist s) 0) as [E|E]; cbn [negb].
  - rewrite (bind_run (mret tt) _ _ tt (World (kmem_lock :: h) s)) by done. by mstep.
  - repeat mstep. done.
Qed.

Lemma kmem_inv_push s ps p :
  kmem_inv s ps -> page_ok p -> p ∉ ps ->
  kmem_inv (KState (st64 (memset (kmem s) p 1 PGSIZE) p (freelist s)) p) (p :: ps) /\
  same_off p 4096 (kmem s) (st64 (memset (kmem s) p 1 PGSIZE) p (freelist s)).
Proof.
  intros (Hb & Hc & Hnd & Hok) Hp Hni.
  assert (same_off p 4096 (kmem s) (st64 (memset (kmem s) p 1 PGSIZE) p (freelist s))) as Hso.
  { etrans; [apply same_off_memset|]. intros x Hx. apply ld_stw_out.
    apply inb_false in Hx. lia. }
  split; [|done]. unfold kmem_inv. cbn [kmem freelist chain]. split_and!; auto with xv6.
  - apply bytes_ok_stw. auto with xv6.
  - rewrite ld64_st64. rewrite u64_small.
    + eapply chain_same_off; [done|apply Hp|done..].
    + destruct ps as [|q ps]; simpl in Hc; [subst; lia|]. destruct Hc as [-> _].
      apply Forall_cons in Hok as [Hq _]. apply page_ok_pos in Hq. lia.
  - by constructor.
Qed.

Lemma kmem_inv_pop s p ps :
  kmem_inv s (p :: ps) ->
  freelist s = p /\
  kmem_inv (KState (memset (kmem s) p 5 PGSIZE) (ld64 (kmem s) p)) ps /\
  same_off p 4096 (kmem s) (memset (kmem s) p 5 PGSIZE).
Proof.
  intros (Hb & [Hf Hc] & Hnd & Hok). apply NoDup_cons in Hnd as [Hni Hnd].
  apply Forall_cons in Hok as [Hp Hok]. split; [done|]. split; [|apply same_off_memset].
  unfold kmem_inv. cbn [kmem freelist]. split_and!; auto with xv6.
  eapply chain_same_off; [apply same_off_memset|apply Hp|done..].
Qed.

(** The pages [freerange] walks over, in order. *)
Definition pages_from (p : Z) (n : nat) : list Z := (fun i => p + 4096 * i) <$> seqZ 0 (Z.of_nat n).

Lemma pages_from_S p n : pages_from p (S n) = p :: pages_from (p + 4096) n.
Proof.
  unfold pages_from. rewrite Nat2Z.inj_succ, seqZ_cons by lia. cbn [fmap list_fmap].
  f_equal; [lia|]. replace (Z.pred (Z.succ (Z.of_nat n))) with (Z.of_nat n) by lia.
  change (Z.succ 0) with (1 + 0).
  rewrite <- (fmap_add_seqZ 1 0 (Z.of_nat n)), <- list_fmap_compose.
  apply list_fmap_ext. intros i x _. unfold compose. lia.
Qed.

Lemma elem_of_pages_from p n q :
  q ∈ pages_from p n <-> exists i, 0 <= i < Z.of_nat n /\ q = p + 4096 * i.
Proof.
  unfold pages_from. rewrite list_elem_of_fmap. split.
  - intros (i & -> & Hi). apply elem_of_seqZ in Hi. exists i. split; [lia|done].
  - intros (i & Hi & ->). exists i. split; [done|]. apply elem_of_seqZ. lia.
Qed.

Lemma freerange_loop_spec n : forall fuel p pa_end h s ps,
  (n < fuel)%nat -> kmem_lock ∉ h -> kmem_inv s ps ->
  p + 4096 * Z.of_nat n <= pa_end < p + 4096 * Z.of_nat n + 4096 ->
  p mod 4096 = 0 -> kend <= p -> pa_end <= PHYSTOP ->
  (forall q, q ∈ pages_from p n -> q ∉ ps) ->
  exists s', freerange_loop fuel p pa_end (World h s) = Ok tt (World h s') /\
             kmem_inv s' (reverse (pages_from p n) ++ ps).
Proof.
  induction n as [|n IH]; intros fuel p pa_end h s ps Hf Hh Hinv Hend Hal Hlo Hhi Hfresh;
    (destruct fuel as [|fuel]; [lia|]); cbn [freerange_loop]; change PGSIZE with 4096.
  - destruct (Z.leb_spec (p + 4096) pa_end); [lia|]. exists s. split; [done|].
    change (kmem_inv s ps). done.
  - destruct (Z.leb_spec (p + 4096) pa_end); [|lia].
    assert (page_ok p) as Hp by (unfold page_ok; lia).
    rewrite pages_from_S in Hfresh |- *.
    assert (p ∉ ps) as Hnp by (apply Hfresh; apply elem_of_cons; auto).
    destruct (kmem_inv_push s ps p Hinv Hp Hnp) as [Hinv' _].
    rewrite (bind_run _ _ _ _ _ (kfree_run p h s Hp Hh)).
    destruct (IH fuel (p + 4096) pa_end h _ _ ltac:(lia) Hh Hinv') as (s' & Hrun & Hs'); try lia.
    + Z.to_euclidean_division_equations. lia.
    + intros q Hq. apply not_elem_of_cons. split.
      * apply elem_of_pages_from in Hq as (i & Hi & ->). lia.
      * apply Hfresh. apply elem_of_cons. auto.
    + exists s'. split; [exact Hrun|]. rewrite reverse_cons, <- (assoc_L (++)). done.
Qed.
End kalloc_spec.

(** ** Theorems *)

Section kalloc_theorems.
Context {L : Layout} {LO : LayoutOk L}.

(** [kalloc] refines popping the stack of free pages: it returns the top
    page, filled with the byte 5, and touches no other memory; on the empty
    stack it returns 0 and changes nothing. *)
Theorem kalloc_pops (h : list lockid) (s : kstate) (ps : list Z) :
  kmem_lock ∉ h -> kmem_inv s ps ->
  match ps with
  | [] => kalloc (World h s) = Ok 0 (World h s)
  | p :: ps' => exists s', kalloc (World h s) = Ok p (World h s') /\ kmem_inv s' ps' /\
                  (forall x, ld (kmem s') x = if inb p PGSIZE x then 5 else ld (kmem s) x)
  end.
Proof.
  intros Hh Hinv. rewrite kalloc_run by done. destruct ps as [|p ps].
  - destruct Hinv as (_ & -> & _). done.
  - destruct (kmem_inv_pop _ _ _ Hinv) as (-> & Hinv' & _).
    assert (page_ok p) as Hp by (destruct Hinv as (_ & _ & _ & Hok); by apply Forall_cons in Hok as [? _]).
    apply page_ok_pos in Hp. destruct (Z.eqb_spec p 0); [lia|].
    eexists. split; [done|]. split; [done|]. intros x. cbn [kmem]. by rewrite ld_memset.
Qed.

(** C8: [kfree] of a page that is not already free pushes it on the stack and
    touches no memory outside it; of an address that is unaligned, below
    [end] or above [PHYSTOP] it panics. *)
Theorem kfree_pushes (h : list lockid) (s : kstate) (ps : list Z) (p : Z) :
  kmem_lock ∉ h -> kmem_inv s ps ->
  if decide (page_ok p)
  then p ∉ ps -> exists s', kfree p (World h s) = Ok tt (World h s') /\ kmem_inv s' (p :: ps) /\
                            same_off p PGSIZE (kmem s) (kmem s')
  else kfree p (World h s) = Panic "kfree".
Proof.
  intros Hh Hinv. destruct (decide (page_ok p)) as [Hp|Hp].
  - intros Hni. rewrite kfree_run by done. destruct (kmem_inv_push s ps p Hinv Hp Hni). eauto.
  - by apply kfree_bad.
Qed.

(** [kinit] returns with exactly the pages between [end], rounded up, and
    [PHYSTOP] on the free list, the highest one first. *)
Theorem kinit_frees_all (s : kstate) :
  bytes_ok (kmem s) -> freelist s = 0 ->
  exists s' n, kinit (World [] s) = Ok tt (World [] s') /\
    kmem_inv s' (reverse (pages_from (PGROUNDUP kend) n)) /\
    PGROUNDUP kend + 4096 * Z.of_nat n = PHYSTOP.
Proof.
  intros Hb Hf. pose proof (kend_ram (L:=L)) as Hk. change KERNBASE with 0x80000000 in Hk.
  change PHYSTOP with 0x88000000 in *.
  destruct (PGROUNDUP_bounds kend) as [Hr Ha]; [lia|lia|].
  set (p := PGROUNDUP kend) in *. set (n := Z.to_nat ((0x88000000 - p) / 4096)).
  assert (p + 4096 * Z.of_nat n = 0x88000000) as Hn.
  { subst n. clearbody p. clear - Hr Hk Ha. Z.to_euclidean_division_equations. lia. }
  destruct (freerange_loop_spec n (Z.to_nat ((0x88000000 - p) / 4096 + 2)) p 0x88000000 [] s [])
    as (s' & Hrun & Hinv'); [|set_solver|split_and!; [done|done|constructor|constructor]|lia|done|lia|done|set_solver|].
  { subst n. clearbody p. clear - Hr Hk Ha. Z.to_euclidean_division_equations. lia. }
  exists s', n. rewrite app_nil_r in Hinv'. auto.
Qed.
End kalloc_theorems.

(** A kernel linked so that eight pages of RAM are left, and the allocator
    after [kfree] of a list of them. *)
#[export] Instance demo_layout : Layout :=
  {| kend := 0x87ff8000; etext := 0x80008000; trampoline_pa := 0x80007000 |}.
#[export] Instance demo_layout_ok : LayoutOk demo_layout.
Proof. split; repeat split; vm_compute; congruence. Qed.

Fixpoint stack_pages (ps : list Z) : kstate :=
  match ps with
  | [] => KState ∅ 0
  | p :: ps => let s := stack_pages ps in KState (st64 (memset (kmem s) p 1 PGSIZE) p (freelist s)) p
  end.
Lemma stack_pages_inv {L : Layout} {LO : LayoutOk L} ps :
  NoDup ps -> Forall page_ok ps -> kmem_inv (stack_pages ps) ps.
Proof.
  induction ps as [|p ps IH]; intros Hnd Hok.
  - split_and!; [apply bytes_ok_empty|done|constructor|constructor].
  - apply NoDup_cons in Hnd as [Hni Hnd]. apply Forall_cons in Hok as [Hp Hok].
    apply (kmem_inv_push (stack_pages ps) ps p); auto.
Qed.

Definition demo_pages : list Z := [0x87ffc000; 0x87ffd000; 0x87ffe000; 0x87fff000].
Definition demo_kstate : kstate := stack_pages demo_pages.
Lemma demo_kstate_inv : kmem_inv demo_kstate demo_pages.
Proof.
  apply stack_pages_inv.
  - apply (bool_decide_unpack _). vm_compute. exact I.
  - apply (bool_decide_unpack _). vm_compute. exact I.
Qed.

Lemma kalloc_pops_witness :
  exists s', kalloc (World [] demo_kstate) = Ok 0x87ffc000 (World [] s') /\
    kmem_inv s' [0x87ffd000; 0x87ffe000; 0x87fff000] /\
    (forall x, ld (kmem s') x = if inb 0x87ffc000 PGSIZE x then 5 else ld (kmem demo_kstate) x).
Proof. exact (kalloc_pops [] demo_kstate demo_pages (not_elem_of_nil _) demo_kstate_inv). Defined.

Lemma kfree_pushes_witness :
  exists s', kfree 0x87ff9000 (World [] demo_kstate) = Ok tt (World [] s') /\
    kmem_inv s' (0x87ff9000 :: demo_pages) /\ same_off 0x87ff9000 PGSIZE (kmem demo_kstate) (kmem s').
Proof.
  pose proof (kfree_pushes [] demo_kstate demo_pages 0x87ff9000 (not_elem_of_nil _) demo_kstate_inv) as H.
  rewrite decide_True in H by (split; [reflexivity|vm_compute; split; congruence]).
  apply H. apply (bool_decide_unpack _). vm_compute. exact I.
Defined.

Lemma kinit_frees_all_witness :
  exists s' n, kinit (World [] (KState ∅ 0)) = Ok tt (World [] s') /\
    kmem_inv s' (reverse (pages_from (PGROUNDUP kend) n)) /\ PGROUNDUP kend + 4096 * Z.of_nat n = PHYSTOP.
Proof. exact (kinit_frees_all (KState ∅ 0) bytes_ok_empty eq_refl). Defined.
