(* ===== verification/Vm.v ===== *)
(** * kernel/vm.c: page tables and user memory

    A page table is the physical address of its root page; a [pte_t *] is the
    physical address of the entry.  Page-table pages, user pages and the free
    list all live in the memory of [Kalloc.kstate].  0 is the null pointer,
    and [int] results are 0 / -1 as in the source.  A kernel buffer that the
    source passes by pointer ([src] of [copyout], [dst] of [copyin]) is the
    list of its bytes. *)

From S2P Require Import Prelude Mem CString Riscv Kalloc.

Definition load_pte (a : Z) : M kstate Z := gets (fun s => ld64 (kmem s) a).
Definition store_pte (a v : Z) : M kstate unit := modify (upd_mem (fun m => st64 m a v)).

Section vm.
Context {L : Layout}.

(** [for(int level = 2; level > 0; level--)] of [walk], [level] = number of
    levels still to descend. *)
Fixpoint walk_loop (level : nat) (pagetable va : Z) (alloc : bool) : M kstate Z :=
  match level with
  | O => mret (pagetable + 8 * PX 0 va)
  | S l =>
      let ptep := pagetable + 8 * PX (Z.of_nat level) va in
      pte ← load_pte ptep;
      if flag pte PTE_V then walk_loop l (PTE2PA pte) va alloc
      else if negb alloc then mret 0
      else
        child ← kalloc;
        if child =? 0 then mret 0 else
        modify (upd_mem (fun m => memset m child 0 PGSIZE));;
        store_pte ptep (Z.lor (PA2PTE child) PTE_V);;
        walk_loop l child va alloc
  end.
Definition walk (pagetable va : Z) (alloc : bool) : M kstate Z :=
  if MAXVA <=? va then panic "walk" else walk_loop 2 pagetable va alloc.

Definition walkaddr (pagetable va : Z) : M kstate Z :=
  if MAXVA <=? va then mret 0 else
  ptep ← walk pagetable va false;
  if ptep =? 0 then mret 0 else
  pte ← load_pte ptep;
  if negb (flag pte PTE_V) then mret 0 else
  if negb (flag pte PTE_U) then mret 0 else
  mret (PTE2PA pte).

Fixpoint mappages_loop (fuel : nat) (pagetable a last pa perm : Z) : M kstate Z :=
  match fuel with
  | O => spin
  | S fuel =>
      ptep ← walk pagetable a true;
      if ptep =? 0 then mret (-1) else
      pte ← load_pte ptep;
      if flag pte PTE_V then panic "mappages: remap" else
      store_pte ptep (Z.lor (Z.lor (PA2PTE pa) perm) PTE_V);;
      if a =? last then mret 0
      else mappages_loop fuel pagetable (u64 (a + PGSIZE)) last (u64 (pa + PGSIZE)) perm
  end.
(** [a] reaches [last] after [(last - a) / PGSIZE] turns; when [last] lies
    below [a] (the range wrapped around) the walk panics at [MAXVA]. *)
Definition mappages (pagetable va size pa perm : Z) : M kstate Z :=
  if size =? 0 then panic "mappages: size" else
  let a := PGROUNDDOWN va in
  let last := PGROUNDDOWN (u64 (va + size - 1)) in
  let turns := if a <=? last then (last - a) / PGSIZE else (MAXVA - a) / PGSIZE in
  mappages_loop (S (S (Z.to_nat turns))) pagetable a last pa perm.

Definition kvmmap (kpgtbl va pa sz perm : Z) : M kstate unit :=
  r ← mappages kpgtbl va sz pa perm;
  if negb (r =? 0) then panic "kvmmap" else mret tt.

Fixpoint uvmunmap_loop (fuel : nat) (pagetable a end_ : Z) (do_free : bool) : M kstate unit :=
  match fuel with
  | O => spin
  | S fuel =>
      if negb (a <? end_) then mret tt else
      ptep ← walk pagetable a false;
      if ptep =? 0 then panic "uvmunmap: walk" else
      pte ← load_pte ptep;
      if negb (flag pte PTE_V) then panic "uvmunmap: not mapped" else
      if PTE_FLAGS pte =? PTE_V then panic "uvmunmap: not a leaf" else
      (if do_free then kfree (PTE2PA pte) else mret tt);;
      store_pte ptep 0;;
      uvmunmap_loop fuel pagetable (a + PGSIZE) end_ do_free
  end.
Definition uvmunmap (pagetable va npages : Z) (do_free : bool) : M kstate unit :=
  if negb (va mod PGSIZE =? 0) then panic "uvmunmap: not aligned" else
  uvmunmap_loop (S (Z.to_nat npages)) pagetable va (u64 (va + npages * PGSIZE)) do_free.

Definition uvmcreate : M kstate Z :=
  pagetable ← kalloc;
  if pagetable =? 0 then mret 0 else
  modify (upd_mem (fun m => memset m pagetable 0 PGSIZE));;
  mret pagetable.

Definition uvminit (pagetable src sz : Z) : M kstate unit :=
  if PGSIZE <=? sz then panic "inituvm: more than a page" else
  page ← kalloc;
  modify (upd_mem (fun m => memset m page 0 PGSIZE));;
  mappages pagetable 0 PGSIZE page (Z.lor (Z.lor (Z.lor PTE_W PTE_R) PTE_X) PTE_U);;
  modify (upd_mem (fun m => memmove m page src sz)).

Definition uvmdealloc (pagetable oldsz newsz : Z) : M kstate Z :=
  if oldsz <=? newsz then mret oldsz else
  (if PGROUNDUP newsz <? PGROUNDUP oldsz
   then let npages := i32 ((PGROUNDUP oldsz - PGROUNDUP newsz) / PGSIZE) in
        uvmunmap pagetable (PGROUNDUP newsz) (u64 npages) true
   else mret tt);;
  mret newsz.

Fixpoint uvmalloc_loop (fuel : nat) (pagetable a oldsz newsz : Z) : M kstate Z :=
  match fuel with
  | O => spin
  | S fuel =>
      if negb (a <? newsz) then mret newsz else
      page ← kalloc;
      if page =? 0 then uvmdealloc pagetable a oldsz;; mret 0 else
      modify (upd_mem (fun m => memset m page 0 PGSIZE));;
      r ← mappages pagetable a PGSIZE page (Z.lor (Z.lor (Z.lor PTE_W PTE_X) PTE_R) PTE_U);
      if negb (r =? 0) then kfree page;; uvmdealloc pagetable a oldsz;; mret 0 else
      uvmalloc_loop fuel pagetable (u64 (a + PGSIZE)) oldsz newsz
  end.
Definition uvmalloc (pagetable oldsz newsz : Z) : M kstate Z :=
  if newsz <? oldsz then mret oldsz else
  let oldsz := PGROUNDUP oldsz in
  uvmalloc_loop (S (Z.to_nat ((newsz - oldsz) / PGSIZE + 1))) pagetable oldsz oldsz newsz.

(** The 512 entries of one page-table page; [rec] frees a child table. *)
Fixpoint freewalk_entries (rec : Z -> M kstate unit) (pagetable : Z) (idxs : list Z) : M kstate unit :=
  match idxs with
  | [] => mret tt
  | i :: idxs =>
      pte ← load_pte (pagetable + 8 * i);
      (if flag pte PTE_V && negb (flag pte (Z.lor (Z.lor PTE_R PTE_W) PTE_X))
       then rec (PTE2PA pte);; store_pte (pagetable + 8 * i) 0
       else if flag pte PTE_V then panic "freewalk: leaf"
       else mret tt);;
      freewalk_entries rec pagetable idxs
  end.
(** [depth] bounds the nesting of the recursive calls: an Sv39 table has 3
    levels. *)
Fixpoint freewalk (depth : nat) (pagetable : Z) : M kstate unit :=
  match depth with
  | O => spin
  | S depth => freewalk_entries (freewalk depth) pagetable (seqZ 0 512);; kfree pagetable
  end.
Definition LEVELS : nat := 3.

Definition uvmfree (pagetable sz : Z) : M kstate unit :=
  when (0 <? sz) (uvmunmap pagetable 0 (PGROUNDUP sz / PGSIZE) true);;
  freewalk LEVELS pagetable.

Fixpoint uvmcopy_loop (fuel : nat) (old new i sz : Z) : M kstate Z :=
  match fuel with
  | O => spin
  | S fuel =>
      if negb (i <? sz) then mret 0 else
      ptep ← walk old i false;
      if ptep =? 0 then panic "uvmcopy: pte should exist" else
      pte ← load_pte ptep;
      if negb (flag pte PTE_V) then panic "uvmcopy: page not present" else
      let pa := PTE2PA pte in
      let flags := PTE_FLAGS pte in
      page ← kalloc;
      if page =? 0 then uvmunmap new 0 (i / PGSIZE) true;; mret (-1) else
      modify (upd_mem (fun m => memmove m page pa PGSIZE));;
      r ← mappages new i PGSIZE page flags;
      if negb (r =? 0) then kfree page;; uvmunmap new 0 (i / PGSIZE) true;; mret (-1) else
      uvmcopy_loop fuel old new (u64 (i + PGSIZE)) sz
  end.
Definition uvmcopy (old new sz : Z) : M kstate Z :=
  uvmcopy_loop (S (Z.to_nat (sz / PGSIZE + 1))) old new 0 sz.

Definition uvmclear (pagetable va : Z) : M kstate unit :=
  ptep ← walk pagetable va false;
  if ptep =? 0 then panic "uvmclear" else
  pte ← load_pte ptep;
  store_pte ptep (Z.land pte (Z.lnot PTE_U)).

(** Each turn copies at least one byte, so [len] + 1 turns are enough. *)
Fixpoint copyout_loop (fuel : nat) (pagetable dstva : Z) (src : list Z) : M kstate Z :=
  match fuel with
  | O => spin
  | S fuel =>
      let len := Z.of_nat (length src) in
      if negb (0 <? len) then mret 0 else
      let va0 := PGROUNDDOWN dstva in
      pa0 ← walkaddr pagetable va0;
      if pa0 =? 0 then mret (-1) else
      let n := Z.min (PGSIZE - (dstva - va0)) len in
      modify (upd_mem (fun m => stn m (pa0 + (dstva - va0)) (take (Z.to_nat n) src)));;
      copyout_loop fuel pagetable (u64 (va0 + PGSIZE)) (drop (Z.to_nat n) src)
  end.
Definition copyout (pagetable dstva : Z) (src : list Z) : M kstate Z :=
  copyout_loop (S (length src)) pagetable dstva src.

(** Returns the status and the bytes written to [dst]. *)
Fixpoint copyin_loop (fuel : nat) (pagetable srcva len : Z) (dst : list Z) : M kstate (Z * list Z) :=
  match fuel with
  | O => spin
  | S fuel =>
      if negb (0 <? len) then mret (0, dst) else
      let va0 := PGROUNDDOWN srcva in
      pa0 ← walkaddr pagetable va0;
      if pa0 =? 0 then mret (-1, dst) else
      let n := Z.min (PGSIZE - (srcva - va0)) len in
      bs ← gets (fun s => ldn (kmem s) (pa0 + (srcva - va0)) (Z.to_nat n));
      copyin_loop fuel pagetable (u64 (va0 + PGSIZE)) (len - n) (dst ++ bs)
  end.
Definition copyin (pagetable srcva len : Z) : M kstate (Z * list Z) :=
  copyin_loop (S (Z.to_nat len)) pagetable srcva len [].

(** The inner loop of [copyinstr]: up to [n] bytes at [p], stopping at a NUL;
    returns the bytes copied (the NUL included) and [got_null]. *)
Fixpoint copyinstr_bytes (m : mem) (p : Z) (n : nat) : list Z * bool :=
  match n with
  | O => ([], false)
  | S n => if ld m p =? 0 then ([0], true)
           else let '(bs, got_null) := copyinstr_bytes m (p + 1) n in (ld m p :: bs, got_null)
  end.
Fixpoint copyinstr_loop (fuel : nat) (pagetable srcva max : Z) (dst : list Z) : M kstate (Z * list Z) :=
  match fuel with
  | O => spin
  | S fuel =>
      if negb (0 <? max) then mret (-1, dst) else
      let va0 := PGROUNDDOWN srcva in
      pa0 ← walkaddr pagetable va0;
      if pa0 =? 0 then mret (-1, dst) else
      let n := Z.min (PGSIZE - (srcva - va0)) max in
      r ← gets (fun s => copyinstr_bytes (kmem s) (pa0 + (srcva - va0)) (Z.to_nat n));
      let '(bs, got_null) := r in
      if got_null : bool then mret (0, dst ++ bs)
      else copyinstr_loop fuel pagetable (u64 (va0 + PGSIZE)) (max - n) (dst ++ bs)
  end.
Definition copyinstr (pagetable srcva max : Z) : M kstate (Z * list Z) :=
  copyinstr_loop (S (Z.to_nat max)) pagetable srcva max [].

(** Kernel address space (kernel/proc.c:proc_mapstacks, kernel/vm.c:kvmmake). *)
Definition NPROC : Z := 64.

Fixpoint proc_mapstacks_loop (kpgtbl : Z) (ps : list Z) : M kstate unit :=
  match ps with
  | [] => mret tt
  | p :: ps =>
      pa ← kalloc;
      if pa =? 0 then panic "kalloc" else
      kvmmap kpgtbl (KSTACK p) pa PGSIZE (Z.lor PTE_R PTE_W);;
      proc_mapstacks_loop kpgtbl ps
  end.
Definition proc_mapstacks (kpgtbl : Z) : M kstate unit := proc_mapstacks_loop kpgtbl (seqZ 0 NPROC).

Definition UART0 : Z := 0x10000000.
Definition VIRTIO0 : Z := 0x10001000.
Definition PLIC : Z := 0x0c000000.

Definition kvmmake : M kstate Z :=
  kpgtbl ← kalloc;
  modify (upd_mem (fun m => memset m kpgtbl 0 PGSIZE));;
  kvmmap kpgtbl UART0 UART0 PGSIZE (Z.lor PTE_R PTE_W);;
  kvmmap kpgtbl VIRTIO0 VIRTIO0 PGSIZE (Z.lor PTE_R PTE_W);;
  kvmmap kpgtbl PLIC PLIC 0x400000 (Z.lor PTE_R PTE_W);;
  kvmmap kpgtbl KERNBASE KERNBASE (etext - KERNBASE) (Z.lor PTE_R PTE_X);;
  kvmmap kpgtbl etext etext (PHYSTOP - etext) (Z.lor PTE_R PTE_W);;
  kvmmap kpgtbl TRAMPOLINE trampoline_pa PGSIZE (Z.lor PTE_R PTE_X);;
  proc_mapstacks kpgtbl;;
  mret kpgtbl.

(** kernel/proc.c: copies to or from either a user address or a kernel one.
    A kernel address is a physical address, since the kernel maps RAM
    one to one. *)
Definition either_copyout (user_dst : bool) (pagetable dst : Z) (src : list Z) : M kstate Z :=
  if user_dst then copyout pagetable dst src
  else modify (upd_mem (fun m => stn m dst src));; mret 0.
Definition either_copyin (user_src : bool) (pagetable src len : Z) : M kstate (Z * list Z) :=
  if user_src then copyin pagetable src len
  else bs ← gets (fun s => ldn (kmem s) src (Z.to_nat len)); mret (0, bs).

End vm.
