(* ===== verification/VmSpec.v ===== *)
(** * Page tables refine a map from virtual pages to entries

    [pte_of m root va] reads the three-level table at [root] in memory [m] as
    a function from virtual addresses to entries (0 where no table page
    exists).  [pt_inv] is the well-formedness of the radix tree in memory: its
    pages are the domain of [own], which records the path of indices leading
    to each page, so that no page is reachable along two paths.  The theorems
    give the effect of [walk], [mappages] and [uvmunmap] on that function. *)

From S2P Require Import Prelude Mem CString Riscv Kalloc Vm.

Section vmspec.
Context {L : Layout} {LO : LayoutOk L}.
Implicit Types (m : mem) (own : gmap Z (list Z)).

Record pt_inv m (root : Z) own : Prop := {
  pt_root : own !! root = Some [];
  pt_page : forall p path, own !! p = Some path -> page_ok p /\ (length path <= 2)%nat;
  pt_child : forall p path i, own !! p = Some path -> (length path < 2)%nat -> 0 <= i < 512 ->
    flag (ld64 m (p + 8 * i)) PTE_V = true -> own !! PTE2PA (ld64 m (p + 8 * i)) = Some (path ++ [i])
}.

(** [walk] without allocation, as a function. *)
Fixpoint walkp m (level : nat) (p va : Z) : option Z :=
  match level with
  | O => Some (p + 8 * PX 0 va)
  | S l => let pte := ld64 m (p + 8 * PX (Z.of_nat level) va) in
           if flag pte PTE_V then walkp m l (PTE2PA pte) va else None
  end.
Definition lookupv m (level : nat) (p va : Z) : Z :=
  match walkp m level p va with Some a => ld64 m a | None => 0 end.
Definition pte_of m (root va : Z) : Z := lookupv m 2 root va.

(** The path of the table page consulted with [level] levels to go. *)
Definition path_of (level : nat) (va : Z) : list Z :=
  match level with
  | O => [PX 2 va; PX 1 va]
  | 1%nat => [PX 2 va]
  | _ => []
  end.

Lemma path_of_S l va : (l <= 1)%nat -> path_of (S l) va ++ [PX (Z.of_nat (S l)) va] = path_of l va.
Proof. intros. destruct l as [|[|l]]; [done..|lia]. Qed.
Lemma length_path_of l va : (l <= 2)%nat -> length (path_of l va) = (2 - l)%nat.
Proof. intros. destruct l as [|[|[|l]]]; simpl; lia. Qed.

Lemma word_disjoint p q i j :
  p mod 4096 = 0 -> q mod 4096 = 0 -> 0 <= i < 512 -> 0 <= j < 512 -> (p <> q \/ i <> j) ->
  p + 8 * i + 8 <= q + 8 * j \/ q + 8 * j + 8 <= p + 8 * i.
Proof.
  intros Hp Hq Hi Hj Hne. destruct (decide (p = q)) as [->|Hpq]; [lia|].
  destruct (page_disjoint p q Hp Hq Hpq); lia.
Qed.

Lemma pt_page_al m root own p path : pt_inv m root own -> own !! p = Some path -> p mod 4096 = 0.
Proof. intros Hpt Hp. destruct (pt_page _ _ _ Hpt p path Hp) as [[Ha _] _]. done. Qed.

(** The step from a table page to the child its entry points to. *)
Lemma own_child m root own p l va :
  pt_inv m root own -> (l <= 1)%nat -> own !! p = Some (path_of (S l) va) ->
  flag (ld64 m (p + 8 * PX (Z.of_nat (S l)) va)) PTE_V = true ->
  own !! PTE2PA (ld64 m (p + 8 * PX (Z.of_nat (S l)) va)) = Some (path_of l va).
Proof.
  intros Hpt Hl Hp Hv. rewrite <- path_of_S by done.
  eapply pt_child; [done..| |apply PX_range|done]. rewrite length_path_of; lia.
Qed.

Lemma walkp_own m root own l p va a :
  pt_inv m root own -> (l <= 2)%nat -> own !! p = Some (path_of l va) -> walkp m l p va = Some a ->
  exists q, a = q + 8 * PX 0 va /\ own !! q = Some (path_of 0 va).
Proof.
  intros Hpt. revert p. induction l as [|l IH]; intros p Hl Hp Hw.
  - injection Hw as <-. eauto.
  - cbn [walkp] in Hw. destruct (flag _ PTE_V) eqn:Hv; [|done].
    apply (IH (PTE2PA (ld64 m (p + 8 * PX (Z.of_nat (S l)) va)))); [lia| |done].
    apply (own_child m root own p l va); [done|lia|done|done].
Qed.

(** ** Tables that grow: what allocation inside [walk] may change *)

Record ext (root : Z) (s : kstate) (ps : list Z) own (s' : kstate) (ps' : list Z) own' : Prop := {
  ext_own : own ⊆ own';
  ext_free : exists used, ps = used ++ ps' /\ forall p, is_Some (own' !! p) <-> is_Some (own !! p) \/ p ∈ used;
  ext_ptes : forall va, 0 <= va < MAXVA -> pte_of (kmem s') root va = pte_of (kmem s) root va;
  ext_frame : forall q, q mod 4096 = 0 -> own' !! q = None ->
    forall x, q <= x < q + 4096 -> ld (kmem s') x = ld (kmem s) x;
  ext_int : forall q path i, own !! q = Some path -> (length path < 2)%nat -> 0 <= i < 512 ->
    flag (ld64 (kmem s) (q + 8 * i)) PTE_V = true -> ld64 (kmem s') (q + 8 * i) = ld64 (kmem s) (q + 8 * i)
}.

Definition vm_inv (s : kstate) (ps : list Z) (root : Z) own : Prop :=
  kmem_inv s ps /\ pt_inv (kmem s) root own /\ forall p, p ∈ ps -> own !! p = None.

Lemma ext_refl root s ps own : ext root s ps own s ps own.
Proof. split; [done| |done..]. exists []. split; [done|]. intros p. rewrite elem_of_nil. tauto. Qed.

Lemma ext_trans root s1 ps1 own1 s2 ps2 own2 s3 ps3 own3 :
  ext root s1 ps1 own1 s2 ps2 own2 -> ext root s2 ps2 own2 s3 ps3 own3 -> ext root s1 ps1 own1 s3 ps3 own3.
Proof.
  intros [Ho1 Hf1 Hp1 Hr1 Hi1] [Ho2 Hf2 Hp2 Hr2 Hi2]. split.
  - by etrans.
  - destruct Hf1 as (u1 & -> & H1), Hf2 as (u2 & -> & H2). exists (u1 ++ u2).
    split; [by rewrite (assoc_L (++))|]. intros p. rewrite H2, H1, elem_of_app. tauto.
  - intros va Hva. by rewrite Hp2, Hp1.
  - intros q Hq Hn x Hx. rewrite (Hr2 q) by done. apply (Hr1 q); [done| |done].
    eapply lookup_weaken_None; done.
  - intros q path i Hq Hl Hi Hv. pose proof (Hi1 q path i Hq Hl Hi Hv) as E.
    rewrite <- E. apply (Hi2 q path i); [by eapply lookup_weaken|done..|by rewrite E].
Qed.

Section attach.
Context (m : mem) (root : Z) (own : gmap Z (list Z)) (p i c : Z) (path : list Z).
Context (Hpt : pt_inv m root own) (Hp : own !! p = Some path) (Hlen : (length path < 2)%nat)
        (Hi : 0 <= i < 512) (Hc : page_ok c) (Hfresh : own !! c = None)
        (Hinv : flag (ld64 m (p + 8 * i)) PTE_V = false).

(** The memory after [kalloc] handed out [c] and [walk] installed it. *)
Definition attached : mem :=
  st64 (memset (memset m c 5 PGSIZE) c 0 PGSIZE) (p + 8 * i) (Z.lor (PA2PTE c) PTE_V).

Lemma attach_pal : p mod 4096 = 0.
Proof. eapply pt_page_al; done. Qed.
Lemma attach_ne : p <> c.
Proof. intros ->. congruence. Qed.

Lemma attach_pte : u64 (Z.lor (PA2PTE c) PTE_V) = c / 4096 * 1024 + 1.
Proof using LO Hc.
  clear - LO Hc.
  pose proof (page_ok_pos c Hc). rewrite PTE_lor by (change PTE_V with 1; lia).
  change PTE_V with 1. apply u64_small.
  assert (0 <= c / 4096 < 2^52) by (split; [apply Z.div_pos; lia|apply Z.div_lt_upper_bound; lia]). lia.
Qed.

Lemma attach_new : ld64 attached (p + 8 * i) = Z.lor (PA2PTE c) PTE_V.
Proof using LO Hc.
  clear - LO Hc.
  unfold attached. rewrite ld64_st64, attach_pte. pose proof (page_ok_pos c Hc).
  rewrite PTE_lor by (change PTE_V with 1; lia). done.
Qed.

Lemma attach_new_valid :
  flag (ld64 attached (p + 8 * i)) PTE_V = true /\ PTE2PA (ld64 attached (p + 8 * i)) = c.
Proof using LO Hc.
  clear - LO Hc.
  rewrite attach_new. pose proof (page_ok_pos c Hc). split; [by apply flag_lor_r|].
  apply PTE2PA_lor; [lia|apply Hc|change PTE_V with 1; lia].
Qed.

Lemma attach_frame x : ~ (c <= x < c + 4096) -> ~ (p + 8 * i <= x < p + 8 * i + 8) -> ld attached x = ld m x.
Proof using Type.
  clear.
  intros H1 H2. unfold attached, st64. rewrite ld_stw_out by lia.
  rewrite !ld_memset. replace (inb c PGSIZE x) with false by (symmetry; apply inb_false; unfold PGSIZE; lia).
  done.
Qed.

Lemma attach_word q pth j :
  own !! q = Some pth -> 0 <= j < 512 -> (q <> p \/ j <> i) -> ld64 attached (q + 8 * j) = ld64 m (q + 8 * j).
Proof.
  intros Hq Hj Hne. pose proof attach_pal. assert (q mod 4096 = 0) by (by eapply pt_page_al).
  assert (q <> c) as Hqc by congruence. apply ldw_ext. intros x Hx. apply attach_frame.
  - destruct Hc as [Hcal _]. destruct (page_disjoint q c); [done..|lia|lia].
  - destruct (word_disjoint q p j i); [done..|lia|lia].
Qed.

Lemma attach_zero j : 0 <= j < 512 -> ld64 attached (c + 8 * j) = 0.
Proof.
  intros Hj. apply ld64_zero. intros x Hx. unfold attached, st64. pose proof attach_pal. pose proof attach_ne.
  destruct Hc as [Hcal _].
  rewrite ld_stw_out by (destruct (page_disjoint p c); [done..|lia|lia]).
  rewrite ld_memset. replace (inb c PGSIZE x) with true by (symmetry; apply inb_true; unfold PGSIZE; lia).
  done.
Qed.

Lemma attach_lookup l q va :
  (l <= 2)%nat -> own !! q = Some (path_of l va) -> lookupv attached l q va = lookupv m l q va.
Proof.
  revert q. induction l as [|l IH]; intros q Hl Hq; unfold lookupv in *; cbn [walkp].
  - apply (attach_word q _ _ Hq (PX_range _ _)). left. intros ->.
    rewrite Hp in Hq. injection Hq as ->. simpl in Hlen. lia.
  - destruct (decide (q = p /\ PX (Z.of_nat (S l)) va = i)) as [[-> Ei]|Hne].
    + rewrite Ei. destruct attach_new_valid as [-> ->]. rewrite Hinv.
      destruct l as [|l]; cbn [walkp].
      * apply attach_zero, PX_range.
      * rewrite attach_zero by apply PX_range. done.
    + assert (q <> p \/ PX (Z.of_nat (S l)) va <> i) as Hne' by
        (destruct (decide (q = p)) as [Ep|Ep]; [right; intros Ej; exact (Hne (conj Ep Ej))|left; exact Ep]).
      rewrite (attach_word q _ _ Hq (PX_range _ _) Hne').
      destruct (flag (ld64 m (q + _)) PTE_V) eqn:Hv; [|done].
      apply IH; [lia|]. apply (own_child m root own q l va); [done|lia|done|done].
Qed.

Lemma attach_pt_inv : pt_inv attached root (<[c := path ++ [i]]> own).
Proof.
  split.
  - rewrite lookup_insert_ne; [apply Hpt|]. intros <-. rewrite (pt_root _ _ _ Hpt) in Hfresh. done.
  - intros q pth. rewrite lookup_insert. case_decide as E; [|apply Hpt].
    intros [= <-]. subst q. split; [done|]. rewrite length_app. simpl. lia.
  - intros q pth j Hq Hl Hj Hv. rewrite lookup_insert in Hq. case_decide as E.
    + subst q. rewrite attach_zero in Hv by done. done.
    + destruct (decide (q = p /\ j = i)) as [[-> ->]|Hne].
      * destruct attach_new_valid as [_ ->]. rewrite lookup_insert_eq. congruence.
      * assert (q <> p \/ j <> i) as Hne' by
          (destruct (decide (q = p)) as [Ep|Ep]; [right; intros Ej; exact (Hne (conj Ep Ej))|left; exact Ep]).
        rewrite (attach_word q pth j) in Hv |- * by done.
        pose proof (pt_child _ _ _ Hpt q pth j Hq Hl Hj Hv) as Hch.
        rewrite lookup_insert_ne; [done|]. congruence.
Qed.

Lemma attach_int q pth j :
  own !! q = Some pth -> 0 <= j < 512 ->
  flag (ld64 m (q + 8 * j)) PTE_V = true -> ld64 attached (q + 8 * j) = ld64 m (q + 8 * j).
Proof.
  intros Hq Hj Hv. apply (attach_word q pth); [done..|].
  destruct (decide (q = p)) as [->|]; [|by left]. right. intros ->. congruence.
Qed.
End attach.

(** One table page taken from the free list and installed. *)
Lemma attach_ext root own s p i c ps path :
  vm_inv s (c :: ps) root own -> own !! p = Some path -> (length path < 2)%nat -> 0 <= i < 512 ->
  flag (ld64 (kmem s) (p + 8 * i)) PTE_V = false ->
  let s' := KState (attached (kmem s) p i c) (ld64 (kmem s) c) in
  let own' := <[c := path ++ [i]]> own in
  vm_inv s' ps root own' /\ ext root s (c :: ps) own s' ps own'.
Proof.
  intros (Hk & Hpt & Hdis) Hp Hlen Hi Hv s' own'. subst s'. cbn [kmem freelist].
  assert (page_ok c) as Hc by (destruct Hk as (_ & _ & _ & Hok); by apply Forall_cons in Hok as [? _]).
  assert (own !! c = None) as Hfr by (apply Hdis; set_solver).
  assert (p mod 4096 = 0) as Hpal by (by eapply pt_page_al).
  assert (p <> c) as Hpc by congruence.
  destruct (kmem_inv_pop s c ps Hk) as (_ & (Hb & Hch & Hnd & Hok) & _). cbn [kmem freelist] in *.
  split.
  - split; [|split].
    + split_and!; [..|done|done]; cbn [kmem freelist].
      * unfold attached. by apply bytes_ok_stw, bytes_ok_memset.
      * eapply chain_ext; [|exact Hch]. intros q Hq. rewrite Forall_forall in Hok.
        destruct (Hok q Hq) as [Hqal _].
        assert (own !! q = None) as Hqn by (apply Hdis; set_solver).
        assert (q <> c) as Hqc by (destruct Hk as (_ & _ & Hnd' & _); apply NoDup_cons in Hnd' as [? _]; naive_solver).
        assert (q <> p) as Hqp by congruence.
        apply ldw_ext. intros x Hx. unfold attached, st64.
        rewrite ld_stw_out by (destruct (page_disjoint q p); [done..|lia|lia]).
        rewrite ld_memset. destruct Hc as [Hcal _].
        replace (inb c PGSIZE x) with false; [done|]. symmetry. apply inb_false. unfold PGSIZE.
        destruct (page_disjoint q c); [done..|lia|lia].
    + by apply attach_pt_inv.
    + intros q Hq. unfold own'. rewrite lookup_insert_ne; [apply Hdis; set_solver|].
      destruct Hk as (_ & _ & Hnd' & _). apply NoDup_cons in Hnd' as [? _]. naive_solver.
  - split.
    + by apply insert_subseteq.
    + exists [c]. split; [done|]. intros q. unfold own'. rewrite lookup_insert.
      case_decide as E; rewrite list_elem_of_singleton; [subst; split; eauto|]. naive_solver.
    + intros va Hva. unfold pte_of. eapply attach_lookup; [done..| |apply Hpt]. lia.
    + intros q Hq Hn x Hx. unfold own' in Hn. rewrite lookup_insert in Hn. case_decide; [done|].
      assert (q <> p) as Hqp by congruence. destruct Hc as [Hcal Hcr].
      assert (~ (c <= x < c + 4096)) by (destruct (page_disjoint q c); [done..|lia|lia]).
      assert (~ (p + 8 * i <= x < p + 8 * i + 8)) by (destruct (page_disjoint q p); [done..|lia|lia]).
      by eapply attach_frame.
    + intros q pth j Hq _ Hj Hvq. eapply attach_int; done.
Qed.

(** ** [walk] *)

Lemma walk_loop_false l p va h s :
  walk_loop l p va false (World h s) = Ok (default 0 (walkp (kmem s) l p va)) (World h s).
Proof.
  revert p. induction l as [|l IH]; intros p; cbn [walk_loop walkp]; [done|].
  unfold load_pte. rewrite gets_run. by destruct (flag _ PTE_V).
Qed.

Lemma walk_false root va h s :
  va < MAXVA -> walk root va false (World h s) = Ok (default 0 (walkp (kmem s) 2 root va)) (World h s).
Proof. intros Hva. unfold walk. destruct (Z.leb_spec MAXVA va); [lia|]. apply walk_loop_false. Qed.

Lemma walkp_pos s root own l p va a :
  pt_inv (kmem s) root own -> (l <= 2)%nat -> own !! p = Some (path_of l va) ->
  walkp (kmem s) l p va = Some a -> 0 < a.
Proof.
  intros Hpt Hl Hp Hw. destruct (walkp_own _ _ _ _ _ _ _ Hpt Hl Hp Hw) as (q & -> & Hq).
  destruct (pt_page _ _ _ Hpt q _ Hq) as [Hok _]. apply page_ok_pos in Hok. pose proof (PX_range 0 va). lia.
Qed.

(** What [walk(pagetable, va, 1)] leaves: either the address of the entry,
    or 0 with the free list empty; entries are unchanged either way. *)
Lemma walk_loop_alloc l : forall p va h s ps root own,
  (l <= 2)%nat -> kmem_lock ∉ h -> vm_inv s ps root own -> own !! p = Some (path_of l va) ->
  exists a s' ps' own',
    walk_loop l p va true (World h s) = Ok a (World h s') /\
    vm_inv s' ps' root own' /\ ext root s ps own s' ps' own' /\
    (a = 0 /\ ps' = [] \/ a <> 0 /\ walkp (kmem s') l p va = Some a).
Proof.
  induction l as [|l IH]; intros p va h s ps root own Hl Hh Hinv Hp; cbn [walk_loop].
  - exists (p + 8 * PX 0 va), s, ps, own. split_and!; [done|done|apply ext_refl|]. right.
    split; [|done]. destruct Hinv as (_ & Hpt & _).
    pose proof (walkp_pos s root own 0 p va _ Hpt (Nat.le_0_l 2) Hp eq_refl). lia.
  - unfold load_pte. rewrite gets_run. set (ptep := p + 8 * PX (Z.of_nat (S l)) va).
    pose proof Hinv as (Hk & Hpt & Hdis).
    destruct (flag (ld64 (kmem s) ptep) PTE_V) eqn:Hv.
    + assert (l <= 1)%nat as Hl1 by lia.
      pose proof (own_child _ _ _ _ _ _ Hpt Hl1 Hp Hv) as Hch. fold ptep in Hch.
      destruct (IH _ va h s ps root own ltac:(lia) Hh Hinv Hch) as (a & s' & ps' & own' & Hrun & Hi' & He & Hres).
      exists a, s', ps', own'. split_and!; [done..|]. destruct Hres as [Hres|[Ha Hw]]; [by left|right].
      split; [done|]. cbn [walkp]. fold ptep.
      assert (ld64 (kmem s') ptep = ld64 (kmem s) ptep) as ->.
      { eapply ext_int; [done|exact Hp| |apply PX_range|exact Hv]. rewrite length_path_of; lia. }
      by rewrite Hv.
    + cbn [negb]. rewrite (bind_run _ _ _ _ _ (kalloc_run h s Hh)).
      destruct ps as [|c ps].
      * destruct Hk as (_ & Hc & _). cbn [chain] in Hc. rewrite Hc. cbn [Z.eqb].
        exists 0, s, [], own. split_and!; [done|done|apply ext_refl|by left].
      * destruct (kmem_inv_pop s c ps Hk) as (Hfl & _ & _). rewrite Hfl.
        assert (page_ok c) as Hc by (destruct Hk as (_ & _ & _ & Hok); by apply Forall_cons in Hok as [? _]).
        pose proof (page_ok_pos c Hc). destruct (Z.eqb_spec c 0); [lia|].
        rewrite modify_run. unfold store_pte. rewrite modify_run. unfold upd_mem. cbn [kmem freelist].
        destruct (attach_ext root own s p (PX (Z.of_nat (S l)) va) c ps _ Hinv Hp) as [Hinv1 Hext1];
          [rewrite length_path_of; lia|apply PX_range|exact Hv|].
        rewrite path_of_S in Hinv1, Hext1 by lia.
        assert (own !! c = None) as Hfr by (apply Hdis; set_solver).
        destruct (IH c va h _ ps root _ ltac:(lia) Hh Hinv1 (lookup_insert_eq own c _))
          as (a & s' & ps' & own' & Hrun & Hi' & He & Hres).
        exists a, s', ps', own'. split_and!; [exact Hrun|done|by eapply ext_trans|].
        destruct Hres as [Hres|[Ha Hw]]; [by left|right]. split; [done|]. cbn [walkp]. fold ptep.
        destruct (attach_new_valid (kmem s) p (PX (Z.of_nat (S l)) va) c Hc) as [Hnv Hna].
        assert (ld64 (kmem s') ptep = ld64 (attached (kmem s) p (PX (Z.of_nat (S l)) va) c) ptep) as ->.
        { eapply (ext_int _ _ _ _ _ _ _ He p (path_of (S l) va)); [|rewrite length_path_of; lia|apply PX_range|exact Hnv].
          rewrite lookup_insert_ne; [done|]. congruence. }
        unfold ptep. rewrite Hnv, Hna. done.
Qed.

(** ** Storing a leaf entry *)

Lemma walkp_frame m m' root own l p va :
  pt_inv m root own -> (l <= 2)%nat -> own !! p = Some (path_of l va) ->
  (forall q path i, own !! q = Some path -> (length path < 2)%nat -> 0 <= i < 512 ->
    ld64 m' (q + 8 * i) = ld64 m (q + 8 * i)) ->
  walkp m' l p va = walkp m l p va.
Proof.
  intros Hpt Hl Hp Hw. revert p Hp. induction l as [|l IH]; intros p Hp; cbn [walkp]; [done|].
  rewrite (Hw p _ _ Hp) by (rewrite ?length_path_of; try apply PX_range; lia).
  destruct (flag _ PTE_V) eqn:Hv; [|done].
  apply IH; [lia|]. apply (own_child m root own p l va); [done|lia|done|done].
Qed.

Lemma pte_of_walkp m root va a : walkp m 2 root va = Some a -> pte_of m root va = ld64 m a.
Proof. intros E. unfold pte_of, lookupv. by rewrite E. Qed.

(** What may change besides entries: table pages are added, taken from the
    free list; memory outside table pages is untouched. *)
Record grow (s : kstate) (ps : list Z) own (s' : kstate) (ps' : list Z) own' : Prop := {
  grow_own : own ⊆ own';
  grow_free : exists used, ps = used ++ ps' /\ forall p, is_Some (own' !! p) <-> is_Some (own !! p) \/ p ∈ used;
  grow_frame : forall q, q mod 4096 = 0 -> own' !! q = None ->
    forall x, q <= x < q + 4096 -> ld (kmem s') x = ld (kmem s) x
}.

Lemma ext_grow root s ps own s' ps' own' : ext root s ps own s' ps' own' -> grow s ps own s' ps' own'.
Proof. intros []. by split. Qed.

Lemma grow_trans s1 ps1 own1 s2 ps2 own2 s3 ps3 own3 :
  grow s1 ps1 own1 s2 ps2 own2 -> grow s2 ps2 own2 s3 ps3 own3 -> grow s1 ps1 own1 s3 ps3 own3.
Proof.
  intros [Ho1 Hf1 Hr1] [Ho2 Hf2 Hr2]. split.
  - by etrans.
  - destruct Hf1 as (u1 & -> & H1), Hf2 as (u2 & -> & H2). exists (u1 ++ u2).
    split; [by rewrite (assoc_L (++))|]. intros p. rewrite H2, H1, elem_of_app. tauto.
  - intros q Hq Hn x Hx. rewrite (Hr2 q) by done. apply (Hr1 q); [done| |done].
    eapply lookup_weaken_None; done.
Qed.

Lemma leaf_words m root own q va a :
  pt_inv m root own -> a = q + 8 * PX 0 va -> own !! q = Some (path_of 0 va) ->
  forall v p path i, own !! p = Some path -> (length path < 2)%nat -> 0 <= i < 512 ->
  ld64 (st64 m a v) (p + 8 * i) = ld64 m (p + 8 * i).
Proof.
  intros Hpt -> Hq v p path i Hp Hlen Hi.
  assert (p mod 4096 = 0) by (by eapply pt_page_al). assert (q mod 4096 = 0) by (by eapply pt_page_al).
  apply ld64_st64_out. apply word_disjoint; [done|done|done|apply PX_range|].
  left. intros ->. rewrite Hq in Hp. injection Hp as <-. simpl in Hlen. lia.
Qed.

Lemma leaf_store s ps root own va a v :
  vm_inv s ps root own -> 0 <= va < MAXVA -> walkp (kmem s) 2 root va = Some a ->
  let s' := KState (st64 (kmem s) a v) (freelist s) in
  vm_inv s' ps root own /\ grow s ps own s' ps own /\
  forall va', 0 <= va' < MAXVA ->
    pte_of (kmem s') root va' =
    if PGROUNDDOWN va' =? PGROUNDDOWN va then u64 v else pte_of (kmem s) root va'.
Proof.
  intros (Hk & Hpt & Hdis) Hva Hw s'. subst s'. cbn [kmem freelist].
  destruct (walkp_own _ _ _ _ _ _ _ Hpt (le_n 2) (pt_root _ _ _ Hpt) Hw) as (q & Ha & Hq).
  pose proof (leaf_words _ _ _ _ _ _ Hpt Ha Hq v) as Hword.
  assert (q mod 4096 = 0) as Hqal by (by eapply pt_page_al). pose proof (PX_range 0 va).
  split; [|split].
  - destruct Hk as (Hb & Hc & Hnd & Hok). split; [|split; [|done]].
    + split_and!; [by apply bytes_ok_stw| |done..]. cbn [kmem freelist].
      eapply chain_ext; [|exact Hc]. intros p Hp. rewrite Forall_forall in Hok.
      destruct (Hok p Hp) as [Hpal _]. apply ld64_st64_out. rewrite Ha.
      assert (p <> q) as Hpq by (intros ->; rewrite (Hdis q Hp) in Hq; done).
      destruct (page_disjoint p q); [done..|lia|lia].
    + split; cbn [kmem]; [apply Hpt..|]. intros p path i Hp Hl Hi. rewrite (Hword p path i) by done.
      by apply Hpt.
  - split; [done| |].
    + exists []. split; [done|]. intros p. rewrite elem_of_nil. tauto.
    + intros p Hp Hn x Hx. cbn [kmem]. apply ld_stw_out. rewrite Ha.
      assert (p <> q) as Hpq by congruence. destruct (page_disjoint p q); [done..|lia|lia].
  - intros va' Hva'. unfold pte_of at 1, lookupv.
    rewrite (walkp_frame (kmem s) _ root own 2 root va') by (done || apply Hpt).
    unfold pte_of, lookupv. destruct (Z.eqb_spec (PGROUNDDOWN va') (PGROUNDDOWN va)) as [E|E].
    + assert (walkp (kmem s) 2 root va' = Some a) as ->; [|apply ld64_st64].
      assert (forall l, 0 <= l -> PX l va' = PX l va) as Hpx.
      { intros l Hl. rewrite <- (PX_page l va), <- (PX_page l va') by done. by rewrite E. }
      rewrite <- Hw. cbn [walkp]. by rewrite !Hpx by lia.
    + destruct (walkp (kmem s) 2 root va') as [a'|] eqn:Hw'; [|done].
      destruct (walkp_own _ _ _ _ _ _ _ Hpt (le_n 2) (pt_root _ _ _ Hpt) Hw') as (q' & Ha' & Hq').
      rewrite Ha, Ha'. apply ld64_st64_out.
      apply word_disjoint; [by eapply pt_page_al|done|apply PX_range|done|].
      destruct (decide (q' = q)) as [->|]; [right|by left]. intros E0. apply E.
      rewrite Hq in Hq'. injection Hq' as E2 E1. by apply PX_inj.
Qed.

(** ** [mappages] *)

Definition mkpte (pa perm : Z) : Z := Z.lor (Z.lor (PA2PTE pa) perm) PTE_V.

Lemma mkpte_small pa perm : 0 <= pa < 2^56 -> 0 <= perm < 1024 -> u64 (mkpte pa perm) = mkpte pa perm.
Proof.
  intros Hpa Hperm. unfold mkpte. rewrite <- Z.lor_assoc.
  pose proof (lor_flags_range perm PTE_V Hperm ltac:(change PTE_V with 1; lia)).
  rewrite PTE_lor by done. apply u64_small.
  assert (0 <= pa / 4096 < 2^44) by (split; [apply Z.div_pos; lia|apply Z.div_lt_upper_bound; lia]). lia.
Qed.

(** The entries of [n] consecutive pages, starting at virtual page [a], set
    to map consecutive physical pages from [pa]. *)
Definition map_pages (f : Z -> Z) (a n pa perm : Z) : Z -> Z := fun va =>
  let p := PGROUNDDOWN va in
  if inb a (4096 * n) p then mkpte (pa + (p - a)) perm else f va.

Lemma map_pages_zero f a pa perm va : map_pages f a 0 pa perm va = f va.
Proof.
  unfold map_pages, inb.
  destruct (Z.leb_spec a (PGROUNDDOWN va)), (Z.ltb_spec (PGROUNDDOWN va) (a + 4096 * 0)); try done; lia.
Qed.

(** Setting the entry of page [a], then those of the [k] pages after it. *)
Lemma map_pages_step f g a k pa perm va :
  a mod 4096 = 0 -> 0 <= k ->
  g va = (if PGROUNDDOWN va =? a then mkpte pa perm else f va) ->
  map_pages g (a + 4096) k (pa + 4096) perm va = map_pages f a (k + 1) pa perm va.
Proof.
  intros Hal Hk Hg. unfold map_pages. rewrite Hg. unfold inb. pose proof (PGROUNDDOWN_bounds va) as [Hb1 Hb2].
  destruct (Z.leb_spec (a + 4096) (PGROUNDDOWN va)), (Z.leb_spec a (PGROUNDDOWN va)),
    (Z.ltb_spec (PGROUNDDOWN va) (a + 4096 + 4096 * k)), (Z.ltb_spec (PGROUNDDOWN va) (a + 4096 * (k + 1))),
    (Z.eqb_spec (PGROUNDDOWN va) a); cbn [andb]; try done; try lia.
  - f_equal. lia.
  - f_equal. lia.
  - exfalso. Z.to_euclidean_division_equations. lia.
Qed.

Lemma mappages_loop_spec n : forall fuel a pa perm h s ps root own,
  (n < fuel)%nat -> kmem_lock ∉ h -> vm_inv s ps root own ->
  a mod 4096 = 0 -> pa mod 4096 = 0 -> 0 <= a -> a + 4096 * Z.of_nat n + 4096 <= MAXVA ->
  0 <= pa -> pa + 4096 * Z.of_nat n < 2^56 -> 0 <= perm < 1024 ->
  (forall va, a <= va < a + 4096 * Z.of_nat n + 4096 -> flag (pte_of (kmem s) root va) PTE_V = false) ->
  exists r k s' ps' own',
    mappages_loop fuel root a (a + 4096 * Z.of_nat n) pa perm (World h s) = Ok r (World h s') /\
    vm_inv s' ps' root own' /\ grow s ps own s' ps' own' /\
    (r = 0 /\ k = Z.of_nat n + 1 \/ r = -1 /\ 0 <= k <= Z.of_nat n /\ ps' = []) /\
    forall va, 0 <= va < MAXVA -> pte_of (kmem s') root va = map_pages (pte_of (kmem s) root) a k pa perm va.
Proof.
  induction n as [|n IH]; intros fuel a pa perm h s ps root own Hf Hh Hinv Hal Hpal Ha Hmax Hpa Hpmax Hperm Hfree;
    (destruct fuel as [|fuel]; [lia|]); cbn [mappages_loop].
  all: unfold walk; destruct (Z.leb_spec MAXVA a); [lia|].
  all: destruct (walk_loop_alloc 2 root a h s ps root own (le_n 2) Hh Hinv)
         as (ptep & s1 & ps1 & own1 & Hrun & Hinv1 & He & Hres); [apply Hinv|].
  all: rewrite (bind_run _ _ _ _ _ Hrun).
  all: destruct Hres as [[-> ->]|[Hne Hw]].
  1,3: exists (-1), 0, s1, [], own1; split_and!; [done|done|by eapply ext_grow|right; split_and!; lia || done|];
       intros va Hva; rewrite map_pages_zero; by apply (ext_ptes _ _ _ _ _ _ _ He).
  all: destruct (Z.eqb_spec ptep 0); [done|]; unfold load_pte; rewrite gets_run.
  all: rewrite <- (pte_of_walkp _ _ _ _ Hw), (ext_ptes _ _ _ _ _ _ _ He), Hfree by lia.
  all: unfold store_pte; rewrite modify_run; unfold upd_mem.
  all: destruct (leaf_store s1 ps1 root own1 a ptep (mkpte pa perm) Hinv1 ltac:(lia) Hw) as (Hinv2 & Hg2 & Hpte2).
  all: fold (mkpte pa perm); rewrite mkpte_small, (PGROUNDDOWN_aligned a) in Hpte2 by (done || lia).
  - replace (a =? a + 4096 * Z.of_nat 0) with true by (symmetry; apply Z.eqb_eq; lia).
    eexists 0, 1, _, ps1, own1. split_and!; [done|done| |left; lia|].
    + eapply grow_trans; [by eapply ext_grow|done].
    + intros va Hva. rewrite <- (map_pages_zero (pte_of (kmem _) root) (a + 4096) (pa + 4096) perm va).
      apply (map_pages_step _ _ a 0); [done|lia|]. by rewrite Hpte2, (ext_ptes _ _ _ _ _ _ _ He) by done.
  - destruct (Z.eqb_spec a (a + 4096 * Z.of_nat (S n))); [lia|]. change PGSIZE with 4096.
    change MAXVA with (2^38) in *.
    rewrite (u64_small (a + 4096)), (u64_small (pa + 4096)) by lia.
    replace (a + 4096 * Z.of_nat (S n)) with (a + 4096 + 4096 * Z.of_nat n) in * by lia.
    replace (pa + 4096 * Z.of_nat (S n)) with (pa + 4096 + 4096 * Z.of_nat n) in * by lia.
    destruct (IH fuel (a + 4096) (pa + 4096) perm h _ ps1 root own1 ltac:(lia) Hh Hinv2)
      as (r & k & s' & ps' & own' & Hrun' & Hinv' & Hg' & Hres' & Hpte'); try lia.
    + Z.to_euclidean_division_equations. lia.
    + Z.to_euclidean_division_equations. lia.
    + intros va Hva. rewrite Hpte2 by lia.
      pose proof (PGROUNDDOWN_bounds va) as [Hb1 Hb2].
      destruct (Z.eqb_spec (PGROUNDDOWN va) a); [lia|].
      rewrite (ext_ptes _ _ _ _ _ _ _ He) by (change MAXVA with (2^38); lia). apply Hfree. lia.
    + exists r, (k + 1), s', ps', own'. split_and!; [exact Hrun'|done| | |].
      * eapply grow_trans; [by eapply ext_grow|]. by eapply grow_trans.
      * destruct Hres' as [[-> ->]|(-> & Hk & ->)]; [left|right]; split_and!; lia || done.
      * intros va Hva. rewrite Hpte' by done. apply map_pages_step; [done|destruct Hres' as [[_ ->]|(_ & ? & _)]; lia|].
        by rewrite Hpte2, (ext_ptes _ _ _ _ _ _ _ He) by done.
Qed.
End vmspec.
