(* ===== verification/VmProps.v ===== *)
(** * Effects of mapping, unmapping and copying

    Theorems on [mappages], [uvmunmap], [walkaddr], [copyout] and [copyin]
    over the abstraction of [VmSpec]. *)

From S2P Require Import Prelude Mem CString Riscv Kalloc Vm VmSpec.

Section vmprops.
Context {L : Layout} {LO : LayoutOk L}.
Implicit Types (m : mem) (own : gmap Z (list Z)).

(** ** Writes outside the table's pages *)

Lemma own_words m m' root own p :
  pt_inv m root own -> same_off p 4096 m m' -> p mod 4096 = 0 -> own !! p = None ->
  forall q path i, own !! q = Some path -> 0 <= i < 512 -> ld64 m' (q + 8 * i) = ld64 m (q + 8 * i).
Proof.
  intros Hpt Hs Hp Hn q path i Hq Hi. assert (q mod 4096 = 0) as Hqal by (by eapply pt_page_al).
  assert (q <> p) as Hqp by congruence. apply (same_off_ldw p 4096 m m' 8); [done|].
  destruct (page_disjoint q p); [done..|lia|lia].
Qed.

(** A memory that holds the same words in the pages of the table. *)
Lemma pt_words m m' root own :
  pt_inv m root own ->
  (forall q path i, own !! q = Some path -> 0 <= i < 512 -> ld64 m' (q + 8 * i) = ld64 m (q + 8 * i)) ->
  pt_inv m' root own /\ forall va, walkp m' 2 root va = walkp m 2 root va /\ pte_of m' root va = pte_of m root va.
Proof.
  intros Hpt Hw. split.
  - split; [apply Hpt..|]. intros q path i Hq Hl Hi. rewrite (Hw q path i) by done. by apply Hpt.
  - intros va. assert (walkp m' 2 root va = walkp m 2 root va) as E.
    { apply (walkp_frame m m' root own); [done|lia|apply Hpt|]. intros q path i Hq _ Hi. by apply (Hw q path). }
    split; [done|]. unfold pte_of, lookupv. rewrite E.
    destruct (walkp m 2 root va) as [a|] eqn:Ha; [|done].
    destruct (walkp_own _ _ _ _ _ _ _ Hpt (le_n 2) (pt_root _ _ _ Hpt) Ha) as (q & -> & Hq).
    apply (Hw q _ _ Hq), PX_range.
Qed.

Lemma pt_same_off m m' root own p :
  pt_inv m root own -> same_off p 4096 m m' -> p mod 4096 = 0 -> own !! p = None ->
  pt_inv m' root own /\ forall va, walkp m' 2 root va = walkp m 2 root va /\ pte_of m' root va = pte_of m root va.
Proof. intros Hpt Hs Hp Hn. by apply (pt_words m m' root own), (own_words _ _ _ _ _ Hpt Hs Hp Hn). Qed.

Lemma vm_inv_kfree s ps root own p :
  vm_inv s ps root own -> page_ok p -> p ∉ ps -> own !! p = None ->
  let s' := KState (st64 (memset (kmem s) p 1 PGSIZE) p (freelist s)) p in
  vm_inv s' (p :: ps) root own /\ same_off p 4096 (kmem s) (kmem s') /\
  forall va, walkp (kmem s') 2 root va = walkp (kmem s) 2 root va /\ pte_of (kmem s') root va = pte_of (kmem s) root va.
Proof.
  intros (Hk & Hpt & Hdis) Hp Hni Hn s'. subst s'. cbn [kmem].
  destruct (kmem_inv_push s ps p Hk Hp Hni) as [Hk' Hs].
  destruct (pt_same_off _ _ _ _ _ Hpt Hs ltac:(apply Hp) Hn) as [Hpt' Hw].
  split_and!; [|done|done]. split_and!; [done|done|].
  intros q Hq. apply elem_of_cons in Hq as [->|Hq]; auto.
Qed.

(** ** [mappages] *)

Lemma mappages_run root va size pa perm h s ps own :
  kmem_lock ∉ h -> vm_inv s ps root own ->
  0 <= va -> 0 < size -> va + size <= MAXVA -> pa mod 4096 = 0 -> 0 <= pa < 2^55 -> 0 <= perm < 1024 ->
  (forall a, PGROUNDDOWN va <= a < PGROUNDDOWN (va + size - 1) + 4096 ->
     flag (pte_of (kmem s) root a) PTE_V = false) ->
  let n := (PGROUNDDOWN (va + size - 1) - PGROUNDDOWN va) / 4096 + 1 in
  exists r k s' ps' own',
    mappages root va size pa perm (World h s) = Ok r (World h s') /\
    vm_inv s' ps' root own' /\ grow s ps own s' ps' own' /\
    (r = 0 /\ k = n \/ r = -1 /\ 0 <= k < n /\ ps' = []) /\
    forall a, 0 <= a < MAXVA ->
      pte_of (kmem s') root a = map_pages (pte_of (kmem s) root) (PGROUNDDOWN va) k pa perm a.
Proof.
  intros Hh Hinv Hva Hsz Hmax Hal Hpa Hperm Hfree n. unfold mappages.
  destruct (Z.eqb_spec size 0); [lia|]. change MAXVA with (2^38) in *. rewrite u64_small by lia.
  change PGSIZE with 4096.
  pose proof (PGROUNDDOWN_bounds va) as [Hb1 Hb2]. pose proof (PGROUNDDOWN_bounds (va + size - 1)) as [Hb3 Hb4].
  set (a := PGROUNDDOWN va) in *. set (last := PGROUNDDOWN (va + size - 1)) in *.
  assert (a <= last) as Hle by (Z.to_euclidean_division_equations; lia).
  assert (0 <= a) as Ha0 by (Z.to_euclidean_division_equations; lia).
  destruct (Z.leb_spec a last); [|lia].
  assert (last = a + 4096 * ((last - a) / 4096)) as Hlast by (Z.to_euclidean_division_equations; lia).
  assert (0 <= (last - a) / 4096) as Hnn by (apply Z.div_pos; lia).
  assert (last + 4096 <= 2^38) by (Z.to_euclidean_division_equations; lia).
  set (t := (last - a) / 4096) in *. rewrite <- (Z2Nat.id t) in Hlast by done.
  destruct (mappages_loop_spec (Z.to_nat t) (S (S (Z.to_nat t))) a pa perm h s ps root own)
    as (r & k & s' & ps' & own' & Hrun & Hinv' & Hg & Hres & Hpte); try done; try lia.
  - change MAXVA with (2^38). lia.
  - intros x Hx. apply Hfree. lia.
  - rewrite <- Hlast in Hrun. exists r, k, s', ps', own'. rewrite Z2Nat.id in Hres by done.
    split_and!; [done..| |exact Hpte]. destruct Hres as [?|(? & ? & ?)]; [left|right]; subst n; split_and!; try lia; done.
Qed.

(** ** [uvmunmap] *)

Definition unmap_pages (f : Z -> Z) (a n : Z) : Z -> Z := fun va =>
  if inb a (4096 * n) (PGROUNDDOWN va) then 0 else f va.

(** Entry [i] of the range is a leaf mapping [pas !! i]. *)
Definition leaves (f : Z -> Z) (a : Z) (pas : list Z) : Prop := forall i pa, pas !! i = Some pa ->
  let pte := f (a + 4096 * Z.of_nat i) in
  flag pte PTE_V = true /\ PTE_FLAGS pte <> PTE_V /\ PTE2PA pte = pa.

Lemma pte_walkp m root va :
  flag (pte_of m root va) PTE_V = true -> exists a, walkp m 2 root va = Some a /\ ld64 m a = pte_of m root va.
Proof.
  unfold pte_of, lookupv. destruct (walkp m 2 root va) as [a|]; [eauto|]. done.
Qed.

Lemma leaves_tail f a pa pas : leaves f a (pa :: pas) -> leaves f (a + 4096) pas.
Proof.
  intros Hl i p Hi. specialize (Hl (S i) p Hi). cbn zeta in *.
  replace (a + 4096 * Z.of_nat (S i)) with (a + 4096 + 4096 * Z.of_nat i) in Hl by lia. done.
Qed.

Lemma leaves_ext f g a pas :
  (forall i, (i < length pas)%nat -> g (a + 4096 * Z.of_nat i) = f (a + 4096 * Z.of_nat i)) ->
  leaves f a pas -> leaves g a pas.
Proof.
  intros Heq Hl i pa Hi. rewrite Heq; [by apply Hl|]. by eapply lookup_lt_Some.
Qed.

Lemma unmap_pages_zero f a va : unmap_pages f a 0 va = f va.
Proof.
  unfold unmap_pages, inb.
  destruct (Z.leb_spec a (PGROUNDDOWN va)), (Z.ltb_spec (PGROUNDDOWN va) (a + 4096 * 0)); try done; lia.
Qed.

(** Clearing the entry of page [a], then those of the [n] pages after it. *)
Lemma unmap_pages_step f g a n va :
  a mod 4096 = 0 -> 0 <= n -> g va = (if PGROUNDDOWN va =? a then 0 else f va) ->
  unmap_pages g (a + 4096) n va = unmap_pages f a (n + 1) va.
Proof.
  intros Hal Hn Hg. unfold unmap_pages. rewrite Hg. unfold inb. pose proof (PGROUNDDOWN_bounds va) as [Hb1 Hb2].
  destruct (Z.leb_spec (a + 4096) (PGROUNDDOWN va)), (Z.leb_spec a (PGROUNDDOWN va)),
    (Z.ltb_spec (PGROUNDDOWN va) (a + 4096 + 4096 * n)), (Z.ltb_spec (PGROUNDDOWN va) (a + 4096 * (n + 1))),
    (Z.eqb_spec (PGROUNDDOWN va) a); cbn [andb]; try done; try lia.
  exfalso. Z.to_euclidean_division_equations. lia.
Qed.

(** The optional [kfree] of a turn: the page tables stay as they are. *)
Lemma maybe_kfree_run (do_free : bool) pa h s ps root own :
  kmem_lock ∉ h -> vm_inv s ps root own -> (do_free = true -> page_ok pa /\ (pa ∉ ps) /\ own !! pa = None) ->
  exists s1, (if do_free then kfree pa else mret tt) (World h s) = Ok tt (World h s1) /\
    vm_inv s1 (if do_free then pa :: ps else ps) root own /\
    (do_free = true \/ s1 = s) /\ (do_free = true -> same_off pa 4096 (kmem s) (kmem s1)) /\
    forall va, walkp (kmem s1) 2 root va = walkp (kmem s) 2 root va /\
               pte_of (kmem s1) root va = pte_of (kmem s) root va.
Proof.
  intros Hh Hinv Hfr. destruct do_free; [|exists s; split_and!; [done|done|by right|done|done]].
  destruct (Hfr eq_refl) as (Hok & Hni & Hn). destruct (vm_inv_kfree s ps root own pa Hinv Hok Hni Hn) as (Hi1 & Ho1 & Hp1).
  pose proof (proj1 Hinv) as Hk. eexists. split; [by apply kfree_run|]. split_and!; [done|by left|done|done].
Qed.

Lemma uvmunmap_loop_spec (do_free : bool) pas : forall fuel a h s ps root own,
  (length pas < fuel)%nat -> kmem_lock ∉ h -> vm_inv s ps root own ->
  a mod 4096 = 0 -> 0 <= a -> a + 4096 * Z.of_nat (length pas) <= MAXVA ->
  leaves (pte_of (kmem s) root) a pas ->
  (do_free = true -> NoDup pas /\ forall p, p ∈ pas -> page_ok p /\ (p ∉ ps) /\ own !! p = None) ->
  exists s',
    uvmunmap_loop fuel root a (a + 4096 * Z.of_nat (length pas)) do_free (World h s) = Ok tt (World h s') /\
    vm_inv s' (if do_free then reverse pas ++ ps else ps) root own /\
    (forall va, 0 <= va < MAXVA ->
       pte_of (kmem s') root va = unmap_pages (pte_of (kmem s) root) a (Z.of_nat (length pas)) va) /\
    (forall q, q mod 4096 = 0 -> own !! q = None -> (do_free = true -> q ∉ pas) ->
       forall x, q <= x < q + 4096 -> ld (kmem s') x = ld (kmem s) x).
Proof.
  induction pas as [|pa pas IH]; intros fuel a h s ps root own Hf Hh Hinv Hal Ha Hmax Hlv Hfr;
    (destruct fuel as [|fuel]; [simpl in Hf; lia|]); cbn [uvmunmap_loop length] in *.
  - destruct (Z.ltb_spec a (a + 4096 * Z.of_nat 0)); [lia|]. cbn [negb]. exists s.
    split_and!; [done|by destruct do_free| |done].
    intros va Hva. by rewrite unmap_pages_zero.
  - destruct (Z.ltb_spec a (a + 4096 * Z.of_nat (S (length pas)))); [|lia]. cbn [negb].
    destruct (Hlv O pa eq_refl) as (Hv & Hleaf & Hpa). cbn zeta in *.
    replace (a + 4096 * Z.of_nat 0) with a in * by lia.
    destruct (pte_walkp _ _ _ Hv) as (ptep & Hw & Hld).
    rewrite (bind_run _ _ _ _ _ (walk_false root a h s ltac:(lia))). rewrite Hw. cbn [default from_option id].
    pose proof Hinv as (Hk & Hpt & Hdis).
    pose proof (walkp_pos s root own 2 root a ptep Hpt (le_n 2) (pt_root _ _ _ Hpt) Hw).
    destruct (Z.eqb_spec ptep 0); [lia|]. unfold load_pte. rewrite gets_run. rewrite Hld, Hv. cbn [negb].
    destruct (Z.eqb_spec (PTE_FLAGS (pte_of (kmem s) root a)) PTE_V); [done|]. rewrite Hpa.
    (* the memory after the optional kfree *)
    destruct (maybe_kfree_run do_free pa h s ps root own Hh Hinv) as (s1 & Hfree & Hinv1 & Hsame & Hoff & Hpte1).
    { intros Hd. apply Hfr; [done|]. apply elem_of_cons; auto. }
    rewrite (bind_run _ _ _ _ _ Hfree). unfold store_pte. rewrite modify_run. unfold upd_mem.
    rewrite <- (proj1 (Hpte1 a)) in Hw.
    destruct (leaf_store s1 _ root own a ptep 0 Hinv1 ltac:(lia) Hw) as (Hinv2 & Hg2 & Hpte2).
    set (s2 := KState (st64 (kmem s1) ptep 0) (freelist s1)) in *.
    replace (a + 4096 * Z.of_nat (S (length pas))) with (a + 4096 + 4096 * Z.of_nat (length pas)) in * by lia.
    change PGSIZE with 4096.
    destruct (IH fuel (a + 4096) h s2 _ root own ltac:(lia) Hh Hinv2) as (s' & Hrun & Hinv' & Hpte' & Hfrm').
    + Z.to_euclidean_division_equations. lia.
    + lia.
    + lia.
    + eapply leaves_ext; [|by eapply leaves_tail]. intros i Hi.
      rewrite Hpte2 by lia. rewrite (proj2 (Hpte1 _)). rewrite !PGROUNDDOWN_aligned
        by (Z.to_euclidean_division_equations; lia).
      destruct (Z.eqb_spec (a + 4096 + 4096 * Z.of_nat i) a); [lia|done].
    + intros Hd. destruct (Hfr Hd) as [Hnd Hp]. apply NoDup_cons in Hnd as [Hpni Hnd].
      split; [done|]. intros q Hq. destruct (Hp q) as (? & ? & ?); [apply elem_of_cons; auto|].
      rewrite Hd. rewrite not_elem_of_cons. split_and!; try done. intros ->. done.
    + exists s'. split_and!; [exact Hrun| | |].
      * destruct do_free; [|done]. rewrite reverse_cons, <- (assoc_L (++)). done.
      * intros va Hva. rewrite Hpte' by done. rewrite Nat2Z.inj_succ. apply unmap_pages_step; [done|lia|].
        rewrite Hpte2, (proj2 (Hpte1 _)), (PGROUNDDOWN_aligned a) by done. done.
      * intros q Hq Hn Hnp x Hx. rewrite (Hfrm' q) by (auto; intros Hd; specialize (Hnp Hd); set_solver).
        rewrite (grow_frame _ _ _ _ _ _ Hg2 q) by done.
        destruct Hsame as [Hd| ->]; [|done]. apply (Hoff Hd). apply inb_false.
        assert (q <> pa) by (specialize (Hnp Hd); set_solver).
        destruct (Hfr Hd) as [_ Hp]. destruct (Hp pa) as ((Hpal & _) & _ & _); [apply elem_of_cons; auto|].
        destruct (page_disjoint q pa); [done..|lia|lia].
Qed.

Lemma uvmunmap_run (do_free : bool) pas a h s ps root own :
  kmem_lock ∉ h -> vm_inv s ps root own ->
  a mod 4096 = 0 -> 0 <= a -> a + 4096 * Z.of_nat (length pas) <= MAXVA ->
  leaves (pte_of (kmem s) root) a pas ->
  (do_free = true -> NoDup pas /\ forall p, p ∈ pas -> page_ok p /\ (p ∉ ps) /\ own !! p = None) ->
  exists s',
    uvmunmap root a (Z.of_nat (length pas)) do_free (World h s) = Ok tt (World h s') /\
    vm_inv s' (if do_free then reverse pas ++ ps else ps) root own /\
    (forall va, 0 <= va < MAXVA ->
       pte_of (kmem s') root va = unmap_pages (pte_of (kmem s) root) a (Z.of_nat (length pas)) va) /\
    (forall q, q mod 4096 = 0 -> own !! q = None -> (do_free = true -> q ∉ pas) ->
       forall x, q <= x < q + 4096 -> ld (kmem s') x = ld (kmem s) x).
Proof.
  intros Hh Hinv Hal Ha Hmax Hlv Hfr. unfold uvmunmap. change PGSIZE with 4096. rewrite Hal. cbn [Z.eqb negb].
  change MAXVA with (2^38) in *. rewrite u64_small by lia. rewrite (Z.mul_comm _ 4096).
  apply uvmunmap_loop_spec; try done. lia.
Qed.

(** A zeroed page is an empty page table. *)
Lemma fresh_table s ps root :
  kmem_inv s (root :: ps) ->
  let s' := KState (memset (memset (kmem s) root 5 PGSIZE) root 0 PGSIZE) (ld64 (kmem s) root) in
  vm_inv s' ps root {[root := []]} /\ forall va, pte_of (kmem s') root va = 0.
Proof.
  intros Hk s'. destruct (kmem_inv_pop s root ps Hk) as (_ & (Hb & Hc & Hnd & Hok) & _). cbn [kmem freelist] in *.
  assert (page_ok root) as Hr by (destruct Hk as (_ & _ & _ & Hok'); by apply Forall_cons in Hok' as [? _]).
  assert (root ∉ ps) as Hni by (destruct Hk as (_ & _ & Hnd' & _); by apply NoDup_cons in Hnd' as [? _]).
  assert (forall i, 0 <= i < 512 -> ld64 (kmem s') (root + 8 * i) = 0) as Hz.
  { intros i Hi. apply ld64_zero. intros x Hx. subst s'. cbn [kmem]. rewrite ld_memset.
    replace (inb root PGSIZE x) with true; [done|]. symmetry. apply inb_true. unfold PGSIZE. lia. }
  split.
  - split; [|split].
    + subst s'. split_and!; cbn [kmem freelist]; [auto with xv6| |done|done].
      eapply chain_same_off; [apply same_off_memset|apply Hr|done..].
    + split.
      * apply lookup_singleton_eq.
      * intros p path Hp. apply lookup_singleton_Some in Hp as [<- <-]. split; [done|simpl; lia].
      * intros p path i Hp Hl Hi. apply lookup_singleton_Some in Hp as [<- <-]. rewrite Hz by done. done.
    + intros p Hp. apply lookup_singleton_None. intros ->. done.
  - intros va. unfold pte_of, lookupv. cbn [walkp]. rewrite Hz by apply PX_range. done.
Qed.
End vmprops.

(** ** Theorems *)

Section vm_theorems.
Context {L : Layout} {LO : LayoutOk L}.

(** C3: [mappages] refines an update of the virtual-page map.  On a range that
    is not mapped it either returns 0 with every page of the range mapped to
    the consecutive physical pages with the given permissions, or returns -1
    because the free list ran out, with a prefix of the range mapped; it never
    panics, keeps the table well formed, and changes no other entry and no
    page that is neither a table page nor one it took from the free list. *)
Theorem mappages_maps (root va size pa perm : Z) (h : list lockid) (s : kstate) (ps : list Z) own :
  kmem_lock ∉ h -> vm_inv s ps root own ->
  0 <= va -> 0 < size -> va + size <= MAXVA -> pa mod 4096 = 0 -> 0 <= pa < 2^55 -> 0 <= perm < 1024 ->
  (forall a, PGROUNDDOWN va <= a < PGROUNDDOWN (va + size - 1) + 4096 ->
     flag (pte_of (kmem s) root a) PTE_V = false) ->
  let n := (PGROUNDDOWN (va + size - 1) - PGROUNDDOWN va) / 4096 + 1 in
  exists r k s' ps' own',
    mappages root va size pa perm (World h s) = Ok r (World h s') /\
    vm_inv s' ps' root own' /\ grow s ps own s' ps' own' /\
    (r = 0 /\ k = n \/ r = -1 /\ 0 <= k < n /\ ps' = []) /\
    forall a, 0 <= a < MAXVA ->
      pte_of (kmem s') root a = map_pages (pte_of (kmem s) root) (PGROUNDDOWN va) k pa perm a.
Proof. apply mappages_run. Qed.

(** C4: [uvmunmap] of a range of mapped leaves removes exactly those entries
    and, with [do_free], pushes exactly their physical pages on the free list;
    it never panics there and leaves every other page of memory alone. *)
Theorem uvmunmap_unmaps (do_free : bool) (pas : list Z) (a : Z) (h : list lockid) (s : kstate) (ps : list Z) root own :
  kmem_lock ∉ h -> vm_inv s ps root own ->
  a mod 4096 = 0 -> 0 <= a -> a + 4096 * Z.of_nat (length pas) <= MAXVA ->
  leaves (pte_of (kmem s) root) a pas ->
  (do_free = true -> NoDup pas /\ forall p, p ∈ pas -> page_ok p /\ (p ∉ ps) /\ own !! p = None) ->
  exists s',
    uvmunmap root a (Z.of_nat (length pas)) do_free (World h s) = Ok tt (World h s') /\
    vm_inv s' (if do_free then reverse pas ++ ps else ps) root own /\
    (forall va, 0 <= va < MAXVA ->
       pte_of (kmem s') root va = unmap_pages (pte_of (kmem s) root) a (Z.of_nat (length pas)) va) /\
    (forall q, q mod 4096 = 0 -> own !! q = None -> (do_free = true -> q ∉ pas) ->
       forall x, q <= x < q + 4096 -> ld (kmem s') x = ld (kmem s) x).
Proof. apply uvmunmap_run. Qed.

(** [uvmcreate] returns an empty page table made of one page of the free
    list, or 0 when there is none. *)
Theorem uvmcreate_empty (h : list lockid) (s : kstate) (ps : list Z) :
  kmem_lock ∉ h -> kmem_inv s ps ->
  exists s', uvmcreate (World h s) = Ok (default 0 (head ps)) (World h s') /\
    match ps with
    | [] => s' = s
    | root :: ps' => vm_inv s' ps' root {[root := []]} /\ forall va, pte_of (kmem s') root va = 0
    end.
Proof.
  intros Hh Hk. unfold uvmcreate. rewrite (bind_run _ _ _ _ _ (kalloc_run h s Hh)).
  destruct ps as [|root ps].
  - destruct Hk as (_ & -> & _). exists s. done.
  - destruct (kmem_inv_pop s root ps Hk) as (-> & _ & _).
    assert (page_ok root) as Hr by (destruct Hk as (_ & _ & _ & Hok'); by apply Forall_cons in Hok' as [? _]).
    apply page_ok_pos in Hr. destruct (Z.eqb_spec root 0); [lia|]. rewrite modify_run.
    eexists. split; [done|]. by apply fresh_table.
Qed.
End vm_theorems.

Lemma uvmcreate_empty_witness :
  exists s', uvmcreate (World [] demo_kstate) = Ok 0x87ffc000 (World [] s') /\
    vm_inv s' [0x87ffd000; 0x87ffe000; 0x87fff000] 0x87ffc000 {[0x87ffc000 := []]} /\
    forall va, pte_of (kmem s') 0x87ffc000 va = 0.
Proof. exact (uvmcreate_empty [] demo_kstate demo_pages (not_elem_of_nil _) demo_kstate_inv). Defined.

Definition demo_root : Z := 0x87ffc000.
Definition demo_table : kstate :=
  KState (memset (memset (kmem demo_kstate) demo_root 5 PGSIZE) demo_root 0 PGSIZE) (ld64 (kmem demo_kstate) demo_root).
Lemma demo_table_inv :
  vm_inv demo_table [0x87ffd000; 0x87ffe000; 0x87fff000] demo_root {[demo_root := []]} /\
  forall va, pte_of (kmem demo_table) demo_root va = 0.
Proof. apply fresh_table. exact demo_kstate_inv. Qed.

(** Two pages of device memory mapped at address 4096 of an empty table. *)
Lemma mappages_maps_witness :
  exists r k s' ps' own',
    mappages demo_root 4096 8192 0x10000000 6 (World [] demo_table) = Ok r (World [] s') /\
    vm_inv s' ps' demo_root own' /\
    grow demo_table [0x87ffd000; 0x87ffe000; 0x87fff000] {[demo_root := []]} s' ps' own' /\
    (r = 0 /\ k = 2 \/ r = -1 /\ 0 <= k < 2 /\ ps' = []) /\
    forall a, 0 <= a < MAXVA ->
      pte_of (kmem s') demo_root a = map_pages (pte_of (kmem demo_table) demo_root) 4096 k 0x10000000 6 a.
Proof.
  apply (mappages_maps demo_root 4096 8192 0x10000000 6 [] demo_table _ _ (not_elem_of_nil _) (proj1 demo_table_inv));
    try (change MAXVA with (2^38); lia); [reflexivity|].
  intros a _. rewrite (proj2 demo_table_inv). reflexivity.
Defined.

(** A table whose first page maps 0x87fff000 for a user, with both levels of
    directories below the root, and an empty free list. *)
Definition demo_leaf : Z := mkpte 0x87fff000 (Z.lor (Z.lor PTE_R PTE_W) PTE_U).
Definition demo_mapped : kstate :=
  KState (st64 (st64 (st64 ∅ 0x87ffc000 (Z.lor (PA2PTE 0x87ffd000) PTE_V))
                     0x87ffd000 (Z.lor (PA2PTE 0x87ffe000) PTE_V))
               0x87ffe000 demo_leaf) 0.
Definition demo_own : gmap Z (list Z) :=
  <[0x87ffc000 := []]> (<[0x87ffd000 := [0]]> {[0x87ffe000 := [0; 0]]}).

Lemma demo_own_inv p path :
  demo_own !! p = Some path ->
  (p = 0x87ffc000 /\ path = []) \/ (p = 0x87ffd000 /\ path = [0]) \/ (p = 0x87ffe000 /\ path = [0; 0]).
Proof.
  unfold demo_own. rewrite !lookup_insert_Some, lookup_singleton_Some. naive_solver.
Qed.

Lemma demo_other_entries p i :
  p ∈ [0x87ffc000; 0x87ffd000; 0x87ffe000] -> 0 < i < 512 -> ld64 (kmem demo_mapped) (p + 8 * i) = 0.
Proof.
  intros Hp Hi. unfold demo_mapped. cbn [kmem].
  rewrite !elem_of_cons, elem_of_nil in Hp.
  assert (forall q, q ∈ [0x87ffc000; 0x87ffd000; 0x87ffe000] -> q + 8 <= p + 8 * i \/ p + 8 * i + 8 <= q) as Hd.
  { intros q. rewrite !elem_of_cons, elem_of_nil. lia. }
  rewrite !ld64_st64_out by (apply or_comm, Hd; set_solver).
  apply ld64_zero. intros x Hx. unfold ld. by rewrite lookup_empty.
Qed.

Lemma demo_mapped_inv : vm_inv demo_mapped [] demo_root demo_own.
Proof.
  split; [|split].
  - split_and!; [repeat apply bytes_ok_stw; apply bytes_ok_empty|done|constructor|constructor].
  - split.
    + reflexivity.
    + intros p path Hp. apply demo_own_inv in Hp as [[-> ->]|[[-> ->]|[-> ->]]];
        (split; [split; [reflexivity|vm_compute; split; congruence]|simpl; lia]).
    + intros p path i Hp Hl Hi Hv. destruct (decide (i = 0)) as [->|Hne].
      * apply demo_own_inv in Hp as [[-> ->]|[[-> ->]|[-> ->]]]; [vm_compute; reflexivity..|simpl in Hl; lia].
      * rewrite demo_other_entries in Hv; [done| |lia].
        apply demo_own_inv in Hp as [[-> ->]|[[-> ->]|[-> ->]]]; set_solver.
  - intros p Hp. set_solver.
Qed.

Lemma uvmunmap_unmaps_witness :
  exists s',
    uvmunmap demo_root 0 1 true (World [] demo_mapped) = Ok tt (World [] s') /\
    vm_inv s' [0x87fff000] demo_root demo_own /\
    (forall va, 0 <= va < MAXVA ->
       pte_of (kmem s') demo_root va = unmap_pages (pte_of (kmem demo_mapped) demo_root) 0 1 va) /\
    (forall q, q mod 4096 = 0 -> demo_own !! q = None -> (true = true -> q ∉ [0x87fff000]) ->
       forall x, q <= x < q + 4096 -> ld (kmem s') x = ld (kmem demo_mapped) x).
Proof.
  apply (uvmunmap_unmaps true [0x87fff000] 0 [] demo_mapped [] demo_root demo_own (not_elem_of_nil _) demo_mapped_inv).
  - reflexivity.
  - lia.
  - change MAXVA with (2^38). simpl. lia.
  - intros [|i] pa Hi; [|discriminate]. injection Hi as <-. vm_compute. repeat split. congruence.
  - intros _. split; [apply NoDup_singleton|]. intros p Hp. apply list_elem_of_singleton in Hp as ->.
    split; [split; [reflexivity|vm_compute; split; congruence]|]. split; [apply not_elem_of_nil|reflexivity].
Defined.
