(* ===== verification/Copy.v ===== *)
(** * copyout and copyin: moving bytes across the user/kernel boundary

    [uaddr m root va] is the physical address a user-accessible virtual
    address translates to.  [copyout] and [copyin] (kernel/vm.c) are shown to
    act byte by byte through that translation, however the range straddles
    pages. *)

From S2P Require Import Prelude Mem CString Riscv Kalloc Vm VmSpec VmProps.

Section copy.
Context {L : Layout} {LO : LayoutOk L}.
Implicit Types (m : mem) (own : gmap Z (list Z)).

(** The physical page of a user-accessible virtual address, 0 if none. *)
Definition utrans m (root va : Z) : Z :=
  let pte := pte_of m root va in
  if (va <? MAXVA) && flag pte PTE_V && flag pte PTE_U then PTE2PA pte else 0.
Definition uaddr m (root va : Z) : Z := utrans m root va + (va - PGROUNDDOWN va).

Lemma pte_of_page m root va va' : PGROUNDDOWN va = PGROUNDDOWN va' -> pte_of m root va = pte_of m root va'.
Proof.
  intros E. assert (forall l, 0 <= l -> PX l va = PX l va') as Hpx.
  { intros l Hl. rewrite <- (PX_page l va), <- (PX_page l va') by done. by rewrite E. }
  unfold pte_of, lookupv. cbn [walkp]. by rewrite !Hpx by lia.
Qed.
Lemma PGROUNDDOWN_same va x : PGROUNDDOWN va <= x < PGROUNDDOWN va + 4096 -> PGROUNDDOWN x = PGROUNDDOWN va.
Proof.
  intros Hx. pose proof (PGROUNDDOWN_bounds va) as [Hb1 Hb2]. pose proof (PGROUNDDOWN_bounds x) as [Hb3 Hb4].
  Z.to_euclidean_division_equations. lia.
Qed.

Lemma utrans_page m root va va' : PGROUNDDOWN va = PGROUNDDOWN va' -> utrans m root va = utrans m root va'.
Proof.
  intros E. unfold utrans. rewrite (pte_of_page m root va va' E).
  replace (va' <? MAXVA) with (va <? MAXVA); [done|].
  pose proof (PGROUNDDOWN_bounds va) as [Hb1 Hb2]. pose proof (PGROUNDDOWN_bounds va') as [Hb3 _].
  change MAXVA with (2^38). apply eq_true_iff_eq. rewrite !Z.ltb_lt.
  Z.to_euclidean_division_equations. lia.
Qed.

Lemma utrans_aligned m root va : utrans m root va mod 4096 = 0.
Proof. unfold utrans. destruct (_ && _); [apply PTE2PA_aligned|done]. Qed.

Lemma walkaddr_run root own va h s :
  pt_inv (kmem s) root own -> walkaddr root va (World h s) = Ok (utrans (kmem s) root va) (World h s).
Proof.
  intros Hpt. unfold walkaddr, utrans. rewrite Z.leb_antisym. destruct (Z.ltb_spec va MAXVA) as [Hva|]; [|done].
  cbn [negb andb]. rewrite (bind_run _ _ _ _ _ (walk_false root va h s Hva)).
  unfold pte_of, lookupv. destruct (walkp (kmem s) 2 root va) as [a|] eqn:Hw; [|done].
  pose proof (walkp_pos s root own 2 root va a Hpt (le_n 2) (pt_root _ _ _ Hpt) Hw).
  cbn [default from_option id]. destruct (Z.eqb_spec a 0); [lia|]. unfold load_pte. rewrite gets_run.
  destruct (flag (ld64 (kmem s) a) PTE_V); [|done]. by destruct (flag (ld64 (kmem s) a) PTE_U).
Qed.

Lemma utrans_max m root va : utrans m root va <> 0 -> va < MAXVA.
Proof. unfold utrans. destruct (Z.ltb_spec va MAXVA); [done|]. simpl. done. Qed.

(** Every byte of the range is user-accessible and none lies in a table page. *)
Definition user_range m root own (va len : Z) : Prop := forall a, va <= a < va + len ->
  0 <= a /\ utrans m root a <> 0 /\ own !! utrans m root a = None.
(** Distinct virtual pages of the range are distinct physical pages. *)
Definition user_inj m root (va len : Z) : Prop := forall a b, va <= a < va + len -> va <= b < va + len ->
  utrans m root a = utrans m root b -> PGROUNDDOWN a = PGROUNDDOWN b.

Lemma user_range_sub m root own va len va' len' :
  va <= va' -> va' + len' <= va + len -> user_range m root own va len -> user_range m root own va' len'.
Proof. intros H1 H2 Hr a Ha. apply Hr. lia. Qed.

(** A store inside one user page keeps the translation. *)
Lemma store_keeps m root own d bs :
  pt_inv m root own -> own !! utrans m root d = None ->
  (d - PGROUNDDOWN d) + Z.of_nat (length bs) <= 4096 ->
  let m' := stn m (uaddr m root d) bs in
  pt_inv m' root own /\ same_off (utrans m root d) 4096 m m' /\ forall va, utrans m' root va = utrans m root va.
Proof.
  intros Hpt Hn Hlen m'. assert (same_off (utrans m root d) 4096 m m') as Hs.
  { intros x Hx. apply ld_stn_out. apply inb_false in Hx. unfold uaddr.
    pose proof (PGROUNDDOWN_bounds d) as [Hb _]. lia. }
  destruct (pt_same_off _ _ _ _ _ Hpt Hs (utrans_aligned m root d) Hn) as [Hpt' Hw].
  split_and!; [done|done|]. intros va. unfold utrans. by rewrite (proj2 (Hw va)).
Qed.

Lemma uaddr_disjoint m root va len a b :
  user_inj m root va len -> va <= a < va + len -> va <= b < va + len ->
  PGROUNDDOWN a <> PGROUNDDOWN b -> uaddr m root a <> uaddr m root b.
Proof.
  intros Hinj Ha Hb Hne E. unfold uaddr in E.
  pose proof (PGROUNDDOWN_bounds a) as [? _]. pose proof (PGROUNDDOWN_bounds b) as [? _].
  destruct (page_disjoint (utrans m root a) (utrans m root b)); try apply utrans_aligned; [|lia|lia].
  intros Et. apply Hne. by apply (Hinj a b).
Qed.

Lemma uaddr_same_page m root d i :
  0 <= i -> (d - PGROUNDDOWN d) + i < 4096 -> uaddr m root (d + i) = uaddr m root d + i.
Proof.
  intros Hi Hlt. pose proof (PGROUNDDOWN_bounds d) as [Hb _]. unfold uaddr.
  assert (PGROUNDDOWN (d + i) = PGROUNDDOWN d) as E by (apply PGROUNDDOWN_same; lia).
  rewrite (utrans_page m root (d + i) d E), E. lia.
Qed.

(** Bytes [src] stored at the translations of [d], [d+1], ... and nothing else. *)
Definition user_written m m' root (d : Z) (src : list Z) : Prop :=
  (forall i b, src !! i = Some b -> ld m' (uaddr m root (d + Z.of_nat i)) = u8 b) /\
  (forall x, (forall i, 0 <= i < Z.of_nat (length src) -> x <> uaddr m root (d + i)) -> ld m' x = ld m x).

Lemma user_written_app m m1 m2 root own d src1 src2 :
  (d - PGROUNDDOWN d) + Z.of_nat (length src1) <= 4096 ->
  (src2 = [] \/ PGROUNDDOWN d + 4096 = d + Z.of_nat (length src1)) ->
  user_inj m root d (Z.of_nat (length (src1 ++ src2))) ->
  user_range m root own d (Z.of_nat (length (src1 ++ src2))) ->
  m1 = stn m (uaddr m root d) src1 -> (forall va, utrans m1 root va = utrans m root va) ->
  user_written m1 m2 root (d + Z.of_nat (length src1)) src2 -> user_written m m2 root d (src1 ++ src2).
Proof.
  intros Hp Hend Hinj Hur Hm1 Htr [Hin Hout].
  assert (forall a, uaddr m1 root a = uaddr m root a) as Hua by (intros a; unfold uaddr; by rewrite Htr).
  rewrite length_app in Hinj. pose proof (PGROUNDDOWN_bounds d) as [Hb _]. split.
  - intros i b Hi. destruct (decide (i < length src1)%nat) as [Hlt|Hge].
    + rewrite lookup_app_l in Hi by done. rewrite Hout.
      * rewrite uaddr_same_page by lia. rewrite Hm1. by apply ld_stn_in.
      * intros j Hj. rewrite Hua. destruct Hend as [->|Hend]; [simpl in Hj; lia|].
        apply (uaddr_disjoint m root _ _ _ _ Hinj); [lia|lia|].
        rewrite (PGROUNDDOWN_same d (d + Z.of_nat i)) by lia.
        pose proof (PGROUNDDOWN_bounds (d + Z.of_nat (length src1) + j)) as [Hb' Ha'].
        pose proof (PGROUNDDOWN_bounds d) as [_ Ha]. Z.to_euclidean_division_equations. lia.
    + rewrite lookup_app_r in Hi by lia. specialize (Hin _ _ Hi). rewrite Hua in Hin. rewrite <- Hin. f_equal.
      f_equal. lia.
  - intros x Hx. rewrite length_app in Hx. rewrite Hout.
    + rewrite Hm1. apply ld_stn_out. intros Hr. apply (Hx (x - uaddr m root d)); [lia|].
      rewrite uaddr_same_page by lia. lia.
    + intros i Hi. rewrite Hua. rewrite <- Z.add_assoc. apply Hx. lia.
Qed.

Lemma uaddr_ne m root va len a b :
  user_inj m root va len -> va <= a < va + len -> va <= b < va + len -> a <> b -> uaddr m root a <> uaddr m root b.
Proof.
  intros Hinj Ha Hb Hne. destruct (decide (PGROUNDDOWN a = PGROUNDDOWN b)) as [E|E]; [|by apply (uaddr_disjoint m root va len)].
  unfold uaddr. rewrite (utrans_page m root a b E), E. lia.
Qed.
(** Two stores one after the other. *)
Lemma user_written_seq m m1 m2 root d src1 src2 :
  user_inj m root d (Z.of_nat (length (src1 ++ src2))) -> (forall va, utrans m1 root va = utrans m root va) ->
  user_written m m1 root d src1 -> user_written m1 m2 root (d + Z.of_nat (length src1)) src2 -> user_written m m2 root d (src1 ++ src2).
Proof.
  intros Hinj Htr [In1 Out1] [In2 Out2]. rewrite length_app in Hinj.
  assert (forall a, uaddr m1 root a = uaddr m root a) as Hua by (intros a; unfold uaddr; by rewrite Htr).
  split.
  - intros i b Hi. destruct (decide (i < length src1)%nat) as [Hlt|Hge].
    + rewrite lookup_app_l in Hi by done. rewrite Out2; [by apply In1|].
      intros j Hj. rewrite Hua. apply (uaddr_ne m root d _ _ _ Hinj); lia.
    + rewrite lookup_app_r in Hi by lia. specialize (In2 _ _ Hi). rewrite Hua in In2. rewrite <- In2. do 2 f_equal. lia.
  - intros x Hx. rewrite length_app in Hx. rewrite Out2; [apply Out1; intros i Hi; apply Hx; lia|].
    intros i Hi. rewrite Hua, <- Z.add_assoc. apply Hx. lia.
Qed.

Lemma copyout_loop_spec fuel : forall d src h s root own,
  (length src < fuel)%nat -> pt_inv (kmem s) root own ->
  user_range (kmem s) root own d (Z.of_nat (length src)) -> user_inj (kmem s) root d (Z.of_nat (length src)) ->
  exists s', copyout_loop fuel root d src (World h s) = Ok 0 (World h s') /\
    freelist s' = freelist s /\ pt_inv (kmem s') root own /\
    (forall va, utrans (kmem s') root va = utrans (kmem s) root va) /\
    user_written (kmem s) (kmem s') root d src.
Proof.
  induction fuel as [|fuel IH]; intros d src h s root own Hf Hpt Hur Hinj; [lia|]. cbn [copyout_loop].
  destruct (Z.ltb_spec 0 (Z.of_nat (length src))) as [Hpos|Hz]; cbn [negb].
  2:{ assert (length src = 0%nat) by lia. destruct src; [|done].
      exists s. split_and!; [done..|]. split; [done|]. by intros. }
  destruct (Hur d ltac:(lia)) as (Hd & Hnz & Hown). pose proof (utrans_max _ _ _ Hnz). pose proof (PGROUNDDOWN_bounds d) as [Hb Hal].
  assert (PGROUNDDOWN (PGROUNDDOWN d) = PGROUNDDOWN d) as Hpp by (by apply PGROUNDDOWN_aligned).
  rewrite (bind_run _ _ _ _ _ (walkaddr_run root own (PGROUNDDOWN d) h s Hpt)).
  rewrite (utrans_page _ _ _ d Hpp). destruct (Z.eqb_spec (utrans (kmem s) root d) 0) as [|_]; [done|].
  rewrite modify_run. unfold upd_mem. change PGSIZE with 4096. fold (uaddr (kmem s) root d).
  set (n := Z.to_nat (Z.min (4096 - (d - PGROUNDDOWN d)) (Z.of_nat (length src)))).
  set (m1 := stn (kmem s) (uaddr (kmem s) root d) (take n src)).
  assert (length (take n src) = n) as Hn by (rewrite length_take; lia).
  destruct (store_keeps (kmem s) root own d (take n src) Hpt Hown ltac:(lia)) as (Hpt1 & _ & Htr).
  fold m1 in Hpt1, Htr. change MAXVA with (2^38) in *. rewrite u64_small by lia.
  assert (drop n src = [] \/ PGROUNDDOWN d + 4096 = d + Z.of_nat n) as Hend.
  { destruct (decide (length src <= n)%nat); [left; by apply drop_ge|right; lia]. }
  assert (forall a, PGROUNDDOWN d + 4096 <= a < PGROUNDDOWN d + 4096 + Z.of_nat (length (drop n src)) ->
            d <= a < d + Z.of_nat (length src)) as Hsub.
  { intros a Ha. rewrite length_drop in Ha. destruct Hend as [E|E]; [|lia].
    apply (f_equal length) in E. rewrite length_drop in E. simpl in E. lia. }
  destruct (IH (PGROUNDDOWN d + 4096) (drop n src) h (KState m1 (freelist s)) root own)
    as (s' & Hrun & Hfl & Hpt' & Htr' & Hwr); cbn [kmem freelist] in *.
  - rewrite length_drop. lia.
  - done.
  - intros a Ha. rewrite Htr. by apply Hur, Hsub.
  - intros a b Ha Hb'. rewrite !Htr. apply Hinj; by apply Hsub.
  - exists s'. split_and!; [exact Hrun|done|done|intros va; by rewrite Htr'|].
    rewrite <- (take_drop n src). eapply (user_written_app _ m1); rewrite ?take_drop, ?Hn; try done; try lia.
    destruct Hend as [E|<-]; [|done]. rewrite E in *. destruct Hwr as [_ Hwr]. split; [done|].
    intros x _. apply Hwr. intros i Hi. simpl in Hi. lia.
Qed.

(** The [n] bytes a user program sees at [va]. *)
Definition user_bytes m root (va : Z) (n : nat) : list Z :=
  (fun i => ld m (uaddr m root (va + i))) <$> seqZ 0 (Z.of_nat n).

Lemma length_user_bytes m root va n : length (user_bytes m root va n) = n.
Proof. unfold user_bytes. rewrite length_fmap, length_seqZ. lia. Qed.

Lemma lookup_user_bytes m root va n i :
  (i < n)%nat -> user_bytes m root va n !! i = Some (ld m (uaddr m root (va + Z.of_nat i))).
Proof. intros Hi. unfold user_bytes. rewrite list_lookup_fmap, lookup_seqZ_nth by done. done. Qed.

Lemma user_bytes_app m root va n k :
  user_bytes m root va (n + k) = user_bytes m root va n ++ user_bytes m root (va + Z.of_nat n) k.
Proof.
  apply list_eq. intros i. destruct (decide (i < n + k)%nat) as [Hi|Hi].
  - rewrite lookup_user_bytes by done. destruct (decide (i < n)%nat).
    + rewrite lookup_app_l by (rewrite length_user_bytes; lia). by rewrite lookup_user_bytes.
    + rewrite lookup_app_r by (rewrite length_user_bytes; lia). rewrite length_user_bytes.
      rewrite lookup_user_bytes by lia. do 3 f_equal. lia.
  - rewrite !lookup_ge_None_2; [done| |]; rewrite ?length_app, ?length_user_bytes; lia.
Qed.

(** Within one page the bytes are contiguous in physical memory. *)
Lemma user_bytes_page m root va n :
  (va - PGROUNDDOWN va) + Z.of_nat n <= 4096 -> user_bytes m root va n = ldn m (uaddr m root va) n.
Proof.
  intros Hn. apply list_eq. intros i. destruct (decide (i < n)%nat) as [Hi|Hi].
  - rewrite lookup_user_bytes, lookup_ldn by done. rewrite uaddr_same_page by lia. done.
  - rewrite !lookup_ge_None_2; [done| |]; rewrite ?length_ldn, ?length_user_bytes; lia.
Qed.

Lemma user_bytes_written m m' root d src :
  Forall (fun b => 0 <= b < 256) src -> (forall va, utrans m' root va = utrans m root va) ->
  user_written m m' root d src -> user_bytes m' root d (length src) = src.
Proof.
  intros Hb Htr [Hin _]. apply list_eq. intros i. destruct (decide (i < length src)%nat) as [Hi|Hi].
  - rewrite lookup_user_bytes by done. destruct (lookup_lt_is_Some_2 src i Hi) as [b Eb].
    assert (uaddr m' root (d + Z.of_nat i) = uaddr m root (d + Z.of_nat i)) as -> by (unfold uaddr; by rewrite Htr).
    rewrite (Hin i b Eb), Eb. f_equal. apply u8_small. exact (proj1 (Forall_lookup _ _) Hb i b Eb).
  - rewrite !lookup_ge_None_2; [done| |]; rewrite ?length_user_bytes; lia.
Qed.

Lemma copyin_loop_spec fuel : forall va len dst h s root own,
  (Z.to_nat len < fuel)%nat -> pt_inv (kmem s) root own ->
  (forall a, va <= a < va + len -> 0 <= a /\ utrans (kmem s) root a <> 0) ->
  copyin_loop fuel root va len dst (World h s)
  = Ok (0, dst ++ user_bytes (kmem s) root va (Z.to_nat len)) (World h s).
Proof.
  induction fuel as [|fuel IH]; intros va len dst h s root own Hf Hpt Hur; [lia|]. cbn [copyin_loop].
  destruct (Z.ltb_spec 0 len) as [Hpos|Hz]; cbn [negb].
  2:{ replace (Z.to_nat len) with O by lia. by rewrite app_nil_r. }
  destruct (Hur va ltac:(lia)) as (Hd & Hnz). pose proof (utrans_max _ _ _ Hnz).
  pose proof (PGROUNDDOWN_bounds va) as [Hb Hal].
  assert (PGROUNDDOWN (PGROUNDDOWN va) = PGROUNDDOWN va) as Hpp by (by apply PGROUNDDOWN_aligned).
  rewrite (bind_run _ _ _ _ _ (walkaddr_run root own (PGROUNDDOWN va) h s Hpt)).
  rewrite (utrans_page _ _ _ va Hpp). destruct (Z.eqb_spec (utrans (kmem s) root va) 0) as [|_]; [done|].
  rewrite gets_run. change PGSIZE with 4096. fold (uaddr (kmem s) root va). change MAXVA with (2^38) in *.
  rewrite u64_small by lia. set (n := Z.min (4096 - (va - PGROUNDDOWN va)) len).
  rewrite <- user_bytes_page by lia. rewrite (IH _ _ _ _ _ _ own); [|lia|done|].
  - do 2 f_equal. rewrite <- (assoc_L (++)). f_equal.
    replace (Z.to_nat len) with (Z.to_nat n + Z.to_nat (len - n))%nat by lia. rewrite user_bytes_app. f_equal.
    destruct (decide (len = n)) as [E|E]; [by replace (Z.to_nat (len - n)) with O by lia|].
    f_equal. lia.
  - intros a Ha. apply Hur. lia.
Qed.

(** A page of the range that the user may not access stops the copy. *)
Lemma copyin_loop_fault fuel : forall va len dst h s root own a,
  (Z.to_nat len < fuel)%nat -> pt_inv (kmem s) root own -> 0 <= va ->
  va <= a < va + len -> utrans (kmem s) root a = 0 ->
  exists bs, copyin_loop fuel root va len dst (World h s) = Ok (-1, bs) (World h s).
Proof.
  induction fuel as [|fuel IH]; intros va len dst h s root own a Hf Hpt Hva0 Ha Hz; [lia|]. cbn [copyin_loop].
  destruct (Z.ltb_spec 0 len) as [Hpos|]; [|lia]; cbn [negb]. pose proof (PGROUNDDOWN_bounds va) as [Hb Hal].
  assert (PGROUNDDOWN (PGROUNDDOWN va) = PGROUNDDOWN va) as Hpp by (by apply PGROUNDDOWN_aligned).
  rewrite (bind_run _ _ _ _ _ (walkaddr_run root own (PGROUNDDOWN va) h s Hpt)).
  rewrite (utrans_page _ _ _ va Hpp). destruct (Z.eqb_spec (utrans (kmem s) root va) 0) as [|Hnz]; [eauto|].
  pose proof (utrans_max _ _ _ Hnz). rewrite gets_run. change PGSIZE with 4096. change MAXVA with (2^38) in *.
  rewrite u64_small by lia. set (n := Z.min (4096 - (va - PGROUNDDOWN va)) len).
  assert (PGROUNDDOWN va + 4096 <= a) as Hge.
  { destruct (decide (PGROUNDDOWN va + 4096 <= a)) as [|Hlt]; [done|]. exfalso. apply Hnz.
    rewrite <- Hz. apply utrans_page. symmetry. apply PGROUNDDOWN_same. lia. }
  apply (IH _ _ _ _ _ _ own a); [lia|done|lia|lia|done].
Qed.

(** ** Copies of one byte, as the byte-at-a-time loops of the kernel make them *)

Definition ubyte m (root va : Z) : option Z :=
  if utrans m root va =? 0 then None else Some (ld m (uaddr m root va)).

Lemma PGROUNDDOWN_idem va : PGROUNDDOWN (PGROUNDDOWN va) = PGROUNDDOWN va.
Proof. apply PGROUNDDOWN_aligned, PGROUNDDOWN_bounds. Qed.

Lemma copyin_byte root own va h s :
  pt_inv (kmem s) root own ->
  copyin root va 1 (World h s)
  = Ok (match ubyte (kmem s) root va with Some b => (0, [b]) | None => (-1, []) end) (World h s).
Proof.
  intros Hpt. unfold copyin. change (S (Z.to_nat 1)) with 2%nat. cbn [copyin_loop].
  change (negb (0 <? 1)) with false. cbv iota.
  rewrite (bind_run _ _ _ _ _ (walkaddr_run root own (PGROUNDDOWN va) h s Hpt)).
  rewrite (utrans_page _ _ _ va (PGROUNDDOWN_idem va)). unfold ubyte.
  destruct (Z.eqb_spec (utrans (kmem s) root va) 0) as [|_]; [done|]. rewrite gets_run.
  pose proof (PGROUNDDOWN_bounds va) as [Hb _]. change PGSIZE with 4096. rewrite Z.min_r by lia. done.
Qed.

Lemma copyout_byte root own va b h s :
  pt_inv (kmem s) root own ->
  copyout root va [b] (World h s)
  = if utrans (kmem s) root va =? 0 then Ok (-1) (World h s)
    else Ok 0 (World h (KState (st8 (kmem s) (uaddr (kmem s) root va) b) (freelist s))).
Proof.
  intros Hpt. unfold copyout. cbn [length]. cbn [copyout_loop length].
  change (negb (0 <? Z.of_nat 1)) with false. cbv iota.
  rewrite (bind_run _ _ _ _ _ (walkaddr_run root own (PGROUNDDOWN va) h s Hpt)).
  rewrite (utrans_page _ _ _ va (PGROUNDDOWN_idem va)).
  destruct (Z.eqb_spec (utrans (kmem s) root va) 0) as [|_]; [done|]. rewrite modify_run.
  pose proof (PGROUNDDOWN_bounds va) as [Hb _]. change PGSIZE with 4096. rewrite Z.min_r by lia. done.
Qed.

(** The user bytes a byte-at-a-time loop stores from [addr + i], one [copyout] each. *)
Fixpoint user_store (m : mem) (root addr i : Z) (bs : list Z) : mem :=
  match bs with
  | [] => m
  | b :: bs => user_store (st8 m (uaddr m root (u64 (addr + i))) b) root addr (i + 1) bs
  end.

(** User pages are never table pages. *)
Definition user_safe m root own : Prop := forall va, utrans m root va <> 0 -> own !! utrans m root va = None.

Lemma user_store_keeps m root own va b :
  pt_inv m root own -> user_safe m root own -> utrans m root va <> 0 ->
  let m' := st8 m (uaddr m root va) b in
  pt_inv m' root own /\ user_safe m' root own /\ forall va', utrans m' root va' = utrans m root va'.
Proof.
  intros Hpt Hus Hnz m'. pose proof (PGROUNDDOWN_bounds va) as [Hb _].
  destruct (store_keeps m root own va [b] Hpt (Hus va Hnz)) as (Hpt' & _ & Htr); [simpl; lia|].
  split_and!; [done| |done]. intros va' Hva'. change m' with (stn m (uaddr m root va) [b]) in *.
  rewrite Htr in *. by apply Hus.
Qed.
End copy.

(** ** Theorems *)

Section copy_theorems.
Context {L : Layout} {LO : LayoutOk L}.

(** C5: [copyout] into a range the user may access, whatever pages it spans,
    stores exactly the bytes of [src] at the translations of the range and
    nothing else, and a later [copyin] of the range reads [src] back. *)
Theorem copyout_copyin (h : list lockid) (s : kstate) (root : Z) own (d : Z) (src : list Z) :
  pt_inv (kmem s) root own -> Forall (fun b => 0 <= b < 256) src ->
  user_range (kmem s) root own d (Z.of_nat (length src)) -> user_inj (kmem s) root d (Z.of_nat (length src)) ->
  exists s', copyout root d src (World h s) = Ok 0 (World h s') /\
    user_written (kmem s) (kmem s') root d src /\
    copyin root d (Z.of_nat (length src)) (World h s') = Ok (0, src) (World h s').
Proof.
  intros Hpt Hb Hur Hinj. unfold copyout, copyin.
  destruct (copyout_loop_spec (S (length src)) d src h s root own ltac:(lia) Hpt Hur Hinj)
    as (s' & Hrun & _ & Hpt' & Htr & Hwr).
  exists s'. split_and!; [done|done|]. rewrite (copyin_loop_spec _ _ _ _ _ _ _ own); [|lia|done|].
  - rewrite app_nil_l, Nat2Z.id. by rewrite (user_bytes_written _ _ _ _ _ Hb Htr Hwr).
  - intros a Ha. destruct (Hur a Ha) as (? & ? & _). by rewrite Htr.
Qed.

(** [copyin] of a range with any page the user may not read (unmapped,
    without PTE_U, or beyond MAXVA) returns -1 and changes nothing. *)
Theorem copyin_fault (h : list lockid) (s : kstate) (root : Z) own (va len a : Z) :
  pt_inv (kmem s) root own -> 0 <= va -> va <= a < va + len -> utrans (kmem s) root a = 0 ->
  exists bs, copyin root va len (World h s) = Ok (-1, bs) (World h s).
Proof. intros Hpt Hva Ha Hz. apply (copyin_loop_fault _ _ _ _ _ _ _ own a); [lia|done..]. Qed.
End copy_theorems.

Lemma demo_utrans a : 0 <= a < 4096 -> utrans (kmem demo_mapped) demo_root a = 0x87fff000.
Proof.
  intros Ha. rewrite (utrans_page _ _ a 0); [vm_compute; reflexivity|].
  rewrite PGROUNDDOWN_eq. change (PGROUNDDOWN 0) with 0. rewrite Z.mod_small by lia. lia.
Qed.

Lemma copyout_copyin_witness :
  exists s', copyout demo_root 16 [1; 2; 3] (World [] demo_mapped) = Ok 0 (World [] s') /\
    user_written (kmem demo_mapped) (kmem s') demo_root 16 [1; 2; 3] /\
    copyin demo_root 16 3 (World [] s') = Ok (0, [1; 2; 3]) (World [] s').
Proof.
  apply (copyout_copyin [] demo_mapped demo_root demo_own 16 [1; 2; 3] (proj1 (proj2 demo_mapped_inv))).
  - repeat constructor; lia.
  - intros a Ha. simpl in Ha. rewrite demo_utrans by lia. split_and!; [lia|lia|reflexivity].
  - intros a b Ha Hb _. simpl in Ha, Hb. rewrite !PGROUNDDOWN_eq, !Z.mod_small by lia. lia.
Defined.

(** A read that starts in the mapped page and runs into the next one. *)
Lemma copyin_fault_witness :
  exists bs, copyin demo_root 4090 10 (World [] demo_mapped) = Ok (-1, bs) (World [] demo_mapped).
Proof.
  apply (copyin_fault [] demo_mapped demo_root demo_own 4090 10 4096 (proj1 (proj2 demo_mapped_inv)));
    [lia|lia|]. vm_compute. reflexivity.
Defined.

Lemma demo_pte va : pte_of (kmem demo_mapped) demo_root va = demo_leaf \/ pte_of (kmem demo_mapped) demo_root va = 0.
Proof.
  unfold pte_of, lookupv. cbn [walkp]. pose proof (PX_range 2 va). pose proof (PX_range 1 va). pose proof (PX_range 0 va).
  change (Z.of_nat 2) with 2. change (Z.of_nat 1) with 1.
  destruct (decide (PX 2 va = 0)) as [E2|E2]; [rewrite E2|rewrite demo_other_entries by (set_solver || lia); by right].
  replace (ld64 (kmem demo_mapped) (demo_root + 8 * 0)) with (Z.lor (PA2PTE 0x87ffd000) PTE_V) by (vm_compute; reflexivity).
  change (flag (Z.lor (PA2PTE 0x87ffd000) PTE_V) PTE_V) with true. cbv iota.
  change (PTE2PA (Z.lor (PA2PTE 0x87ffd000) PTE_V)) with 0x87ffd000.
  destruct (decide (PX 1 va = 0)) as [E1|E1]; [rewrite E1|rewrite demo_other_entries by (set_solver || lia); by right].
  replace (ld64 (kmem demo_mapped) (0x87ffd000 + 8 * 0)) with (Z.lor (PA2PTE 0x87ffe000) PTE_V) by (vm_compute; reflexivity).
  change (flag (Z.lor (PA2PTE 0x87ffe000) PTE_V) PTE_V) with true. cbv iota.
  change (PTE2PA (Z.lor (PA2PTE 0x87ffe000) PTE_V)) with 0x87ffe000.
  destruct (decide (PX 0 va = 0)) as [E0|E0]; [rewrite E0|rewrite demo_other_entries by (set_solver || lia); by right].
  left. vm_compute. reflexivity.
Qed.

Lemma demo_user_safe : user_safe (kmem demo_mapped) demo_root demo_own.
Proof.
  intros va Hva. assert (utrans (kmem demo_mapped) demo_root va = 0x87fff000) as ->; [|reflexivity].
  revert Hva. unfold utrans. destruct (demo_pte va) as [-> | ->].
  - destruct (va <? MAXVA); [reflexivity|done].
  - destruct (va <? MAXVA); done.
Qed.
