(* ===== verification/Pipe.v ===== *)
(** * kernel/pipe.c: pipes

    A pipe's bytes live in a ring of [PIPESIZE] bytes indexed by two free
    running [uint] counters.  [pipewrite] and [piperead] hold [pi->lock]
    except while they sleep, so an execution of either is a sequence of
    *runs*, each from an acquisition of the lock to the return or to a
    [sleep]; a run is one atomic transition of the pipe, and runs of other
    threads come between.  [Slept i] is a run that ended in [sleep]; the
    thread resumes with [pipewrite_resume i] (or [piperead] again, whose wait
    loop starts over).  [killed i] is the value of [pr->killed] when it is
    tested with [i] bytes transferred: other CPUs set it without the lock. *)

From S2P Require Import Prelude Ring Mem CString Riscv Kalloc Vm VmSpec VmProps Copy.

Definition PIPESIZE : Z := 512.

Record pipe : Type := Pipe {
  pdata : list Z;
  nread : Z;             (* number of bytes read, a uint *)
  nwrite : Z;            (* number of bytes written, a uint *)
  readopen : bool;
  writeopen : bool
}.

(** The pipe at page [paddr], physical memory, and the channels that were
    woken, latest first. *)
Record pst : Type := PSt { pk : kstate; paddr : Z; pi : pipe; wakes : list lockid }.

Definition set_pk (k : kstate) (s : pst) : pst := PSt k (paddr s) (pi s) (wakes s).
Definition upd_pi (f : pipe -> pipe) (s : pst) : pst := PSt (pk s) (paddr s) (f (pi s)) (wakes s).

Definition pi_lock (a : Z) : lockid := ("pipe"%string, a).
Definition chan_nread (a : Z) : lockid := ("pipe.nread"%string, a).
Definition chan_nwrite (a : Z) : lockid := ("pipe.nwrite"%string, a).

Definition wakeup (c : lockid) : M pst unit :=
  modify (fun s => PSt (pk s) (paddr s) (pi s) (c :: wakes s)).

Inductive run : Type := Done (r : Z) | Slept (i : Z).
#[export] Instance run_eq_dec : EqDecision run.
Proof. solve_decision. Defined.

Definition set_readopen (b : bool) (p : pipe) : pipe := Pipe (pdata p) (nread p) (nwrite p) b (writeopen p).
Definition set_writeopen (b : bool) (p : pipe) : pipe := Pipe (pdata p) (nread p) (nwrite p) (readopen p) b.

(** [pi->data[pi->nwrite++ % PIPESIZE] = ch] *)
Definition put_byte (ch : Z) (p : pipe) : pipe :=
  Pipe (poke PIPESIZE (pdata p) (nwrite p) ch) (nread p) (u32 (nwrite p + 1))
       (readopen p) (writeopen p).
(** [ch = pi->data[pi->nread++ % PIPESIZE]] *)
Definition get_byte (p : pipe) : Z := peek PIPESIZE (pdata p) (nread p).
Definition take_byte (p : pipe) : pipe :=
  Pipe (pdata p) (u32 (nread p + 1)) (nwrite p) (readopen p) (writeopen p).

(** The pipe half of [pipealloc]: the fields it sets in a fresh page. *)
Definition pipe_init (data : list Z) : pipe := Pipe data 0 0 true true.

Section pipe_ops.
Context {L : Layout}.

Definition pipeclose (writable : bool) : M pst unit :=
  a ← gets paddr;
  acquire (pi_lock a);;
  (if writable then modify (upd_pi (set_writeopen false));; wakeup (chan_nread a)
   else modify (upd_pi (set_readopen false));; wakeup (chan_nwrite a));;
  p ← gets pi;
  if negb (readopen p) && negb (writeopen p)
  then release (pi_lock a);; zoom pk set_pk (kfree a)
  else release (pi_lock a).

Definition pipewrite_end (a i : Z) : M pst run :=
  wakeup (chan_nread a);;
  release (pi_lock a);;
  mret (Done i).

Fixpoint pipewrite_loop (fuel : nat) (killed : Z -> bool) (pagetable a addr i n : Z) : M pst run :=
  match fuel with
  | O => spin
  | S fuel =>
      if negb (i <? n) then pipewrite_end a i else
      p ← gets pi;
      if negb (readopen p) || killed i then release (pi_lock a);; mret (Done (-1)) else
      if nwrite p =? u32 (nread p + PIPESIZE) then
        wakeup (chan_nread a);;
        release (pi_lock a);;                       (* sleep(&pi->nwrite, &pi->lock) *)
        mret (Slept i)
      else
        r ← zoom pk set_pk (copyin pagetable (u64 (addr + i)) 1);
        if fst r =? -1 then pipewrite_end a i else
        modify (upd_pi (put_byte (default 0 (head (snd r)))));;
        pipewrite_loop fuel killed pagetable a addr (i + 1) n
  end.
(** Each turn that does not end the run writes one byte. *)
Definition pipewrite_resume (killed : Z -> bool) (pagetable addr n i : Z) : M pst run :=
  a ← gets paddr;
  acquire (pi_lock a);;
  pipewrite_loop (S (Z.to_nat (n - i))) killed pagetable a addr i n.
Definition pipewrite (killed : Z -> bool) (pagetable addr n : Z) : M pst run :=
  pipewrite_resume killed pagetable addr n 0.

Fixpoint piperead_copy (fuel : nat) (pagetable addr i n : Z) : M pst Z :=
  match fuel with
  | O => spin
  | S fuel =>
      if negb (i <? n) then mret i else
      p ← gets pi;
      if nread p =? nwrite p then mret i else
      let ch := get_byte p in
      modify (upd_pi take_byte);;
      r ← zoom pk set_pk (copyout pagetable (u64 (addr + i)) [ch]);
      if r =? -1 then mret i
      else piperead_copy fuel pagetable addr (i + 1) n
  end.
Definition piperead (killed : bool) (pagetable addr n : Z) : M pst run :=
  a ← gets paddr;
  acquire (pi_lock a);;
  p ← gets pi;
  if (nread p =? nwrite p) && writeopen p then
    (if killed then release (pi_lock a);; mret (Done (-1))
     else release (pi_lock a);; mret (Slept 0))      (* sleep(&pi->nread, &pi->lock) *)
  else
    i ← piperead_copy (S (Z.to_nat n)) pagetable addr 0 n;
    wakeup (chan_nwrite a);;
    release (pi_lock a);;
    mret (Done i).

End pipe_ops.

(** ** The ring as a queue *)

Definition count (p : pipe) : Z := Ring.count 32 (nread p) (nwrite p).

Definition pipe_ok (p : pipe) : Prop :=
  length (pdata p) = 512%nat /\ 0 <= nread p < 2^32 /\ 0 <= nwrite p < 2^32 /\ count p <= PIPESIZE.

(** The bytes in the pipe, oldest first. *)
Definition contents (p : pipe) : list Z := Ring.contents 32 PIPESIZE (pdata p) (nread p) (nwrite p).

Lemma pipe_ring : 0 < PIPESIZE /\ PIPESIZE < 2^32 /\ (PIPESIZE | 2^32).
Proof. unfold PIPESIZE. split_and!; [lia|lia|]. by exists (2^23). Qed.
#[local] Hint Extern 1 (0 < PIPESIZE) => apply pipe_ring : xv6.
#[local] Hint Extern 1 (PIPESIZE < 2^32) => apply pipe_ring : xv6.
#[local] Hint Extern 1 (PIPESIZE | 2^32) => apply pipe_ring : xv6.

Lemma pipe_count_range p : 0 <= count p < 2^32.
Proof. apply (Ring.count_range 32 PIPESIZE); auto with xv6. Qed.

(** The two tests of the code on the counters. *)
Lemma pipe_empty p : pipe_ok p -> (nread p =? nwrite p) = (count p =? 0).
Proof. intros (_ & Hr & Hw & Hc). apply (empty_test 32 PIPESIZE); auto with xv6. Qed.
Lemma pipe_full p : pipe_ok p -> (nwrite p =? u32 (nread p + PIPESIZE)) = (count p =? PIPESIZE).
Proof. intros (_ & Hr & Hw & Hc). apply (full_test 32 PIPESIZE); auto with xv6. Qed.

Lemma count_put p ch : pipe_ok p -> count p < PIPESIZE -> count (put_byte ch p) = count p + 1.
Proof.
  intros _ Hlt. pose proof (pipe_count_range p). apply (count_move 32 PIPESIZE); auto with xv6.
  cbn [put_byte nread]. unfold count, PIPESIZE in *. lia.
Qed.
Lemma count_take p : pipe_ok p -> 0 < count p -> count (take_byte p) = count p - 1.
Proof.
  intros _ Hlt. pose proof (pipe_count_range p). apply (count_move_r 32 PIPESIZE); auto with xv6.
  cbn [take_byte nwrite]. unfold count in *. lia.
Qed.

Lemma put_ok p ch : pipe_ok p -> count p < PIPESIZE -> pipe_ok (put_byte ch p).
Proof.
  intros Hok Hlt. pose proof (count_put p ch Hok Hlt) as Hc. destruct Hok as (Hl & Hr & Hw & _).
  split_and!; cbn [put_byte pdata nread nwrite]; try (apply Hr || apply u32_range).
  - by rewrite length_poke.
  - rewrite Hc. lia.
Qed.
Lemma take_ok p : pipe_ok p -> 0 < count p -> pipe_ok (take_byte p).
Proof.
  intros Hok Hlt. pose proof (count_take p Hok Hlt) as Hc. destruct Hok as (Hl & Hr & Hw & Hc').
  split_and!; cbn [take_byte pdata nread nwrite]; try (apply Hw || apply u32_range); [done|].
  rewrite Hc. lia.
Qed.

(** Writing appends at the end of the queue, reading takes the front. *)
Lemma contents_put p ch : pipe_ok p -> count p < PIPESIZE -> contents (put_byte ch p) = contents p ++ [ch].
Proof. intros (Hl & _) Hlt. apply contents_push; auto with xv6. Qed.
Lemma contents_take p : pipe_ok p -> 0 < count p -> contents p = get_byte p :: contents (take_byte p).
Proof. intros _ Hlt. apply contents_pop; auto with xv6. Qed.

(** ** What a run does *)

Section pipe_runs.
Context {L : Layout} {LO : LayoutOk L}.

(** The bytes [addr + i, ..., addr + i + k - 1) of user memory, if readable. *)
Fixpoint user_src (m : mem) (root addr i : Z) (k : nat) : option (list Z) :=
  match k with
  | O => Some []
  | S k => b ← ubyte m root (u64 (addr + i)); bs ← user_src m root addr (i + 1) k; mret (b :: bs)
  end.

Lemma zoom_run {A} (m : M kstate A) a h s k :
  m (World h (pk s)) = Ok a (World h k) -> zoom pk set_pk m (World h s) = Ok a (World h (set_pk k s)).
Proof. intros Hm. unfold zoom. cbn [held st]. by rewrite Hm. Qed.

Lemma set_pk_same s : set_pk (pk s) s = s.
Proof. by destruct s. Qed.

(** How a run of [pipewrite] may end, with [k] bytes written from index [i]. *)
Definition write_end (killed : Z -> bool) (m : mem) (root addr i n : Z) (k : nat) (p' : pipe) (r : run) : Prop :=
  let j := i + Z.of_nat k in
  match r with
  | Slept j' => j' = j /\ j < n /\ count p' = PIPESIZE /\ readopen p' = true /\ killed j = false
  | Done r => r = j /\ (n <= j \/ j < n /\ ubyte m root (u64 (addr + j)) = None) \/
              r = -1 /\ j < n /\ (readopen p' = false \/ killed j = true)
  end.

Lemma write_end_cons killed m root addr i n k p' r :
  write_end killed m root addr (i + 1) n k p' r -> write_end killed m root addr i n (S k) p' r.
Proof. unfold write_end. replace (i + 1 + Z.of_nat k) with (i + Z.of_nat (S k)) by lia. done. Qed.

(** What a run of [pipewrite] from index [i] does to the pipe. *)
Definition write_post killed root addr i n h (s : pst) (o : outcome pst run) : Prop :=
  exists r s' k bs,
    o = Ok r (World h s') /\ user_src (kmem (pk s)) root addr i k = Some bs /\
    pk s' = pk s /\ paddr s' = paddr s /\ pipe_ok (pi s') /\ contents (pi s') = contents (pi s) ++ bs /\
    readopen (pi s') = readopen (pi s) /\ writeopen (pi s') = writeopen (pi s) /\
    wakes s' = (if decide (r = Done (-1)) then [] else [chan_nread (paddr s)]) ++ wakes s /\
    write_end killed (kmem (pk s)) root addr i n k (pi s') r.

Lemma write_stop killed root addr i n h s r s' :
  pipe_ok (pi s) -> pk s' = pk s -> paddr s' = paddr s -> pi s' = pi s ->
  wakes s' = (if decide (r = Done (-1)) then [] else [chan_nread (paddr s)]) ++ wakes s ->
  write_end killed (kmem (pk s)) root addr i n 0 (pi s) r ->
  write_post killed root addr i n h s (Ok r (World h s')).
Proof. intros Hok E1 E2 E3 E4 He. exists r, s', O, []. rewrite E1, E2, E3, E4, app_nil_r. split_and!; done. Qed.

Lemma write_more killed root addr i n h s b o :
  pipe_ok (pi s) -> count (pi s) < PIPESIZE -> ubyte (kmem (pk s)) root (u64 (addr + i)) = Some b ->
  write_post killed root addr (i + 1) n h (upd_pi (put_byte b) s) o -> write_post killed root addr i n h s o.
Proof.
  intros Hok Hlt Hb (r & s' & k & bs & Hrun & Hsrc & E1 & E2 & Hok' & Hc & Hro' & Hwo' & Hwk & He).
  exists r, s', (S k), (b :: bs).
  split_and!; [exact Hrun| |done|done|done| |done|done|done|by apply write_end_cons].
  - cbn [user_src]. rewrite Hb. cbn. cbn [upd_pi pk] in Hsrc. by rewrite Hsrc.
  - rewrite Hc. cbn [upd_pi pi]. rewrite contents_put by done. by rewrite <- (assoc_L (++)).
Qed.

Lemma pipewrite_loop_spec fuel : forall killed root own addr i n h s,
  pt_inv (kmem (pk s)) root own -> pipe_ok (pi s) -> (pi_lock (paddr s) ∉ h) -> 0 <= i -> (Z.to_nat (n - i) < fuel)%nat ->
  write_post killed root addr i n h s
    (pipewrite_loop fuel killed root (paddr s) addr i n (World (pi_lock (paddr s) :: h) s)).
Proof.
  induction fuel as [|fuel IH]; intros killed root own addr i n h s Hpt Hok Hh Hi Hf; [lia|]. cbn [pipewrite_loop].
  assert (forall w, w = (if decide (Done i = Done (-1)) then [] else [chan_nread (paddr s)]) ++ wakes s <-> w = chan_nread (paddr s) :: wakes s) as Hwk.
  { intros w. rewrite decide_False by (intros [=]; lia). done. }
  unfold pipewrite_end, wakeup.
  destruct (Z.ltb_spec i n) as [Hin|Hin]; cbn [negb].
  2:{ repeat mstep. apply write_stop; [done|done|done|done|by apply Hwk|]. left. simpl. lia. }
  mstep. destruct (readopen (pi s)) eqn:Hro; cbn [negb orb].
  2:{ repeat mstep. apply write_stop; [done..|]. right. simpl. split_and!; [done|lia|by left]. }
  destruct (killed i) eqn:Hk.
  { repeat mstep. apply write_stop; [done..|]. right. simpl. rewrite Z.add_0_r. split_and!; [done|lia|by right]. }
  rewrite pipe_full by done. destruct (Z.eqb_spec (count (pi s)) PIPESIZE) as [Hfull|Hroom].
  { repeat mstep. apply write_stop; [done..|]. simpl. rewrite Z.add_0_r. done. }
  rewrite (bind_run _ _ _ _ _ (zoom_run _ _ _ s _ (copyin_byte root own (u64 (addr + i)) _ _ Hpt))).
  rewrite set_pk_same. destruct (ubyte (kmem (pk s)) root (u64 (addr + i))) as [b|] eqn:Hb.
  2:{ change (fst (-1, @nil Z) =? -1) with true. cbv iota. repeat mstep. apply write_stop; [done|done|done|done|by apply Hwk|].
      left. simpl. rewrite Z.add_0_r. split; [done|by right]. }
  change (fst (0, [b]) =? -1) with false. cbv iota. mstep.
  assert (count (pi s) < PIPESIZE) as Hlt by (destruct Hok as (_ & _ & _ & Hc); lia).
  eapply write_more; [done..|]. apply (IH killed root own addr (i + 1) n h (upd_pi (put_byte b) s));
    [done|by apply put_ok|done|lia|lia].
Qed.

(** [piperead_copy] pops [bs] from the queue, stores it, and stops at [i'];
    when a [copyout] fails it has also popped one byte that goes nowhere. *)
Definition read_post root addr i n h (s : pst) (o : outcome pst Z) : Prop :=
  exists s' bs lost,
    let i' := i + Z.of_nat (length bs) in
    o = Ok i' (World h s') /\
    contents (pi s) = bs ++ lost ++ contents (pi s') /\ kmem (pk s') = user_store (kmem (pk s)) root addr i bs /\
    paddr s' = paddr s /\ pipe_ok (pi s') /\ readopen (pi s') = readopen (pi s) /\ writeopen (pi s') = writeopen (pi s) /\
    wakes s' = wakes s /\
    (lost = [] /\ (n <= i' \/ count (pi s') = 0) \/
     i' < n /\ length lost = 1%nat /\ utrans (kmem (pk s)) root (u64 (addr + i')) = 0).

Lemma read_stop root addr i n h s :
  pipe_ok (pi s) -> n <= i \/ count (pi s) = 0 -> read_post root addr i n h s (Ok i (World h s)).
Proof. intros Hok He. exists s, [], []. simpl. rewrite Z.add_0_r. split_and!; try done. by left. Qed.

Lemma read_more root own addr i n h s o :
  pipe_ok (pi s) -> 0 < count (pi s) -> pt_inv (kmem (pk s)) root own -> user_safe (kmem (pk s)) root own ->
  utrans (kmem (pk s)) root (u64 (addr + i)) <> 0 ->
  let m' := st8 (kmem (pk s)) (uaddr (kmem (pk s)) root (u64 (addr + i))) (get_byte (pi s)) in
  read_post root addr (i + 1) n h (set_pk (KState m' (freelist (pk s))) (upd_pi take_byte s)) o ->
  read_post root addr i n h s o.
Proof.
  intros Hok Hc Hpt Hus Hnz m' (s' & bs & lost & Hrun & Hcont & Hm & Ha & Hok' & Hro & Hwo & Hwk & He).
  destruct (user_store_keeps _ _ _ _ (get_byte (pi s)) Hpt Hus Hnz) as (_ & _ & Htr). fold m' in Htr.
  cbn [set_pk upd_pi pk pi kmem paddr] in *.
  exists s', (get_byte (pi s) :: bs), lost. cbn zeta. cbn [length].
  replace (i + Z.of_nat (S (length bs))) with (i + 1 + Z.of_nat (length bs)) by lia.
  split_and!; [exact Hrun| |exact Hm|exact Ha|exact Hok'|exact Hro|exact Hwo|exact Hwk|by rewrite <- Htr].
  rewrite contents_take by done. rewrite Hcont. done.
Qed.

Lemma piperead_copy_spec fuel : forall root own addr i n h s,
  pt_inv (kmem (pk s)) root own -> user_safe (kmem (pk s)) root own -> pipe_ok (pi s) ->
  (Z.to_nat (n - i) < fuel)%nat ->
  read_post root addr i n h s (piperead_copy fuel root addr i n (World h s)).
Proof.
  induction fuel as [|fuel IH]; intros root own addr i n h s Hpt Hus Hok Hf; [lia|]. cbn [piperead_copy].
  destruct (Z.ltb_spec i n) as [Hin|Hin]; cbn [negb]; [|apply read_stop; auto].
  mstep. rewrite pipe_empty by done.
  destruct (Z.eqb_spec (count (pi s)) 0) as [Hz|Hnz]; [apply read_stop; auto|].
  assert (0 < count (pi s)) as Hpos by (pose proof (pipe_count_range (pi s)); lia). mstep.
  pose proof (copyout_byte root own (u64 (addr + i)) (get_byte (pi s)) h (pk s) Hpt) as Hco.
  destruct (Z.eqb_spec (utrans (kmem (pk s)) root (u64 (addr + i))) 0) as [Hu|Hu];
    rewrite (bind_run _ _ _ _ _ (zoom_run _ _ _ (upd_pi take_byte s) _ Hco)).
  - exists (set_pk (pk s) (upd_pi take_byte s)), [], [get_byte (pi s)]. simpl. rewrite Z.add_0_r.
    split_and!; try done; [by apply contents_take|by apply take_ok|by right].
  - destruct (user_store_keeps _ _ _ _ (get_byte (pi s)) Hpt Hus Hu) as (Hpt' & Hus' & _).
    change (0 =? -1) with false. cbv iota. eapply read_more; [done..|].
    apply (IH root own); cbn [set_pk upd_pi pk pi kmem]; [done|done|by apply take_ok|lia].
Qed.
End pipe_runs.

(** ** Theorems *)

Section pipe_theorems.
Context {L : Layout} {LO : LayoutOk L}.

(** C11: a run of [pipewrite] (from its start or resumed at index [i]) always
    ends, and appends to the queue exactly the next [k] user bytes, never
    overwriting a byte not yet read.  It ends by returning the number of bytes
    written so far (all [n], or up to an unreadable address), by returning -1
    when the read end is closed or the process is killed, or asleep with the
    ring full; except when it returns -1 it has woken the readers. *)
Theorem pipewrite_appends (killed : Z -> bool) (root addr n i : Z) own (h : list lockid) (s : pst) :
  pt_inv (kmem (pk s)) root own -> pipe_ok (pi s) -> pi_lock (paddr s) ∉ h -> 0 <= i ->
  write_post killed root addr i n h s (pipewrite_resume killed root addr n i (World h s)).
Proof.
  intros Hpt Hok Hh Hi. unfold pipewrite_resume. mstep. rewrite acquire_run by done.
  apply (pipewrite_loop_spec _ _ _ own); [done..|lia].
Qed.

(** C12: a run of [piperead] sleeps (or returns -1 if killed) only when the
    pipe is empty and the write end open; otherwise it returns the number of
    bytes it took from the front of the queue and stored in user memory in
    order, stopping at [n], at an empty queue, or at an address that cannot
    be written, in which case one more byte has left the queue; it has then
    woken the writers. *)
Theorem piperead_takes (killed : bool) (root addr n : Z) own (h : list lockid) (s : pst) :
  pt_inv (kmem (pk s)) root own -> user_safe (kmem (pk s)) root own -> pipe_ok (pi s) ->
  pi_lock (paddr s) ∉ h ->
  if (count (pi s) =? 0) && writeopen (pi s)
  then piperead killed root addr n (World h s) = Ok (if killed then Done (-1) else Slept 0) (World h s)
  else exists s' bs lost,
    let i := Z.of_nat (length bs) in
    piperead killed root addr n (World h s) = Ok (Done i) (World h s') /\
    contents (pi s) = bs ++ lost ++ contents (pi s') /\ kmem (pk s') = user_store (kmem (pk s)) root addr 0 bs /\
    pipe_ok (pi s') /\ wakes s' = chan_nwrite (paddr s) :: wakes s /\
    (lost = [] /\ (n <= i \/ count (pi s') = 0) \/
     i < n /\ length lost = 1%nat /\ utrans (kmem (pk s)) root (u64 (addr + i)) = 0).
Proof.
  intros Hpt Hus Hok Hh. unfold piperead. mstep. rewrite acquire_run by done. mstep. rewrite pipe_empty by done.
  destruct ((count (pi s) =? 0) && writeopen (pi s)); [destruct killed; by rewrite release_run|].
  destruct (piperead_copy_spec (S (Z.to_nat n)) root own addr 0 n (pi_lock (paddr s) :: h) s)
    as (s' & bs & lost & Hrun & Hcont & Hm & Ha & Hok' & _ & _ & Hwk & He); [done|done|done|lia|].
  cbn zeta in *. rewrite Z.add_0_l in *. rewrite (bind_run _ _ _ _ _ Hrun). unfold wakeup. mstep.
  rewrite release_run by done. eexists _, bs, lost. cbn [pi pk wakes].
  split_and!; [done|done|done|done|by rewrite Hwk|done].
Qed.

(** [pipeclose] closes one end and wakes the sleepers of the other; the
    page of the pipe goes back to the free list exactly when the other end was
    already closed. *)
Theorem pipeclose_frees (writable : bool) (h : list lockid) (s : pst) (ps : list Z) :
  kmem_inv (pk s) ps -> page_ok (paddr s) -> paddr s ∉ ps -> pi_lock (paddr s) ∉ h -> kmem_lock ∉ h ->
  exists s', pipeclose writable (World h s) = Ok tt (World h s') /\
    readopen (pi s') = (writable && readopen (pi s)) /\
    writeopen (pi s') = (negb writable && writeopen (pi s)) /\
    wakes s' = (if writable then chan_nread (paddr s) else chan_nwrite (paddr s)) :: wakes s /\
    contents (pi s') = contents (pi s) /\
    (if (if writable then readopen (pi s) else writeopen (pi s)) then pk s' = pk s
     else kmem_inv (pk s') (paddr s :: ps) /\ same_off (paddr s) 4096 (kmem (pk s)) (kmem (pk s'))).
Proof.
  intros Hk Hp Hni Hh Hh'. unfold pipeclose, wakeup. mstep. rewrite acquire_run by done.
  destruct (kmem_inv_push (pk s) ps (paddr s) Hk Hp Hni) as [Hk' Hoff].
  destruct writable; rewrite bind_assoc; mstep; mstep; mstep;
    cbn [upd_pi pi set_readopen set_writeopen readopen writeopen negb andb pk paddr wakes].
  - destruct (readopen (pi s)) eqn:Hr; cbn [negb andb].
    + rewrite release_last by done. eexists. split; [done|]. cbn [pi pk wakes readopen writeopen]. split_and!; done || congruence.
    + rewrite release_run by done. rewrite (zoom_run _ _ _ _ _ (kfree_run (paddr s) h _ Hp Hh')).
      eexists. split; [done|]. cbn [set_pk pk pi wakes upd_pi set_writeopen readopen writeopen]. split_and!; done || congruence.
  - destruct (writeopen (pi s)) eqn:Hr; cbn [negb andb].
    + rewrite release_last by done. eexists. split; [done|]. cbn [pi pk wakes readopen writeopen]. split_and!; done || congruence.
    + rewrite release_run by done. rewrite (zoom_run _ _ _ _ _ (kfree_run (paddr s) h _ Hp Hh')).
      eexists. split; [done|]. cbn [set_pk pk pi wakes upd_pi set_writeopen readopen writeopen]. split_and!; done || congruence.
Qed.
End pipe_theorems.

Definition demo_pipe (n : Z) : pipe := Pipe (replicate 512 7) (u32 (-2)) (u32 (-2 + n)) true true.
Definition demo_pst (n : Z) : pst := PSt demo_mapped 0x87ffb000 (demo_pipe n) [].
Lemma demo_pipe_ok n : 0 <= n <= 512 -> pipe_ok (demo_pipe n).
Proof.
  intros Hn. split_and!; cbn [demo_pipe pdata nread nwrite]; try (apply u32_range || apply length_replicate).
  unfold count, Ring.count, wrap, demo_pipe, u32, PIPESIZE. cbn [nread nwrite]. Z.to_euclidean_division_equations. lia.
Qed.

(** A write that crosses the wrap-around of the counters. *)
Lemma pipewrite_appends_witness :
  write_post (fun _ => false) demo_root 0 0 4 [] (demo_pst 1)
    (pipewrite_resume (fun _ => false) demo_root 0 4 0 (World [] (demo_pst 1))).
Proof.
  apply (pipewrite_appends (fun _ => false) demo_root 0 4 0 demo_own).
  - exact (proj1 (proj2 demo_mapped_inv)).
  - apply demo_pipe_ok. lia.
  - apply not_elem_of_nil.
  - lia.
Defined.

Lemma piperead_takes_witness :
  exists s' bs lost,
    let i := Z.of_nat (length bs) in
    piperead false demo_root 0 2 (World [] (demo_pst 5)) = Ok (Done i) (World [] s') /\
    contents (demo_pipe 5) = bs ++ lost ++ contents (pi s') /\
    kmem (pk s') = user_store (kmem demo_mapped) demo_root 0 0 bs /\
    pipe_ok (pi s') /\ wakes s' = [chan_nwrite 0x87ffb000] /\
    (lost = [] /\ (2 <= i \/ count (pi s') = 0) \/
     i < 2 /\ length lost = 1%nat /\ utrans (kmem demo_mapped) demo_root (u64 (0 + i)) = 0).
Proof.
  apply (piperead_takes false demo_root 0 2 demo_own [] (demo_pst 5)).
  - exact (proj1 (proj2 demo_mapped_inv)).
  - exact demo_user_safe.
  - apply demo_pipe_ok. lia.
  - apply not_elem_of_nil.
Defined.

Lemma pipeclose_frees_witness :
  exists s', pipeclose true (World [] (PSt demo_mapped 0x87ffb000 (set_readopen false (demo_pipe 5)) [])) = Ok tt (World [] s') /\
    readopen (pi s') = false /\ writeopen (pi s') = false /\ wakes s' = [chan_nread 0x87ffb000] /\
    contents (pi s') = contents (set_readopen false (demo_pipe 5)) /\
    kmem_inv (pk s') [0x87ffb000] /\ same_off 0x87ffb000 4096 (kmem demo_mapped) (kmem (pk s')).
Proof.
  apply (pipeclose_frees true [] (PSt demo_mapped 0x87ffb000 (set_readopen false (demo_pipe 5)) []) []);
    [exact (proj1 demo_mapped_inv)|split; [reflexivity|vm_compute; split; congruence]|apply not_elem_of_nil..].
Defined.
