(* ===== verification/Spinlock.v ===== *)
(** * kernel/spinlock.c: spinlocks and interrupt nesting

    [hart] is what a CPU's spinlock code touches: its [struct cpu] fields
    [noff] and [intena], the interrupt-enable bit of sstatus, and the lock
    table.  The functions are the source's, run by CPU [me].  Two results:
    the code implements the lock-set view ([Prelude.acquire], [release]) that
    the other components are written against, and, as a step relation in
    which the CPUs interleave at every access to a lock, it gives mutual
    exclusion. *)

From S2P Require Import Prelude.

Record spinlock : Type := Spinlock { locked : Z; lcpu : option nat }.

Record hart : Type := Hart {
  noff : Z;                          (* depth of push_off nesting *)
  intena : bool;                     (* were interrupts enabled before push_off? *)
  sie : bool;                        (* SSTATUS_SIE *)
  locks : gmap lockid spinlock
}.

Inductive sres : Type := SOk (s : hart) | SPanic (msg : string) | SSpin.

Definition get_lock (s : hart) (lk : lockid) : spinlock := default (Spinlock 0 None) (locks s !! lk).
Definition set_lock (lk : lockid) (l : spinlock) (s : hart) : hart :=
  Hart (noff s) (intena s) (sie s) (<[lk := l]> (locks s)).

Definition intr_get (s : hart) : bool := sie s.
Definition intr_off (s : hart) : hart := Hart (noff s) (intena s) false (locks s).
Definition intr_on (s : hart) : hart := Hart (noff s) (intena s) true (locks s).

(** [initlock]: a lock that nobody holds. *)
Definition initlock' (lk : lockid) (s : hart) : hart := set_lock lk (Spinlock 0 None) s.

Definition holding (me : nat) (lk : lockid) (s : hart) : bool :=
  let l := get_lock s lk in negb (locked l =? 0) && bool_decide (lcpu l = Some me).

Definition push_off (s : hart) : hart :=
  let old := intr_get s in
  let s := intr_off s in
  let s := if noff s =? 0 then Hart (noff s) old (sie s) (locks s) else s in
  Hart (noff s + 1) (intena s) (sie s) (locks s).

Definition pop_off (s : hart) : sres :=
  if intr_get s then SPanic "pop_off - interruptible" else
  if noff s <? 1 then SPanic "pop_off" else
  let s := Hart (noff s - 1) (intena s) (sie s) (locks s) in
  if (noff s =? 0) && intena s then SOk (intr_on s) else SOk s.

(** The test-and-set loop ends at once on a free lock and spins on one that
    another CPU holds. *)
Definition acquire_impl (me : nat) (lk : lockid) (s : hart) : sres :=
  let s := push_off s in
  if holding me lk s then SPanic "acquire" else
  if negb (locked (get_lock s lk) =? 0) then SSpin else
  let s := set_lock lk (Spinlock 1 (lcpu (get_lock s lk))) s in
  SOk (set_lock lk (Spinlock (locked (get_lock s lk)) (Some me)) s).

Definition release_impl (me : nat) (lk : lockid) (s : hart) : sres :=
  if negb (holding me lk s) then SPanic "release" else
  let s := set_lock lk (Spinlock (locked (get_lock s lk)) None) s in
  let s := set_lock lk (Spinlock 0 (lcpu (get_lock s lk))) s in
  pop_off s.

(** ** The lock-set view *)

Section lockset.
Context (me : nat).

(** CPU [me] holds exactly the locks in [h]; its interrupts are off while it
    holds any, and will be [intr0] again when it holds none. *)
Record view (intr0 : bool) (h : list lockid) (s : hart) : Prop := {
  view_nodup : NoDup h;
  view_noff : noff s = Z.of_nat (length h);
  view_lock : forall lk, lk ∈ h <-> locked (get_lock s lk) <> 0 /\ lcpu (get_lock s lk) = Some me;
  view_free : forall lk, locked (get_lock s lk) = 0 -> lcpu (get_lock s lk) = None;
  view_intr : match h with [] => sie s = intr0 | _ => sie s = false /\ intena s = intr0 end
}.

Lemma get_set_lock lk l s lk' :
  get_lock (set_lock lk l s) lk' = if decide (lk = lk') then l else get_lock s lk'.
Proof.
  unfold get_lock, set_lock. cbn [locks]. rewrite lookup_insert. by case_decide.
Qed.

Lemma get_lock_eta n i b s lk : get_lock (Hart n i b (locks s)) lk = get_lock s lk.
Proof. done. Qed.

Lemma holding_view intr0 h s lk : view intr0 h s -> holding me lk s = bool_decide (lk ∈ h).
Proof.
  intros Hv. unfold holding. apply eq_true_iff_eq.
  rewrite andb_true_iff, negb_true_iff, Z.eqb_neq, !bool_decide_eq_true, (view_lock _ _ _ Hv). done.
Qed.

Lemma push_off_lock s lk : get_lock (push_off s) lk = get_lock s lk.
Proof. unfold push_off. cbn [noff intr_off]. by destruct (noff s =? 0). Qed.

Lemma push_off_noff s : noff (push_off s) = noff s + 1.
Proof. unfold push_off. cbn [noff intr_off]. by destruct (noff s =? 0). Qed.

Lemma holding_push lk s : holding me lk (push_off s) = holding me lk s.
Proof. unfold holding. by rewrite push_off_lock. Qed.

Lemma acquire_impl_ok intr0 h s lk :
  view intr0 h s -> lk ∉ h -> locked (get_lock s lk) = 0 ->
  exists s', acquire_impl me lk s = SOk s' /\ view intr0 (lk :: h) s' /\
    forall lk', lk' <> lk -> get_lock s' lk' = get_lock s lk'.
Proof.
  intros Hv Hni Hfree. unfold acquire_impl.
  rewrite holding_push, (holding_view intr0 h), bool_decide_eq_false_2, push_off_lock, Hfree by done. cbn [Z.eqb negb].
  eexists. split; [done|]. split.
  - split.
    + constructor; [done|apply Hv].
    + cbn [set_lock noff]. rewrite push_off_noff, (view_noff _ _ _ Hv). simpl length. lia.
    + intros lk'. rewrite !get_set_lock, elem_of_cons. case_decide as E.
      * subst. rewrite decide_True by done. cbn. split; [intros _; split; [lia|done]|by left].
      * rewrite push_off_lock, <- (view_lock _ _ _ Hv). naive_solver.
    + intros lk'. rewrite !get_set_lock. case_decide as E.
      * subst. rewrite decide_True by done. cbn. lia.
      * rewrite push_off_lock. apply Hv.
    + pose proof (view_intr _ _ _ Hv) as Hi. pose proof (view_noff _ _ _ Hv) as Hn.
      unfold push_off. cbn [set_lock noff intena sie intr_off intr_get].
      destruct h as [|x h]; simpl length in Hn; destruct (Z.eqb_spec (noff s) 0); cbn [intena sie]; try lia; auto.
      destruct Hi. auto.
  - intros lk' Hne. rewrite !get_set_lock, !decide_False, push_off_lock by congruence. done.
Qed.

Lemma pop_off_run s :
  sie s = false -> 1 <= noff s ->
  pop_off s = SOk (Hart (noff s - 1) (intena s) ((noff s - 1 =? 0) && intena s) (locks s)).
Proof.
  intros Hs Hn. unfold pop_off, intr_get, intr_on. rewrite Hs. destruct (Z.ltb_spec (noff s) 1); [lia|].
  cbn [noff intena locks]. destruct (noff s - 1 =? 0), (intena s); cbn [andb]; by rewrite ?Hs.
Qed.

Lemma length_drop_lock lk h : NoDup h -> lk ∈ h -> length h = S (length (drop_lock lk h)).
Proof.
  intros Hnd Hin. induction h as [|x h IH]; [set_solver|].
  apply NoDup_cons in Hnd as [Hx Hnd]. apply elem_of_cons in Hin as [->|Hin].
  - by rewrite drop_lock_head.
  - unfold drop_lock in *. rewrite filter_cons_True by set_solver. simpl. rewrite <- IH by done. done.
Qed.

Lemma view_release intr0 h s s' lk :
  view intr0 h s -> lk ∈ h -> noff s' = noff s - 1 -> intena s' = intena s ->
  sie s' = ((noff s - 1 =? 0) && intena s) ->
  (forall lk', get_lock s' lk' = if decide (lk = lk') then Spinlock 0 None else get_lock s lk') ->
  view intr0 (drop_lock lk h) s'.
Proof.
  intros Hv Hin Hn Hi Hs Hget. pose proof (length_drop_lock lk h (view_nodup _ _ _ Hv) Hin) as Hlen.
  rewrite (view_noff _ _ _ Hv) in *. split.
  - apply NoDup_filter, Hv.
  - lia.
  - intros lk'. rewrite Hget. unfold drop_lock. rewrite list_elem_of_filter, (view_lock _ _ _ Hv).
    case_decide as E; [subst; cbn|]; naive_solver.
  - intros lk'. rewrite Hget. case_decide; [done|]. apply Hv.
  - destruct h as [|x h]; [set_solver|]. destruct (view_intr _ _ _ Hv) as [_ Hena].
    rewrite Hs, Hi, Hena. destruct (drop_lock lk (x :: h)); simpl length in *.
    + replace (_ =? 0) with true by (symmetry; apply Z.eqb_eq; lia). done.
    + replace (_ =? 0) with false by (symmetry; apply Z.eqb_neq; lia). done.
Qed.

Lemma release_impl_ok intr0 h s lk :
  view intr0 h s -> lk ∈ h ->
  exists s', release_impl me lk s = SOk s' /\ view intr0 (drop_lock lk h) s' /\
    forall lk', lk' <> lk -> get_lock s' lk' = get_lock s lk'.
Proof.
  intros Hv Hin. unfold release_impl. rewrite (holding_view intr0 h), bool_decide_eq_true_2 by done. cbn [negb].
  assert (sie s = false) as Hsie.
  { destruct h; [set_solver|]. by destruct (view_intr _ _ _ Hv). }
  pose proof (length_drop_lock lk h (view_nodup _ _ _ Hv) Hin) as Hlen. pose proof (view_noff _ _ _ Hv) as Hn.
  rewrite pop_off_run by (cbn [set_lock sie noff]; lia || done). cbn [set_lock noff intena locks].
  rewrite !get_set_lock, !decide_True by done. cbn [lcpu].
  assert (forall n i b l lk', get_lock (Hart n i b (<[lk := Spinlock 0 None]> (<[lk := l]> (locks s)))) lk'
            = if decide (lk = lk') then Spinlock 0 None else get_lock s lk') as Hget.
  { intros. unfold get_lock. cbn [locks]. rewrite lookup_insert. case_decide; [done|]. by rewrite lookup_insert_ne. }
  eexists. split; [done|]. split.
  - eapply view_release; [done|done|done|done|done|]. intros lk'. apply Hget.
  - intros lk' Hne. by rewrite Hget, decide_False by congruence.
Qed.
End lockset.

(** ** Interleaved CPUs

    Each CPU is at one of the points of [acquire] / [release] between two
    accesses to the lock: spinning in the test-and-set loop, past it but with
    [lk->cpu] not yet recorded, or in [release] with [lk->cpu] already
    cleared.  Each rule is one access. *)
Module Smp.

Inductive pc : Type := Idle | Spinning (lk : lockid) | Got (lk : lockid) | Releasing (lk : lockid).

Record smp : Type := {
  slocks : lockid -> spinlock;
  sheld : nat -> list lockid;      (* locks whose critical section the CPU is in *)
  spc : nat -> pc
}.

Definition upd {A B} `{EqDecision A} (f : A -> B) (a : A) (b : B) : A -> B :=
  fun x => if decide (x = a) then b else f x.

(** [holding] on the shared lock. *)
Definition holds (s : smp) (c : nat) (lk : lockid) : Prop :=
  locked (slocks s lk) <> 0 /\ lcpu (slocks s lk) = Some c.

Inductive step : smp -> smp -> Prop :=
| s_enter s c lk :          (* push_off(); if(holding(lk)) panic("acquire"); *)
    spc s c = Idle -> ~ holds s c lk ->
    step s {| slocks := slocks s; sheld := sheld s; spc := upd (spc s) c (Spinning lk) |}
| s_fail s c lk :           (* __sync_lock_test_and_set returned 1 *)
    spc s c = Spinning lk -> locked (slocks s lk) <> 0 ->
    step s s
| s_tas s c lk :            (* __sync_lock_test_and_set returned 0 *)
    spc s c = Spinning lk -> locked (slocks s lk) = 0 ->
    step s {| slocks := upd (slocks s) lk (Spinlock 1 (lcpu (slocks s lk)));
              sheld := sheld s; spc := upd (spc s) c (Got lk) |}
| s_own s c lk :            (* lk->cpu = mycpu(); *)
    spc s c = Got lk ->
    step s {| slocks := upd (slocks s) lk (Spinlock (locked (slocks s lk)) (Some c));
              sheld := upd (sheld s) c (lk :: sheld s c); spc := upd (spc s) c Idle |}
| s_clear s c lk :          (* if(!holding(lk)) panic("release"); lk->cpu = 0; *)
    spc s c = Idle -> holds s c lk ->
    step s {| slocks := upd (slocks s) lk (Spinlock (locked (slocks s lk)) None);
              sheld := sheld s; spc := upd (spc s) c (Releasing lk) |}
| s_unlock s c lk :         (* __sync_lock_release(&lk->locked); pop_off(); *)
    spc s c = Releasing lk ->
    step s {| slocks := upd (slocks s) lk (Spinlock 0 (lcpu (slocks s lk)));
              sheld := upd (sheld s) c (drop_lock lk (sheld s c)); spc := upd (spc s) c Idle |}.

Definition init : smp :=
  {| slocks := fun _ => Spinlock 0 None; sheld := fun _ => []; spc := fun _ => Idle |}.

Definition owns (s : smp) (c : nat) (lk : lockid) : Prop := lk ∈ sheld s c \/ spc s c = Got lk.

(** [o] is the CPU that owns [lk], from its test-and-set to the store that
    clears [locked]; [lk->cpu] names it except at the two ends. *)
Record inv_at (s : smp) (lk : lockid) (o : option nat) : Prop := {
  inv_owner : forall c, owns s c lk <-> o = Some c;
  inv_locked : locked (slocks s lk) = 0 <-> o = None;
  inv_cpu : forall c, lcpu (slocks s lk) = Some c <->
                      o = Some c /\ spc s c <> Got lk /\ spc s c <> Releasing lk;
  inv_rel : forall c, spc s c = Releasing lk -> lk ∈ sheld s c
}.

Definition inv (s : smp) : Prop := forall lk, exists o, inv_at s lk o.

Lemma upd_eq {A B} `{EqDecision A} (f : A -> B) a b : upd f a b a = b.
Proof. unfold upd. by rewrite decide_True. Qed.
Lemma upd_ne {A B} `{EqDecision A} (f : A -> B) a b x : x <> a -> upd f a b x = f x.
Proof. intros. unfold upd. by rewrite decide_False. Qed.

Lemma inv_init : inv init.
Proof. intros lk. exists None. split; unfold owns; cbn; set_solver. Qed.

(** A step that does not touch [lk] leaves its owner alone. *)
Lemma inv_frame s s' lk o :
  inv_at s lk o -> slocks s' lk = slocks s lk ->
  (forall c, lk ∈ sheld s' c <-> lk ∈ sheld s c) ->
  (forall c, spc s' c = Got lk <-> spc s c = Got lk) ->
  (forall c, spc s' c = Releasing lk <-> spc s c = Releasing lk) ->
  inv_at s' lk o.
Proof.
  intros [I1 I2 I3 I4] Hl Hh Hg Hr. split.
  - intros c. unfold owns in *. by rewrite Hh, Hg.
  - by rewrite Hl.
  - intros c. by rewrite Hl, Hg, Hr.
  - intros c. rewrite Hh, Hr. apply I4.
Qed.

Ltac upd_case c :=
  unfold upd; cbn [locked lcpu slocks sheld spc];
  destruct (decide (c = _)) as [?|?]; [subst c|].

Lemma elem_drop_lock lk lk' h : lk' ∈ drop_lock lk h <-> lk' <> lk /\ lk' ∈ h.
Proof. unfold drop_lock. by rewrite list_elem_of_filter. Qed.

Lemma inv_enter s c l :
  inv s -> spc s c = Idle ->
  inv {| slocks := slocks s; sheld := sheld s; spc := upd (spc s) c (Spinning l) |}.
Proof.
  intros I Hpc lk. destruct (I lk) as [o Ho]. exists o.
  eapply inv_frame; [done|done|done|..]; intros c'; cbn; upd_case c'; rewrite ?Hpc; done.
Qed.

Lemma inv_tas s c l :
  inv s -> spc s c = Spinning l -> locked (slocks s l) = 0 ->
  inv {| slocks := upd (slocks s) l (Spinlock 1 (lcpu (slocks s l)));
         sheld := sheld s; spc := upd (spc s) c (Got l) |}.
Proof.
  intros I Hpc Hfree lk. destruct (I lk) as [o Ho]. destruct (decide (lk = l)) as [->|Hne].
  - destruct Ho as [I1 I2 I3 I4]. apply I2 in Hfree as ->. unfold owns in I1. exists (Some c).
    split; cbn [slocks sheld spc]; rewrite ?upd_eq; cbn [locked lcpu].
    + intros c'. unfold owns. cbn [sheld spc]. specialize (I1 c'). upd_case c'; naive_solver.
    + split; [lia|done].
    + intros c'. specialize (I3 c'). upd_case c'; naive_solver.
    + intros c'. specialize (I4 c'). upd_case c'; naive_solver.
  - exists o. eapply inv_frame; [done|by apply upd_ne|done|..];
      intros c'; cbn; upd_case c'; rewrite ?Hpc; split; congruence.
Qed.

Lemma inv_own s c l :
  inv s -> spc s c = Got l ->
  inv {| slocks := upd (slocks s) l (Spinlock (locked (slocks s l)) (Some c));
         sheld := upd (sheld s) c (l :: sheld s c); spc := upd (spc s) c Idle |}.
Proof.
  intros I Hpc lk. destruct (I lk) as [o Ho]. destruct (decide (lk = l)) as [->|Hne].
  - destruct Ho as [I1 I2 I3 I4]. unfold owns in I1.
    assert (o = Some c) as -> by (apply I1; auto). exists (Some c).
    split; cbn [slocks sheld spc]; rewrite ?upd_eq; cbn [locked lcpu].
    + intros c'. unfold owns. cbn [sheld spc]. specialize (I1 c').
      upd_case c'; [rewrite elem_of_cons|]; naive_solver.
    + done.
    + intros c'. specialize (I3 c'). upd_case c'; naive_solver.
    + intros c'. specialize (I4 c'). upd_case c'; naive_solver.
  - exists o. eapply inv_frame; [done|by apply upd_ne|..];
      intros c'; cbn; upd_case c'; rewrite ?Hpc, ?elem_of_cons; split; try congruence; naive_solver.
Qed.

Lemma inv_clear s c l :
  inv s -> spc s c = Idle -> holds s c l ->
  inv {| slocks := upd (slocks s) l (Spinlock (locked (slocks s l)) None);
         sheld := sheld s; spc := upd (spc s) c (Releasing l) |}.
Proof.
  intros I Hpc [_ Hh] lk. destruct (I lk) as [o Ho]. destruct (decide (lk = l)) as [->|Hne].
  - destruct Ho as [I1 I2 I3 I4]. assert (o = Some c) as -> by (by apply I3). unfold owns in I1. exists (Some c).
    split; cbn [slocks sheld spc]; rewrite ?upd_eq; cbn [locked lcpu].
    + intros c'. unfold owns. cbn [sheld spc]. specialize (I1 c'). upd_case c'; naive_solver.
    + done.
    + intros c'. upd_case c'; naive_solver.
    + intros c'. specialize (I4 c'). specialize (I1 c'). upd_case c'; naive_solver.
  - exists o. eapply inv_frame; [done|by apply upd_ne|done|..];
      intros c'; cbn; upd_case c'; rewrite ?Hpc; split; congruence.
Qed.

Lemma inv_unlock s c l :
  inv s -> spc s c = Releasing l ->
  inv {| slocks := upd (slocks s) l (Spinlock 0 (lcpu (slocks s l)));
         sheld := upd (sheld s) c (drop_lock l (sheld s c)); spc := upd (spc s) c Idle |}.
Proof.
  intros I Hpc lk. destruct (I lk) as [o Ho]. destruct (decide (lk = l)) as [->|Hne].
  - destruct Ho as [I1 I2 I3 I4]. unfold owns in I1.
    assert (o = Some c) as -> by (apply I1; auto). exists None.
    split; cbn [slocks sheld spc]; rewrite ?upd_eq; cbn [locked lcpu].
    + intros c'. unfold owns. cbn [sheld spc]. specialize (I1 c').
      upd_case c'; [rewrite elem_drop_lock|]; naive_solver.
    + done.
    + intros c'. specialize (I3 c'). naive_solver.
    + intros c'. specialize (I4 c'). specialize (I1 c'). upd_case c'; naive_solver.
  - exists o. eapply inv_frame; [done|by apply upd_ne|..];
      intros c'; cbn; upd_case c'; rewrite ?Hpc, ?elem_drop_lock; split; try congruence; naive_solver.
Qed.

Lemma inv_step s s' : inv s -> step s s' -> inv s'.
Proof. intros I Hs. destruct Hs; auto using inv_enter, inv_tas, inv_own, inv_clear, inv_unlock. Qed.

Lemma inv_reachable s : rtc step init s -> inv s.
Proof.
  revert s. apply rtc_ind_r; [apply inv_init|].
  intros s1 s2 _ Hstep I. by eapply inv_step.
Qed.
End Smp.

(** ** Theorems *)

(** C6: with any number of CPUs interleaving at every access to a lock, two
    CPUs are never inside the critical section of one lock; and a CPU inside
    it that calls [release] passes the [holding] test. *)
Theorem mutual_exclusion (s : Smp.smp) (lk : lockid) (c c' : nat) :
  rtc Smp.step Smp.init s -> lk ∈ Smp.sheld s c ->
  (lk ∈ Smp.sheld s c' -> c = c') /\ (Smp.spc s c = Smp.Idle -> Smp.holds s c lk).
Proof.
  intros Hs Hin. destruct (Smp.inv_reachable s Hs lk) as [o [I1 I2 I3 I4]].
  assert (o = Some c) as -> by (apply I1; by left). split.
  - intros Hin'. assert (Some c = Some c') by (apply I1; by left). congruence.
  - intros Hidle. split; [|apply I3; rewrite Hidle; done]. rewrite I2. done.
Qed.

Definition demo_lock : lockid := ("kmem"%string, 0).
Definition demo_smp : Smp.smp :=
  {| Smp.slocks := Smp.upd (Smp.upd (fun _ => Spinlock 0 None) demo_lock (Spinlock 1 None)) demo_lock (Spinlock 1 (Some 1%nat));
     Smp.sheld := Smp.upd (fun _ => []) 1%nat [demo_lock];
     Smp.spc := Smp.upd (Smp.upd (Smp.upd (fun _ => Smp.Idle) 1%nat (Smp.Spinning demo_lock)) 1%nat (Smp.Got demo_lock)) 1%nat Smp.Idle |}.
Lemma mutual_exclusion_witness :
  (demo_lock ∈ Smp.sheld demo_smp 2%nat -> 1%nat = 2%nat) /\
  (Smp.spc demo_smp 1%nat = Smp.Idle -> Smp.holds demo_smp 1%nat demo_lock).
Proof.
  apply (mutual_exclusion demo_smp demo_lock 1 2); [|vm_compute; constructor].
  eapply rtc_l; [by apply (Smp.s_enter Smp.init 1%nat demo_lock); cbn; [done|intros [? ?]]|].
  eapply rtc_l; [by apply (Smp.s_tas _ 1%nat demo_lock); vm_compute|].
  eapply rtc_l; [by apply (Smp.s_own _ 1%nat demo_lock); vm_compute|]. apply rtc_refl.
Defined.

(** C7: the code of [acquire] and [release] implements the lock-set view the
    other components are written against.  For a CPU that holds the locks [h]:
    [acquire] panics on a lock in [h], spins on one another CPU holds, and
    otherwise takes it; [release] panics on a lock not in [h] and otherwise
    drops it, turning interrupts back on exactly when the last lock goes. *)
Theorem spinlock_refines_lockset (me : nat) (intr0 : bool) (h : list lockid) (s : hart) (lk : lockid) :
  view me intr0 h s ->
  match acquire lk (World h s) with
  | Ok _ w => if locked (get_lock s lk) =? 0
              then exists s', acquire_impl me lk s = SOk s' /\ view me intr0 (held w) s'
              else acquire_impl me lk s = SSpin
  | Panic msg => acquire_impl me lk s = SPanic msg
  | _ => False
  end /\
  match release lk (World h s) with
  | Ok _ w => exists s', release_impl me lk s = SOk s' /\ view me intr0 (held w) s'
  | Panic msg => release_impl me lk s = SPanic msg
  | _ => False
  end.
Proof.
  intros Hv. pose proof (holding_view me intr0 h s lk Hv) as Hh.
  unfold acquire, release. cbn [held st]. destruct (decide (lk ∈ h)) as [Hin|Hni]; split.
  - unfold acquire_impl. by rewrite holding_push, Hh, bool_decide_eq_true_2.
  - destruct (release_impl_ok me intr0 h s lk Hv Hin) as (s' & ? & ? & _). eauto.
  - destruct (Z.eqb_spec (locked (get_lock s lk)) 0) as [Hf|Hf].
    + destruct (acquire_impl_ok me intr0 h s lk Hv Hni Hf) as (s' & ? & ? & _). eauto.
    + unfold acquire_impl. rewrite holding_push, Hh, bool_decide_eq_false_2, push_off_lock by done.
      by rewrite (proj2 (Z.eqb_neq _ _) Hf).
  - unfold release_impl. by rewrite Hh, bool_decide_eq_false_2.
Qed.

Definition demo_hart : hart := Hart 0 false true ∅.
Lemma demo_hart_view : view 0%nat true [] demo_hart.
Proof. split; try done; [constructor|]. intros lk. split; [set_solver|]. intros [Hl _]. by destruct Hl. Qed.
Lemma spinlock_refines_lockset_witness :
  exists s', acquire_impl 0 demo_lock demo_hart = SOk s' /\ view 0%nat true [demo_lock] s'.
Proof. exact (proj1 (spinlock_refines_lockset 0 true [] demo_hart demo_lock demo_hart_view)). Defined.

Fixpoint pop_offs (n : nat) (s : hart) : sres :=
  match n with
  | O => SOk s
  | S n => match pop_off s with SOk s' => pop_offs n s' | r => r end
  end.

Lemma push_offs_state n s :
  noff s = 0 ->
  Nat.iter (S n) push_off s = Hart (Z.of_nat (S n)) (sie s) false (locks s).
Proof.
  intros H0. induction n as [|n IH].
  - cbn [Nat.iter nat_rect]. unfold push_off, intr_get, intr_off. cbn [noff]. rewrite H0. done.
  - rewrite Nat.iter_succ, IH. unfold push_off, intr_off. cbn [noff].
    destruct (Z.eqb_spec (Z.of_nat (S n)) 0); [lia|]. cbn [noff intena sie locks]. f_equal. lia.
Qed.

Lemma pop_offs_state n b l :
  pop_offs (S n) (Hart (Z.of_nat (S n)) b false l) = SOk (Hart 0 b b l).
Proof.
  induction n as [|n IH]; cbn [pop_offs] in *; rewrite pop_off_run by (done || cbn; lia); cbn [noff intena locks].
  - done.
  - replace (Z.of_nat (S (S n)) - 1) with (Z.of_nat (S n)) by lia.
    destruct (Z.eqb_spec (Z.of_nat (S n)) 0); [lia|]. cbn [andb]. apply IH.
Qed.

(** On a CPU with [noff] 0, [n+1] nested [push_off]s keep interrupts off,
    and the matching [pop_off]s all succeed and leave interrupts as they were
    before the first [push_off], and [noff] 0 again. *)
Theorem intr_nesting (n : nat) (s : hart) :
  noff s = 0 ->
  sie (Nat.iter (S n) push_off s) = false /\
  pop_offs (S n) (Nat.iter (S n) push_off s) = SOk (Hart 0 (sie s) (sie s) (locks s)).
Proof. intros H0. rewrite push_offs_state by done. split; [done|apply pop_offs_state]. Qed.

Lemma intr_nesting_witness :
  sie (Nat.iter 3 push_off demo_hart) = false /\
  pop_offs 3 (Nat.iter 3 push_off demo_hart) = SOk (Hart 0 true true ∅).
Proof. exact (intr_nesting 2 demo_hart eq_refl). Defined.
