(* ===== verification/Uart.v ===== *)
(** * kernel/uart.c: the 16550a driver

    The device is what the driver can see of it: the values successive reads
    of LSR and RHR return ([lsr], [rhr]; once the list is used up LSR reads 0:
    nothing ready), and the register writes it receives ([wlog], latest
    first).  [env] lists what the rest of the kernel does to the driver during
    each successive [sleep] of the calling thread. *)

From S2P Require Import Prelude Ring.

Definition RHR : Z := 0.
Definition THR : Z := 0.
Definition IER : Z := 1.
Definition IER_RX_ENABLE : Z := 1.
Definition IER_TX_ENABLE : Z := 2.
Definition FCR : Z := 2.
Definition FCR_FIFO_ENABLE : Z := 1.
Definition FCR_FIFO_CLEAR : Z := 6.
Definition LCR : Z := 3.
Definition LCR_EIGHT_BITS : Z := 3.
Definition LCR_BAUD_LATCH : Z := 128.
Definition LSR : Z := 5.
Definition LSR_RX_READY : Z := 1.
Definition LSR_TX_IDLE : Z := 32.

Definition UART_TX_BUF_SIZE : Z := 32.
Definition uart_tx_lock : lockid := ("uart"%string, 0).
Definition chan_tx_r : lockid := ("uart_tx_r"%string, 0).

Record uart : Type := Uart {
  tx_buf : list Z;
  tx_w : Z;                 (* uart_tx_w, a uint64 *)
  tx_r : Z;                 (* uart_tx_r, a uint64 *)
  panicked : bool;
  lsr : list Z;             (* device: successive values of LSR *)
  rhr : list Z;             (* device: successive values of RHR *)
  wlog : list (Z * Z);      (* device: register writes, latest first *)
  uwakes : list lockid
}.

Definition set_tx (b : list Z) (w r : Z) (u : uart) : uart :=
  Uart b w r (panicked u) (lsr u) (rhr u) (wlog u) (uwakes u).
Definition WriteReg (reg v : Z) : M uart unit := modify (fun u =>
  Uart (tx_buf u) (tx_w u) (tx_r u) (panicked u) (lsr u) (rhr u) ((reg, u8 v) :: wlog u) (uwakes u)).
Definition pop_lsr (u : uart) : uart :=
  Uart (tx_buf u) (tx_w u) (tx_r u) (panicked u) (tail (lsr u)) (rhr u) (wlog u) (uwakes u).
Definition pop_rhr (u : uart) : uart :=
  Uart (tx_buf u) (tx_w u) (tx_r u) (panicked u) (lsr u) (tail (rhr u)) (wlog u) (uwakes u).
Definition ReadLSR : M uart Z := v ← gets (fun u => default 0 (head (lsr u))); modify pop_lsr;; mret v.
Definition ReadRHR : M uart Z := v ← gets (fun u => default 0 (head (rhr u))); modify pop_rhr;; mret v.
Definition uwakeup (c : lockid) : M uart unit := modify (fun u =>
  Uart (tx_buf u) (tx_w u) (tx_r u) (panicked u) (lsr u) (rhr u) (wlog u) (c :: uwakes u)).

Definition uartinit : M uart unit :=
  WriteReg IER 0;;
  WriteReg LCR LCR_BAUD_LATCH;;
  WriteReg 0 3;;
  WriteReg 1 0;;
  WriteReg LCR LCR_EIGHT_BITS;;
  WriteReg FCR (Z.lor FCR_FIFO_ENABLE FCR_FIFO_CLEAR);;
  WriteReg IER (Z.lor IER_TX_ENABLE IER_RX_ENABLE);;
  initlock uart_tx_lock.

Fixpoint uartstart_loop (fuel : nat) : M uart unit :=
  match fuel with
  | O => spin
  | S fuel =>
      u ← gets id;
      if tx_w u =? tx_r u then mret tt else
      v ← ReadLSR;
      if Z.land v LSR_TX_IDLE =? 0 then mret tt else
      let c := peek UART_TX_BUF_SIZE (tx_buf u) (tx_r u) in
      modify (fun u => set_tx (tx_buf u) (tx_w u) (u64 (tx_r u + 1)) u);;
      uwakeup chan_tx_r;;
      WriteReg THR c;;
      uartstart_loop fuel
  end.
(** At most [UART_TX_BUF_SIZE] characters are waiting. *)
Definition uartstart : M uart unit := uartstart_loop (S (Z.to_nat UART_TX_BUF_SIZE)).

(** Returns the part of [env] that was not used; [Blocked] when the buffer is
    full and nothing happens any more. *)
Fixpoint uartputc_loop (env : list (uart -> uart)) (c : Z) : M uart (list (uart -> uart)) :=
  u ← gets id;
  if tx_w u =? u64 (tx_r u + UART_TX_BUF_SIZE) then
    match env with
    | [] => sleep chan_tx_r
    | f :: env =>
        release uart_tx_lock;; modify f;; acquire uart_tx_lock;;    (* sleep(&uart_tx_r, &uart_tx_lock) *)
        uartputc_loop env c
    end
  else
    modify (fun u => set_tx (poke UART_TX_BUF_SIZE (tx_buf u) (tx_w u) (u8 c)) (u64 (tx_w u + 1)) (tx_r u) u);;
    uartstart;;
    release uart_tx_lock;;
    mret env.
Definition uartputc (env : list (uart -> uart)) (c : Z) : M uart (list (uart -> uart)) :=
  acquire uart_tx_lock;;
  b ← gets panicked;
  if b : bool then spin else uartputc_loop env c.

(** [while((ReadReg(LSR) & LSR_TX_IDLE) == 0);] over the values still to come. *)
Fixpoint wait_idle (vs : list Z) : M uart unit :=
  match vs with
  | [] => spin
  | v :: vs => modify pop_lsr;; if Z.land v LSR_TX_IDLE =? 0 then wait_idle vs else mret tt
  end.
(** [push_off] and [pop_off] around it leave the interrupt state as it was
    ([Spinlock.intr_nesting]). *)
Definition uartputc_sync (c : Z) : M uart unit :=
  b ← gets panicked;
  if b : bool then spin else
  vs ← gets lsr;
  wait_idle vs;;
  WriteReg THR c.

Definition uartgetc : M uart Z :=
  v ← ReadLSR;
  if flag v 1 then ReadRHR else mret (-1).

(** ** The transmitter is a queue *)

Definition pending (u : uart) : list Z := contents 64 UART_TX_BUF_SIZE (tx_buf u) (tx_r u) (tx_w u).
Definition tx_count (u : uart) : Z := count 64 (tx_r u) (tx_w u).

(** Characters given to the device, in order. *)
Definition sent (u : uart) : list Z := reverse (snd <$> filter (fun p => fst p = THR) (wlog u)).

Definition uart_ok (u : uart) : Prop :=
  length (tx_buf u) = 32%nat /\ 0 <= tx_r u < 2^64 /\ 0 <= tx_w u < 2^64 /\ tx_count u <= UART_TX_BUF_SIZE /\
  Forall (fun c => 0 <= c < 256) (tx_buf u).

Lemma uart_ring : 0 < UART_TX_BUF_SIZE /\ UART_TX_BUF_SIZE < 2^64 /\ (UART_TX_BUF_SIZE | 2^64).
Proof. unfold UART_TX_BUF_SIZE. split_and!; [lia|lia|]. by exists (2^59). Qed.
#[local] Hint Extern 1 (0 < UART_TX_BUF_SIZE) => apply uart_ring : xv6.
#[local] Hint Extern 1 (UART_TX_BUF_SIZE < 2^64) => apply uart_ring : xv6.
#[local] Hint Extern 1 (UART_TX_BUF_SIZE | 2^64) => apply uart_ring : xv6.

Lemma tx_count_range u : 0 <= tx_count u < 2^64.
Proof. apply (count_range 64 UART_TX_BUF_SIZE); auto with xv6. Qed.

Lemma sent_thr u b w r pk l rh c wk :
  sent (Uart b w r pk l rh ((THR, c) :: wlog u) wk) = sent u ++ [c].
Proof. unfold sent. cbn [wlog]. rewrite filter_cons_True by done. by rewrite fmap_cons, reverse_cons. Qed.

Lemma peek_range d k : Forall (fun c => 0 <= c < 256) d -> 0 <= peek UART_TX_BUF_SIZE d k < 256.
Proof.
  intros Hd. unfold peek. destruct (d !! slot UART_TX_BUF_SIZE k) as [c|] eqn:E; cbn; [|lia].
  exact (proj1 (Forall_lookup _ _) Hd _ c E).
Qed.

(** The states a run of [uartstart] can leave: some pending characters moved
    to the device, the rest still pending. *)
Definition start_post (h : list lockid) (u : uart) (o : outcome uart unit) : Prop :=
  exists u' k, o = Ok tt (World h u') /\ uart_ok u' /\ panicked u' = panicked u /\
    sent u' = sent u ++ take k (pending u) /\ pending u' = drop k (pending u).

Lemma start_stop h u u' :
  uart_ok u -> tx_buf u' = tx_buf u -> tx_w u' = tx_w u -> tx_r u' = tx_r u -> wlog u' = wlog u ->
  panicked u' = panicked u -> start_post h u (Ok tt (World h u')).
Proof.
  intros Hok E1 E2 E3 E4 E5. exists u', O. unfold uart_ok, sent, pending, tx_count in *.
  rewrite E1, E2, E3, E4. rewrite app_nil_r. done.
Qed.

Lemma uartstart_loop_spec fuel : forall h u,
  uart_ok u -> (Z.to_nat (tx_count u) < fuel)%nat -> start_post h u (uartstart_loop fuel (World h u)).
Proof.
  induction fuel as [|fuel IH]; intros h u Hok Hf; [lia|]. cbn [uartstart_loop]. mstep.
  pose proof Hok as (Hl & Hr & Hw & Hc & Hb). unfold id. rewrite Z.eqb_sym.
  rewrite (empty_test 64 UART_TX_BUF_SIZE) by auto with xv6. fold (tx_count u).
  destruct (Z.eqb_spec (tx_count u) 0) as [Hz|Hnz]; [by apply start_stop|].
  assert (0 < tx_count u) as Hpos by (pose proof (tx_count_range u); lia).
  unfold ReadLSR. rewrite !bind_assoc. rewrite gets_run, !bind_assoc. mstep.
  rewrite (bind_run (mret _) _ _ (default 0 (head (lsr u))) (World h (pop_lsr u))) by done.
  destruct (Z.land _ LSR_TX_IDLE =? 0); [by apply start_stop|]. unfold uwakeup, WriteReg. do 3 mstep.
  set (c := peek UART_TX_BUF_SIZE (tx_buf u) (tx_r u)). cbn [set_tx pop_lsr tx_buf tx_w tx_r panicked lsr rhr wlog uwakes].
  rewrite (u8_small c) by (pose proof (peek_range (tx_buf u) (tx_r u) Hb); subst c; lia).
  assert (count 64 (u64 (tx_r u + 1)) (tx_w u) = tx_count u - 1) as Hcnt.
  { apply (count_move_r 64 UART_TX_BUF_SIZE); auto with xv6. fold (tx_count u). pose proof (tx_count_range u). lia. }
  match goal with |- start_post h u (uartstart_loop fuel (World h ?v)) => set (u1 := v) end.
  assert (uart_ok u1) as Hok1.
  { split; [done|split; [apply u64_range|split; [done|split; [|done]]]].
    change (tx_count u1) with (count 64 (u64 (tx_r u + 1)) (tx_w u)). lia. }
  destruct (IH h u1 Hok1) as (u' & k & Hrun & Hok' & Hp & Hs & Hpe).
  { change (tx_count u1) with (count 64 (u64 (tx_r u + 1)) (tx_w u)). lia. }
  assert (pending u = c :: pending u1) as Hpend by (apply (contents_pop 64); auto with xv6).
  assert (sent u1 = sent u ++ [c]) as Hsent by apply sent_thr.
  exists u', (S k). rewrite Hpend. split_and!; [done|done|done| |done].
  rewrite Hs, Hsent, <- (assoc_L (++)). done.
Qed.

Lemma uartstart_spec h u : uart_ok u -> start_post h u (uartstart (World h u)).
Proof. intros Hok. apply uartstart_loop_spec; [done|]. destruct Hok as (_ & _ & _ & Hc & _). lia. Qed.

(** What other threads and interrupt handlers may do while a thread sleeps. *)
Definition env_ok (f : uart -> uart) : Prop := forall u, uart_ok u -> uart_ok (f u) /\ panicked (f u) = panicked u.
Definition after (env : list (uart -> uart)) (u : uart) : uart := fold_left (fun u f => f u) env u.

Lemma put_tx_ok u c :
  uart_ok u -> tx_count u < UART_TX_BUF_SIZE ->
  let u' := set_tx (poke UART_TX_BUF_SIZE (tx_buf u) (tx_w u) (u8 c)) (u64 (tx_w u + 1)) (tx_r u) u in
  uart_ok u' /\ pending u' = pending u ++ [u8 c] /\ sent u' = sent u.
Proof.
  intros (Hl & Hr & Hw & Hc & Hb) Hlt u'. split_and!; [|apply (contents_push 64); auto with xv6|done].
  split; [subst u'; cbn [set_tx tx_buf]; by rewrite length_poke|]. split; [done|]. split; [apply u64_range|]. split.
  - change (count 64 (tx_r u) (wrap 64 (tx_w u + 1)) <= UART_TX_BUF_SIZE).
    pose proof (tx_count_range u). unfold tx_count in *.
    rewrite (count_move 64 UART_TX_BUF_SIZE); auto with xv6; [lia|]. unfold UART_TX_BUF_SIZE in *. lia.
  - apply Forall_insert; [done|apply u8_range].
Qed.

(** The branch of [uartputc] that finds room. *)
Lemma uartputc_room (env : list (uart -> uart)) c h u :
  uart_ok u -> tx_count u < UART_TX_BUF_SIZE -> (uart_tx_lock ∉ h) ->
  exists n u',
    (modify (fun u => set_tx (poke UART_TX_BUF_SIZE (tx_buf u) (tx_w u) (u8 c)) (u64 (tx_w u + 1)) (tx_r u) u);;
     uartstart;; release uart_tx_lock;; mret env) (World (uart_tx_lock :: h) u) = Ok (drop n env) (World h u') /\
    let u0 := after (take n env) u in
    uart_ok u' /\ tx_count u0 < UART_TX_BUF_SIZE /\ sent u' ++ pending u' = sent u0 ++ pending u0 ++ [u8 c].
Proof.
  intros Hok Hlt Hh. mstep. destruct (put_tx_ok u c Hok Hlt) as (Hok1 & Hp1 & Hs1).
  match goal with |- context [World (uart_tx_lock :: h) ?v] => set (u1 := v) in * end.
  destruct (uartstart_spec (uart_tx_lock :: h) u1 Hok1) as (u' & k & Hrun & Hok' & _ & Hs & Hpe).
  rewrite (bind_run _ _ _ _ _ Hrun), release_run by done. exists O, u'. split; [done|].
  change (after (take 0 env) u) with u. split_and!; [done|done|].
  rewrite Hs, Hpe, <- (assoc_L (++)), take_drop, Hs1, Hp1. done.
Qed.

Lemma uartputc_loop_spec env c : forall h u,
  uart_ok u -> Forall env_ok env -> (uart_tx_lock ∉ h) ->
  (exists n u', uartputc_loop env c (World (uart_tx_lock :: h) u) = Ok (drop n env) (World h u') /\
     let u0 := after (take n env) u in
     uart_ok u' /\ tx_count u0 < UART_TX_BUF_SIZE /\ sent u' ++ pending u' = sent u0 ++ pending u0 ++ [u8 c]) \/
  (uartputc_loop env c (World (uart_tx_lock :: h) u) = Blocked chan_tx_r /\
   forall n, tx_count (after (take n env) u) = UART_TX_BUF_SIZE).
Proof.
  induction env as [|f env IH]; intros h u Hok Henv Hh; cbn [uartputc_loop]; mstep; unfold id;
    pose proof Hok as (Hl & Hr & Hw & Hc & Hb);
    change (u64 (tx_r u + UART_TX_BUF_SIZE)) with (wrap 64 (tx_r u + UART_TX_BUF_SIZE));
    rewrite (full_test 64 UART_TX_BUF_SIZE) by auto with xv6; fold (tx_count u);
    destruct (Z.eqb_spec (tx_count u) UART_TX_BUF_SIZE) as [Hfull|Hroom].
  1: by right; split; [done|]; intros [|n].
  2:{ apply Forall_cons in Henv as [Hf Henv]. destruct (Hf u Hok) as [Hok' _].
      rewrite release_run by done. mstep. rewrite acquire_run by done.
      destruct (IH h (f u) Hok' Henv Hh) as [(n & u' & Hrun & Hpost)|[Hrun Hall]].
      - left. exists (S n), u'. done.
      - right. split; [done|]. intros [|n]; [done|]. apply (Hall n). }
  all: left; apply uartputc_room; [done|lia|done].
Qed.

(** ** Theorems *)

(** The transmit side is a FIFO: [uartputc] waits until the buffer has
    room (it blocks only if the buffer stays full through everything other
    threads do), then the characters already given to the device followed by
    those still pending are what they were, with the new character at the
    end; [uartstart] inside it only moves characters from pending to sent. *)
Theorem uartputc_fifo (env : list (uart -> uart)) (c : Z) (h : list lockid) (u : uart) :
  uart_ok u -> panicked u = false -> Forall env_ok env -> uart_tx_lock ∉ h ->
  (exists n u', uartputc env c (World h u) = Ok (drop n env) (World h u') /\
     let u0 := after (take n env) u in
     uart_ok u' /\ tx_count u0 < UART_TX_BUF_SIZE /\ sent u' ++ pending u' = sent u0 ++ pending u0 ++ [u8 c]) \/
  (uartputc env c (World h u) = Blocked chan_tx_r /\ forall n, tx_count (after (take n env) u) = UART_TX_BUF_SIZE).
Proof.
  intros Hok Hp Henv Hh. unfold uartputc. rewrite acquire_run by done. mstep. rewrite Hp.
  by apply uartputc_loop_spec.
Qed.

(** A full buffer, drained by one interrupt while the thread sleeps. *)
Definition demo_uart (w : Z) : uart := Uart (replicate 32 65) w 0 false [32; 32] [] [] [].
Definition demo_drain (u : uart) : uart :=
  match uartstart (World [] u) with Ok _ w => st w | _ => u end.
Lemma demo_uart_ok w : 0 <= w <= 32 -> uart_ok (demo_uart w).
Proof.
  intros Hw. split; [done|split; [cbn; lia|split; [cbn; lia|split]]].
  - unfold tx_count, count, wrap, demo_uart. cbn [tx_w tx_r]. rewrite Z.mod_small by lia. unfold UART_TX_BUF_SIZE. lia.
  - apply Forall_replicate. lia.
Qed.
Lemma demo_drain_ok : env_ok demo_drain.
Proof.
  intros u Hok. unfold demo_drain. destruct (uartstart_spec [] u Hok) as (u' & k & -> & Hok' & Hp & _). done.
Qed.
Lemma uartputc_fifo_witness :
  (exists n u', uartputc [demo_drain] 66 (World [] (demo_uart 32)) = Ok (drop n [demo_drain]) (World [] u') /\
     let u0 := after (take n [demo_drain]) (demo_uart 32) in
     uart_ok u' /\ tx_count u0 < UART_TX_BUF_SIZE /\ sent u' ++ pending u' = sent u0 ++ pending u0 ++ [66]) \/
  (uartputc [demo_drain] 66 (World [] (demo_uart 32)) = Blocked chan_tx_r /\
   forall n, tx_count (after (take n [demo_drain]) (demo_uart 32)) = UART_TX_BUF_SIZE).
Proof.
  apply (uartputc_fifo [demo_drain] 66 [] (demo_uart 32)).
  - apply demo_uart_ok. lia.
  - reflexivity.
  - constructor; [exact demo_drain_ok|constructor].
  - apply not_elem_of_nil.
Defined.
