(* ===== verification/Console.v ===== *)
(** * kernel/console.c: line-buffered console input, console output

    [cons.buf] is one ring with three counters: [r] to [w] are the complete
    lines a reader may take, [w] to [e] the line being edited.  [consoleintr]
    is the interrupt handler of one input character.  A reader that must wait
    sleeps, and [env] lists what the rest of the kernel does to the console
    during each successive [sleep]. *)

From S2P Require Import Prelude Ring Mem CString Riscv Kalloc Vm VmSpec VmProps Copy Uart.

Definition BACKSPACE : Z := 0x100.
(** [C(x)], Control-x *)
Definition C (x : Z) : Z := x - 64.
Definition INPUT_BUF : Z := 128.

Record cst : Type := Cons {
  ck : kstate;
  cuart : uart;
  cbuf : list Z;
  cr : Z;              (* Read index, a uint *)
  cw : Z;              (* Write index *)
  ce : Z;              (* Edit index *)
  cwakes : list lockid
}.
Definition set_ck (k : kstate) (s : cst) : cst := Cons k (cuart s) (cbuf s) (cr s) (cw s) (ce s) (cwakes s).
Definition set_cuart (u : uart) (s : cst) : cst := Cons (ck s) u (cbuf s) (cr s) (cw s) (ce s) (cwakes s).
Definition set_idx (r w e : Z) (s : cst) : cst := Cons (ck s) (cuart s) (cbuf s) r w e (cwakes s).
Definition set_cbuf (b : list Z) (s : cst) : cst := Cons (ck s) (cuart s) b (cr s) (cw s) (ce s) (cwakes s).
Definition add_cwake (c : lockid) (s : cst) : cst :=
  Cons (ck s) (cuart s) (cbuf s) (cr s) (cw s) (ce s) (c :: cwakes s).

Definition cons_lock : lockid := ("cons"%string, 0).
Definition chan_r : lockid := ("cons.r"%string, 0).

Definition consputc (c : Z) : M cst unit :=
  if c =? BACKSPACE
  then zoom cuart set_cuart (uartputc_sync 8;; uartputc_sync 32;; uartputc_sync 8)
  else zoom cuart set_cuart (uartputc_sync c).

Section console.
Context {L : Layout}.

(** [env]: what happens to the UART during each sleep inside [uartputc]. *)
Fixpoint consolewrite_loop (fuel : nat) (env : list (uart -> uart)) (user_src : bool) (pagetable src i n : Z)
    : M cst Z :=
  match fuel with
  | O => spin
  | S fuel =>
      if negb (i <? n) then mret i else
      r ← zoom ck set_ck (either_copyin user_src pagetable (u64 (src + i)) 1);
      if fst r =? -1 then mret i else
      env ← zoom cuart set_cuart (uartputc env (default 0 (head (snd r))));
      consolewrite_loop fuel env user_src pagetable src (i + 1) n
  end.
Definition consolewrite (env : list (uart -> uart)) (user_src : bool) (pagetable src n : Z) : M cst Z :=
  consolewrite_loop (S (Z.to_nat n)) env user_src pagetable src 0 n.

(** [while(cons.r == cons.w)]: [None] when the process was killed (the lock
    is then released), otherwise the part of [env] not used. *)
Fixpoint consoleread_wait (env : list (cst -> cst)) (killed : nat -> bool) : M cst (option (list (cst -> cst))) :=
  s ← gets id;
  if negb (cr s =? cw s) then mret (Some env) else
  if killed (length env) then release cons_lock;; mret None else
  match env with
  | [] => sleep chan_r
  | f :: env => release cons_lock;; modify f;; acquire cons_lock;;    (* sleep(&cons.r, &cons.lock) *)
                consoleread_wait env killed
  end.

(** Returns [None] for the early return of -1, otherwise the [n] left over. *)
Fixpoint consoleread_loop (fuel : nat) (env : list (cst -> cst)) (killed : nat -> bool)
    (user_dst : bool) (pagetable dst n target : Z) : M cst (option Z) :=
  match fuel with
  | O => spin
  | S fuel =>
      if negb (0 <? n) then mret (Some n) else
      e ← consoleread_wait env killed;
      match e with
      | None => mret None
      | Some env =>
          s ← gets id;
          let c := peek INPUT_BUF (cbuf s) (cr s) in
          modify (fun s => set_idx (u32 (cr s + 1)) (cw s) (ce s) s);;
          if c =? C 68 then                                    (* C('D'), end-of-file *)
            when (n <? target) (modify (fun s => set_idx (u32 (cr s - 1)) (cw s) (ce s) s));;
            mret (Some n)
          else
            x ← zoom ck set_ck (either_copyout user_dst pagetable dst [c]);
            if x =? -1 then mret (Some n) else
            if c =? 10 then mret (Some (n - 1))
            else consoleread_loop fuel env killed user_dst pagetable (u64 (dst + 1)) (n - 1) target
      end
  end.
Definition consoleread (env : list (cst -> cst)) (killed : nat -> bool) (user_dst : bool) (pagetable dst n : Z)
    : M cst Z :=
  let target := u32 n in
  acquire cons_lock;;
  x ← consoleread_loop (S (Z.to_nat n)) env killed user_dst pagetable dst n target;
  match x with
  | None => mret (-1)
  | Some n => release cons_lock;; mret (i32 (target - n))
  end.

(** Kill line: at most [INPUT_BUF] characters are being edited. *)
Fixpoint kill_line (fuel : nat) : M cst unit :=
  match fuel with
  | O => spin
  | S fuel =>
      s ← gets id;
      if negb (ce s =? cw s) && negb (peek INPUT_BUF (cbuf s) (u32 (ce s - 1)) =? 10)
      then modify (fun s => set_idx (cr s) (cw s) (u32 (ce s - 1)) s);;
           consputc BACKSPACE;;
           kill_line fuel
      else mret tt
  end.

(** [procdump] (kernel/proc.c) prints the process table. *)
Definition consoleintr (procdump : M cst unit) (c : Z) : M cst unit :=
  acquire cons_lock;;
  (if c =? C 80 then procdump                                   (* C('P') *)
   else if c =? C 85 then kill_line (S (Z.to_nat INPUT_BUF))    (* C('U') *)
   else if (c =? C 72) || (c =? 0x7f) then                      (* C('H'), DEL *)
     s ← gets id;
     when (negb (ce s =? cw s))
       (modify (fun s => set_idx (cr s) (cw s) (u32 (ce s - 1)) s);; consputc BACKSPACE)
   else
     s ← gets id;
     when (negb (c =? 0) && (u32 (ce s - cr s) <? INPUT_BUF))
       (let c := if c =? 13 then 10 else c in
        consputc c;;
        modify (fun s => set_idx (cr s) (cw s) (u32 (ce s + 1)) (set_cbuf (poke INPUT_BUF (cbuf s) (ce s) (u8 c)) s));;
        s ← gets id;
        when ((c =? 10) || (c =? C 68) || (ce s =? u32 (cr s + INPUT_BUF)))
          (modify (fun s => set_idx (cr s) (ce s) (ce s) s);; modify (add_cwake chan_r))));;
  release cons_lock.

End console.

(** The console's rows of [devsw] are set by [consoleinit]; [File] dispatches
    on them. *)
Definition consoleinit : M cst unit :=
  initlock cons_lock;;
  zoom cuart set_cuart uartinit.

(** ** The line editor it implements *)

Definition cooked (s : cst) : list Z := contents 32 INPUT_BUF (cbuf s) (cr s) (cw s).
Definition edit (s : cst) : list Z := contents 32 INPUT_BUF (cbuf s) (cw s) (ce s).

(** One input character, on complete lines and the line being edited. *)
Definition line_step (c : Z) (lines line : list Z) : list Z * list Z :=
  if c =? C 80 then (lines, line)
  else if c =? C 85 then (lines, [])
  else if (c =? C 72) || (c =? 0x7f) then (lines, removelast line)
  else if negb (c =? 0) && (Z.of_nat (length lines + length line) <? INPUT_BUF) then
    let c := if c =? 13 then 10 else c in
    let line := line ++ [c] in
    if (c =? 10) || (c =? C 68) || (Z.of_nat (length lines + length line) =? INPUT_BUF)
    then (lines ++ line, []) else (lines, line)
  else (lines, line).

Record cons_ok (s : cst) : Prop := {
  co_len : length (cbuf s) = 128%nat;
  co_r : 0 <= cr s < 2^32;
  co_w : 0 <= cw s < 2^32;
  co_e : 0 <= ce s < 2^32;
  co_room : count 32 (cr s) (cw s) + count 32 (cw s) (ce s) <= INPUT_BUF;
  co_edit : 10 ∉ edit s
}.

Lemma cons_ring : 0 < INPUT_BUF /\ INPUT_BUF < 2^32 /\ (INPUT_BUF | 2^32).
Proof. unfold INPUT_BUF. split_and!; [lia|lia|]. by exists (2^25). Qed.
#[local] Hint Extern 1 (0 < INPUT_BUF) => apply cons_ring : xv6.
#[local] Hint Extern 1 (INPUT_BUF < 2^32) => apply cons_ring : xv6.
#[local] Hint Extern 1 (INPUT_BUF | 2^32) => apply cons_ring : xv6.

(** The UART takes [n] more characters without delay. *)
Definition uart_ready (n : nat) (u : uart) : Prop :=
  panicked u = false /\ take n (lsr u) = replicate n LSR_TX_IDLE.

Lemma uart_ready_le n k u : (k <= n)%nat -> uart_ready n u -> uart_ready k u.
Proof.
  intros Hk [Hp Hl]. split; [done|]. apply (f_equal (take k)) in Hl.
  rewrite take_take, take_replicate in Hl. by replace (k `min` n)%nat with k in Hl by lia.
Qed.

Lemma sync_run n c h u :
  uart_ready (S n) u ->
  exists u', uartputc_sync c (World h u) = Ok tt (World h u') /\ sent u' = sent u ++ [u8 c] /\ uart_ready n u'.
Proof.
  intros [Hp Hl]. unfold uartputc_sync. mstep. rewrite Hp. mstep.
  destruct (lsr u) as [|v l] eqn:Hlsr; [done|]. cbn [take replicate] in Hl. injection Hl as -> Hl.
  cbn [wait_idle]. rewrite bind_assoc. mstep. change (Z.land LSR_TX_IDLE LSR_TX_IDLE =? 0) with false. cbv iota.
  rewrite (bind_run (mret tt) _ _ tt (World h (pop_lsr u))) by done.
  eexists. split; [done|]. split; [exact (sent_thr u _ _ _ _ _ _ (u8 c) _)|]. split; [done|]. cbn. by rewrite Hlsr.
Qed.

Lemma consputc_run n c h s :
  uart_ready (S (S (S n))) (cuart s) ->
  exists u', consputc c (World h s) = Ok tt (World h (set_cuart u' s)) /\ uart_ready n u'.
Proof.
  intros Hr. unfold consputc. destruct (c =? BACKSPACE); unfold zoom; cbn [held st].
  - destruct (sync_run _ 8 h _ Hr) as (u1 & E1 & _ & R1). rewrite (bind_run _ _ _ _ _ E1).
    destruct (sync_run _ 32 h _ R1) as (u2 & E2 & _ & R2). rewrite (bind_run _ _ _ _ _ E2).
    destruct (sync_run _ 8 h _ R2) as (u3 & E3 & _ & R3). rewrite E3. eauto.
  - destruct (sync_run _ c h _ Hr) as (u1 & -> & _ & R1). eexists. split; [done|].
    eapply uart_ready_le; [|done]. lia.
Qed.

Lemma cons_count_e s :
  cons_ok s -> count 32 (cr s) (ce s) = count 32 (cr s) (cw s) + count 32 (cw s) (ce s).
Proof.
  intros Hok. pose proof (co_room s Hok) as Hroom.
  pose proof (contents_split 32 INPUT_BUF ltac:(apply cons_ring) ltac:(apply cons_ring) ltac:(apply cons_ring)
    (cbuf s) (cr s) (cw s) (ce s)) as E.
  assert (count 32 (cr s) (cw s) + count 32 (cw s) (ce s) < 2^32) as Hlt by (unfold INPUT_BUF in *; lia).
  apply E, (f_equal length) in Hlt. rewrite length_app, !length_contents in Hlt.
  pose proof (count_range 32 INPUT_BUF ltac:(apply cons_ring) ltac:(apply cons_ring)) as Hr.
  pose proof (Hr (cr s) (cw s)). pose proof (Hr (cw s) (ce s)). pose proof (Hr (cr s) (ce s)). lia.
Qed.

(** Taking one character off the line being edited. *)
Lemma edit_back s u :
  cons_ok s -> (ce s =? cw s) = false ->
  let s' := set_cuart u (set_idx (cr s) (cw s) (u32 (ce s - 1)) s) in
  cons_ok s' /\ edit s = edit s' ++ [peek INPUT_BUF (cbuf s) (u32 (ce s - 1))] /\ cooked s' = cooked s.
Proof.
  intros Hok Hne s'. rewrite Z.eqb_sym, (empty_test 32 INPUT_BUF) in Hne by (auto using co_w, co_e with xv6).
  apply Z.eqb_neq in Hne.
  pose proof (count_range 32 INPUT_BUF ltac:(apply cons_ring) ltac:(apply cons_ring) (cw s) (ce s)) as Hc.
  assert (edit s = edit s' ++ [peek INPUT_BUF (cbuf s) (u32 (ce s - 1))]) as Hed.
  { unfold edit. rewrite (contents_unpush 32 INPUT_BUF) by (auto with xv6; lia). f_equal. f_equal.
    apply peek_slot. unfold slot. f_equal. symmetry. apply (wrap_mod 32 INPUT_BUF); auto with xv6. }
  split_and!; [|done|done]. pose proof (co_edit s Hok) as Hnl. rewrite Hed in Hnl.
  split; try apply Hok; [apply u32_range| |set_solver]. subst s'. cbn [set_cuart set_idx cr cw ce].
  change (u32 (ce s - 1)) with (wrap 32 (ce s + -1)). pose proof (co_room s Hok).
  rewrite (count_move 32 INPUT_BUF) by (auto with xv6; lia). lia.
Qed.

Lemma kill_line_run fuel : forall h s,
  cons_ok s -> (length (edit s) < fuel)%nat -> uart_ready (3 * length (edit s)) (cuart s) ->
  exists s', kill_line fuel (World h s) = Ok tt (World h s') /\ cons_ok s' /\ cooked s' = cooked s /\ edit s' = [] /\
             cwakes s' = cwakes s.
Proof.
  induction fuel as [|fuel IH]; intros h s Hok Hf Hr; [lia|]. cbn [kill_line]. mstep. unfold id.
  destruct (ce s =? cw s) eqn:Hew; cbn [negb andb].
  - exists s. split_and!; try done. apply length_zero_iff_nil. unfold edit. rewrite length_contents.
    rewrite Z.eqb_sym, (empty_test 32 INPUT_BUF) in Hew by (auto using co_w, co_e with xv6). lia.
  - destruct (edit_back s (cuart s) Hok Hew) as (_ & Hed & _).
    destruct (Z.eqb_spec (peek INPUT_BUF (cbuf s) (u32 (ce s - 1))) 10) as [E|E].
    { exfalso. apply (co_edit s Hok). rewrite Hed, E. set_solver. }
    cbn [negb]. mstep. set (s1 := set_idx _ _ _ s).
    assert (length (edit s) = S (length (edit s1))) as Hlen by (rewrite Hed, length_app; simpl; apply Nat.add_1_r).
    rewrite Hlen in Hr. replace (3 * S (length (edit s1)))%nat with (S (S (S (3 * length (edit s1))))) in Hr by lia.
    destruct (consputc_run (3 * length (edit s1)) BACKSPACE h s1 Hr) as (u' & Hrun & Hr').
    rewrite (bind_run _ _ _ _ _ Hrun). destruct (edit_back s u' Hok Hew) as (Hok' & _ & Hck).
    destruct (IH h (set_cuart u' s1) Hok') as (s' & Hrun' & Hok'' & Hck' & Hed' & Hw'); [|exact Hr'|].
    + change (edit (set_cuart u' s1)) with (edit s1). lia.
    + exists s'. split_and!; [done|done|by rewrite Hck'|done|done].
Qed.

(** Appending one character to the line being edited. *)
Lemma edit_push s u c :
  cons_ok s -> count 32 (cr s) (ce s) < INPUT_BUF -> 0 <= c < 256 ->
  let s' := set_idx (cr s) (cw s) (u32 (ce s + 1)) (set_cbuf (poke INPUT_BUF (cbuf s) (ce s) (u8 c)) (set_cuart u s)) in
  length (cbuf s') = 128%nat /\ count 32 (cr s') (ce s') = count 32 (cr s) (ce s) + 1 /\
  count 32 (cw s') (ce s') = count 32 (cw s) (ce s) + 1 /\
  cooked s' = cooked s /\ edit s' = edit s ++ [c].
Proof.
  intros Hok Hlt Hc s'. pose proof (cons_count_e s Hok) as Hce. pose proof (co_room s Hok) as Hroom.
  pose proof (count_range 32 INPUT_BUF ltac:(apply cons_ring) ltac:(apply cons_ring)) as Hr.
  pose proof (Hr (cr s) (cw s)). pose proof (Hr (cw s) (ce s)). pose proof (Hr (cr s) (ce s)).
  assert (u32 (ce s + 1) = wrap 32 (ce s + 1)) as Hu by done.
  assert (u8 c = c) as Hc8 by (apply u8_small; lia). unfold INPUT_BUF in *.
  subst s'. cbn [set_idx set_cbuf set_cuart cbuf cr cw ce]. split_and!.
  - rewrite length_poke. apply Hok.
  - rewrite Hu. apply (count_move 32 128); lia.
  - rewrite Hu. apply (count_move 32 128); lia.
  - unfold cooked, INPUT_BUF. cbn [cbuf cr cw]. apply contents_poke. intros j Hj.
    rewrite (slot_w 32 128 ltac:(apply cons_ring) ltac:(apply cons_ring) ltac:(apply cons_ring) (cr s) (ce s)).
    intros E. symmetry in E. revert E. apply slot_ne; lia.
  - unfold edit, INPUT_BUF. cbn [cbuf cw ce]. rewrite Hu, Hc8.
    apply (contents_push 32 128); [apply cons_ring..|apply Hok|lia].
Qed.

Lemma cons_lengths s : cons_ok s -> Z.of_nat (length (cooked s) + length (edit s)) = count 32 (cr s) (ce s).
Proof.
  intros Hok. unfold cooked, edit. rewrite !length_contents, cons_count_e by done.
  pose proof (count_range 32 INPUT_BUF ltac:(apply cons_ring) ltac:(apply cons_ring)) as Hr.
  pose proof (Hr (cr s) (cw s)). pose proof (Hr (cw s) (ce s)). lia.
Qed.

Definition intr_post (c : Z) (s s' : cst) : Prop :=
  cons_ok s' /\ (cooked s', edit s') = line_step c (cooked s) (edit s) /\
  cwakes s' = (if decide (cooked s' = cooked s) then [] else [chan_r]) ++ cwakes s.

(** The default branch: store the character, and publish the line if it is
    complete. *)
Definition store_char (c : Z) : M cst unit :=
  modify (fun s => set_idx (cr s) (cw s) (u32 (ce s + 1)) (set_cbuf (poke INPUT_BUF (cbuf s) (ce s) (u8 c)) s));;
  s ← gets id;
  when ((c =? 10) || (c =? C 68) || (ce s =? u32 (cr s + INPUT_BUF)))
    (modify (fun s => set_idx (cr s) (ce s) (ce s) s);; modify (add_cwake chan_r)).

Lemma store_char_run c u h s :
  cons_ok s -> count 32 (cr s) (ce s) < INPUT_BUF -> 0 <= c < 256 ->
  exists s', store_char c (World h (set_cuart u s)) = Ok tt (World h s') /\ cons_ok s' /\
    let line := edit s ++ [c] in
    let full := (c =? 10) || (c =? C 68) || (Z.of_nat (length (cooked s) + length line) =? INPUT_BUF) in
    (cooked s', edit s') = (if full then (cooked s ++ line, []) else (cooked s, line)) /\
    cwakes s' = (if full then [chan_r] else []) ++ cwakes s.
Proof.
  intros Hok Hlt Hc. unfold store_char. mstep. mstep. unfold id.
  destruct (edit_push s u c Hok Hlt Hc) as (Hl & Hcre & Hcwe & Hck & Hed).
  cbn [set_cuart set_cbuf set_idx cbuf cr cw ce] in *.
  set (s1 := set_idx (cr s) (cw s) (u32 (ce s + 1)) (set_cbuf (poke INPUT_BUF (cbuf s) (ce s) (u8 c)) (set_cuart u s))) in *.
  assert ((u32 (ce s + 1) =? u32 (cr s + INPUT_BUF)) = (Z.of_nat (length (cooked s) + length (edit s ++ [c])) =? INPUT_BUF)) as Hfull.
  { change (u32 (cr s + INPUT_BUF)) with (wrap 32 (cr s + INPUT_BUF)).
    rewrite (full_test 32 INPUT_BUF); auto using co_r with xv6; [|lia].
    rewrite Hcre. rewrite length_app. f_equal. pose proof (cons_lengths s Hok). simpl. lia. }
  rewrite Hfull. set (full := (c =? 10) || _ || _). destruct full eqn:Ef; unfold when.
  - rewrite modify_run. unfold modify. cbn [held st]. eexists. split; [done|].
    assert (cooked s1 ++ edit s1 = contents 32 INPUT_BUF (cbuf s1) (cr s1) (ce s1)) as Hsplit.
    { apply contents_split; [apply cons_ring..|]. pose proof (cons_count_e s Hok).
      change (count 32 (cr s) (cw s) + count 32 (cw s) (u32 (ce s + 1)) < 2^32). unfold INPUT_BUF in *. lia. }
    split; [split|split]; try apply Hok; try exact Hl; try apply u32_range; try done.
    + change (count 32 (cr s) (u32 (ce s + 1)) + count 32 (u32 (ce s + 1)) (u32 (ce s + 1)) <= INPUT_BUF).
      rewrite Hcre, count_same. lia.
    + unfold edit. cbn [add_cwake set_idx cw ce cbuf]. rewrite contents_same. apply not_elem_of_nil.
    + f_equal; [|unfold edit; cbn [add_cwake set_idx cw ce cbuf]; apply contents_same].
      rewrite <- Hck, <- Hed. symmetry. exact Hsplit.
  - eexists. split; [done|]. split; [split|split]; try apply Hok; try exact Hl; try apply u32_range.
    + change (count 32 (cr s) (cw s) + count 32 (cw s) (u32 (ce s + 1)) <= INPUT_BUF). rewrite Hcwe. pose proof (cons_count_e s Hok). lia.
    + rewrite Hed. apply not_elem_of_app. split; [apply Hok|]. intros E. apply list_elem_of_singleton in E.
      subst c. subst full. done.
    + by rewrite Hck, Hed.
    + done.
Qed.

Lemma length_edit_le s : cons_ok s -> (length (edit s) <= 128)%nat.
Proof. intros Hok. pose proof (cons_lengths s Hok). pose proof (cons_count_e s Hok). pose proof (co_room s Hok). unfold INPUT_BUF in *. lia. Qed.

Lemma intr_same c s u :
  cons_ok s -> (cooked s, edit s) = line_step c (cooked s) (edit s) -> intr_post c s (set_cuart u s).
Proof. intros Hok Hl. split; [by destruct Hok|]. split; [exact Hl|]. by rewrite decide_True. Qed.

Lemma edit_empty s : cons_ok s -> (ce s =? cw s) = true -> edit s = [].
Proof.
  intros Hok He. rewrite Z.eqb_sym, (empty_test 32 INPUT_BUF) in He by (auto using co_w, co_e with xv6).
  apply Z.eqb_eq in He. unfold edit, contents. by rewrite He.
Qed.

Lemma set_cuart_same s : set_cuart (cuart s) s = s.
Proof. by destruct s. Qed.

(** ** Theorems *)

(** C13: the input interrupt handler implements the line editor: control-U
    empties the line being edited, backspace removes its last character, any
    other character is appended while fewer than [INPUT_BUF] characters are
    held (a carriage return as a newline), and a newline, control-D or a full
    buffer moves the line to the complete ones and wakes the readers.  The
    handler always returns when the device takes the echoed characters. *)
Theorem consoleintr_edits (procdump : M cst unit) (c : Z) (h : list lockid) (s : cst) :
  cons_ok s -> 0 <= c < 256 -> cons_lock ∉ h -> uart_ready 384 (cuart s) ->
  (exists u, procdump (World (cons_lock :: h) s) = Ok tt (World (cons_lock :: h) (set_cuart u s))) ->
  exists s', consoleintr procdump c (World h s) = Ok tt (World h s') /\ intr_post c s s'.
Proof.
  intros Hok Hc Hh Hr [up Hpd]. unfold consoleintr. rewrite acquire_run by done.
  pose proof (length_edit_le s Hok) as Hel. set (h' := cons_lock :: h).
  assert (forall (m : M cst unit) s', m (World h' s) = Ok tt (World h' s') -> intr_post c s s' ->
    exists s', (m;; release cons_lock) (World h' s) = Ok tt (World h s') /\ intr_post c s s') as Hend.
  { intros m s' Hm Hp. rewrite (bind_run _ _ _ _ _ Hm). subst h'. rewrite release_last by done. eauto. }
  assert (intr_post c s s <-> (cooked s, edit s) = line_step c (cooked s) (edit s)) as Hsame.
  { split; [intros (_ & E & _); exact E|]. intros E. rewrite <- (set_cuart_same s) at 2. by apply intr_same. }
  destruct (c =? C 80) eqn:EP.
  { eapply Hend; [exact Hpd|]. apply intr_same; [done|]. unfold line_step. by rewrite EP. }
  destruct (c =? C 85) eqn:EU.
  { destruct (kill_line_run (S (Z.to_nat INPUT_BUF)) h' s Hok) as (s' & Hrun & Hok' & Hck & Hed & Hw).
    - change (Z.to_nat INPUT_BUF) with 128%nat. lia.
    - eapply uart_ready_le; [|done]. lia.
    - eapply Hend; [exact Hrun|]. split; [done|]. split; [unfold line_step; rewrite EP, EU; by rewrite Hck, Hed|].
      rewrite decide_True by done. done. }
  destruct ((c =? C 72) || (c =? 0x7f)) eqn:EH.
  { destruct (ce s =? cw s) eqn:Hew.
    - eapply Hend; [rewrite gets_run; unfold id; rewrite Hew; done|]. apply Hsame. unfold line_step.
      by rewrite EP, EU, EH, edit_empty.
    - destruct (consputc_run 381 BACKSPACE h' (set_idx (cr s) (cw s) (u32 (ce s - 1)) s) Hr) as (u' & Hrun & _).
      destruct (edit_back s u' Hok Hew) as (Hok' & Hed & Hck). eapply Hend.
      + rewrite gets_run. unfold id. rewrite Hew. cbn [negb when]. rewrite modify_run. exact Hrun.
      + split; [done|]. split; [|by rewrite decide_True].
        unfold line_step. rewrite EP, EU, EH, Hck. f_equal. rewrite Hed. by rewrite removelast_last. }
  destruct (negb (c =? 0) && (u32 (ce s - cr s) <? INPUT_BUF)) eqn:EC.
  2:{ eapply Hend; [rewrite gets_run; unfold id; rewrite EC; done|]. apply Hsame. unfold line_step.
      rewrite EP, EU, EH, cons_lengths by done. unfold count, wrap. fold (u32 (ce s - cr s)). by rewrite EC. }
  set (c' := if c =? 13 then 10 else c). assert (0 <= c' < 256) as Hc' by (subst c'; destruct (c =? 13); lia).
  destruct (consputc_run 381 c' h' s Hr) as (u' & Hrun & _).
  apply andb_true_iff in EC as [EC0 EC1]. apply Z.ltb_lt in EC1.
  destruct (store_char_run c' u' h' s Hok EC1 Hc') as (s' & Hst & Hok' & Hle & Hw).
  eapply Hend.
  - rewrite gets_run. unfold id. rewrite EC0. apply Z.ltb_lt in EC1. rewrite EC1. cbn [andb when].
    fold c'. rewrite (bind_run _ _ _ _ _ Hrun). exact Hst.
  - split; [done|]. split.
    + rewrite Hle. unfold line_step. rewrite EP, EU, EH, EC0, cons_lengths by done. unfold count, wrap. fold (u32 (ce s - cr s)).
      apply Z.ltb_lt in EC1. rewrite EC1. done.
    + rewrite Hw. cbn zeta in Hle. destruct ((c' =? 10) || _ || _); injection Hle as -> _.
      * rewrite decide_False; [done|]. intros E. apply (f_equal length) in E. rewrite !length_app in E. simpl in E. lia.
      * by rewrite decide_True.
Qed.

Definition demo_cst : cst :=
  Cons demo_mapped (Uart (replicate 32 0) 0 0 false (replicate 384 LSR_TX_IDLE) [] [] []) (replicate 128 104) 0 2 3 [].
Lemma demo_cst_ok : cons_ok demo_cst.
Proof.
  split; cbn; try lia; try reflexivity.
  - vm_compute. discriminate.
  - apply (bool_decide_unpack _). vm_compute. exact I.
Qed.

(** A newline typed after one character of the third line. *)
Lemma consoleintr_edits_witness :
  exists s', consoleintr (mret tt) 13 (World [] demo_cst) = Ok tt (World [] s') /\ intr_post 13 demo_cst s'.
Proof.
  apply (consoleintr_edits (mret tt) 13 [] demo_cst).
  - exact demo_cst_ok.
  - lia.
  - apply not_elem_of_nil.
  - split; [reflexivity|]. reflexivity.
  - exists (cuart demo_cst). reflexivity.
Defined.

(** What a [read] of up to [n] bytes takes from the complete lines, with
    [first] when nothing was taken before: up to and including a newline; a
    control-D ends it and is consumed only at the start.  [None]: it waits. *)
Fixpoint take_line (n : nat) (first : bool) (lines : list Z) : option (list Z * list Z) :=
  match n, lines with
  | O, _ => Some ([], lines)
  | S n, [] => None
  | S n, c :: rest =>
      if c =? C 68 then Some ([], if first then rest else lines)
      else if c =? 10 then Some ([c], rest)
      else '(got, rest) ← take_line n false rest; mret (c :: got, rest)
  end.

Section consoleread.
Context {L : Layout} {LO : LayoutOk L}.

Lemma wait_ready env killed h s :
  (cr s =? cw s) = false -> consoleread_wait env killed (World h s) = Ok (Some env) (World h s).
Proof. intros Hne. destruct env; cbn [consoleread_wait]; mstep; unfold id; by rewrite Hne. Qed.

Definition take_front (s : cst) : cst := set_idx (u32 (cr s + 1)) (cw s) (ce s) s.

Lemma cooked_front s c rest :
  cons_ok s -> cooked s = c :: rest ->
  (cr s =? cw s) = false /\ peek INPUT_BUF (cbuf s) (cr s) = c /\ cooked (take_front s) = rest /\ cons_ok (take_front s).
Proof.
  intros Hok Hck. pose proof (f_equal length Hck) as Hl. unfold cooked in Hl. rewrite length_contents in Hl. simpl in Hl.
  assert (0 < count 32 (cr s) (cw s)) as Hpos by lia.
  unfold cooked in Hck. rewrite (contents_pop 32 INPUT_BUF) in Hck by (auto with xv6). injection Hck as Hc Hr.
  split_and!; [|done|done|].
  - rewrite (empty_test 32 INPUT_BUF) by (auto using co_r, co_w with xv6). apply Z.eqb_neq. lia.
  - split; try apply Hok; [apply u32_range|]. cbn [take_front set_idx cr cw ce].
    change (u32 (cr s + 1)) with (wrap 32 (cr s + 1)).
    rewrite (count_move_r 32 INPUT_BUF); auto with xv6.
    + pose proof (co_room s Hok). lia.
    + pose proof (count_range 32 INPUT_BUF ltac:(apply cons_ring) ltac:(apply cons_ring) (cr s) (cw s)). lia.
Qed.

Definition cons_read_post (root dst i n : Z) (h : list lockid) (s : cst) (got rest : list Z) (o : outcome cst (option Z)) : Prop :=
  exists s', o = Ok (Some (n - Z.of_nat (length got))) (World h s') /\ cons_ok s' /\ cooked s' = rest /\ edit s' = edit s /\
    kmem (ck s') = user_store (kmem (ck s)) root dst i got.

Lemma zoom_ck {A} (m : M kstate A) a h s k :
  m (World h (ck s)) = Ok a (World h k) -> zoom ck set_ck m (World h s) = Ok a (World h (set_ck k s)).
Proof. intros Hm. unfold zoom. cbn [held st]. by rewrite Hm. Qed.

Lemma take_back s : cons_ok s -> set_idx (u32 (cr (take_front s) - 1)) (cw (take_front s)) (ce (take_front s)) (take_front s) = s.
Proof.
  intros Hok. destruct s as [k u b r w e wk]. pose proof (co_r _ Hok) as Hr. unfold take_front, set_idx in *.
  cbn [ck cuart cbuf cr cw ce cwakes] in *. f_equal. unfold u32. rewrite Zminus_mod_idemp_l. replace (r + 1 - 1) with r by lia. by apply Z.mod_small.
Qed.

Lemma u64_next a i : u64 (u64 (a + i) + 1) = u64 (a + (i + 1)).
Proof. unfold u64. rewrite Zplus_mod_idemp_l. f_equal. lia. Qed.

Lemma consoleread_loop_spec fuel : forall env killed root own dst i n target h s got rest,
  cons_ok s -> pt_inv (kmem (ck s)) root own -> user_safe (kmem (ck s)) root own ->
  0 <= n <= target -> (Z.to_nat n < fuel)%nat ->
  (forall j, i <= j < i + n -> utrans (kmem (ck s)) root (u64 (dst + j)) <> 0) ->
  take_line (Z.to_nat n) (n =? target) (cooked s) = Some (got, rest) ->
  cons_read_post root dst i n h s got rest
    (consoleread_loop fuel env killed true root (u64 (dst + i)) n target (World h s)).
Proof.
  induction fuel as [|fuel IH]; intros env killed root own dst i n target h s got rest Hok Hpt Hus Hn Hf Hacc Htl; [lia|].
  cbn [consoleread_loop]. destruct (Z.ltb_spec 0 n) as [Hpos|Hz]; cbn [negb].
  2:{ replace (Z.to_nat n) with O in Htl by lia. injection Htl as <- <-. exists s. rewrite Z.sub_0_r. done. }
  replace (Z.to_nat n) with (S (Z.to_nat (n - 1))) in Htl by lia. destruct (cooked s) as [|c lines] eqn:Hck; [done|].
  destruct (cooked_front s c lines Hok Hck) as (Hne & Hpk & Hck' & Hok').
  rewrite (bind_run _ _ _ _ _ (wait_ready env killed h s Hne)). mstep. unfold id. rewrite Hpk. mstep.
  fold (take_front s). cbn [take_line] in Htl. destruct (c =? C 68) eqn:ED.
  { injection Htl as <- <-. unfold when. destruct (Z.ltb_spec n target) as [Hlt|Hge].
    - rewrite modify_run. rewrite take_back by done. exists s. rewrite Z.sub_0_r.
      destruct (Z.eqb_spec n target); [lia|]. done.
    - exists (take_front s). rewrite Z.sub_0_r. destruct (Z.eqb_spec n target); [|lia]. done. }
  assert (utrans (kmem (ck s)) root (u64 (dst + i)) <> 0) as Hnz by (apply Hacc; lia).
  pose proof (copyout_byte root own (u64 (dst + i)) c h (ck s) Hpt) as Hco.
  rewrite (proj2 (Z.eqb_neq _ _) Hnz) in Hco.
  rewrite (bind_run _ _ _ _ _ (zoom_ck (either_copyout true root (u64 (dst + i)) [c]) _ _ (take_front s) _ Hco)).
  change (0 =? -1) with false. cbv iota. set (m' := st8 _ _ c).
  destruct (user_store_keeps _ _ _ _ c Hpt Hus Hnz) as (Hpt' & Hus' & Htr). fold m' in Hpt', Hus', Htr.
  destruct (c =? 10) eqn:EN.
  { injection Htl as <- <-. eexists. split; [done|]. split; [by destruct Hok'|]. done. }
  destruct (take_line (Z.to_nat (n - 1)) false lines) as [[got' rest']|] eqn:Htl'; [|done].
  injection Htl as <- <-. rewrite u64_next.
  destruct (IH env killed root own dst (i + 1) (n - 1) target h (set_ck (KState m' (freelist (ck s))) (take_front s)) got' rest')
    as (s' & Hrun & Hok'' & Hck'' & Hed & Hm).
  - by destruct Hok'.
  - done.
  - done.
  - lia.
  - lia.
  - intros j Hj. cbn [set_ck ck kmem]. rewrite Htr. apply Hacc. lia.
  - replace (n - 1 =? target) with false by (symmetry; apply Z.eqb_neq; lia).
    change (cooked (set_ck (KState m' (freelist (ck s))) (take_front s))) with (cooked (take_front s)). by rewrite Hck'.
  - exists s'. split; [|done]. rewrite Hrun. do 2 f_equal. cbn [length]. lia.
Qed.

(** When a complete line (or [n] bytes) is waiting and the destination is
    writable, [consoleread] returns at once with exactly what a terminal read
    delivers: bytes up to and including a newline, at most [n], with a
    control-D ending the read and kept for the next one unless it came first;
    the bytes are stored in order in user memory. *)
Theorem consoleread_line (env : list (cst -> cst)) (killed : nat -> bool) (root dst n : Z) own (h : list lockid)
    (s : cst) (got rest : list Z) :
  cons_ok s -> pt_inv (kmem (ck s)) root own -> user_safe (kmem (ck s)) root own -> cons_lock ∉ h ->
  0 <= dst < 2^64 -> 0 <= n < 2^31 ->
  (forall j, 0 <= j < n -> utrans (kmem (ck s)) root (u64 (dst + j)) <> 0) ->
  take_line (Z.to_nat n) true (cooked s) = Some (got, rest) ->
  exists s', consoleread env killed true root dst n (World h s) = Ok (Z.of_nat (length got)) (World h s') /\
    cons_ok s' /\ cooked s' = rest /\ edit s' = edit s /\
    kmem (ck s') = user_store (kmem (ck s)) root dst 0 got.
Proof.
  intros Hok Hpt Hus Hh Hdst Hn Hacc Htl. unfold consoleread. rewrite acquire_run by done.
  rewrite (u32_small n) by lia.
  destruct (consoleread_loop_spec (S (Z.to_nat n)) env killed root own dst 0 n n (cons_lock :: h) s got rest)
    as (s' & Hrun & Hok' & Hck & Hed & Hm); [done|done|done|lia|lia| |by rewrite Z.eqb_refl|].
  - intros j Hj. apply Hacc. lia.
  - rewrite Z.add_0_r, (u64_small dst) in Hrun by lia. rewrite (bind_run _ _ _ _ _ Hrun).
    rewrite release_run by done. exists s'. split; [|done]. unfold mret, M_ret. f_equal.
    replace (n - (n - Z.of_nat (length got))) with (Z.of_nat (length got)) by lia.
    apply signed_small; [lia|]. split; [lia|].
    assert (length got <= Z.to_nat n)%nat; [|change (32 - 1) with 31; lia].
    clear - Htl. revert Htl. generalize (Z.to_nat n) true (cooked s). intros k. revert got rest.
    induction k as [|k IH]; intros got rest b l Ht; [by injection Ht as <- <-|]. destruct l as [|c l]; [done|]. cbn [take_line] in Ht.
    destruct (c =? C 68); [injection Ht as <- <-; simpl; lia|]. destruct (c =? 10); [injection Ht as <- <-; simpl; lia|].
    destruct (take_line k false l) as [[g r]|] eqn:E; [|done]. injection Ht as <- <-. apply IH in E. simpl. lia.
Qed.
End consoleread.

Definition demo_line : cst :=
  Cons demo_mapped (cuart demo_cst) (104 :: 105 :: 10 :: replicate 125 0) 0 3 3 [].
Lemma consoleread_line_witness :
  exists s', consoleread [] (fun _ => false) true demo_root 0 16 (World [] demo_line) = Ok 3 (World [] s') /\
    cons_ok s' /\ cooked s' = [] /\ edit s' = [] /\
    kmem (ck s') = user_store (kmem demo_mapped) demo_root 0 0 [104; 105; 10].
Proof.
  apply (consoleread_line [] (fun _ => false) demo_root 0 16 demo_own [] demo_line [104; 105; 10] []).
  - split; cbn; try lia; try reflexivity; [vm_compute; discriminate|]. apply (bool_decide_unpack _). vm_compute. exact I.
  - exact (proj1 (proj2 demo_mapped_inv)).
  - exact demo_user_safe.
  - apply not_elem_of_nil.
  - lia.
  - lia.
  - intros j Hj. change (kmem (ck demo_line)) with (kmem demo_mapped). rewrite u64_small, demo_utrans by lia. discriminate.
  - reflexivity.
Defined.
