(* ===== verification/Sleeplock.v ===== *)
(** * kernel/sleeplock.c: long-term locks

    A sleeplock lives inside another component's state; [get] and [put] are
    its place there, [id] the identity of its spinlock and of the channel its
    waiters sleep on, [wakeup] the component's wakeup.  [acquiresleep] on a
    lock that is held ends the execution under study with [Blocked]: whoever
    holds the lock is another thread. *)

From S2P Require Import Prelude.

Record sleeplock : Type := Sleeplock { slocked : bool; slpid : Z }.

Section sleeplock.
Context {S : Type} (id : lockid) (get : S -> sleeplock) (put : sleeplock -> S -> S) (wakeup : lockid -> M S unit).

Definition initsleeplock : M S unit :=
  initlock id;;
  modify (put (Sleeplock false 0)).

Definition acquiresleep (pid : Z) : M S unit :=
  acquire id;;
  l ← gets get;
  if slocked l then sleep id else
  modify (put (Sleeplock true pid));;
  release id.

Definition releasesleep : M S unit :=
  acquire id;;
  modify (put (Sleeplock false 0));;
  wakeup id;;
  release id.

Definition holdingsleep (pid : Z) : M S bool :=
  acquire id;;
  l ← gets get;
  release id;;
  mret (slocked l && (slpid l =? pid)).

Lemma acquiresleep_run pid h s :
  id ∉ h -> slocked (get s) = false ->
  acquiresleep pid (World h s) = Ok tt (World h (put (Sleeplock true pid) s)).
Proof. intros Hh Hl. unfold acquiresleep. rewrite acquire_run by done. mstep. rewrite Hl. mstep. by rewrite release_last. Qed.

Lemma acquiresleep_blocks pid h s :
  id ∉ h -> slocked (get s) = true -> acquiresleep pid (World h s) = Blocked id.
Proof. intros Hh Hl. unfold acquiresleep. rewrite acquire_run by done. mstep. by rewrite Hl. Qed.

Lemma releasesleep_run h s s' :
  id ∉ h -> wakeup id (World (id :: h) (put (Sleeplock false 0) s)) = Ok tt (World (id :: h) s') ->
  releasesleep (World h s) = Ok tt (World h s').
Proof.
  intros Hh Hw. unfold releasesleep. rewrite acquire_run by done. mstep.
  rewrite (bind_run _ _ _ _ _ Hw). by rewrite release_last.
Qed.

Lemma holdingsleep_run pid h s :
  id ∉ h -> holdingsleep pid (World h s) = Ok (slocked (get s) && (slpid (get s) =? pid)) (World h s).
Proof. intros Hh. unfold holdingsleep. rewrite acquire_run by done. mstep. by rewrite release_run. Qed.
End sleeplock.
