(* ===== verification/Bio.v ===== *)
(** * kernel/bio.c: the buffer cache

    [NBUF] buffers and the list head are the nodes of a circular doubly
    linked list; a [struct buf *] is the index of its node, [HEAD] the list
    head.  The disk is a map from block numbers to contents; a request of
    [virtio_disk_rw] (kernel/virtio_disk.c) is its effect on that map, a whole
    block at a time, and [dtrace] records the writes, latest first. *)

From S2P Require Import Prelude Sleeplock.

Definition NBUF : nat := 30.
Definition BSIZE : Z := 1024.
Definition HEAD : nat := NBUF.

Record buf : Type := Buf {
  valid : bool;          (* has data been read from disk? *)
  dev : Z;
  blockno : Z;
  block : sleeplock;
  refcnt : Z;
  prev : nat;            (* LRU cache list *)
  next : nat;
  data : list Z
}.
Definition buf0 : buf := Buf false 0 0 (Sleeplock false 0) 0 0 0 [].

Record bst : Type := BSt {
  bufs : list buf;                  (* bcache.buf, then bcache.head *)
  disk : gmap Z (list Z);
  dtrace : list (Z * list Z);
  bpid : Z;                         (* myproc()->pid *)
  bwakes : list lockid
}.

Definition zeroes (n : Z) : list Z := replicate (Z.to_nat n) 0.
Definition getb (s : bst) (i : nat) : buf := default buf0 (bufs s !! i).
Definition updb (i : nat) (f : buf -> buf) (s : bst) : bst :=
  BSt (<[i := f (getb s i)]> (bufs s)) (disk s) (dtrace s) (bpid s) (bwakes s).
Definition disk_block (d : gmap Z (list Z)) (bn : Z) : list Z := default (zeroes BSIZE) (d !! bn).

Definition set_valid (v : bool) (b : buf) : buf :=
  Buf v (dev b) (blockno b) (block b) (refcnt b) (prev b) (next b) (data b).
Definition set_refcnt (r : Z) (b : buf) : buf :=
  Buf (valid b) (dev b) (blockno b) (block b) r (prev b) (next b) (data b).
Definition set_prev (p : nat) (b : buf) : buf :=
  Buf (valid b) (dev b) (blockno b) (block b) (refcnt b) p (next b) (data b).
Definition set_next (n : nat) (b : buf) : buf :=
  Buf (valid b) (dev b) (blockno b) (block b) (refcnt b) (prev b) n (data b).
Definition set_block (l : sleeplock) (b : buf) : buf :=
  Buf (valid b) (dev b) (blockno b) l (refcnt b) (prev b) (next b) (data b).
Definition set_data (d : list Z) (b : buf) : buf :=
  Buf (valid b) (dev b) (blockno b) (block b) (refcnt b) (prev b) (next b) d.

Definition bcache_lock : lockid := ("bcache"%string, 0).
Definition buf_lock (i : nat) : lockid := ("buffer"%string, Z.of_nat i).
Definition get_block (i : nat) (s : bst) : sleeplock := block (getb s i).
Definition put_block (i : nat) (l : sleeplock) (s : bst) : bst := updb i (set_block l) s.
Definition bwakeup (c : lockid) : M bst unit :=
  modify (fun s => BSt (bufs s) (disk s) (dtrace s) (bpid s) (c :: bwakes s)).

(** The assignments that put [b] right after the head. *)
Definition link_front (i : nat) : M bst unit :=
  modify (fun s => updb i (set_next (next (getb s HEAD))) s);;        (* b->next = bcache.head.next *)
  modify (updb i (set_prev HEAD));;                                   (* b->prev = &bcache.head *)
  modify (fun s => updb (next (getb s HEAD)) (set_prev i) s);;        (* bcache.head.next->prev = b *)
  modify (updb HEAD (set_next i)).                                    (* bcache.head.next = b *)

(** [initsleeplock], which touches no link, comes between the second and the
    third assignment in the source. *)
Fixpoint binit_loop (is_ : list nat) : M bst unit :=
  match is_ with
  | [] => mret tt
  | i :: is_ =>
      initsleeplock (buf_lock i) (put_block i);;
      link_front i;;
      binit_loop is_
  end.
Definition binit : M bst unit :=
  initlock bcache_lock;;
  modify (updb HEAD (set_prev HEAD));;
  modify (updb HEAD (set_next HEAD));;
  binit_loop (seq 0 NBUF).

(** The two scans of [bget], from node [b]; [NBUF] + 1 steps pass every node. *)
Fixpoint find_cached (fuel : nat) (s : bst) (dv bn : Z) (b : nat) : option nat :=
  match fuel with
  | O => None
  | S fuel => if decide (b = HEAD) then None
              else if (dev (getb s b) =? dv) && (blockno (getb s b) =? bn) then Some b
              else find_cached fuel s dv bn (next (getb s b))
  end.
Fixpoint find_unused (fuel : nat) (s : bst) (b : nat) : option nat :=
  match fuel with
  | O => None
  | S fuel => if decide (b = HEAD) then None
              else if refcnt (getb s b) =? 0 then Some b
              else find_unused fuel s (prev (getb s b))
  end.

Definition bget (dv bn : Z) : M bst nat :=
  acquire bcache_lock;;
  s ← gets id;
  match find_cached (S NBUF) s dv bn (next (getb s HEAD)) with
  | Some b =>
      modify (updb b (fun x => set_refcnt (u32 (refcnt x + 1)) x));;
      release bcache_lock;;
      acquiresleep (buf_lock b) (get_block b) (put_block b) (bpid s);;
      mret b
  | None =>
      match find_unused (S NBUF) s (prev (getb s HEAD)) with
      | Some b =>
          modify (updb b (fun x => Buf false dv bn (block x) 1 (prev x) (next x) (data x)));;
          release bcache_lock;;
          acquiresleep (buf_lock b) (get_block b) (put_block b) (bpid s);;
          mret b
      | None => panic "bget: no buffers"
      end
  end.

Definition virtio_disk_rw (b : nat) (write : bool) : M bst unit :=
  if write
  then modify (fun s => BSt (bufs s) (<[blockno (getb s b) := data (getb s b)]> (disk s))
                            ((blockno (getb s b), data (getb s b)) :: dtrace s) (bpid s) (bwakes s))
  else modify (fun s => updb b (set_data (disk_block (disk s) (blockno (getb s b)))) s).

Definition bread (dv bn : Z) : M bst nat :=
  b ← bget dv bn;
  s ← gets id;
  when (negb (valid (getb s b)))
    (virtio_disk_rw b false;;
     modify (updb b (set_valid true)));;
  mret b.

Definition bwrite (b : nat) : M bst unit :=
  pid ← gets bpid;
  ok ← holdingsleep (buf_lock b) (get_block b) pid;
  if negb ok then panic "bwrite" else virtio_disk_rw b true.

Definition brelse (b : nat) : M bst unit :=
  pid ← gets bpid;
  ok ← holdingsleep (buf_lock b) (get_block b) pid;
  if negb ok then panic "brelse" else
  releasesleep (buf_lock b) (put_block b) bwakeup;;
  acquire bcache_lock;;
  modify (updb b (fun x => set_refcnt (u32 (refcnt x - 1)) x));;
  s ← gets id;
  when (refcnt (getb s b) =? 0)
    (modify (fun s => updb (next (getb s b)) (set_prev (prev (getb s b))) s);;
     modify (fun s => updb (prev (getb s b)) (set_next (next (getb s b))) s);;
     link_front b);;
  release bcache_lock.

Definition bpin (b : nat) : M bst unit :=
  acquire bcache_lock;;
  modify (updb b (fun x => set_refcnt (u32 (refcnt x + 1)) x));;
  release bcache_lock.
Definition bunpin (b : nat) : M bst unit :=
  acquire bcache_lock;;
  modify (updb b (fun x => set_refcnt (u32 (refcnt x - 1)) x));;
  release bcache_lock.
