(* ===== verification/BioSpec.v ===== *)
(** * What the buffer cache promises

    [BlockCache] is the interface the log and the file system are written and
    proved against: an abstract cache is a map [pins] from the numbers of the
    blocks in use to their reference count, contents and lock, and a disk.
    The buffer cache of [Bio] implements it ([bio_cache]): each block in use
    is held by exactly one buffer, whatever the LRU list does. *)

From S2P Require Import Prelude Sleeplock Bio.

Record pin : Type := Pin { pcnt : Z; pdat : list Z; plock : bool }.
Record abs : Type := Abs { pins : gmap Z pin; adisk : gmap Z (list Z); atrace : list (Z * list Z) }.

Definition set_pin (bn : Z) (p : pin) (a : abs) : abs := Abs (<[bn := p]> (pins a)) (adisk a) (atrace a).
Definition del_pin (bn : Z) (a : abs) : abs := Abs (delete bn (pins a)) (adisk a) (atrace a).
(** Drop one reference: the last one lets the buffer be recycled. *)
Definition unref (bn : Z) (p : pin) (a : abs) : abs :=
  if pcnt p =? 1 then del_pin bn a else set_pin bn (Pin (pcnt p - 1) (pdat p) (plock p)) a.

Definition ROOTDEV : Z := 1.

(** Operations of a block cache over states [S] with buffer handles [H]. *)
Class BlockOps (S H : Type) : Type := {
  b_read : Z -> Z -> M S H;                     (* bread(dev, blockno) *)
  b_write : H -> M S unit;                      (* bwrite *)
  b_relse : H -> M S unit;                      (* brelse *)
  b_pin : H -> M S unit;
  b_unpin : H -> M S unit;
  b_data : S -> H -> list Z;                    (* b->data *)
  b_blockno : S -> H -> Z;                      (* b->blockno *)
  b_setdata : H -> (list Z -> list Z) -> S -> S  (* stores into b->data *)
}.

(** The spinlocks a cache takes and releases inside its operations. *)
Definition cache_free (h : list lockid) : Prop := (bcache_lock ∉ h) /\ forall i, buf_lock i ∉ h.

Class BlockCache (S H : Type) {O : BlockOps S H} : Type := {
  rep : S -> abs -> Prop;
  handle : S -> Z -> H;
  (** [handle s bn] is the buffer of block [bn] while it is in use. *)
  rep_data : forall s a bn p, rep s a -> pins a !! bn = Some p ->
    b_data s (handle s bn) = pdat p /\ b_blockno s (handle s bn) = bn;
  rep_setdata : forall s a bn p f, rep s a -> pins a !! bn = Some p -> plock p = true ->
    let s' := b_setdata (handle s bn) f s in
    rep s' (set_pin bn (Pin (pcnt p) (f (pdat p)) true) a) /\ forall bn', handle s' bn' = handle s bn';
  rep_read : forall s a bn h, rep s a -> cache_free h ->
    match pins a !! bn with
    | Some p => plock p = false /\ pcnt p + 1 < 2^32
    | None => (size (pins a) < NBUF)%nat
    end ->
    exists s', b_read ROOTDEV bn (World h s) = Ok (handle s' bn) (World h s') /\
      rep s' (set_pin bn (match pins a !! bn with
                          | Some p => Pin (pcnt p + 1) (pdat p) true
                          | None => Pin 1 (disk_block (adisk a) bn) true
                          end) a) /\
      forall bn', is_Some (pins a !! bn') -> handle s' bn' = handle s bn';
  rep_write : forall s a bn p h, rep s a -> cache_free h -> pins a !! bn = Some p -> plock p = true ->
    exists s', b_write (handle s bn) (World h s) = Ok tt (World h s') /\
      rep s' (Abs (pins a) (<[bn := pdat p]> (adisk a)) ((bn, pdat p) :: atrace a)) /\
      forall bn', handle s' bn' = handle s bn';
  rep_relse : forall s a bn p h, rep s a -> cache_free h -> pins a !! bn = Some p -> plock p = true ->
    (pcnt p = 1 -> pdat p = disk_block (adisk a) bn) ->
    exists s', b_relse (handle s bn) (World h s) = Ok tt (World h s') /\
      rep s' (unref bn (Pin (pcnt p) (pdat p) false) a) /\ forall bn', handle s' bn' = handle s bn';
  rep_pin : forall s a bn p h, rep s a -> cache_free h -> pins a !! bn = Some p -> pcnt p + 1 < 2^32 ->
    exists s', b_pin (handle s bn) (World h s) = Ok tt (World h s') /\
      rep s' (set_pin bn (Pin (pcnt p + 1) (pdat p) (plock p)) a) /\ forall bn', handle s' bn' = handle s bn';
  rep_unpin : forall s a bn p h, rep s a -> cache_free h -> pins a !! bn = Some p -> 1 < pcnt p ->
    exists s', b_unpin (handle s bn) (World h s) = Ok tt (World h s') /\
      rep s' (set_pin bn (Pin (pcnt p - 1) (pdat p) (plock p)) a) /\ forall bn', handle s' bn' = handle s bn'
}.

#[export] Instance bio_ops : BlockOps bst nat := {
  b_read := bread; b_write := bwrite; b_relse := brelse; b_pin := bpin; b_unpin := bunpin;
  b_data := fun s i => data (getb s i);
  b_blockno := fun s i => blockno (getb s i);
  b_setdata := fun i f s => updb i (fun b => set_data (f (data b)) b) s
}.

(** ** Circular doubly linked lists *)

Section links.
Implicit Types (nx pv : nat -> nat) (l : list nat).

Definition fupd (f : nat -> nat) (a v : nat) : nat -> nat := fun x => if decide (x = a) then v else f x.

(** The nodes [l] lie between [p] and [q]. *)
Fixpoint seg nx pv (p : nat) l (q : nat) : Prop :=
  match l with
  | [] => nx p = q /\ pv q = p
  | x :: l => nx p = x /\ pv x = p /\ seg nx pv x l q
  end.

Lemma seg_app nx pv p l1 x l2 q : seg nx pv p (l1 ++ x :: l2) q <-> seg nx pv p l1 x /\ seg nx pv x l2 q.
Proof. revert p. induction l1 as [|y l1 IH]; intros p; simpl; [tauto|]. rewrite IH. tauto. Qed.

Lemma seg_ext nx pv nx' pv' p l q :
  (forall x, x ∈ p :: l -> nx' x = nx x) -> (forall x, x ∈ q :: l -> pv' x = pv x) ->
  seg nx pv p l q -> seg nx' pv' p l q.
Proof.
  revert p. induction l as [|y l IH]; intros p Hn Hp; simpl.
  - rewrite Hn, Hp by set_solver. done.
  - rewrite Hn, Hp by set_solver. intros (? & ? & Hs). split_and!; [done..|]. apply IH; [set_solver|set_solver|done].
Qed.

Lemma seg_last nx pv p l q : seg nx pv p l q -> pv q ∈ p :: l.
Proof. revert p. induction l as [|x l IH]; intros p; simpl; [intros [_ ->]; set_solver|]. intros (_ & _ & Hs). set_solver. Qed.
Lemma seg_first nx pv p l q : seg nx pv p l q -> nx p ∈ q :: l.
Proof. destruct l; simpl; [intros [-> _]|intros (-> & _)]; set_solver. Qed.

Lemma fupd_eq f a v : fupd f a v a = v.
Proof. unfold fupd. by rewrite decide_True. Qed.
Lemma fupd_ne f a v x : x <> a -> fupd f a v x = f x.
Proof. intros. unfold fupd. by rewrite decide_False. Qed.
Lemma not_elem_ne (x a : nat) l : (a ∉ l) -> x ∈ l -> x <> a.
Proof. by intros Ha Hx ->. Qed.

(** [b->next->prev = b->prev; b->prev->next = b->next] *)
Lemma seg_unlink nx pv p l1 b l2 q :
  seg nx pv p l1 b -> seg nx pv b l2 q -> NoDup (l1 ++ b :: l2) -> (p ∉ l1 ++ b :: l2) -> (q ∉ l1 ++ b :: l2) ->
  seg (fupd nx (pv b) (nx b)) (fupd pv (nx b) (pv b)) p (l1 ++ l2) q.
Proof.
  revert p. induction l1 as [|x l1 IH]; intros p; simpl app.
  - intros [Hpb Hbp] Hs Hnd Hp Hq. rewrite Hbp. apply NoDup_cons in Hnd as [Hb Hnd].
    apply not_elem_of_cons in Hp as [Hpb' Hp], Hq as [Hqb Hq].
    destruct l2 as [|y l2]; simpl in *.
    + destruct Hs as [-> _]. by rewrite !fupd_eq.
    + destruct Hs as (-> & Hyb & Hs). rewrite !fupd_eq. split_and!; [done..|].
      apply NoDup_cons in Hnd as [Hy Hnd].
      eapply seg_ext; [| |exact Hs]; intros z Hz; apply fupd_ne.
      * by eapply not_elem_ne.
      * apply elem_of_cons in Hz as [->|Hz]; [by apply not_elem_of_cons in Hq as [? _]|by eapply not_elem_ne].
  - intros (Hpx & Hxp & Hs1) Hs2 Hnd Hp Hq. pose proof (seg_last _ _ _ _ _ Hs1) as Hl.
    pose proof (seg_first _ _ _ _ _ Hs2) as Hf. apply NoDup_cons in Hnd as [Hx Hnd].
    apply not_elem_of_cons in Hp as [Hpx' Hp], Hq as [Hqx Hq].
    simpl. rewrite !fupd_ne.
    + split_and!; [done..|]. by apply IH.
    + apply not_eq_sym, (not_elem_ne _ x (q :: l2)); [|done]. apply not_elem_of_cons. split; [done|].
      intros Hin. apply Hx. apply elem_of_app. right. apply elem_of_cons. by right.
    + apply not_eq_sym, (not_elem_ne _ p (x :: l1)); [|done]. apply not_elem_of_cons. split; [done|].
      intros Hin. apply Hp. apply elem_of_app. by left.
Qed.

(** Inserting [b] after the head [p]. *)
Lemma seg_link nx pv p b l :
  seg nx pv p l p -> NoDup l -> (p ∉ b :: l) -> (b ∉ l) ->
  let nx1 := fupd nx b (nx p) in let pv1 := fupd pv b p in
  seg (fupd nx1 p b) (fupd pv1 (nx1 p) b) p (b :: l) p.
Proof.
  intros Hs Hnd Hp Hb. simpl. apply not_elem_of_cons in Hp as [Hpb Hp].
  rewrite (fupd_ne nx b (nx p) p) by done. rewrite fupd_eq. split; [done|]. pose proof (seg_first _ _ _ _ _ Hs) as Hf.
  assert (nx p <> b) as Hnb by (apply (not_elem_ne _ b (p :: l)); [apply not_elem_of_cons; auto|done]).
  rewrite (fupd_ne (fupd pv b p)), fupd_eq by done. split; [done|].
  destruct l as [|x l]; simpl in *.
  - destruct Hs as [Hn _]. rewrite Hn, (fupd_ne _ p b b), !fupd_eq by done. done.
  - destruct Hs as (-> & Hxp & Hs). rewrite (fupd_ne _ p b b), !fupd_eq by done. split_and!; [done..|].
    apply NoDup_cons in Hnd as [Hx Hnd]. eapply seg_ext; [| |exact Hs]; intros z Hz.
    + rewrite !fupd_ne; [done|by eapply not_elem_ne|by eapply not_elem_ne].
    + apply not_elem_of_cons in Hp as [Hpx _], Hb as [_ Hb].
      apply elem_of_cons in Hz as [->|Hz]; [by rewrite !fupd_ne|].
      rewrite !fupd_ne; [done|by eapply not_elem_ne|by eapply not_elem_ne].
Qed.
End links.

(** ** The invariant of the cache *)

Lemma getb_updb s i f j :
  (i < length (bufs s))%nat -> getb (updb i f s) j = if decide (j = i) then f (getb s i) else getb s j.
Proof.
  intros Hi. unfold getb, updb. cbn [bufs]. case_decide as E.
  - subst. by rewrite list_lookup_insert_eq.
  - by rewrite list_lookup_insert_ne by congruence.
Qed.
Lemma length_updb s i f : length (bufs (updb i f s)) = length (bufs s).
Proof. apply length_insert. Qed.

Definition nxt (s : bst) (i : nat) : nat := next (getb s i).
Definition prv (s : bst) (i : nat) : nat := prev (getb s i).

(** The list of buffers from most to least recently used. *)
Definition lru (s : bst) (l : list nat) : Prop := seg (nxt s) (prv s) HEAD l HEAD /\ l ≡ₚ seq 0 NBUF.

Definition slock_of (s : bst) (l : bool) : sleeplock := if l then Sleeplock true (bpid s) else Sleeplock false 0.

Record bio_rep (s : bst) (a : abs) : Prop := {
  br_len : length (bufs s) = S NBUF;
  br_lru : exists l, lru s l;
  br_disk : disk s = adisk a;
  br_trace : dtrace s = atrace a;
  br_uniq : forall i j, (i < NBUF)%nat -> (j < NBUF)%nat -> dev (getb s i) = ROOTDEV -> dev (getb s j) = ROOTDEV ->
    blockno (getb s i) = blockno (getb s j) -> i = j;
  br_pin : forall bn p, pins a !! bn = Some p -> exists i, (i < NBUF)%nat /\ 1 <= pcnt p < 2^32 /\
    (dev (getb s i), blockno (getb s i), refcnt (getb s i), data (getb s i), valid (getb s i), block (getb s i))
    = (ROOTDEV, bn, pcnt p, pdat p, true, slock_of s (plock p));
  br_used : forall i, (i < NBUF)%nat -> refcnt (getb s i) <> 0 ->
    dev (getb s i) = ROOTDEV /\ is_Some (pins a !! blockno (getb s i));
  br_free : forall i, (i < NBUF)%nat -> refcnt (getb s i) = 0 ->
    slocked (block (getb s i)) = false /\
    (dev (getb s i) = ROOTDEV -> valid (getb s i) = true -> data (getb s i) = disk_block (disk s) (blockno (getb s i)))
}.

(** The buffer of block [bn]: the first one on the root device, if any. *)
Definition bio_handle (s : bst) (bn : Z) : nat :=
  default 0%nat (find_cached (S NBUF) s ROOTDEV bn (nxt s HEAD)).
Arguments bio_handle : simpl never.

Lemma find_cached_seg fuel s dv bn p l :
  seg (nxt s) (prv s) p l HEAD -> (HEAD ∉ l) -> (length l < fuel)%nat ->
  find_cached fuel s dv bn (nxt s p)
  = head (filter (fun i => dev (getb s i) = dv /\ blockno (getb s i) = bn) l).
Proof.
  revert fuel p. induction l as [|x l IH]; intros fuel p Hs Hh Hf; (destruct fuel as [|fuel]; [simpl in Hf; lia|]);
    cbn [find_cached]; simpl in Hs.
  - destruct Hs as [-> _]. by rewrite decide_True.
  - destruct Hs as (-> & _ & Hs). apply not_elem_of_cons in Hh as [Hx Hh]. rewrite decide_False by congruence.
    destruct (Z.eqb_spec (dev (getb s x)) dv), (Z.eqb_spec (blockno (getb s x)) bn); cbn [andb];
      first [rewrite filter_cons_True by done; done | rewrite filter_cons_False by tauto; apply IH; [done|done|simpl in Hf; lia]].
Qed.

Lemma find_unused_seg fuel s q l :
  seg (nxt s) (prv s) HEAD l q -> (HEAD ∉ l) -> (length l < fuel)%nat ->
  find_unused fuel s (prv s q) = head (filter (fun i => refcnt (getb s i) = 0) (reverse l)).
Proof.
  revert fuel q. induction l as [|x l IH] using rev_ind; intros fuel q Hs Hh Hf;
    (destruct fuel as [|fuel]; [rewrite ?length_app in Hf; simpl in Hf; lia|]); cbn [find_unused].
  - destruct Hs as [_ ->]. by rewrite decide_True.
  - apply seg_app in Hs as [Hs [_ ->]]. apply not_elem_of_app in Hh as [Hh Hx]. rewrite reverse_snoc.
    rewrite decide_False by set_solver. rewrite length_app in Hf. simpl in Hf.
    destruct (Z.eqb_spec (refcnt (getb s x)) 0).
    + by rewrite filter_cons_True.
    + rewrite filter_cons_False by done. apply IH; [done|done|lia].
Qed.

Lemma lru_facts s l : lru s l ->
  (HEAD ∉ l) /\ length l = NBUF /\ NoDup l /\ forall i, i ∈ l <-> (i < NBUF)%nat.
Proof.
  intros [_ Hp]. assert (forall i, i ∈ l <-> (i < NBUF)%nat) as Hin.
  { intros i. rewrite Hp, elem_of_seq. lia. }
  split_and!; [|by rewrite Hp, length_seq|rewrite Hp; apply NoDup_seq|done].
  rewrite Hin. unfold HEAD. lia.
Qed.

Lemma find_cached_spec s l dv bn i :
  lru s l -> (i < NBUF)%nat -> dev (getb s i) = dv -> blockno (getb s i) = bn ->
  (forall j, (j < NBUF)%nat -> dev (getb s j) = dv -> blockno (getb s j) = bn -> j = i) ->
  find_cached (S NBUF) s dv bn (nxt s HEAD) = Some i.
Proof.
  intros Hl Hi Hd Hb Hu. destruct (lru_facts s l Hl) as (Hh & Hlen & Hnd & Hin). destruct Hl as [Hs _].
  rewrite (find_cached_seg _ s dv bn HEAD l Hs Hh) by lia.
  destruct (filter _ l) as [|x xs] eqn:E.
  - assert (i ∈ filter (fun i => dev (getb s i) = dv /\ blockno (getb s i) = bn) l) as Hx.
    { apply list_elem_of_filter. split; [done|]. by apply Hin. }
    rewrite E in Hx. set_solver.
  - assert (x ∈ filter (fun i => dev (getb s i) = dv /\ blockno (getb s i) = bn) l) as Hx by (rewrite E; set_solver).
    apply list_elem_of_filter in Hx as [[Hx1 Hx2] Hx]. simpl. f_equal. apply Hu; [by apply Hin|done|done].
Qed.

Lemma find_cached_none s l dv bn :
  lru s l -> (forall j, (j < NBUF)%nat -> ~ (dev (getb s j) = dv /\ blockno (getb s j) = bn)) ->
  find_cached (S NBUF) s dv bn (nxt s HEAD) = None.
Proof.
  intros Hl Hno. destruct (lru_facts s l Hl) as (Hh & Hlen & Hnd & Hin). destruct Hl as [Hs _].
  rewrite (find_cached_seg _ s dv bn HEAD l Hs Hh) by lia.
  destruct (filter _ l) as [|x xs] eqn:E; [done|]. exfalso.
  assert (x ∈ filter (fun i => dev (getb s i) = dv /\ blockno (getb s i) = bn) l) as Hx by (rewrite E; set_solver).
  apply list_elem_of_filter in Hx as [Hx1 Hx2]. apply (Hno x); [by apply Hin|done].
Qed.

Lemma find_unused_spec s l :
  lru s l -> (exists i, (i < NBUF)%nat /\ refcnt (getb s i) = 0) ->
  exists i, find_unused (S NBUF) s (prv s HEAD) = Some i /\ (i < NBUF)%nat /\ refcnt (getb s i) = 0.
Proof.
  intros Hl (i & Hi & Hr). destruct (lru_facts s l Hl) as (Hh & Hlen & Hnd & Hin). destruct Hl as [Hs _].
  rewrite (find_unused_seg _ s HEAD l Hs Hh) by lia.
  destruct (filter _ (reverse l)) as [|x xs] eqn:E.
  - assert (i ∈ filter (fun i => refcnt (getb s i) = 0) (reverse l)) as Hx.
    { apply list_elem_of_filter. split; [done|]. apply elem_of_reverse. by apply Hin. }
    rewrite E in Hx. set_solver.
  - assert (x ∈ filter (fun i => refcnt (getb s i) = 0) (reverse l)) as Hx by (rewrite E; set_solver).
    apply list_elem_of_filter in Hx as [Hx1 Hx]. rewrite elem_of_reverse in Hx. exists x. split; [done|]. split; [by apply Hin|done].
Qed.

(** Everything of a buffer but its links. *)
Definition core (b : buf) : Z * Z * Z * list Z * bool * sleeplock :=
  (dev b, blockno b, refcnt b, data b, valid b, block b).
Definition pin_core (s : bst) (bn : Z) (p : pin) : Z * Z * Z * list Z * bool * sleeplock :=
  (ROOTDEV, bn, pcnt p, pdat p, true, slock_of s (plock p)).

(** The effect of an operation on one buffer [i], the one of block [bn]. *)
Record touch (s : bst) (a : abs) (i : nat) (bn : Z) (s' : bst) (a' : abs) : Prop := {
  to_i : (i < NBUF)%nat;
  to_len : length (bufs s') = S NBUF;
  to_lru : exists l, lru s' l;
  to_pid : bpid s' = bpid s;
  to_disk : disk s' = adisk a' /\ dtrace s' = atrace a';
  to_blocks : forall bn', bn' <> bn -> disk_block (disk s') bn' = disk_block (disk s) bn';
  to_pins : forall bn', bn' <> bn -> pins a' !! bn' = pins a !! bn';
  to_others : forall j, (j < NBUF)%nat -> j <> i -> core (getb s' j) = core (getb s j);
  to_alone : forall j, (j < NBUF)%nat -> j <> i -> ~ (dev (getb s j) = ROOTDEV /\ blockno (getb s j) = bn);
  to_before : refcnt (getb s i) = 0 \/ (dev (getb s i) = ROOTDEV /\ blockno (getb s i) = bn);
  to_after : match pins a' !! bn with
             | Some p => core (getb s' i) = pin_core s' bn p /\ 1 <= pcnt p < 2^32
             | None => exists d v, core (getb s' i) = (ROOTDEV, bn, 0, d, v, Sleeplock false 0) /\
                                   d = disk_block (disk s') bn
             end
}.

Lemma touch_rep s a i bn s' a' : bio_rep s a -> touch s a i bn s' a' -> bio_rep s' a'.
Proof.
  intros R T. destruct T as [Hi Hlen Hlru Hpid [Hd Ht] Hblk Hpins Hoth Hal Hbef Haft].
  assert (dev (getb s' i) = ROOTDEV /\ blockno (getb s' i) = bn) as [Hdi Hbi].
  { destruct (pins a' !! bn) as [p|]; [destruct Haft as [E _]|destruct Haft as (d & v & E & _)]; unfold core, pin_core in E; split; congruence. }
  assert (forall j, (j < NBUF)%nat -> j <> i -> dev (getb s' j) = dev (getb s j) /\ blockno (getb s' j) = blockno (getb s j) /\
    refcnt (getb s' j) = refcnt (getb s j) /\ data (getb s' j) = data (getb s j) /\ valid (getb s' j) = valid (getb s j) /\
    block (getb s' j) = block (getb s j)) as Ho.
  { intros j Hj Hji. specialize (Hoth j Hj Hji). unfold core in Hoth. split_and!; congruence. }
  split; [done|done|done|done|..].
  - intros j k Hj Hk Hdj Hdk E. destruct (decide (j = i)) as [->|Hji], (decide (k = i)) as [->|Hki]; [done|..].
    + destruct (Ho k Hk Hki) as (E1 & E2 & _). exfalso. apply (Hal k Hk Hki). split; congruence.
    + destruct (Ho j Hj Hji) as (E1 & E2 & _). exfalso. apply (Hal j Hj Hji). split; congruence.
    + destruct (Ho j Hj Hji) as (E1 & E2 & _), (Ho k Hk Hki) as (E3 & E4 & _).
      apply (br_uniq s a R); congruence.
  - intros bn' p Hp. destruct (decide (bn' = bn)) as [->|Hne].
    + rewrite Hp in Haft. destruct Haft as [E Hc]. exists i. done.
    + rewrite Hpins in Hp by done. destruct (br_pin s a R bn' p Hp) as (j & Hj & Hc & E). exists j. split; [done|].
      split; [done|]. fold (core (getb s' j)). destruct (decide (j = i)) as [->|Hji].
      * exfalso. injection E as E1 E2 E3 E4 E5 E6. destruct Hbef as [Hz|[_ Hb]]; [lia|congruence].
      * rewrite (Hoth j Hj Hji). unfold core. rewrite E. unfold slock_of. by rewrite Hpid.
  - intros j Hj Hr. destruct (decide (j = i)) as [->|Hji].
    + split; [done|]. rewrite Hbi. destruct (pins a' !! bn) as [p|]; [eauto|].
      destruct Haft as (d & v & E & _). unfold core in E. exfalso. apply Hr. congruence.
    + destruct (Ho j Hj Hji) as (E1 & E2 & E3 & _). rewrite E3 in Hr. destruct (br_used s a R j Hj Hr) as [Hdj Hpj].
      rewrite E1, E2. split; [done|]. rewrite Hpins; [done|]. intros E. apply (Hal j Hj Hji). done.
  - intros j Hj Hr. destruct (decide (j = i)) as [->|Hji].
    + destruct (pins a' !! bn) as [p|].
      * destruct Haft as [E Hc]. unfold core, pin_core in E. injection E as E1 E2 E3 E4 E5 E6. lia.
      * destruct Haft as (d & v & E & Hcl). unfold core in E. injection E as E1 E2 E3 E4 E5 E6.
        rewrite E6, E4, E2. done.
    + destruct (Ho j Hj Hji) as (E1 & E2 & E3 & E4 & E5 & E6). rewrite E3 in Hr.
      destruct (br_free s a R j Hj Hr) as [Hl Hcl]. rewrite E1, E2, E4, E5, E6. split; [done|].
      intros Hdj Hv. rewrite Hblk; [by apply Hcl|]. intros E. apply (Hal j Hj Hji). done.
Qed.

(** The buffer that holds a block in use. *)
Lemma pinned_buf s a bn p :
  bio_rep s a -> pins a !! bn = Some p ->
  (bio_handle s bn < NBUF)%nat /\ core (getb s (bio_handle s bn)) = pin_core s bn p /\ 1 <= pcnt p < 2^32 /\
  find_cached (S NBUF) s ROOTDEV bn (nxt s HEAD) = Some (bio_handle s bn) /\
  forall j, (j < NBUF)%nat -> j <> bio_handle s bn -> ~ (dev (getb s j) = ROOTDEV /\ blockno (getb s j) = bn).
Proof.
  intros R Hp. destruct (br_pin s a R bn p Hp) as (i & Hi & Hc & E). destruct (br_lru s a R) as [l Hl].
  assert (forall j, (j < NBUF)%nat -> dev (getb s j) = ROOTDEV -> blockno (getb s j) = bn -> j = i) as Hu.
  { intros j Hj Hd Hb. apply (br_uniq s a R); congruence. }
  assert (find_cached (S NBUF) s ROOTDEV bn (nxt s HEAD) = Some i) as Hf by (apply (find_cached_spec s l); congruence || done).
  assert (bio_handle s bn = i) as -> by (unfold bio_handle; by rewrite Hf).
  split_and!; [done|exact E|lia|lia|done|]. intros j Hj Hne [Hd Hb]. apply Hne. by apply Hu.
Qed.

(** Reordering and updating buffers without changing which block each holds
    keeps the handles. *)
Lemma handle_same s a s' :
  bio_rep s a -> (exists l, lru s' l) ->
  (forall j, (j < NBUF)%nat -> dev (getb s' j) = dev (getb s j) /\ blockno (getb s' j) = blockno (getb s j)) ->
  forall bn, bio_handle s' bn = bio_handle s bn.
Proof.
  intros R [l' Hl'] Hsame bn. destruct (br_lru s a R) as [l Hl]. unfold bio_handle. f_equal.
  destruct (decide (Exists (fun j => dev (getb s j) = ROOTDEV /\ blockno (getb s j) = bn) (seq 0 NBUF))) as [He|Hne].
  - apply Exists_exists in He as (j & Hj & Hd & Hb). apply elem_of_seq in Hj.
    assert (forall k, (k < NBUF)%nat -> dev (getb s k) = ROOTDEV -> blockno (getb s k) = bn -> k = j) as Hu.
    { intros k Hk Hdk Hbk. apply (br_uniq s a R); [done|lia|congruence..]. }
    rewrite (find_cached_spec s l ROOTDEV bn j Hl) by (done || lia).
    destruct (Hsame j) as [E1 E2]; [lia|].
    apply (find_cached_spec s' l'); [done|lia|congruence|congruence|].
    intros k Hk. destruct (Hsame k Hk) as [-> ->]. by apply Hu.
  - assert (forall k, (k < NBUF)%nat -> ~ (dev (getb s k) = ROOTDEV /\ blockno (getb s k) = bn)) as Hno.
    { intros k Hk Hb. apply Hne, Exists_exists. exists k. split; [apply elem_of_seq; lia|done]. }
    rewrite (find_cached_none s l) by done. apply (find_cached_none s' l'); [done|].
    intros k Hk. destruct (Hsame k Hk) as [-> ->]. by apply Hno.
Qed.

(** A free buffer exists while fewer than [NBUF] blocks are in use. *)
Lemma free_buf s a :
  bio_rep s a -> (size (pins a) < NBUF)%nat -> exists i, (i < NBUF)%nat /\ refcnt (getb s i) = 0.
Proof.
  intros R Hsz. destruct (decide (Exists (fun i => refcnt (getb s i) = 0) (seq 0 NBUF))) as [He|Hne].
  - apply Exists_exists in He as (i & Hi & Hr). apply elem_of_seq in Hi. exists i. split; [lia|done].
  - exfalso. assert (forall i, (i < NBUF)%nat -> refcnt (getb s i) <> 0) as Hall.
    { intros i Hi E. apply Hne, Exists_exists. exists i. split; [apply elem_of_seq; lia|done]. }
    set (bs := (fun i => blockno (getb s i)) <$> seq 0 NBUF).
    assert (NoDup bs) as Hnd.
    { apply NoDup_fmap_2_strong; [|apply NoDup_seq]. intros i j Hi Hj E. apply elem_of_seq in Hi, Hj.
      apply (br_uniq s a R); [lia|lia|apply (br_used s a R); [lia|apply Hall; lia]..|done]. }
    assert (list_to_set bs ⊆ dom (pins a)) as Hsub.
    { intros bn Hbn. apply elem_of_list_to_set, list_elem_of_fmap in Hbn as (i & -> & Hi). apply elem_of_seq in Hi.
      apply elem_of_dom. apply (br_used s a R); [lia|apply Hall; lia]. }
    apply subseteq_size in Hsub. rewrite size_list_to_set in Hsub by done. rewrite size_dom in Hsub.
    subst bs. rewrite length_fmap, length_seq in Hsub. lia.
Qed.

Lemma lru_links s s' l : lru s l -> (forall j, nxt s' j = nxt s j /\ prv s' j = prv s j) -> lru s' l.
Proof.
  intros [Hs Hp] He. split; [|done]. eapply seg_ext; [| |exact Hs]; intros x _; apply He.
Qed.

(** A state that differs from [s] in buffer [i] only, links apart. *)
Record one_buf (s : bst) (i : nat) (f : buf -> buf) (s' : bst) : Prop := {
  ob_len : length (bufs s') = length (bufs s);
  ob_pid : bpid s' = bpid s;
  ob_disk : disk s' = disk s /\ dtrace s' = dtrace s;
  ob_getb : forall j, getb s' j = if decide (j = i) then f (getb s i) else getb s j
}.

Lemma one_buf_updb s i f : (i < length (bufs s))%nat -> one_buf s i f (updb i f s).
Proof. intros Hi. split; [apply length_updb|done|done|]. intros j. by apply getb_updb. Qed.

Lemma one_buf_wake s i f s' c :
  one_buf s i f s' -> one_buf s i f (BSt (bufs s') (disk s') (dtrace s') (bpid s') (c :: bwakes s')).
Proof. intros [H1 H2 H3 H4]. by split. Qed.

Lemma one_buf_trans s i f g s1 s2 : one_buf s i f s1 -> one_buf s1 i g s2 -> one_buf s i (fun b => g (f b)) s2.
Proof.
  intros [L1 P1 [D1 T1] G1] [L2 P2 [D2 T2] G2]. split; [congruence|congruence|split; congruence|].
  intros j. rewrite G2, !G1. rewrite (decide_True (P := i = i)) by done. by case_decide.
Qed.

Lemma rep_one_buf s a bn p p' f s' :
  bio_rep s a -> pins a !! bn = Some p -> one_buf s (bio_handle s bn) f s' ->
  (forall b, next (f b) = next b /\ prev (f b) = prev b) ->
  core (f (getb s (bio_handle s bn))) = pin_core s bn p' -> 1 <= pcnt p' < 2^32 ->
  bio_rep s' (set_pin bn p' a) /\ forall bn', bio_handle s' bn' = bio_handle s bn'.
Proof.
  intros R Hp [Hlen Hpid [Hd Ht] Hg] Hlk Hc Hpc.
  destruct (pinned_buf s a bn p R Hp) as (Hi & E & _ & _ & Hal). set (i := bio_handle s bn) in *.
  assert (exists l, lru s' l) as Hlru.
  { destruct (br_lru s a R) as [l Hl]. exists l. apply (lru_links s); [done|]. intros j. unfold nxt, prv. rewrite Hg.
    case_decide; [subst; apply Hlk|done]. }
  split.
  - apply (touch_rep s a i bn); [done|]. split; [done|rewrite Hlen; apply R|done|done| | | | |done| |].
    + rewrite Hd, Ht. split; apply R.
    + by rewrite Hd.
    + intros bn' Hne. cbn. by rewrite lookup_insert_ne.
    + intros j Hj Hji. by rewrite Hg, decide_False.
    + right. unfold core, pin_core in E. split; congruence.
    + cbn. rewrite lookup_insert_eq. rewrite Hg, decide_True by done. split; [|done]. rewrite Hc.
      unfold pin_core, slock_of. by rewrite Hpid.
  - apply (handle_same s a s' R Hlru). intros j Hj. rewrite Hg. case_decide; [subst j|done].
    unfold core, pin_core in *. split; congruence.
Qed.

Lemma core_data b c1 c2 c3 c4 c5 c6 :
  core b = (c1, c2, c3, c4, c5, c6) ->
  dev b = c1 /\ blockno b = c2 /\ refcnt b = c3 /\ data b = c4 /\ valid b = c5 /\ block b = c6.
Proof. unfold core. intros [= -> -> -> -> -> ->]. done. Qed.

(** ** The laws of the interface, one by one *)

Lemma bio_data s a bn p :
  bio_rep s a -> pins a !! bn = Some p ->
  data (getb s (bio_handle s bn)) = pdat p /\ blockno (getb s (bio_handle s bn)) = bn.
Proof. intros R Hp. destruct (pinned_buf s a bn p R Hp) as (_ & E & _). by apply core_data in E as (? & ? & ? & ? & _). Qed.

Lemma bio_len s a i : bio_rep s a -> (i < NBUF)%nat -> (i < length (bufs s))%nat.
Proof. intros R Hi. rewrite (br_len s a R). lia. Qed.

Lemma bio_setdata s a bn p f :
  bio_rep s a -> pins a !! bn = Some p -> plock p = true ->
  let s' := updb (bio_handle s bn) (fun b => set_data (f (data b)) b) s in
  bio_rep s' (set_pin bn (Pin (pcnt p) (f (pdat p)) true) a) /\ forall bn', bio_handle s' bn' = bio_handle s bn'.
Proof.
  intros R Hp Hl. destruct (pinned_buf s a bn p R Hp) as (Hi & E & Hc & _).
  eapply rep_one_buf; [done|done|apply one_buf_updb; by eapply bio_len|done| |done].
  apply core_data in E as (E1 & E2 & E3 & E4 & E5 & E6). unfold core, pin_core. cbn.
  by rewrite E1, E2, E3, E4, E5, E6, Hl.
Qed.

Lemma bio_pin s a bn p h :
  bio_rep s a -> cache_free h -> pins a !! bn = Some p -> pcnt p + 1 < 2^32 ->
  exists s', bpin (bio_handle s bn) (World h s) = Ok tt (World h s') /\
    bio_rep s' (set_pin bn (Pin (pcnt p + 1) (pdat p) (plock p)) a) /\ forall bn', bio_handle s' bn' = bio_handle s bn'.
Proof.
  intros R [Hh _] Hp Hlt. destruct (pinned_buf s a bn p R Hp) as (Hi & E & Hc & _).
  unfold bpin. rewrite acquire_run by done. mstep. rewrite release_last by done. eexists. split; [done|].
  eapply rep_one_buf; [done|done|apply one_buf_updb; by eapply bio_len|done| |cbn; lia].
  apply core_data in E as (E1 & E2 & E3 & E4 & E5 & E6). unfold core, pin_core. cbn.
  rewrite E1, E2, E3, E4, E5, E6, u32_small by lia. done.
Qed.

Lemma bio_unpin s a bn p h :
  bio_rep s a -> cache_free h -> pins a !! bn = Some p -> 1 < pcnt p ->
  exists s', bunpin (bio_handle s bn) (World h s) = Ok tt (World h s') /\
    bio_rep s' (set_pin bn (Pin (pcnt p - 1) (pdat p) (plock p)) a) /\ forall bn', bio_handle s' bn' = bio_handle s bn'.
Proof.
  intros R [Hh _] Hp Hlt. destruct (pinned_buf s a bn p R Hp) as (Hi & E & Hc & _).
  unfold bunpin. rewrite acquire_run by done. mstep. rewrite release_last by done. eexists. split; [done|].
  eapply rep_one_buf; [done|done|apply one_buf_updb; by eapply bio_len|done| |cbn; lia].
  apply core_data in E as (E1 & E2 & E3 & E4 & E5 & E6). unfold core, pin_core. cbn.
  rewrite E1, E2, E3, E4, E5, E6, u32_small by lia. done.
Qed.

Lemma holding_run s a bn p h :
  bio_rep s a -> cache_free h -> pins a !! bn = Some p -> plock p = true ->
  holdingsleep (buf_lock (bio_handle s bn)) (get_block (bio_handle s bn)) (bpid s) (World h s) = Ok true (World h s).
Proof.
  intros R [_ Hh] Hp Hl. destruct (pinned_buf s a bn p R Hp) as (_ & E & _).
  apply core_data in E as (_ & _ & _ & _ & _ & E6). rewrite holdingsleep_run by done. unfold get_block.
  rewrite E6, Hl. cbn. by rewrite Z.eqb_refl.
Qed.

Lemma bio_write s a bn p h :
  bio_rep s a -> cache_free h -> pins a !! bn = Some p -> plock p = true ->
  exists s', bwrite (bio_handle s bn) (World h s) = Ok tt (World h s') /\
    bio_rep s' (Abs (pins a) (<[bn := pdat p]> (adisk a)) ((bn, pdat p) :: atrace a)) /\
    forall bn', bio_handle s' bn' = bio_handle s bn'.
Proof.
  intros R Hh Hp Hl. destruct (pinned_buf s a bn p R Hp) as (Hi & E & Hc & _ & Hal).
  unfold bwrite. mstep. rewrite (bind_run _ _ _ _ _ (holding_run s a bn p h R Hh Hp Hl)). cbn [negb].
  eexists. split; [done|]. cbn [st held]. pose proof E as E'. apply core_data in E' as (E1 & E2 & _ & E4 & _).
  rewrite E2, E4. split; [|done]. apply (touch_rep s a (bio_handle s bn) bn); [done|].
  split; cbn [pins adisk atrace disk dtrace bpid bufs]; try done.
  - apply R.
  - destruct (br_lru s a R) as [l Hlr]. exists l. by apply (lru_links s).
  - by rewrite (br_disk s a R), (br_trace s a R).
  - intros bn' Hne. unfold disk_block. by rewrite lookup_insert_ne.
  - by right.
  - rewrite Hp. done.
Qed.

(** ** Moving a buffer to the front of the LRU list *)

(** Only links differ. *)
Record links_only (s s' : bst) : Prop := {
  lo_len : length (bufs s') = length (bufs s);
  lo_pid : bpid s' = bpid s;
  lo_disk : disk s' = disk s /\ dtrace s' = dtrace s;
  lo_core : forall j, core (getb s' j) = core (getb s j)
}.
Lemma links_only_trans s1 s2 s3 : links_only s1 s2 -> links_only s2 s3 -> links_only s1 s3.
Proof.
  intros [L1 P1 [D1 T1] C1] [L2 P2 [D2 T2] C2]. split; [congruence|congruence|split; congruence|].
  intros j. by rewrite C2.
Qed.

Lemma upd_prev s k v :
  (k < length (bufs s))%nat -> let s' := updb k (set_prev v) s in
  links_only s s' /\ (forall j, nxt s' j = nxt s j) /\ (forall j, prv s' j = fupd (prv s) k v j).
Proof.
  intros Hk s'. assert (forall j, getb s' j = if decide (j = k) then set_prev v (getb s k) else getb s j) as Hg.
  { intros j. by apply getb_updb. }
  split_and!; [split; [apply length_updb|done|done|]|..]; intros j; unfold nxt, prv, fupd; rewrite Hg; case_decide; by subst.
Qed.
Lemma upd_next s k v :
  (k < length (bufs s))%nat -> let s' := updb k (set_next v) s in
  links_only s s' /\ (forall j, nxt s' j = fupd (nxt s) k v j) /\ (forall j, prv s' j = prv s j).
Proof.
  intros Hk s'. assert (forall j, getb s' j = if decide (j = k) then set_next v (getb s k) else getb s j) as Hg.
  { intros j. by apply getb_updb. }
  split_and!; [split; [apply length_updb|done|done|]|..]; intros j; unfold nxt, prv, fupd; rewrite Hg; case_decide; by subst.
Qed.

Lemma seg_eq nx pv nx' pv' p l q :
  (forall x, nx' x = nx x) -> (forall x, pv' x = pv x) -> seg nx pv p l q -> seg nx' pv' p l q.
Proof. intros H1 H2. apply seg_ext; auto. Qed.

Lemma fupd_ext f g a v x : (forall y, f y = g y) -> fupd f a v x = fupd g a v x.
Proof. intros E. unfold fupd. by rewrite E. Qed.

Lemma link_front_run s i l h :
  length (bufs s) = S NBUF -> (i < NBUF)%nat -> seg (nxt s) (prv s) HEAD l HEAD -> NoDup (i :: l) ->
  (forall j, j ∈ l -> (j < NBUF)%nat) ->
  exists s', link_front i (World h s) = Ok tt (World h s') /\ links_only s s' /\
             seg (nxt s') (prv s') HEAD (i :: l) HEAD.
Proof.
  intros Hlen Hi Hs Hnd Hl. apply NoDup_cons in Hnd as [Hil Hnd].
  assert (HEAD < length (bufs s))%nat as HH by (rewrite Hlen; unfold HEAD; lia).
  assert (i < length (bufs s))%nat as Hi' by lia.
  assert (HEAD ∉ i :: l) as Hh.
  { intros E. apply elem_of_cons in E as [E|E]; [unfold HEAD in E; lia|]. apply Hl in E. unfold HEAD in E. lia. }
  unfold link_front. do 3 mstep. unfold modify. cbn [held st]. eexists. split; [done|].
  destruct (upd_next s i (nxt s HEAD) Hi') as (L1 & N1 & P1). set (s1 := updb i (set_next (nxt s HEAD)) s) in *.
  destruct (upd_prev s1 i HEAD) as (L2 & N2 & P2); [by rewrite (lo_len _ _ L1)|]. set (s2 := updb i (set_prev HEAD) s1) in *.
  pose proof (links_only_trans _ _ _ L1 L2) as L12.
  assert (nxt s2 HEAD = nxt s HEAD) as Hn2.
  { rewrite N2, N1. apply fupd_ne. apply not_elem_of_cons in Hh as [? _]. done. }
  destruct (upd_prev s2 (nxt s2 HEAD) i) as (L3 & N3 & P3).
  { rewrite Hn2, (lo_len _ _ L12), Hlen. apply seg_first in Hs. apply elem_of_cons in Hs as [->|Hs]; [unfold HEAD; lia|].
    apply Hl in Hs. lia. }
  set (s3 := updb (nxt s2 HEAD) (set_prev i) s2) in *. pose proof (links_only_trans _ _ _ L12 L3) as L13.
  destruct (upd_next s3 HEAD i) as (L4 & N4 & P4); [by rewrite (lo_len _ _ L13)|].
  split; [by eapply links_only_trans|].
  eapply seg_eq; [| |apply (seg_link (nxt s) (prv s) HEAD i l Hs Hnd Hh Hil)].
  - intros x. rewrite N4. apply fupd_ext. intros y. by rewrite N3, N2, N1.
  - intros x. rewrite P4, P3, Hn2. rewrite (fupd_ne (nxt s) i (nxt s HEAD) HEAD) by (apply not_elem_of_cons in Hh as [? _]; done).
    apply fupd_ext. intros y. rewrite P2. apply fupd_ext. intros z. apply P1.
Qed.

Definition unlink (i : nat) : M bst unit :=
  modify (fun s => updb (next (getb s i)) (set_prev (prev (getb s i))) s);;
  modify (fun s => updb (prev (getb s i)) (set_next (next (getb s i))) s).

Lemma move_front_run s i l h :
  length (bufs s) = S NBUF -> lru s l -> (i < NBUF)%nat ->
  exists s', (unlink i;; link_front i) (World h s) = Ok tt (World h s') /\ links_only s s' /\
             lru s' (i :: filter (fun j => j <> i) l).
Proof.
  intros Hlen Hlru Hi. destruct (lru_facts s l Hlru) as (Hh & Hll & Hnd & Hin). destruct Hlru as [Hs Hperm].
  pose proof (proj2 (Hin i) Hi) as Hil. apply list_elem_of_split in Hil as (l1 & l2 & ->).
  apply seg_app in Hs as [Hs1 Hs2].
  assert (forall j, j ∈ HEAD :: l1 ++ i :: l2 -> (j < length (bufs s))%nat) as Hbd.
  { intros j Hj. rewrite Hlen. apply elem_of_cons in Hj as [->|Hj]; [unfold HEAD; lia|]. apply Hin in Hj. lia. }
  assert (nxt s i <> i) as Hni.
  { apply seg_first in Hs2. apply NoDup_app in Hnd as (_ & _ & Hnd). apply NoDup_cons in Hnd as [Hx _].
    apply elem_of_cons in Hs2 as [->|Hs2]; [unfold HEAD; lia|]. by eapply not_elem_ne. }
  unfold unlink. rewrite bind_assoc. do 2 mstep.
  destruct (upd_prev s (nxt s i) (prv s i)) as (L1 & N1 & P1).
  { apply Hbd. apply seg_first in Hs2. apply elem_of_cons in Hs2 as [->|Hs2]; set_solver. }
  set (s1 := updb (nxt s i) (set_prev (prv s i)) s) in *.
  assert (prv s1 i = prv s i) as Hp1 by (rewrite P1; by apply fupd_ne).
  destruct (upd_next s1 (prv s1 i) (nxt s1 i)) as (L2 & N2 & P2).
  { rewrite Hp1, (lo_len _ _ L1). apply Hbd. apply seg_last in Hs1. apply elem_of_cons in Hs1 as [->|Hs1]; set_solver. }
  pose proof (links_only_trans _ _ _ L1 L2) as L12. set (s2 := updb (prv s1 i) (set_next (nxt s1 i)) s1) in *.
  assert (seg (nxt s2) (prv s2) HEAD (l1 ++ l2) HEAD) as Hs'.
  { eapply seg_eq; [| |apply (seg_unlink (nxt s) (prv s) HEAD l1 i l2 HEAD Hs1 Hs2 Hnd Hh Hh)].
    - intros x. rewrite N2, Hp1, N1. apply fupd_ext. apply N1.
    - intros x. by rewrite P2, P1. }
  assert (filter (fun j => j <> i) (l1 ++ i :: l2) = l1 ++ l2) as Hfil.
  { apply NoDup_app in Hnd as (Hn1 & Hn2 & Hn3). apply NoDup_cons in Hn3 as [Hn3 _].
    assert (forall l : list nat, (i ∉ l) -> filter (fun j => j <> i) l = l) as Hid.
    { clear. intros l Hl. induction l as [|x l IH]; [done|]. apply not_elem_of_cons in Hl as [? Hl].
      rewrite filter_cons_True by congruence. f_equal. auto. }
    rewrite filter_app, filter_cons_False by tauto. rewrite !Hid; [done|done|]. intros E. apply (Hn2 i E). apply elem_of_cons. by left. }
  assert (i :: l1 ++ l2 ≡ₚ l1 ++ i :: l2) as Hpm by (apply Permutation_middle).
  destruct (link_front_run s2 i (l1 ++ l2) h) as (s' & Hrun & L3 & Hs3).
  - by rewrite (lo_len _ _ L12).
  - done.
  - done.
  - by rewrite Hpm.
  - intros j Hj. apply Hin. rewrite <- Hpm. apply elem_of_cons. by right.
  - exists s'. split; [exact Hrun|]. split; [by eapply links_only_trans|]. rewrite Hfil. split; [done|]. by rewrite Hpm.
Qed.

Lemma core_links s s' j : links_only s s' -> dev (getb s' j) = dev (getb s j) /\ blockno (getb s' j) = blockno (getb s j).
Proof. intros H. pose proof (lo_core _ _ H j) as E. unfold core in E. split; congruence. Qed.

(** The state after [releasesleep] and the decrement. *)
Definition relsed (i : nat) (s : bst) : bst :=
  let s1 := put_block i (Sleeplock false 0) s in
  let s2 := BSt (bufs s1) (disk s1) (dtrace s1) (bpid s1) (buf_lock i :: bwakes s1) in
  updb i (fun x => set_refcnt (u32 (refcnt x - 1)) x) s2.

Lemma relsed_one s i :
  (i < length (bufs s))%nat ->
  one_buf s i (fun b => set_refcnt (u32 (refcnt b - 1)) (set_block (Sleeplock false 0) b)) (relsed i s).
Proof.
  intros Hi. unfold relsed.
  apply (one_buf_trans s i (set_block (Sleeplock false 0)) (fun x => set_refcnt (u32 (refcnt x - 1)) x)
           (BSt (bufs (put_block i (Sleeplock false 0) s)) (disk s) (dtrace s) (bpid s) (buf_lock i :: bwakes s))).
  - apply (one_buf_wake s i _ (put_block i (Sleeplock false 0) s)). by apply one_buf_updb.
  - apply one_buf_updb. cbn [bufs]. unfold put_block. by rewrite length_updb.
Qed.

Lemma brelse_run s a bn p h :
  bio_rep s a -> cache_free h -> pins a !! bn = Some p -> plock p = true ->
  brelse (bio_handle s bn) (World h s) =
  (when (refcnt (getb (relsed (bio_handle s bn) s) (bio_handle s bn)) =? 0)
     (unlink (bio_handle s bn);; link_front (bio_handle s bn));; release bcache_lock)
  (World (bcache_lock :: h) (relsed (bio_handle s bn) s)).
Proof.
  intros R Hh Hp Hl. unfold brelse. mstep. rewrite (bind_run _ _ _ _ _ (holding_run s a bn p h R Hh Hp Hl)). cbn [negb].
  erewrite (bind_run (releasesleep _ _ _)); [|apply releasesleep_run; [apply Hh|unfold bwakeup, modify; reflexivity]].
  rewrite acquire_run by apply Hh. do 2 mstep. unfold id, unlink. fold (relsed (bio_handle s bn) s).
  unfold when. destruct (_ =? 0); [|done]. unfold mbind, M_bind. cbn [held st modify]. done.
Qed.

Lemma bio_relse s a bn p h :
  bio_rep s a -> cache_free h -> pins a !! bn = Some p -> plock p = true ->
  (pcnt p = 1 -> pdat p = disk_block (adisk a) bn) ->
  exists s', brelse (bio_handle s bn) (World h s) = Ok tt (World h s') /\
    bio_rep s' (unref bn (Pin (pcnt p) (pdat p) false) a) /\ forall bn', bio_handle s' bn' = bio_handle s bn'.
Proof.
  intros R Hh Hp Hl Hcl. rewrite (brelse_run s a bn p h R Hh Hp Hl).
  destruct (pinned_buf s a bn p R Hp) as (Hi & E & Hc & _ & Hal). set (i := bio_handle s bn) in *.
  pose proof (relsed_one s i ltac:(by eapply bio_len)) as Ho. set (s1 := relsed i s) in *.
  pose proof E as E'. apply core_data in E' as (E1 & E2 & E3 & E4 & E5 & E6).
  assert (getb s1 i = set_refcnt (pcnt p - 1) (set_block (Sleeplock false 0) (getb s i))) as Hgi.
  { rewrite (ob_getb _ _ _ _ Ho), decide_True by done. cbn [refcnt set_block]. rewrite E3, u32_small by lia. done. }
  rewrite Hgi. cbn [refcnt set_refcnt]. unfold unref. cbn [pcnt].
  destruct (Z.eqb_spec (pcnt p - 1) 0) as [Hz|Hnz], (Z.eqb_spec (pcnt p) 1); try lia; unfold when.
  - destruct (br_lru s a R) as [l Hlru].
    assert (lru s1 l) as Hlru1.
    { apply (lru_links s); [done|]. intros j. unfold nxt, prv. rewrite (ob_getb _ _ _ _ Ho). case_decide as Ej; [by rewrite Ej|done]. }
    assert (length (bufs s1) = S NBUF) as Hlen1 by (rewrite (ob_len _ _ _ _ Ho); apply R).
    destruct (move_front_run s1 i l (bcache_lock :: h) Hlen1 Hlru1 Hi) as (s' & Hrun & Hlo & Hlru').
    rewrite (bind_run _ _ _ _ _ Hrun). rewrite release_last by apply Hh. exists s'. split; [done|].
    assert (forall j, core (getb s' j) = core (getb s1 j)) as Hco by apply Hlo. split.
    + apply (touch_rep s a i bn); [done|]. destruct (ob_disk _ _ _ _ Ho) as [Hd1 Ht1]. destruct (lo_disk _ _ Hlo) as [Hd2 Ht2].
      split; [done|rewrite (lo_len _ _ Hlo); done|eauto|rewrite (lo_pid _ _ Hlo); apply Ho| | | | |done| |].
      * rewrite Hd2, Ht2, Hd1, Ht1. split; apply R.
      * by rewrite Hd2, Hd1.
      * intros bn' Hne. cbn. by rewrite lookup_delete_ne.
      * intros j Hj Hji. rewrite Hco, (ob_getb _ _ _ _ Ho). by rewrite decide_False.
      * right. done.
      * cbn. rewrite lookup_delete_eq. exists (pdat p), true. rewrite Hco, Hgi. split.
        -- unfold core. cbn. rewrite E1, E2, E4, E5. by replace (pcnt p - 1) with 0 by lia.
        -- rewrite Hd2, Hd1, (br_disk s a R). by apply Hcl.
    + apply (handle_same s a s' R); [eauto|]. intros j Hj. destruct (core_links _ _ j Hlo) as [-> ->].
      rewrite (ob_getb _ _ _ _ Ho). case_decide as Ej; [by rewrite Ej|done].
  - exists s1. rewrite (bind_run (mret tt) _ _ tt (World (bcache_lock :: h) s1)) by done.
    rewrite release_last by apply Hh. split; [done|].
    eapply rep_one_buf; [done|done|exact Ho|done| |cbn; lia].
    fold i. unfold core, pin_core. cbn. rewrite E1, E2, E3, E4, E5, u32_small by lia. done.
Qed.

Lemma bio_read_cached s a bn p h :
  bio_rep s a -> cache_free h -> pins a !! bn = Some p -> plock p = false -> pcnt p + 1 < 2^32 ->
  exists s', bread ROOTDEV bn (World h s) = Ok (bio_handle s' bn) (World h s') /\
    bio_rep s' (set_pin bn (Pin (pcnt p + 1) (pdat p) true) a) /\ forall bn', bio_handle s' bn' = bio_handle s bn'.
Proof.
  intros R [Hh Hhb] Hp Hl Hlt. destruct (pinned_buf s a bn p R Hp) as (Hi & E & Hc & Hf & _).
  pose proof E as E'. apply core_data in E' as (E1 & E2 & E3 & E4 & E5 & E6).
  unfold bread, bget. rewrite bind_assoc, acquire_run by done. rewrite bind_assoc, gets_run. unfold id.
  fold (nxt s HEAD). rewrite Hf. set (i := bio_handle s bn) in *. rewrite bind_assoc, modify_run, bind_assoc, release_run by done.
  set (s1 := updb i (fun x => set_refcnt (u32 (refcnt x + 1)) x) s).
  pose proof (one_buf_updb s i (fun x => set_refcnt (u32 (refcnt x + 1)) x) ltac:(by eapply bio_len)) as Ho1. fold s1 in Ho1.
  assert (slocked (get_block i s1) = false) as Hul.
  { unfold get_block. rewrite (ob_getb _ _ _ _ Ho1), decide_True by done. cbn. by rewrite E6, Hl. }
  rewrite bind_assoc, (bind_run _ _ _ _ _ (acquiresleep_run _ (get_block i) (put_block i) (bpid s) h s1 (Hhb i) Hul)).
  set (s2 := put_block i (Sleeplock true (bpid s)) s1).
  pose proof (one_buf_updb s1 i (set_block (Sleeplock true (bpid s))) ltac:(rewrite (ob_len _ _ _ _ Ho1); by eapply bio_len)) as Ho2.
  fold (put_block i (Sleeplock true (bpid s)) s1) in Ho2. fold s2 in Ho2.
  pose proof (one_buf_trans _ _ _ _ _ _ Ho1 Ho2) as Ho. change (unit -> M bst nat) with (unit -> M bst nat).
  rewrite (bind_run (mret i) _ _ i (World h s2)) by done. mstep. unfold id.
  assert (valid (getb s2 i) = true) as Hv by (rewrite (ob_getb _ _ _ _ Ho), decide_True by done; exact E5).
  rewrite Hv. cbn [negb when]. rewrite (bind_run (mret tt) _ _ tt (World h s2)) by done.
  destruct (rep_one_buf s a bn p (Pin (pcnt p + 1) (pdat p) true) _ s2 R Hp Ho) as [R' Hhd]; [done| |cbn; lia|].
  - fold i. unfold core, pin_core. cbn. rewrite E1, E2, E3, E4, E5, u32_small by lia. done.
  - exists s2. split; [|done]. by rewrite Hhd.
Qed.

(** The buffer of a block just brought into use. *)
Definition fresh_buf (s : bst) (bn : Z) (b : buf) : buf :=
  Buf true ROOTDEV bn (Sleeplock true (bpid s)) 1 (prev b) (next b) (disk_block (disk s) bn).

Lemma fresh_rep s a i bn s' :
  bio_rep s a -> pins a !! bn = None -> (i < NBUF)%nat -> refcnt (getb s i) = 0 ->
  (forall j, (j < NBUF)%nat -> j <> i -> ~ (dev (getb s j) = ROOTDEV /\ blockno (getb s j) = bn)) ->
  one_buf s i (fresh_buf s bn) s' ->
  bio_handle s' bn = i /\ bio_rep s' (set_pin bn (Pin 1 (disk_block (adisk a) bn) true) a) /\
  forall bn', is_Some (pins a !! bn') -> bio_handle s' bn' = bio_handle s bn'.
Proof.
  intros R Hn Hi Hr Hal [Hlen Hpid [Hd Ht] Hg].
  assert (exists l, lru s' l) as Hlru.
  { destruct (br_lru s a R) as [l Hl]. exists l. apply (lru_links s); [done|]. intros j. unfold nxt, prv. rewrite Hg.
    case_decide; [by subst|done]. }
  assert (bio_rep s' (set_pin bn (Pin 1 (disk_block (adisk a) bn) true) a)) as R'.
  { apply (touch_rep s a i bn); [done|]. split; [done|rewrite Hlen; apply R|done|done| | | | |done|by left|].
    - rewrite Hd, Ht. split; apply R.
    - by rewrite Hd.
    - intros bn' Hne. cbn. by rewrite lookup_insert_ne.
    - intros j Hj Hji. by rewrite Hg, decide_False.
    - cbn. rewrite lookup_insert_eq. rewrite Hg, decide_True by done. split; [|cbn; lia].
      unfold pin_core, slock_of, core, fresh_buf. cbn. by rewrite Hpid, (br_disk s a R). }
  assert (pins (set_pin bn (Pin 1 (disk_block (adisk a) bn) true) a) !! bn = Some (Pin 1 (disk_block (adisk a) bn) true))
    as Hp' by apply lookup_insert_eq.
  destruct (pinned_buf s' _ bn _ R' Hp') as (_ & _ & _ & _ & Hal'). split_and!; [|done|].
  - destruct (decide (bio_handle s' bn = i)) as [|Hne]; [done|]. exfalso. apply (Hal' i Hi); [congruence|].
    by rewrite Hg, decide_True.
  - intros bn' [p Hp]. assert (bn' <> bn) as Hbn by congruence.
    destruct (pinned_buf s a bn' p R Hp) as (Hj & E & Hc & _). apply core_data in E as (E1 & E2 & E3 & _).
    assert (bio_handle s bn' <> i) as Hji by (intros Ej; rewrite Ej in E3; lia).
    assert (pins (set_pin bn (Pin 1 (disk_block (adisk a) bn) true) a) !! bn' = Some p) as Hp2
      by (cbn; by rewrite lookup_insert_ne).
    destruct (pinned_buf s' _ bn' p R' Hp2) as (_ & _ & _ & _ & Hal2).
    destruct (decide (bio_handle s' bn' = bio_handle s bn')) as [|Hne]; [done|]. exfalso.
    apply (Hal2 (bio_handle s bn') Hj); [congruence|]. rewrite Hg, decide_False by done. done.
Qed.

(** The second half of [bread]. *)
Lemma read_invalid_run i h s :
  (i < length (bufs s))%nat ->
  exists s', (s ← gets id; when (negb (valid (getb s i))) (virtio_disk_rw i false;; modify (updb i (set_valid true)));; mret i)
               (World h s) = Ok i (World h s') /\
    one_buf s i (fun b => if valid b then b else set_valid true (set_data (disk_block (disk s) (blockno b)) b)) s'.
Proof.
  intros Hi. mstep. unfold id. destruct (valid (getb s i)) eqn:Hv; cbn [negb when].
  - exists s. split; [done|]. split; [done..|]. intros j. case_decide; [subst; by rewrite Hv|done].
  - unfold virtio_disk_rw. rewrite bind_assoc. do 2 mstep. eexists. split; [done|].
    set (s1 := updb i _ s). pose proof (one_buf_updb s i (set_data (disk_block (disk s) (blockno (getb s i)))) Hi) as Ho1. fold s1 in Ho1.
    pose proof (one_buf_updb s1 i (set_valid true)) as Ho2. rewrite (ob_len _ _ _ _ Ho1) in Ho2. specialize (Ho2 Hi).
    destruct (one_buf_trans _ _ _ _ _ _ Ho1 Ho2) as [? ? ? Hg]. split; [done..|]. intros j. rewrite Hg.
    case_decide; [|done]. by rewrite Hv.
Qed.

(** The end of both branches of [bget]: the buffer is taken, the cache lock
    released and the buffer's own lock acquired. *)
Lemma bget_take s i f h (m : nat -> M bst nat) :
  cache_free h -> slocked (block (getb (updb i f s) i)) = false ->
  ((modify (updb i f);; release bcache_lock;; acquiresleep (buf_lock i) (get_block i) (put_block i) (bpid s);; mret i) ≫= m)
    (World (bcache_lock :: h) s) = m i (World h (updb i (set_block (Sleeplock true (bpid s))) (updb i f s))).
Proof.
  intros [Hh Hhb] Hsl. rewrite bind_assoc, modify_run, bind_assoc, release_run by done. rewrite bind_assoc.
  rewrite (bind_run _ _ _ _ _ (acquiresleep_run _ (get_block i) (put_block i) (bpid s) h (updb i f s) (Hhb i) Hsl)). done.
Qed.

(** What [bget] does for a block no one holds: a free buffer [i], renamed or
    found under the right name. *)
Lemma bget_fresh s a bn h :
  bio_rep s a -> cache_free h -> pins a !! bn = None -> (size (pins a) < NBUF)%nat ->
  exists i f, (i < NBUF)%nat /\ refcnt (getb s i) = 0 /\
    (forall j, (j < NBUF)%nat -> j <> i -> ~ (dev (getb s j) = ROOTDEV /\ blockno (getb s j) = bn)) /\
    (forall m : nat -> M bst nat, (bget ROOTDEV bn ≫= m) (World h s)
       = m i (World h (updb i (set_block (Sleeplock true (bpid s))) (updb i f s)))) /\
    (let b := getb s i in let b' := f b in prev b' = prev b /\ next b' = next b /\ dev b' = ROOTDEV /\ blockno b' = bn /\
       refcnt b' = 1 /\ (valid b' = true -> data b' = disk_block (disk s) bn)).
Proof.
  intros R Hc Hn Hsz. destruct (br_lru s a R) as [l Hl]. pose proof Hc as [Hh _].
  destruct (decide (Exists (fun j => dev (getb s j) = ROOTDEV /\ blockno (getb s j) = bn) (seq 0 NBUF))) as [He|Hne].
  - apply Exists_exists in He as (i & Hi & Hd & Hb). apply elem_of_seq in Hi.
    assert (i < NBUF)%nat as Hi' by lia.
    assert (refcnt (getb s i) = 0) as Hr.
    { destruct (decide (refcnt (getb s i) = 0)) as [|Hr]; [done|]. destruct (br_used s a R i Hi' Hr) as [_ [p Hp]].
      congruence. }
    assert (forall j, (j < NBUF)%nat -> dev (getb s j) = ROOTDEV -> blockno (getb s j) = bn -> j = i) as Hu.
    { intros j Hj Hdj Hbj. apply (br_uniq s a R); congruence. }
    destruct (br_free s a R i Hi' Hr) as [Hul Hcl].
    exists i, (fun x => set_refcnt (u32 (refcnt x + 1)) x). split_and!; [done|done| | |].
    + intros j Hj Hji [Hdj Hbj]. apply Hji. by apply Hu.
    + intros m. unfold bget. rewrite bind_assoc, acquire_run by done. rewrite bind_assoc, gets_run. unfold id.
      fold (nxt s HEAD). rewrite (find_cached_spec s l ROOTDEV bn i Hl) by done. apply bget_take; [done|].
      rewrite getb_updb by (by eapply bio_len). by rewrite decide_True.
    + cbn. rewrite Hr. split_and!; try done. intros Hv. rewrite <- Hb. by apply Hcl.
  - assert (forall j, (j < NBUF)%nat -> ~ (dev (getb s j) = ROOTDEV /\ blockno (getb s j) = bn)) as Hno.
    { intros j Hj Hb. apply Hne, Exists_exists. exists j. split; [apply elem_of_seq; lia|done]. }
    destruct (find_unused_spec s l Hl (free_buf s a R Hsz)) as (i & Hfu & Hi & Hr).
    destruct (br_free s a R i Hi Hr) as [Hul _].
    exists i, (fun x => Buf false ROOTDEV bn (block x) 1 (prev x) (next x) (data x)). split_and!; [done|done|by auto| |done].
    intros m. unfold bget. rewrite bind_assoc, acquire_run by done. rewrite bind_assoc, gets_run. unfold id.
    fold (nxt s HEAD). rewrite (find_cached_none s l ROOTDEV bn Hl Hno). fold (prv s HEAD). rewrite Hfu. apply bget_take; [done|].
    rewrite getb_updb by (by eapply bio_len). by rewrite decide_True.
Qed.

Lemma bio_read_fresh s a bn h :
  bio_rep s a -> cache_free h -> pins a !! bn = None -> (size (pins a) < NBUF)%nat ->
  exists s', bread ROOTDEV bn (World h s) = Ok (bio_handle s' bn) (World h s') /\
    bio_rep s' (set_pin bn (Pin 1 (disk_block (adisk a) bn) true) a) /\
    forall bn', is_Some (pins a !! bn') -> bio_handle s' bn' = bio_handle s bn'.
Proof.
  intros R Hc Hn Hsz.
  destruct (bget_fresh s a bn h R Hc Hn Hsz) as (i & f & Hi & Hr & Hal & Hrun & Hpv & Hnx & Hdv & Hbn & Hrc & Hda).
  unfold bread. rewrite Hrun. pose proof (one_buf_updb s i f ltac:(by eapply bio_len)) as Ho1.
  pose proof (one_buf_updb (updb i f s) i (set_block (Sleeplock true (bpid s)))) as Ho2.
  rewrite length_updb in Ho2. specialize (Ho2 ltac:(by eapply bio_len)).
  pose proof (one_buf_trans _ _ _ _ _ _ Ho1 Ho2) as Ho. set (s2 := updb i (set_block _) _) in *.
  destruct (read_invalid_run i h s2) as (s' & Hr' & Ho'); [rewrite (ob_len _ _ _ _ Ho); by eapply bio_len|].
  destruct (one_buf_trans _ _ _ _ _ _ Ho Ho') as [HL HP HD HG].
  destruct (fresh_rep s a i bn s' R Hn Hi Hr Hal) as (Hhd & R' & Hfr).
  - split; [done..|]. intros j. rewrite HG. case_decide; [|done]. rewrite (proj1 (ob_disk _ _ _ _ Ho)). unfold fresh_buf.
    destruct (f (getb s i)) as [v d bnn bl r pv nx da]. cbn in Hpv, Hnx, Hdv, Hbn, Hrc, Hda |- *. subst.
    destruct v; [by rewrite Hda|done].
  - exists s'. rewrite Hr', Hhd. done.
Qed.

#[export] Instance bio_cache : BlockCache bst nat.
Proof.
  refine {| rep := bio_rep; handle := bio_handle |}.
  - apply bio_data.
  - apply bio_setdata.
  - intros s a bn h R Hh Hc. destruct (pins a !! bn) as [p|] eqn:Hp.
    + destruct Hc as [Hl Hlt]. destruct (bio_read_cached s a bn p h R Hh Hp Hl Hlt) as (s' & ? & ? & ?). eauto.
    + by apply bio_read_fresh.
  - apply bio_write.
  - apply bio_relse.
  - apply bio_pin.
  - apply bio_unpin.
Defined.

Lemma binit_run (d : gmap Z (list Z)) (tr : list (Z * list Z)) (pid : Z) (wk : list lockid) :
  exists s', binit (World [] (BSt (replicate (S NBUF) buf0) d tr pid wk)) = Ok tt (World [] s') /\
    lru s' (reverse (seq 0 NBUF)) /\ bio_rep s' (Abs ∅ d tr).
Proof.
  eexists. split; [vm_compute; reflexivity|].
  match goal with |- lru ?s _ /\ _ => set (s' := s) end.
  assert (lru s' (reverse (seq 0 NBUF))) as Hlru.
  { split; [vm_compute; repeat split|]. apply reverse_Permutation. }
  assert (forall i, dev (getb s' i) = 0 /\ refcnt (getb s' i) = 0 /\ slocked (block (getb s' i)) = false) as Hall.
  { intros i. unfold getb. assert (Forall (fun b => dev b = 0 /\ refcnt b = 0 /\ slocked (block b) = false) (bufs s')) as Hf.
    { subst s'. cbn [bufs]. repeat constructor. }
    destruct (bufs s' !! i) as [b|] eqn:E; [|done]. exact (proj1 (Forall_lookup _ _) Hf i b E). }
  split; [done|]. split; [reflexivity|eauto|reflexivity|reflexivity|..].
  - intros i j _ _ Hd. destruct (Hall i) as [E _]. rewrite E in Hd. discriminate.
  - intros bn p Hp. cbn in Hp. by rewrite lookup_empty in Hp.
  - intros i _ Hr. by destruct (Hall i) as (_ & ? & _).
  - intros i _ _. destruct (Hall i) as (Hd & _ & ?). split; [done|]. rewrite Hd. discriminate.
Qed.

(** ** Theorems *)

(** [binit] turns zeroed memory into an empty cache: the circular list
    links all [NBUF] buffers, the last one first, and no block is in use. *)
Theorem binit_empty (d : gmap Z (list Z)) (tr : list (Z * list Z)) (pid : Z) (wk : list lockid) :
  exists s', binit (World [] (BSt (replicate (S NBUF) buf0) d tr pid wk)) = Ok tt (World [] s') /\
    lru s' (reverse (seq 0 NBUF)) /\ bio_rep s' (Abs ∅ d tr).
Proof. apply binit_run. Qed.

(** C10: the buffer cache implements the abstract one: [bread] of a block
    returns, locked by the caller, the one buffer that holds it, with the
    contents last left in that buffer while the block was in use, or else the
    contents on disk; every other block in use keeps its buffer, contents,
    count and lock.  It never panics while fewer than [NBUF] blocks are in use. *)
Theorem bread_coherent (s : bst) (a : abs) (bn : Z) (h : list lockid) :
  bio_rep s a -> cache_free h ->
  match pins a !! bn with
  | Some p => plock p = false /\ pcnt p + 1 < 2^32
  | None => (size (pins a) < NBUF)%nat
  end ->
  exists b s', bread ROOTDEV bn (World h s) = Ok b (World h s') /\
    data (getb s' b) = match pins a !! bn with Some p => pdat p | None => disk_block (disk s) bn end /\
    block (getb s' b) = Sleeplock true (bpid s') /\
    bio_rep s' (set_pin bn (match pins a !! bn with
                            | Some p => Pin (pcnt p + 1) (pdat p) true
                            | None => Pin 1 (disk_block (adisk a) bn) true
                            end) a) /\
    forall bn', is_Some (pins a !! bn') -> bio_handle s' bn' = bio_handle s bn'.
Proof.
  intros R Hh Hc. destruct (@rep_read bst nat bio_ops bio_cache s a bn h R Hh Hc) as (s' & Hrun & R' & Hfr).
  exists (bio_handle s' bn), s'. split; [exact Hrun|].
  destruct (pinned_buf s' _ bn _ R' (lookup_insert_eq _ _ _)) as (_ & E & _). rewrite (br_disk s a R).
  apply core_data in E as (_ & _ & _ & -> & _ & ->). destruct (pins a !! bn); done.
Qed.

(** Buffers are recycled in least-recently-used order.  A miss of [bget]
    takes the free buffer furthest from the front of the list (and panics when
    every buffer is in use); the [brelse] that drops the last reference moves
    its buffer to the front and keeps the order of the others. *)
Theorem lru_discipline (s : bst) (a : abs) (l : list nat) (h : list lockid) (bn : Z) (p : pin) :
  bio_rep s a -> cache_free h -> lru s l -> pins a !! bn = Some p -> plock p = true -> pcnt p = 1 ->
  (exists s', brelse (bio_handle s bn) (World h s) = Ok tt (World h s') /\
              lru s' (bio_handle s bn :: filter (fun j => j <> bio_handle s bn) l)) /\
  forall dv bn', find_cached (S NBUF) s dv bn' (next (getb s HEAD)) = None ->
    match last (filter (fun i => refcnt (getb s i) = 0) l) with
    | Some i => forall b w, bget dv bn' (World h s) = Ok b w -> b = i
    | None => bget dv bn' (World h s) = Panic "bget: no buffers"
    end.
Proof.
  intros R Hh Hl Hp Hlk Hc1. split.
  - rewrite (brelse_run s a bn p h R Hh Hp Hlk).
    destruct (pinned_buf s a bn p R Hp) as (Hi & E & Hc & _ & Hal). set (i := bio_handle s bn) in *.
    pose proof (relsed_one s i ltac:(by eapply bio_len)) as Ho. apply core_data in E as (_ & _ & E3 & _).
    rewrite (ob_getb _ _ _ _ Ho), decide_True by done. cbn [refcnt set_refcnt set_block]. rewrite E3, Hc1.
    change (u32 (1 - 1) =? 0) with true. unfold when.
    destruct (move_front_run (relsed i s) i l (bcache_lock :: h)) as (s' & Hrun & _ & Hlru').
    + rewrite (ob_len _ _ _ _ Ho). apply R.
    + apply (lru_links s); [done|]. intros j. unfold nxt, prv. rewrite (ob_getb _ _ _ _ Ho). case_decide as Ej; [by rewrite Ej|done].
    + done.
    + rewrite (bind_run _ _ _ _ _ Hrun). rewrite release_last by apply Hh. eauto.
  - intros dv bn' Hnone. destruct (lru_facts s l Hl) as (Hhd & Hlen & _ & _). destruct Hl as [Hs _].
    pose proof (find_unused_seg (S NBUF) s HEAD l Hs Hhd ltac:(lia)) as Hfu. unfold prv in Hfu.
    rewrite filter_reverse, <- last_reverse, reverse_involutive in Hfu.
    unfold bget. rewrite acquire_run by apply Hh. mstep. unfold id. rewrite Hnone, Hfu.
    destruct (last _) as [i|]; [|done]. intros b w Hb. rewrite modify_run, release_run in Hb by apply Hh.
    apply bind_Ok in Hb as (? & ? & _ & Hb). by injection Hb as <- _.
Qed.

Definition demo_disk : gmap Z (list Z) := {[5 := zeroes BSIZE]}.
Definition demo_bst : bst :=
  match binit (World [] (BSt (replicate (S NBUF) buf0) demo_disk [] 3 [])) with Ok _ w => st w | _ => BSt [] ∅ [] 0 [] end.
Lemma demo_bst_rep : lru demo_bst (reverse (seq 0 NBUF)) /\ bio_rep demo_bst (Abs ∅ demo_disk []).
Proof.
  destruct (binit_run demo_disk [] 3 []) as (s' & Hrun & Hl & R). unfold demo_bst. rewrite Hrun. done.
Qed.
Lemma cache_free_nil : cache_free [].
Proof. split; [|intros i]; apply not_elem_of_nil. Qed.

Lemma bread_coherent_witness :
  exists b s', bread ROOTDEV 5 (World [] demo_bst) = Ok b (World [] s') /\
    data (getb s' b) = disk_block (disk demo_bst) 5 /\ block (getb s' b) = Sleeplock true (bpid s') /\
    bio_rep s' (set_pin 5 (Pin 1 (disk_block demo_disk 5) true) (Abs ∅ demo_disk [])) /\
    forall bn', is_Some ((∅ : gmap Z pin) !! bn') -> bio_handle s' bn' = bio_handle demo_bst bn'.
Proof.
  refine (bread_coherent demo_bst (Abs ∅ demo_disk []) 5 [] (proj2 demo_bst_rep) cache_free_nil _).
  cbn [pins]. rewrite lookup_empty. vm_compute. lia.
Defined.

Definition demo_open : bst := match bread ROOTDEV 5 (World [] demo_bst) with Ok _ w => st w | _ => demo_bst end.
Lemma demo_open_rep :
  bio_rep demo_open (set_pin 5 (Pin 1 (disk_block demo_disk 5) true) (Abs ∅ demo_disk [])).
Proof.
  destruct (bio_read_fresh demo_bst (Abs ∅ demo_disk []) 5 []) as (s' & Hrun & R & _);
    [apply demo_bst_rep|apply cache_free_nil|reflexivity|vm_compute; lia|]. unfold demo_open. by rewrite Hrun.
Qed.
Lemma lru_discipline_witness :
  (exists s', brelse (bio_handle demo_open 5) (World [] demo_open) = Ok tt (World [] s') /\
     lru s' (bio_handle demo_open 5 :: filter (fun j => j <> bio_handle demo_open 5) (reverse (seq 0 NBUF)))) /\
  forall dv bn', find_cached (S NBUF) demo_open dv bn' (next (getb demo_open HEAD)) = None ->
    match last (filter (fun i => refcnt (getb demo_open i) = 0) (reverse (seq 0 NBUF))) with
    | Some i => forall b w, bget dv bn' (World [] demo_open) = Ok b w -> b = i
    | None => bget dv bn' (World [] demo_open) = Panic "bget: no buffers"
    end.
Proof.
  apply (lru_discipline demo_open (set_pin 5 (Pin 1 (disk_block demo_disk 5) true) (Abs ∅ demo_disk []))
           (reverse (seq 0 NBUF)) [] 5 (Pin 1 (disk_block demo_disk 5) true)).
  - apply demo_open_rep.
  - apply cache_free_nil.
  - split; [vm_compute; repeat split|apply reverse_Permutation].
  - apply lookup_insert_eq.
  - reflexivity.
  - reflexivity.
Defined.
