(* ===== verification/Log.v ===== *)
(** * kernel/log.c: the write-ahead log

    Written against the block-cache interface [BlockOps]; [lst] pairs a
    cache's state with [struct log].  A block's contents are a list of bytes,
    and the on-disk header is read and written through the layout of
    [struct logheader]: [n], then the block numbers, 4 bytes each. *)

From S2P Require Import Prelude Sleeplock Bio BioSpec.

Definition MAXOPBLOCKS : Z := 10.
Definition LOGSIZE : Z := MAXOPBLOCKS * 3.

(** 32-bit words inside a block. *)
Definition get32 (d : list Z) (off : nat) : Z := little_endian_to_Z 8 (take 4 (drop off d)).
Definition put32 (off : nat) (v : Z) (d : list Z) : list Z := splice d off (Z_to_little_endian 4 8 v).

(** An access outside an array: the C program's behaviour is undefined. *)
Definition undefined {S A} : M S A := panic "undefined behaviour".

Record log : Type := Log {
  start : Z;
  lsize : Z;
  outstanding : Z;        (* how many FS sys calls are executing *)
  committing : bool;      (* in commit(), please wait *)
  ldev : Z;
  lh_n : Z;               (* lh.n *)
  lh_block : list Z;      (* lh.block[LOGSIZE], ints *)
  lwakes : list lockid
}.
Record lst (S : Type) : Type := Lst { lb : S; lg : log }.
Arguments Lst {S} _ _.
Arguments lb {S} _.
Arguments lg {S} _.

(** The fields of [struct superblock] (kernel/fs.h). *)
Record superblock : Type := Superblock {
  sb_magic : Z; sb_size : Z; sb_nblocks : Z; sb_ninodes : Z;
  sb_nlog : Z; sb_logstart : Z; sb_inodestart : Z; sb_bmapstart : Z
}.

Definition log_lock : lockid := ("log"%string, 0).
Definition chan_log : lockid := ("log"%string, 1).

Section log.
Context {T H : Type} {BO : BlockOps T H}.

Definition cache {A} (m : M T A) : M (lst T) A := zoom lb (fun x s => Lst x (lg s)) m.
Definition upd_log (f : log -> log) (s : lst T) : lst T := Lst (lb s) (f (lg s)).
Definition set_lh (n : Z) (bs : list Z) (l : log) : log :=
  Log (start l) (lsize l) (outstanding l) (committing l) (ldev l) n bs (lwakes l).
Definition set_out (o : Z) (c : bool) (l : log) : log :=
  Log (start l) (lsize l) o c (ldev l) (lh_n l) (lh_block l) (lwakes l).
Definition lwakeup (c : lockid) : M (lst T) unit := modify (upd_log (fun l =>
  Log (start l) (lsize l) (outstanding l) (committing l) (ldev l) (lh_n l) (lh_block l) (c :: lwakes l))).
(** [bread(dev, n)] with an [int] block number. *)
Definition lread (dv : Z) (bn : Z) : M (lst T) H := cache (b_read (u32 dv) (u32 bn)).
Definition ldata (b : H) : M (lst T) (list Z) := gets (fun s => b_data (lb s) b).
Definition lset (b : H) (f : list Z -> list Z) : M (lst T) unit :=
  modify (fun s => Lst (b_setdata b f (lb s)) (lg s)).

Fixpoint install_trans_loop (tails : list Z) (recovering : bool) : M (lst T) unit :=
  match tails with
  | [] => mret tt
  | tail :: tails =>
      l ← gets lg;
      lbuf ← lread (ldev l) (start l + tail + 1);
      match lh_block l !! Z.to_nat tail with
      | None => undefined
      | Some dst =>
          dbuf ← lread (ldev l) dst;
          d ← ldata lbuf;
          lset dbuf (fun _ => d);;
          cache (b_write dbuf);;
          when (negb recovering) (cache (b_unpin dbuf));;
          cache (b_relse lbuf);;
          cache (b_relse dbuf);;
          install_trans_loop tails recovering
      end
  end.
Definition install_trans (recovering : bool) : M (lst T) unit :=
  n ← gets (fun s => lh_n (lg s));
  install_trans_loop (seqZ 0 n) recovering.

Fixpoint read_head_loop (d : list Z) (is_ : list Z) : M (lst T) unit :=
  match is_ with
  | [] => mret tt
  | i :: is_ =>
      if negb (i <? LOGSIZE) then undefined else
      modify (upd_log (fun l =>
        set_lh (lh_n l) (<[Z.to_nat i := i32 (get32 d (Z.to_nat (4 + 4 * i)))]> (lh_block l)) l));;
      read_head_loop d is_
  end.
Definition read_head : M (lst T) unit :=
  l ← gets lg;
  b ← lread (ldev l) (start l);
  d ← ldata b;
  let n := i32 (get32 d 0) in
  modify (upd_log (fun l => set_lh n (lh_block l) l));;
  read_head_loop d (seqZ 0 n);;
  cache (b_relse b).

Fixpoint write_head_loop (b : H) (is_ : list Z) : M (lst T) unit :=
  match is_ with
  | [] => mret tt
  | i :: is_ =>
      l ← gets lg;
      match lh_block l !! Z.to_nat i with
      | None => undefined
      | Some x => lset b (put32 (Z.to_nat (4 + 4 * i)) x);; write_head_loop b is_
      end
  end.
Definition write_head : M (lst T) unit :=
  l ← gets lg;
  b ← lread (ldev l) (start l);
  lset b (put32 0 (lh_n l));;
  write_head_loop b (seqZ 0 (lh_n l));;
  cache (b_write b);;
  cache (b_relse b).

Definition recover_from_log : M (lst T) unit :=
  read_head;;
  install_trans true;;
  modify (upd_log (fun l => set_lh 0 (lh_block l) l));;
  write_head.

(** [sizeof(struct logheader)]: an int and [LOGSIZE] ints. *)
Definition sizeof_logheader : Z := 4 + 4 * LOGSIZE.

Definition initlog (dv : Z) (sb : superblock) : M (lst T) unit :=
  if BSIZE <=? sizeof_logheader then panic "initlog: too big logheader" else
  initlock log_lock;;
  modify (upd_log (fun l => Log (i32 (sb_logstart sb)) (i32 (sb_nlog sb)) (outstanding l) (committing l) dv
                                (lh_n l) (lh_block l) (lwakes l)));;
  recover_from_log.

(** [env]: what happens to the log during each successive sleep. *)
Fixpoint begin_op_loop (env : list (lst T -> lst T)) : M (lst T) (list (lst T -> lst T)) :=
  l ← gets lg;
  if committing l || (LOGSIZE <? lh_n l + (outstanding l + 1) * MAXOPBLOCKS) then
    match env with
    | [] => sleep chan_log
    | f :: env => release log_lock;; modify f;; acquire log_lock;;     (* sleep(&log, &log.lock) *)
                  begin_op_loop env
    end
  else
    modify (upd_log (fun l => set_out (outstanding l + 1) (committing l) l));;
    release log_lock;;
    mret env.
Definition begin_op (env : list (lst T -> lst T)) : M (lst T) (list (lst T -> lst T)) :=
  acquire log_lock;; begin_op_loop env.

Fixpoint write_log_loop (tails : list Z) : M (lst T) unit :=
  match tails with
  | [] => mret tt
  | tail :: tails =>
      l ← gets lg;
      to ← lread (ldev l) (start l + tail + 1);
      match lh_block l !! Z.to_nat tail with
      | None => undefined
      | Some src =>
          from ← lread (ldev l) src;
          d ← ldata from;
          lset to (fun _ => d);;
          cache (b_write to);;
          cache (b_relse from);;
          cache (b_relse to);;
          write_log_loop tails
      end
  end.
Definition write_log : M (lst T) unit :=
  n ← gets (fun s => lh_n (lg s));
  write_log_loop (seqZ 0 n).

Definition commit : M (lst T) unit :=
  n ← gets (fun s => lh_n (lg s));
  when (0 <? n)
    (write_log;;
     write_head;;
     install_trans false;;
     modify (upd_log (fun l => set_lh 0 (lh_block l) l));;
     write_head).

Definition end_op : M (lst T) unit :=
  acquire log_lock;;
  modify (upd_log (fun l => set_out (outstanding l - 1) (committing l) l));;
  l ← gets lg;
  if committing l then panic "log.committing" else
  let do_commit := outstanding l =? 0 in
  (if do_commit then modify (upd_log (set_out (outstanding l) true)) else lwakeup chan_log);;
  release log_lock;;
  when do_commit
    (commit;;
     acquire log_lock;;
     modify (upd_log (fun l => set_out (outstanding l) false l));;
     lwakeup chan_log;;
     release log_lock).

(** [for (i = 0; i < log.lh.n; i++) if (log.lh.block[i] == b->blockno) break;]
    A comparison of an [int] with a [uint] is unsigned. *)
Fixpoint absorb (blocks : list Z) (bn : Z) (i n : nat) : nat :=
  match n with
  | O => i
  | S n =>
      match blocks !! i with
      | Some x => if u32 x =? bn then i else absorb blocks bn (S i) n
      | None => i
      end
  end.

Definition log_write (b : H) : M (lst T) unit :=
  acquire log_lock;;
  l ← gets lg;
  if (LOGSIZE <=? lh_n l) || (lsize l - 1 <=? lh_n l) then panic "too big a transaction" else
  if outstanding l <? 1 then panic "log_write outside of trans" else
  bn ← gets (fun s => b_blockno (lb s) b);
  let i := absorb (lh_block l) bn 0 (Z.to_nat (lh_n l)) in
  modify (upd_log (fun l => set_lh (lh_n l) (<[i := i32 bn]> (lh_block l)) l));;
  when (Z.of_nat i =? lh_n l)
    (cache (b_pin b);;
     modify (upd_log (fun l => set_lh (lh_n l + 1) (lh_block l) l)));;
  release log_lock.

End log.
