(* ===== verification/LogSpec.v ===== *)
(** * The log makes transactions atomic

    [logical st D] is the file system a disk [D] stands for: the block as it
    is, or as the committed log says.  It is a function of the disk alone,
    what a machine that crashed with that disk would recover.  The theorems
    say that each single disk write of [commit] leaves it at the old or the
    new file system, with the switch at one write of the header; that no
    write of recovery changes it; and that recovery ends with an empty log
    and the disk equal to it. *)

From S2P Require Import Prelude Sleeplock Bio BioSpec Log.

Definition awrite (bn : Z) (d : list Z) (a : abs) : abs := Abs (pins a) (<[bn := d]> (adisk a)) ((bn, d) :: atrace a).

Lemma abs_eq a a' : pins a = pins a' -> adisk a = adisk a' -> atrace a = atrace a' -> a = a'.
Proof. destruct a, a'. cbn. by intros -> -> ->. Qed.

Lemma disk_block_insert D bn d bn' : disk_block (<[bn := d]> D) bn' = if decide (bn = bn') then d else disk_block D bn'.
Proof. unfold disk_block. rewrite lookup_insert. by case_decide. Qed.

Section lifted.
Context {T H : Type} {BO : BlockOps T H} {BC : BlockCache T H}.
Implicit Types (x : T) (l : log) (h : list lockid).

Lemma cache_run {A} (m : M T A) r h x x' l :
  m (World h x) = Ok r (World h x') -> cache m (World h (Lst x l)) = Ok r (World h (Lst x' l)).
Proof. intros E. unfold cache, zoom. cbn [held st lb]. by rewrite E. Qed.

Lemma lread_run x a bn h l :
  rep x a -> cache_free h -> 0 <= bn < 2^32 ->
  match pins a !! bn with
  | Some p => plock p = false /\ pcnt p + 1 < 2^32
  | None => (size (pins a) < NBUF)%nat
  end ->
  exists x', lread ROOTDEV bn (World h (Lst x l)) = Ok (handle x' bn) (World h (Lst x' l)) /\
    rep x' (set_pin bn (match pins a !! bn with
                        | Some p => Pin (pcnt p + 1) (pdat p) true
                        | None => Pin 1 (disk_block (adisk a) bn) true
                        end) a) /\
    forall bn', is_Some (pins a !! bn') -> handle x' bn' = handle x bn'.
Proof.
  intros R Hh Hbn Hc. destruct (rep_read x a bn h R Hh Hc) as (x' & E & R' & Hf).
  exists x'. split; [|done]. unfold lread. rewrite (u32_small bn) by done. by apply cache_run.
Qed.

(** ** One turn of each loop, on the abstract cache *)

(** Copying block [src], in use and not locked, to the log block [L]. *)
Lemma log_copy_turn x a h l L src p (k : M (lst T) unit) :
  rep x a -> cache_free h -> 0 <= L < 2^32 -> 0 <= src < 2^32 ->
  pins a !! L = None -> pins a !! src = Some p -> plock p = false -> 1 <= pcnt p -> pcnt p + 1 < 2^32 ->
  (size (pins a) < NBUF)%nat ->
  exists x', rep x' (awrite L (pdat p) a) /\
    (to ← lread ROOTDEV L; from ← lread ROOTDEV src; d ← ldata from; lset to (fun _ => d);; cache (b_write to);;
     cache (b_relse from);; cache (b_relse to);; k) (World h (Lst x l)) = k (World h (Lst x' l)).
Proof.
  intros R Hh HL Hs HnL Hp Hpl Hpc Hlt Hsz. assert (src <> L) as Hne by congruence.
  destruct (lread_run x a L h l R Hh HL) as (x1 & E1 & R1 & F1); [by rewrite HnL|]. rewrite HnL in R1.
  rewrite (bind_run _ _ _ _ _ E1).
  destruct (lread_run x1 _ src h l R1 Hh Hs) as (x2 & E2 & R2 & F2); [cbn; rewrite lookup_insert_ne, Hp by done; done|].
  cbn [set_pin pins] in R2. rewrite lookup_insert_ne, Hp in R2 by done. rewrite (bind_run _ _ _ _ _ E2).
  rewrite <- (F2 L) by (cbn; rewrite lookup_insert_eq; eauto).
  set (a2 := set_pin src _ _) in R2. assert (pins a2 !! src = Some (Pin (pcnt p + 1) (pdat p) true)) as Hp2 by apply lookup_insert_eq.
  assert (pins a2 !! L = Some (Pin 1 (disk_block (adisk a) L) true)) as HL2 by (cbn; rewrite lookup_insert_ne by done; apply lookup_insert_eq).
  destruct (rep_data x2 a2 src _ R2 Hp2) as [Hd _]. unfold ldata. rewrite gets_run. cbn [lb]. rewrite Hd. cbn [pdat].
  unfold lset. rewrite modify_run. cbn [lb lg].
  destruct (rep_setdata x2 a2 L _ (fun _ => pdat p) R2 HL2 eq_refl) as [R3 F3]. set (x3 := b_setdata _ _ x2) in *. cbn [pcnt pdat] in R3.
  rewrite <- (F3 L), <- (F3 src).
  destruct (rep_write x3 _ L (Pin 1 (pdat p) true) h R3 Hh (lookup_insert_eq _ _ _) eq_refl) as (x4 & E4 & R4 & F4).
  rewrite (bind_run _ _ _ _ _ (cache_run _ _ _ _ _ l E4)). rewrite <- (F4 L), <- (F4 src). cbn [pdat pins adisk atrace] in R4.
  destruct (rep_relse x4 _ src (Pin (pcnt p + 1) (pdat p) true) h R4 Hh) as (x5 & E5 & R5 & F5).
  { cbn. rewrite lookup_insert_ne by done. exact Hp2. }
  { done. }
  { cbn. lia. }
  rewrite (bind_run _ _ _ _ _ (cache_run _ _ _ _ _ l E5)). rewrite <- (F5 L).
  unfold unref in R5. cbn [pcnt pdat plock] in R5. destruct (Z.eqb_spec (pcnt p + 1) 1); [lia|].
  destruct (rep_relse x5 _ L (Pin 1 (pdat p) true) h R5 Hh) as (x6 & E6 & R6 & _).
  { cbn. rewrite lookup_insert_ne by done. apply lookup_insert_eq. }
  { done. }
  { intros _. cbn. rewrite disk_block_insert. by rewrite decide_True. }
  rewrite (bind_run _ _ _ _ _ (cache_run _ _ _ _ _ l E6)). exists x6. split; [|done].
  unfold unref in R6. cbn in R6. erewrite abs_eq; [exact R6|..]; cbn; try done.
  apply map_eq. intros j. rewrite lookup_delete, !lookup_insert. destruct p as [c d pl]. cbn in *.
  repeat case_decide; subst; try congruence. rewrite Hp. f_equal. f_equal. lia.
Qed.

(** Installing the log block [L] at its home [dst]: [dst] is in use once
    (pinned by [log_write]) when committing, and not in use when recovering. *)
Definition home_pin (recovering : bool) (o : option pin) : Prop :=
  if recovering then o = None else exists p, o = Some p /\ pcnt p = 1 /\ plock p = false.

(** Reading the home block while the log block is held: the count is 2 when
    [log_write] pinned it, 1 in recovery. *)
Lemma home_read_run x a h l (recovering : bool) L dst dL :
  rep x (set_pin L (Pin 1 dL true) a) -> cache_free h -> 0 <= dst < 2^32 -> L <> dst ->
  pins a !! L = None -> home_pin recovering (pins a !! dst) -> (size (pins a) + 1 < NBUF \/ recovering = false /\ size (pins a) < NBUF)%nat ->
  exists x' d, lread ROOTDEV dst (World h (Lst x l)) = Ok (handle x' dst) (World h (Lst x' l)) /\
    rep x' (set_pin dst (Pin (if recovering then 1 else 2) d true) (set_pin L (Pin 1 dL true) a)) /\ handle x' L = handle x L.
Proof.
  intros R Hh Hs Hne HnL Hhome Hsz. destruct (lread_run x _ dst h l R Hh Hs) as (x2 & E2 & R2 & F2).
  - cbn. rewrite lookup_insert_ne by done. destruct recovering; cbn in Hhome.
    + rewrite Hhome. rewrite map_size_insert_None by done. lia.
    + destruct Hhome as (p & -> & -> & ->). done.
  - cbn [set_pin pins adisk] in R2. rewrite lookup_insert_ne in R2 by done.
    assert (handle x2 L = handle x L) as F by (apply F2; cbn; rewrite lookup_insert_eq; eauto).
    destruct recovering; cbn in Hhome; [rewrite Hhome in R2; eauto|]. destruct Hhome as (p & Hp & Hc1 & _). rewrite Hp, Hc1 in R2. eauto.
Qed.

(** The [bunpin] of a home block that is not being recovered. *)
Lemma home_unpin_run x a h l (recovering : bool) dst dL :
  rep x (set_pin dst (Pin (if recovering then 1 else 2) dL true) a) -> cache_free h ->
  exists x', (forall k : M (lst T) unit, (when (negb recovering) (cache (b_unpin (handle x dst)));; k) (World h (Lst x l)) = k (World h (Lst x' l))) /\
    rep x' (set_pin dst (Pin 1 dL true) a) /\ forall bn', handle x' bn' = handle x bn'.
Proof.
  intros R Hh. destruct recovering; cbn [negb when]; [by exists x|].
  destruct (rep_unpin x _ dst (Pin 2 dL true) h R Hh (lookup_insert_eq _ _ _)) as (x5 & E5 & R5 & F5); [cbn; lia|].
  exists x5. split; [intros k'; by rewrite (bind_run _ _ _ _ _ (cache_run _ _ _ _ _ l E5))|]. split; [|done].
  erewrite abs_eq; [exact R5|..]; cbn; [|done|done]. by rewrite !insert_insert_eq.
Qed.

Lemma install_turn x a h l (recovering : bool) L dst (k : M (lst T) unit) :
  rep x a -> cache_free h -> 0 <= L < 2^32 -> 0 <= dst < 2^32 -> L <> dst ->
  pins a !! L = None -> home_pin recovering (pins a !! dst) -> (size (pins a) + 1 < NBUF \/ recovering = false /\ size (pins a) < NBUF)%nat ->
  exists x', rep x' (awrite dst (disk_block (adisk a) L) (del_pin dst a)) /\
    (lbuf ← lread ROOTDEV L; dbuf ← lread ROOTDEV dst; d ← ldata lbuf; lset dbuf (fun _ => d);; cache (b_write dbuf);;
     when (negb recovering) (cache (b_unpin dbuf));; cache (b_relse lbuf);; cache (b_relse dbuf);; k) (World h (Lst x l))
    = k (World h (Lst x' l)).
Proof.
  intros R Hh HL Hs Hne HnL Hhome Hsz.
  destruct (lread_run x a L h l R Hh HL) as (x1 & E1 & R1 & F1); [rewrite HnL; lia|]. rewrite HnL in R1.
  rewrite (bind_run _ _ _ _ _ E1). set (dL := disk_block (adisk a) L) in *.
  destruct (home_read_run x1 a h l recovering L dst dL R1 Hh Hs Hne HnL Hhome Hsz) as (x2 & d0 & E2 & R2 & F2).
  rewrite (bind_run _ _ _ _ _ E2). rewrite <- F2. set (a2 := set_pin dst _ _) in R2.
  assert (pins a2 !! L = Some (Pin 1 dL true)) as HL2 by (cbn; rewrite lookup_insert_ne by done; apply lookup_insert_eq).
  destruct (rep_data x2 a2 L _ R2 HL2) as [Hd _]. unfold ldata. rewrite gets_run. cbn [lb]. rewrite Hd. cbn [pdat].
  unfold lset. rewrite modify_run. cbn [lb lg].
  destruct (rep_setdata x2 a2 dst _ (fun _ => dL) R2 (lookup_insert_eq _ _ _) eq_refl) as [R3 F3]. set (x3 := b_setdata _ _ x2) in *.
  cbn [pcnt pdat] in R3. rewrite <- (F3 L), <- (F3 dst).
  destruct (rep_write x3 _ dst (Pin _ dL true) h R3 Hh (lookup_insert_eq _ _ _) eq_refl) as (x4 & E4 & R4 & F4).
  rewrite (bind_run _ _ _ _ _ (cache_run _ _ _ _ _ l E4)). rewrite <- (F4 L), <- (F4 dst). cbn [pdat pins adisk atrace] in R4.
  destruct (home_unpin_run x4 (Abs (<[L := Pin 1 dL true]> (pins a)) (<[dst := dL]> (adisk a)) ((dst, dL) :: atrace a)) h l recovering dst dL)
    as (x5 & E5 & R5 & F5); [|done|].
  { erewrite abs_eq; [exact R4|..]; cbn; [|done|done]. by rewrite insert_insert_eq. }
  rewrite E5. rewrite <- (F5 L), <- (F5 dst).
  destruct (rep_relse x5 _ L (Pin 1 dL true) h R5 Hh) as (x6 & E6 & R6 & F6).
  { cbn. rewrite lookup_insert_ne by done. apply lookup_insert_eq. }
  { done. }
  { intros _. cbn. rewrite disk_block_insert, decide_False by done. done. }
  rewrite (bind_run _ _ _ _ _ (cache_run _ _ _ _ _ l E6)). rewrite <- (F6 dst). unfold unref in R6. cbn in R6.
  destruct (rep_relse x6 _ dst (Pin 1 dL true) h R6 Hh) as (x7 & E7 & R7 & _).
  { cbn. rewrite lookup_delete_ne by done. apply lookup_insert_eq. }
  { done. }
  { intros _. cbn. rewrite disk_block_insert. by rewrite decide_True. }
  rewrite (bind_run _ _ _ _ _ (cache_run _ _ _ _ _ l E7)). exists x7. split; [|done].
  unfold unref in R7. cbn in R7. erewrite abs_eq; [exact R7|..]; cbn; try done.
  apply map_eq. intros j. rewrite !lookup_delete, !lookup_insert. repeat case_decide; subst; congruence.
Qed.

(** Writing the header: [f] is what the stores [m] into its buffer do. *)
Lemma head_turn x a h l L (k : M (lst T) unit) (m : H -> M (lst T) unit) (f : list Z -> list Z) :
  rep x a -> cache_free h -> 0 <= L < 2^32 -> pins a !! L = None -> (size (pins a) < NBUF)%nat ->
  (forall x1 a1 d, rep x1 a1 -> pins a1 !! L = Some (Pin 1 d true) ->
     exists x2, m (handle x1 L) (World h (Lst x1 l)) = Ok tt (World h (Lst x2 l)) /\
                rep x2 (set_pin L (Pin 1 (f d) true) a1) /\ handle x2 L = handle x1 L) ->
  exists x', rep x' (awrite L (f (disk_block (adisk a) L)) a) /\
    (b ← lread ROOTDEV L; m b;; cache (b_write b);; cache (b_relse b);; k) (World h (Lst x l)) = k (World h (Lst x' l)).
Proof.
  intros R Hh HL HnL Hsz Hm.
  destruct (lread_run x a L h l R Hh HL) as (x1 & E1 & R1 & F1); [by rewrite HnL|]. rewrite HnL in R1.
  rewrite (bind_run _ _ _ _ _ E1).
  destruct (Hm x1 _ _ R1 (lookup_insert_eq _ _ _)) as (x3 & E3 & R3 & F3).
  rewrite (bind_run _ _ _ _ _ E3). rewrite <- F3.
  destruct (rep_write x3 _ L _ h R3 Hh (lookup_insert_eq _ _ _) eq_refl) as (x4 & E4 & R4 & F4).
  rewrite (bind_run _ _ _ _ _ (cache_run _ _ _ _ _ l E4)). rewrite <- (F4 L). cbn [pdat pins adisk atrace] in R4.
  destruct (rep_relse x4 _ L _ h R4 Hh (lookup_insert_eq _ _ _) eq_refl) as (x5 & E5 & R5 & _).
  { intros _. cbn. rewrite disk_block_insert. by rewrite decide_True. }
  rewrite (bind_run _ _ _ _ _ (cache_run _ _ _ _ _ l E5)). exists x5. split; [|done].
  unfold unref in R5. cbn in R5. erewrite abs_eq; [exact R5|..]; cbn; try done.
  apply map_eq. intros j. rewrite lookup_delete, !lookup_insert. repeat case_decide; subst; congruence.
Qed.
End lifted.

(** ** The on-disk header *)

Lemma get32_put32 d off v : (off + 4 <= length d)%nat -> get32 (put32 off v d) off = u32 v.
Proof.
  intros Hl. unfold get32, put32. pose proof (length_Z_to_little_endian 4 8 v ltac:(lia)) as Hlen.
  assert (length (Z_to_little_endian 4 8 v) = 4%nat) as Hlen' by lia.
  rewrite <- Hlen' at 1. rewrite splice_read by lia.
  rewrite little_endian_to_Z_to_little_endian by lia. done.
Qed.

Lemma length_put32 d off v : (off + 4 <= length d)%nat -> length (put32 off v d) = length d.
Proof.
  intros Hl. unfold put32. pose proof (length_Z_to_little_endian 4 8 v ltac:(lia)). apply length_splice. lia.
Qed.

Lemma get32_put32_ne d off off' v :
  (off + 4 <= length d)%nat -> (off' + 4 <= off \/ off + 4 <= off')%nat -> get32 (put32 off v d) off' = get32 d off'.
Proof.
  intros Hl Hd. unfold get32, put32. pose proof (length_Z_to_little_endian 4 8 v ltac:(lia)) as Hlen. f_equal.
  apply list_eq. intros i. destruct (decide (i < 4)%nat) as [Hi|Hi].
  - rewrite !lookup_take_lt, !lookup_drop by lia. apply lookup_splice_old; lia.
  - rewrite !lookup_take_ge by lia. done.
Qed.

Definition hdr_n (d : list Z) : Z := i32 (get32 d 0).
Definition hdr_block (d : list Z) (i : Z) : Z := i32 (get32 d (Z.to_nat (4 + 4 * i))).
Definition hdr_blocks (d : list Z) : list Z := hdr_block d <$> seqZ 0 (hdr_n d).

(** What [write_head] stores: the count, then the first blocks. *)
Definition put_block_at (bs : list Z) (d : list Z) (i : Z) : list Z :=
  put32 (Z.to_nat (4 + 4 * i)) (default 0 (bs !! Z.to_nat i)) d.
Definition put_head (bs : list Z) (d : list Z) : list Z :=
  foldl (put_block_at bs) (put32 0 (Z.of_nat (length bs)) d) (seqZ 0 (Z.of_nat (length bs))).

Lemma put_blocks_other bs is_ d off :
  length d = 1024%nat -> Forall (fun i => 0 <= i < 30) is_ -> (forall i, i ∈ is_ -> Z.of_nat off + 4 <= 4 + 4 * i \/ 8 + 4 * i <= Z.of_nat off) ->
  length (foldl (put_block_at bs) d is_) = 1024%nat /\ get32 (foldl (put_block_at bs) d is_) off = get32 d off.
Proof.
  revert d. induction is_ as [|i is_ IH]; intros d Hl Hf Hoff; [done|]. cbn [foldl].
  apply Forall_cons in Hf as [Hi Hf]. assert (length (put_block_at bs d i) = 1024%nat) as Hl' by (unfold put_block_at; rewrite length_put32; lia).
  destruct (IH _ Hl' Hf) as [H1 H2]; [intros j Hj; apply Hoff; set_solver|]. split; [done|]. rewrite H2.
  unfold put_block_at. apply get32_put32_ne; [lia|]. specialize (Hoff i ltac:(set_solver)). lia.
Qed.

Lemma put_head_length bs d : length d = 1024%nat -> (length bs <= 30)%nat -> length (put_head bs d) = 1024%nat.
Proof.
  intros Hl Hb. unfold put_head.
  eapply (put_blocks_other bs _ _ 0); [rewrite length_put32; lia| |].
  - apply Forall_forall. intros i Hi. apply elem_of_seqZ in Hi. lia.
  - intros i Hi. apply elem_of_seqZ in Hi. lia.
Qed.
Lemma put_head_n bs d : length d = 1024%nat -> (length bs <= 30)%nat -> hdr_n (put_head bs d) = Z.of_nat (length bs).
Proof.
  intros Hl Hb. unfold hdr_n, put_head.
  destruct (put_blocks_other bs (seqZ 0 (Z.of_nat (length bs))) (put32 0 (Z.of_nat (length bs)) d) 0) as [_ E].
  - rewrite length_put32; lia.
  - apply Forall_forall. intros i Hi. apply elem_of_seqZ in Hi. lia.
  - intros i Hi. apply elem_of_seqZ in Hi. lia.
  - rewrite E, get32_put32, u32_small by lia. apply signed_small; lia.
Qed.
Lemma seqZ_split i n : 0 <= i < n -> seqZ 0 n = seqZ 0 i ++ i :: seqZ (i + 1) (n - i - 1).
Proof.
  intros Hi. replace n with (i + (n - i)) at 1 by lia. rewrite seqZ_app by lia. rewrite (seqZ_cons (0 + i)) by lia.
  by rewrite Z.add_0_l, Z.add_1_r, Z.sub_1_r.
Qed.
Lemma put_head_block bs d (i : nat) b :
  length d = 1024%nat -> (length bs <= 30)%nat -> bs !! i = Some b -> 0 <= b < 2^31 -> hdr_block (put_head bs d) (Z.of_nat i) = b.
Proof.
  intros Hl Hb Hi Hr. pose proof (lookup_lt_Some _ _ _ Hi) as Hlt. unfold hdr_block, put_head.
  rewrite (seqZ_split (Z.of_nat i) (Z.of_nat (length bs))) by lia.
  rewrite foldl_app. cbn [foldl].
  destruct (put_blocks_other bs (seqZ 0 (Z.of_nat i)) (put32 0 (Z.of_nat (length bs)) d) 0) as [Hl1 _].
  { rewrite length_put32; lia. }
  { apply Forall_forall. intros j Hj. apply elem_of_seqZ in Hj. lia. }
  { intros j Hj. apply elem_of_seqZ in Hj. lia. }
  set (d1 := foldl _ _ (seqZ 0 (Z.of_nat i))) in *.
  assert (length (put_block_at bs d1 (Z.of_nat i)) = 1024%nat) as Hl2 by (unfold put_block_at; rewrite length_put32; lia).
  destruct (put_blocks_other bs (seqZ (Z.of_nat i + 1) (Z.of_nat (length bs) - Z.of_nat i - 1)) (put_block_at bs d1 (Z.of_nat i))
              (Z.to_nat (4 + 4 * Z.of_nat i)) Hl2) as [_ E].
  { apply Forall_forall. intros j Hj. apply elem_of_seqZ in Hj. lia. }
  { intros j Hj. apply elem_of_seqZ in Hj. lia. }
  rewrite E. unfold put_block_at. rewrite get32_put32 by lia. rewrite Nat2Z.id, Hi. cbn. rewrite u32_small by lia.
  apply signed_small; lia.
Qed.
Lemma put_head_blocks bs d :
  length d = 1024%nat -> (length bs <= 30)%nat -> Forall (fun b => 0 <= b < 2^31) bs -> hdr_blocks (put_head bs d) = bs.
Proof.
  intros Hl Hb Hr. unfold hdr_blocks. rewrite put_head_n by done. apply list_eq. intros i. rewrite list_lookup_fmap.
  destruct (bs !! i) as [b|] eqn:E.
  - rewrite lookup_seqZ_nth by (by eapply lookup_lt_Some). cbn. f_equal. rewrite Z.add_0_l.
    apply put_head_block; [done..|]. exact (proj1 (Forall_lookup _ _) Hr i b E).
  - rewrite lookup_ge_None_2; [done|]. rewrite length_seqZ. apply lookup_ge_None_1 in E. lia.
Qed.

(** ** The disk writes of each loop *)

Definition apply_writes (ws : list (Z * list Z)) (D : gmap Z (list Z)) : gmap Z (list Z) :=
  foldl (fun D w => <[fst w := snd w]> D) D ws.

(** The operation wrote [ws], in this order. *)
Definition wrote (ws : list (Z * list Z)) (a a' : abs) : Prop :=
  adisk a' = apply_writes ws (adisk a) /\ atrace a' = reverse ws ++ atrace a.

Lemma wrote_cons bn d ws a1 a2 a3 :
  adisk a2 = <[bn := d]> (adisk a1) -> atrace a2 = (bn, d) :: atrace a1 -> wrote ws a2 a3 -> wrote ((bn, d) :: ws) a1 a3.
Proof.
  intros E1 E2 [H1 H2]. split; [by rewrite H1, E1|]. rewrite H2, E2, reverse_cons, <- (assoc_L (++)). done.
Qed.
Lemma wrote_app ws1 ws2 a1 a2 a3 : wrote ws1 a1 a2 -> wrote ws2 a2 a3 -> wrote (ws1 ++ ws2) a1 a3.
Proof.
  intros [D1 T1] [D2 T2]. unfold wrote, apply_writes. rewrite foldl_app, reverse_app, <- (assoc_L (++)).
  by rewrite D2, T2, D1, T1.
Qed.

Lemma apply_writes_other ws D bn : (bn ∉ ws.*1) -> disk_block (apply_writes ws D) bn = disk_block D bn.
Proof.
  revert D. induction ws as [|[b d] ws IH]; intros D Hni; [done|]. cbn in Hni. apply not_elem_of_cons in Hni as [Hb Hni].
  change (disk_block (apply_writes ws (<[b := d]> D)) bn = disk_block D bn). rewrite IH by done.
  rewrite disk_block_insert, decide_False by congruence. done.
Qed.
Lemma apply_writes_in ws D bn d i :
  NoDup ws.*1 -> ws !! i = Some (bn, d) -> disk_block (apply_writes ws D) bn = d.
Proof.
  revert D i. induction ws as [|[b x] ws IH]; intros D i Hnd Hi; [done|]. cbn in Hnd. apply NoDup_cons in Hnd as [Hb Hnd].
  change (disk_block (apply_writes ws (<[b := x]> D)) bn = d). destruct i as [|i]; cbn in Hi.
  - injection Hi as -> ->. rewrite apply_writes_other by done. rewrite disk_block_insert. by rewrite decide_True.
  - by apply (IH _ i).
Qed.

(** [(start+k+1, new b_k), (start+k+2, new b_(k+1)), ...] *)
Fixpoint log_ws (st k : Z) (new : Z -> list Z) (bs : list Z) : list (Z * list Z) :=
  match bs with
  | [] => []
  | b :: bs => (st + k + 1, new b) :: log_ws st (k + 1) new bs
  end.
(** [(b_k, block start+k+1), ...] with the log blocks of disk [D]. *)
Fixpoint home_ws (st k : Z) (D : gmap Z (list Z)) (bs : list Z) : list (Z * list Z) :=
  match bs with
  | [] => []
  | b :: bs => (b, disk_block D (st + k + 1)) :: home_ws st (k + 1) D bs
  end.

Lemma log_ws_lookup st k new bs i b :
  bs !! i = Some b -> log_ws st k new bs !! i = Some (st + k + 1 + Z.of_nat i, new b).
Proof.
  revert k i. induction bs as [|c bs IH]; intros k i Hi; [done|]. destruct i as [|i]; cbn in Hi |- *.
  - injection Hi as ->. do 2 f_equal. lia.
  - rewrite (IH _ _ Hi). do 2 f_equal. lia.
Qed.
Lemma log_ws_fst st k new bs : (log_ws st k new bs).*1 = (fun i => st + k + 1 + i) <$> seqZ 0 (Z.of_nat (length bs)).
Proof.
  revert k. induction bs as [|b bs IH]; intros k; [done|]. cbn [log_ws fmap list_fmap length]. rewrite IH.
  rewrite (seqZ_cons 0 (Z.of_nat (S (length bs)))) by lia. cbn [fmap list_fmap fst]. f_equal; [lia|].
  change (Z.succ 0) with (1 + 0). replace (Z.pred (Z.of_nat (S (length bs)))) with (Z.of_nat (length bs)) by lia.
  rewrite <- (fmap_add_seqZ 1 0), <- list_fmap_compose. apply list_fmap_ext. intros i z _. unfold compose. lia.
Qed.
Lemma home_ws_lookup st k D bs i b :
  bs !! i = Some b -> home_ws st k D bs !! i = Some (b, disk_block D (st + k + 1 + Z.of_nat i)).
Proof.
  revert k i. induction bs as [|c bs IH]; intros k i Hi; [done|]. destruct i as [|i]; cbn in Hi |- *.
  - injection Hi as ->. do 3 f_equal. lia.
  - rewrite (IH _ _ Hi). do 3 f_equal. lia.
Qed.
Lemma home_ws_fst st k D bs : (home_ws st k D bs).*1 = bs.
Proof. revert k. induction bs as [|b bs IH]; intros k; [done|]. cbn. by rewrite IH. Qed.

Lemma home_ws_ext st k D D' bs :
  (forall i, k <= i < k + Z.of_nat (length bs) -> disk_block D (st + i + 1) = disk_block D' (st + i + 1)) ->
  home_ws st k D bs = home_ws st k D' bs.
Proof.
  revert k. induction bs as [|b bs IH]; intros k He; [done|]. cbn. rewrite He by (cbn; lia). f_equal.
  apply IH. intros i Hi. apply He. cbn. lia.
Qed.

Section loops.
Context {T H : Type} {BO : BlockOps T H} {BC : BlockCache T H}.
Implicit Types (x : T) (l : log) (h : list lockid).

Lemma write_log_loop_run bs : forall k x a l h new,
  rep x a -> cache_free h -> ldev l = ROOTDEV -> 0 <= k -> 0 <= start l -> start l + k + Z.of_nat (length bs) < 2^31 ->
  (forall j b, bs !! j = Some b -> lh_block l !! (Z.to_nat k + j)%nat = Some b /\ 0 <= b < 2^31 /\
                                   pins a !! b = Some (Pin 1 (new b) false)) ->
  (forall i, k <= i < k + Z.of_nat (length bs) -> pins a !! (start l + i + 1) = None) -> (size (pins a) < NBUF)%nat ->
  exists x' a', write_log_loop (seqZ k (Z.of_nat (length bs))) (World h (Lst x l)) = Ok tt (World h (Lst x' l)) /\
    rep x' a' /\ pins a' = pins a /\ wrote (log_ws (start l) k new bs) a a'.
Proof.
  induction bs as [|b bs IH]; intros k x a l h new R Hh Hdev Hk Hst Hmax Hbs Hlog Hsz.
  - exists x, a. split_and!; done.
  - cbn [length] in *. rewrite (seqZ_cons k) by lia. cbn [write_log_loop].
    replace (Z.pred (Z.of_nat (S (length bs)))) with (Z.of_nat (length bs)) by lia. mstep. cbn [lg]. rewrite Hdev.
    destruct (Hbs O b eq_refl) as (Hlk & Hb & Hp). rewrite Nat.add_0_r in Hlk.
    destruct (log_copy_turn x a h l (start l + k + 1) b (Pin 1 (new b) false) (write_log_loop (seqZ (Z.succ k) (Z.of_nat (length bs)))))
      as (x1 & R1 & E1); [done|done|lia|lia|apply Hlog; lia|done|done|cbn; lia|cbn; lia|done|].
    destruct (lh_block l !! Z.to_nat k) as [b'|]; [|done]. injection Hlk as ->. rewrite E1.
    destruct (IH (Z.succ k) x1 _ l h new R1 Hh Hdev) as (x' & a' & E & R' & Hp' & Hw); try lia.
    + intros j c Hj. cbn [awrite pins]. replace (Z.to_nat (Z.succ k) + j)%nat with (Z.to_nat k + S j)%nat by lia. by apply (Hbs (S j)).
    + intros i Hi. apply Hlog. lia.
    + done.
    + exists x', a'. split_and!; [done|done|done|]. cbn [log_ws]. eapply wrote_cons; [| |exact Hw]; reflexivity.
Qed.

Lemma install_loop_run (recovering : bool) bs : forall k x a l h,
  rep x a -> cache_free h -> ldev l = ROOTDEV -> 0 <= k -> 0 <= start l -> start l + k + Z.of_nat (length bs) < 2^31 ->
  NoDup bs ->
  (forall j b, bs !! j = Some b -> lh_block l !! (Z.to_nat k + j)%nat = Some b /\ 0 <= b < 2^31 /\
     home_pin recovering (pins a !! b) /\ ~ (start l + k + 1 <= b < start l + k + 1 + Z.of_nat (length bs))) ->
  (forall i, k <= i < k + Z.of_nat (length bs) -> pins a !! (start l + i + 1) = None) ->
  (size (pins a) + 1 < NBUF \/ recovering = false /\ size (pins a) < NBUF)%nat ->
  exists x' a', install_trans_loop (seqZ k (Z.of_nat (length bs))) recovering (World h (Lst x l)) = Ok tt (World h (Lst x' l)) /\
    rep x' a' /\ (forall b, pins a' !! b = if decide (b ∈ bs) then None else pins a !! b) /\
    wrote (home_ws (start l) k (adisk a) bs) a a'.
Proof.
  induction bs as [|b bs IH]; intros k x a l h R Hh Hdev Hk Hst Hmax Hnd Hbs Hlog Hsz.
  - exists x, a. split_and!; done.
  - cbn [length] in *. rewrite (seqZ_cons k) by lia. cbn [install_trans_loop].
    replace (Z.pred (Z.of_nat (S (length bs)))) with (Z.of_nat (length bs)) by lia. mstep. cbn [lg]. rewrite Hdev.
    destruct (Hbs O b eq_refl) as (Hlk & Hb & Hhome & Hout). rewrite Nat.add_0_r in Hlk. apply NoDup_cons in Hnd as [Hnb Hnd].
    destruct (install_turn x a h l recovering (start l + k + 1) b (install_trans_loop (seqZ (Z.succ k) (Z.of_nat (length bs))) recovering))
      as (x1 & R1 & E1); [done|done|lia|lia|lia|apply Hlog; lia|done|done|].
    destruct (lh_block l !! Z.to_nat k) as [b'|]; [|done]. injection Hlk as ->. rewrite E1.
    set (a1 := awrite b (disk_block (adisk a) (start l + k + 1)) (del_pin b a)) in *.
    assert (size (pins a1) <= size (pins a))%nat as Hsz1 by (cbn; rewrite map_size_delete; destruct (pins a !! b); cbn; lia).
    destruct (IH (Z.succ k) x1 a1 l h R1 Hh Hdev) as (x' & a' & E & R' & Hp' & Hw); [lia|lia|lia|done| | |destruct Hsz as [?|[? ?]]; [left|right; split; [done|]]; lia|].
    + intros j c Hj. replace (Z.to_nat (Z.succ k) + j)%nat with (Z.to_nat k + S j)%nat by lia.
      destruct (Hbs (S j) c Hj) as (? & ? & Hc & ?). split; [done|]. split; [done|]. split; [|lia].
      cbn. rewrite lookup_delete_ne; [done|]. intros <-. apply Hnb. by eapply list_elem_of_lookup_2.
    + intros i Hi. cbn. rewrite lookup_delete. case_decide; [done|]. apply Hlog. lia.
    + exists x', a'. split_and!; [done|done| |].
      * intros c. rewrite Hp'. cbn. rewrite lookup_delete. repeat case_decide; set_solver.
      * cbn [home_ws]. apply (wrote_cons _ _ _ _ a1); [reflexivity|reflexivity|].
        erewrite home_ws_ext; [exact Hw|]. intros i Hi. cbn. rewrite disk_block_insert, decide_False by lia. done.
Qed.
End loops.

Section heads.
Context {T H : Type} {BO : BlockOps T H} {BC : BlockCache T H}.
Implicit Types (x : T) (l : log) (h : list lockid).

Lemma write_head_loop_run bs is_ L l h : forall x a d,
  (forall i, i ∈ is_ -> 0 <= i /\ is_Some (bs !! Z.to_nat i) /\ lh_block l !! Z.to_nat i = bs !! Z.to_nat i) ->
  rep x a -> pins a !! L = Some (Pin 1 d true) ->
  exists x', write_head_loop (handle x L) is_ (World h (Lst x l)) = Ok tt (World h (Lst x' l)) /\
    rep x' (set_pin L (Pin 1 (foldl (put_block_at bs) d is_) true) a) /\ handle x' L = handle x L.
Proof.
  induction is_ as [|i is_ IH]; intros x a d His R Hp; cbn [write_head_loop foldl].
  - exists x. split; [done|]. split; [|done]. erewrite abs_eq; [exact R|..]; cbn; try done. by rewrite insert_id.
  - mstep. cbn [lg]. destruct (His i) as (Hi & [b Hb] & Hlk); [apply elem_of_cons; auto|]. rewrite Hb in Hlk. rewrite Hlk.
    unfold lset. rewrite modify_run. cbn [lb lg].
    destruct (rep_setdata x a L _ (put32 (Z.to_nat (4 + 4 * i)) b) R Hp eq_refl) as [R1 F1]. set (x1 := b_setdata _ _ x) in *.
    cbn [pcnt pdat] in R1. rewrite <- (F1 L).
    destruct (IH x1 _ _ (fun j Hj => His j (proj2 (elem_of_cons _ _ _) (or_intror Hj))) R1 (lookup_insert_eq _ _ _)) as (x' & E & R' & F').
    exists x'. split; [exact E|]. split; [|done]. unfold put_block_at at 2. rewrite Hb. cbn [default from_option id].
    erewrite abs_eq; [exact R'|..]; cbn; try done. by rewrite insert_insert_eq.
Qed.

Lemma write_head_run x a l h bs :
  rep x a -> cache_free h -> ldev l = ROOTDEV -> 0 <= start l < 2^31 -> pins a !! start l = None -> (size (pins a) < NBUF)%nat ->
  lh_n l = Z.of_nat (length bs) -> (forall i, (i < length bs)%nat -> lh_block l !! i = bs !! i) ->
  exists x', write_head (World h (Lst x l)) = Ok tt (World h (Lst x' l)) /\
    rep x' (awrite (start l) (put_head bs (disk_block (adisk a) (start l))) a).
Proof.
  intros R Hh Hdev Hst Hnp Hsz Hn Hbs. unfold write_head. mstep. cbn [lg]. rewrite Hdev, Hn.
  destruct (head_turn x a h l (start l) (mret tt)
    (fun b => lset b (put32 0 (Z.of_nat (length bs)));; write_head_loop b (seqZ 0 (Z.of_nat (length bs)))) (put_head bs) R Hh)
    as (x' & R' & E); [lia|done|done| |].
  - intros x1 a1 d R1 Hp1. unfold lset. rewrite modify_run. cbn [lb lg].
    destruct (rep_setdata x1 a1 (start l) _ (put32 0 (Z.of_nat (length bs))) R1 Hp1 eq_refl) as [R2 F2]. set (x2 := b_setdata _ _ x1) in *.
    rewrite <- (F2 (start l)). cbn [pcnt pdat] in R2.
    edestruct (write_head_loop_run bs (seqZ 0 (Z.of_nat (length bs))) (start l) l h x2) as (x3 & E3 & R3 & F3);
      [|exact R2|apply lookup_insert_eq|].
    + intros i Hi. apply elem_of_seqZ in Hi. split; [lia|]. split; [apply lookup_lt_is_Some; lia|apply Hbs; lia].
    + exists x3. split; [exact E3|]. split; [|done]. erewrite abs_eq; [exact R3|..]; cbn; try done. by rewrite insert_insert_eq.
  - exists x'. split; [|done]. etrans; [|exact E]. apply bind_ext. intros b w. rewrite bind_assoc. apply bind_ext. intros [] w1.
    apply bind_ext. intros [] w2. apply bind_ext. intros [] w3. symmetry. apply bind_ret_r.
Qed.

Lemma read_head_loop_run d is_ h : forall x l,
  Forall (fun i => 0 <= i < 30) is_ ->
  read_head_loop d is_ (World h (Lst x l)) =
  Ok tt (World h (Lst x (set_lh (lh_n l) (foldl (fun bl i => <[Z.to_nat i := hdr_block d i]> bl) (lh_block l) is_) l))).
Proof.
  induction is_ as [|i is_ IH]; intros x l Hf; cbn [read_head_loop foldl].
  - by destruct l.
  - apply Forall_cons in Hf as [Hi Hf]. unfold LOGSIZE, MAXOPBLOCKS. destruct (Z.ltb_spec i (10 * 3)); [|lia]. cbn [negb].
    mstep. unfold upd_log. cbn [lb lg]. rewrite IH by done. done.
Qed.

Lemma foldl_insert_lookup (g : Z -> Z) is_ (bl : list Z) (i : nat) :
  NoDup is_ -> Forall (fun j => 0 <= j < Z.of_nat (length bl)) is_ ->
  length (foldl (fun bl j => <[Z.to_nat j := g j]> bl) bl is_) = length bl /\
  foldl (fun bl j => <[Z.to_nat j := g j]> bl) bl is_ !! i = if decide (Z.of_nat i ∈ is_) then Some (g (Z.of_nat i)) else bl !! i.
Proof.
  revert bl. induction is_ as [|j is_ IH]; intros bl Hnd Hf; cbn [foldl]; [done|].
  apply NoDup_cons in Hnd as [Hj Hnd]. apply Forall_cons in Hf as [Hjr Hf].
  destruct (IH (<[Z.to_nat j := g j]> bl)) as [H1 H2]; [done|by rewrite length_insert|].
  rewrite H1, H2, length_insert. split; [done|]. destruct (decide (Z.of_nat i = j)) as [<-|Hne].
  - rewrite decide_False by done. rewrite decide_True by set_solver. rewrite Nat2Z.id. apply list_lookup_insert_eq. lia.
  - rewrite list_lookup_insert_ne by lia. repeat case_decide; set_solver.
Qed.

Lemma read_head_run x a l h :
  rep x a -> cache_free h -> ldev l = ROOTDEV -> 0 <= start l < 2^31 -> pins a !! start l = None -> (size (pins a) < NBUF)%nat ->
  let d := disk_block (adisk a) (start l) in
  0 <= hdr_n d <= 30 -> length (lh_block l) = 30%nat ->
  exists x' bl, read_head (World h (Lst x l)) = Ok tt (World h (Lst x' (set_lh (hdr_n d) bl l))) /\ rep x' a /\
    length bl = 30%nat /\ forall i, (i < Z.to_nat (hdr_n d))%nat -> bl !! i = hdr_blocks d !! i.
Proof.
  intros R Hh Hdev Hst Hnp Hsz d Hn Hlen. unfold read_head. mstep. cbn [lg]. rewrite Hdev.
  destruct (lread_run x a (start l) h l R Hh ltac:(lia)) as (x1 & E1 & R1 & _); [by rewrite Hnp|]. rewrite Hnp in R1. fold d in R1.
  rewrite (bind_run _ _ _ _ _ E1). unfold ldata. mstep. cbn [lb].
  destruct (rep_data x1 _ (start l) _ R1 (lookup_insert_eq _ _ _)) as [Hd _]. rewrite Hd. cbn [pdat]. fold (hdr_n d).
  mstep. unfold upd_log. cbn [lb lg].
  assert (Forall (fun i => 0 <= i < 30) (seqZ 0 (hdr_n d))) as Hf by (apply Forall_forall; intros i Hi; apply elem_of_seqZ in Hi; lia).
  rewrite (bind_run _ _ _ _ _ (read_head_loop_run d _ h x1 (set_lh (hdr_n d) (lh_block l) l) Hf)).
  destruct (rep_relse x1 _ (start l) _ h R1 Hh (lookup_insert_eq _ _ _) eq_refl) as (x2 & E2 & R2 & _); [done|].
  cbn [lh_n lh_block set_lh]. eexists x2, _. split; [exact (cache_run _ _ _ _ _ _ E2)|].
  split.
  { unfold unref in R2. cbn in R2. erewrite abs_eq; [exact R2|..]; cbn; try done.
    apply map_eq. intros j. rewrite lookup_delete, lookup_insert. repeat case_decide; subst; congruence. }
  pose proof (fun i => foldl_insert_lookup (hdr_block d) (seqZ 0 (hdr_n d)) (lh_block l) i (NoDup_seqZ _ _)) as Hfl.
  rewrite Hlen in Hfl. specialize (fun i => Hfl i Hf). split; [apply (Hfl O)|]. intros i Hi. destruct (Hfl i) as [_ ->].
  rewrite decide_True by (apply elem_of_seqZ; lia). unfold hdr_blocks. rewrite list_lookup_fmap.
  rewrite lookup_seqZ_lt by lia. done.
Qed.
End heads.

(** ** The file system a disk stands for *)

Definition in_log (st b : Z) : Prop := st <= b <= st + LOGSIZE.

Definition logical (st : Z) (D : gmap Z (list Z)) (bn : Z) : list Z :=
  match list_find (fun b => b = bn) (hdr_blocks (disk_block D st)) with
  | Some (i, _) => disk_block D (st + 1 + Z.of_nat i)
  | None => disk_block D bn
  end.

(** A header that names [bs]: what [write_head] leaves. *)
Record head_ok (st : Z) (D : gmap Z (list Z)) (bs : list Z) : Prop := {
  hd_size : length (disk_block D st) = 1024%nat;
  hd_n : hdr_n (disk_block D st) = Z.of_nat (length bs);
  hd_len : (length bs <= 30)%nat;
  hd_bs : hdr_blocks (disk_block D st) = bs;
  hd_nodup : NoDup bs;
  hd_home : Forall (fun b => 0 <= b < 2^31 /\ ~ in_log st b) bs
}.

Lemma logical_head st D bs bn :
  hdr_blocks (disk_block D st) = bs -> NoDup bs ->
  (forall i, bs !! i = Some bn -> logical st D bn = disk_block D (st + 1 + Z.of_nat i)) /\
  ((bn ∉ bs) -> logical st D bn = disk_block D bn).
Proof.
  intros Hbs Hnd. unfold logical. rewrite Hbs. split.
  - intros i Hi. destruct (list_find (fun b => b = bn) bs) as [[j b]|] eqn:E.
    + apply list_find_Some in E as (Hj & -> & _). by rewrite (NoDup_lookup bs i j bn Hnd Hi Hj).
    + apply list_find_None in E. rewrite Forall_forall in E. exfalso. apply (E bn); [by eapply list_elem_of_lookup_2|done].
  - intros Hni. destruct (list_find (fun b => b = bn) bs) as [[j b]|] eqn:E; [|done].
    apply list_find_Some in E as (Hj & -> & _). exfalso. apply Hni. by eapply list_elem_of_lookup_2.
Qed.

Lemma hdr_blocks_empty d : hdr_n d = 0 -> hdr_blocks d = [].
Proof. intros E. unfold hdr_blocks. by rewrite E. Qed.

Lemma put_head_nil d : length d = 1024%nat -> hdr_blocks (put_head [] d) = [] /\ hdr_n (put_head [] d) = 0.
Proof. intros Hl. split; [by apply put_head_blocks; [|simpl; lia|]|]. by apply (put_head_n []); [|simpl; lia]. Qed.

(** A transaction ready to commit: the logged blocks [bs], no two equal and
    none in the log area, are exactly the blocks in use, each pinned once and
    holding its new contents [N]. *)
Record txn (a : abs) (l : log) (bs : list Z) (N : gmap Z (list Z)) : Prop := {
  tx_dev : ldev l = ROOTDEV;
  tx_start : 0 <= start l /\ start l + LOGSIZE < 2^31;
  tx_n : lh_n l = Z.of_nat (length bs);
  tx_len : (length bs < NBUF)%nat;
  tx_bs : forall i, (i < length bs)%nat -> lh_block l !! i = bs !! i;
  tx_nodup : NoDup bs;
  tx_home : Forall (fun b => 0 <= b < 2^31 /\ ~ in_log (start l) b) bs;
  tx_pins : pins a = (fun d => Pin 1 d false) <$> N;
  tx_dom : forall b, b ∈ bs <-> is_Some (N !! b)
}.

Definition new_of (N : gmap Z (list Z)) (b : Z) : list Z := default [] (N !! b).

(** The disk writes of [commit], in order. *)
Definition commit_ws (st : Z) (D : gmap Z (list Z)) (bs : list Z) (N : gmap Z (list Z)) : list (Z * list Z) :=
  let h1 := put_head bs (disk_block D st) in
  log_ws st 0 (new_of N) bs ++ [(st, h1)] ++ ((fun b => (b, new_of N b)) <$> bs) ++ [(st, put_head [] h1)].

Section commit.
Context {T H : Type} {BO : BlockOps T H} {BC : BlockCache T H}.
Implicit Types (x : T) (l : log) (h : list lockid).

Lemma txn_size a l bs N : txn a l bs N -> size (pins a) = length bs.
Proof.
  intros X. rewrite (tx_pins _ _ _ _ X). rewrite map_size_fmap. rewrite <- size_dom.
  assert (dom N = list_to_set bs) as -> by (apply set_eq; intros b; rewrite elem_of_dom, elem_of_list_to_set; symmetry; apply X).
  apply size_list_to_set, X.
Qed.

Lemma txn_log_unused a l bs N b : txn a l bs N -> in_log (start l) b -> pins a !! b = None.
Proof.
  intros X Hb. rewrite (tx_pins _ _ _ _ X), lookup_fmap. destruct (N !! b) as [d|] eqn:E; [|done].
  assert (b ∈ bs) as Hin by (apply X; eauto). pose proof (tx_home _ _ _ _ X) as Hf. rewrite Forall_forall in Hf.
  by destruct (Hf b Hin).
Qed.

Lemma txn_pin a l bs N i b :
  txn a l bs N -> bs !! i = Some b -> pins a !! b = Some (Pin 1 (new_of N b) false) /\ 0 <= b < 2^31 /\ ~ in_log (start l) b.
Proof.
  intros X Hi. assert (b ∈ bs) as Hin by (by eapply list_elem_of_lookup_2).
  pose proof (tx_home _ _ _ _ X) as Hf. rewrite Forall_forall in Hf. split; [|by apply Hf].
  rewrite (tx_pins _ _ _ _ X), lookup_fmap. unfold new_of. apply (tx_dom _ _ _ _ X) in Hin as [d ->]. done.
Qed.

(** What [install_trans] copies home is what [write_log] put in the log. *)
Lemma home_ws_logged (st : Z) (hd : list Z) (f : Z -> list Z) (d d1 : gmap Z (list Z)) bs :
  d1 = apply_writes (log_ws st 0 f bs) d ->
  home_ws st 0 (<[st := hd]> d1) bs = (fun b => (b, f b)) <$> bs.
Proof.
  intros ->. apply list_eq. intros i. rewrite list_lookup_fmap. destruct (bs !! i) as [b|] eqn:Hi.
  - rewrite (home_ws_lookup _ _ _ _ _ _ Hi). cbn [fmap option_fmap option_map]. do 2 f_equal. rewrite disk_block_insert, decide_False by lia.
    apply (apply_writes_in _ _ _ _ i); [|by rewrite (log_ws_lookup _ _ _ _ _ _ Hi)].
    rewrite log_ws_fst. apply NoDup_fmap_2_strong; [intros; lia|apply NoDup_seqZ].
  - apply lookup_ge_None_1 in Hi. cbn. apply lookup_ge_None_2. rewrite <- (length_fmap fst), home_ws_fst. done.
Qed.

Lemma commit_run x a l h bs N :
  rep x a -> cache_free h -> txn a l bs N -> bs <> [] ->
  exists x' a', commit (World h (Lst x l)) = Ok tt (World h (Lst x' (set_lh 0 (lh_block l) l))) /\ rep x' a' /\
    pins a' = ∅ /\ wrote (commit_ws (start l) (adisk a) bs N) a a'.
Proof.
  intros R Hh X Hne. pose proof (txn_size _ _ _ _ X) as Hsz. pose proof (tx_len _ _ _ _ X) as Hlen. unfold NBUF in Hlen.
  destruct (tx_start _ _ _ _ X) as [Hs0 Hs1]. unfold LOGSIZE, MAXOPBLOCKS in Hs1.
  assert (0 < length bs)%nat as Hpos by (destruct bs; [done|simpl; lia]).
  unfold commit. mstep. cbn [lg]. rewrite (tx_n _ _ _ _ X). destruct (Z.ltb_spec 0 (Z.of_nat (length bs))); [|lia]. unfold when.
  destruct (write_log_loop_run bs 0 x a l h (new_of N) R Hh (tx_dev _ _ _ _ X)) as (x1 & a1 & E1 & R1 & P1 & W1); [lia|lia|lia| | |unfold NBUF; lia|].
  { intros j b Hj. destruct (txn_pin _ _ _ _ _ _ X Hj) as (Hp & Hr & _). split; [|done].
    change (Z.to_nat 0 + j)%nat with j. rewrite (tx_bs _ _ _ _ X j); [done|]. by eapply lookup_lt_Some. }
  { intros i Hi. apply (txn_log_unused _ _ _ _ _ X). unfold in_log, LOGSIZE, MAXOPBLOCKS. lia. }
  rewrite (bind_run write_log _ _ tt (World h (Lst x1 l))).
  2:{ unfold write_log. mstep. cbn [lg]. rewrite (tx_n _ _ _ _ X). exact E1. }
  assert (forall b, ~ (start l + 1 <= b <= start l + Z.of_nat (length bs)) -> disk_block (adisk a1) b = disk_block (adisk a) b) as Hd1.
  { intros b Hb. rewrite (proj1 W1). apply apply_writes_other. rewrite log_ws_fst. intros Hin.
    apply list_elem_of_fmap in Hin as (i & -> & Hi). apply elem_of_seqZ in Hi. lia. }
  destruct (write_head_run x1 a1 l h bs R1 Hh (tx_dev _ _ _ _ X)) as (x2 & E2 & R2).
  { lia. } { rewrite P1. apply (txn_log_unused _ _ _ _ _ X). unfold in_log, LOGSIZE, MAXOPBLOCKS. lia. } { rewrite P1. unfold NBUF. lia. }
  { apply X. } { apply X. }
  rewrite (bind_run _ _ _ _ _ E2). rewrite Hd1 in R2 by lia. set (h1 := put_head bs (disk_block (adisk a) (start l))) in *.
  set (a2 := awrite (start l) h1 a1) in *.
  destruct (install_loop_run false bs 0 x2 a2 l h R2 Hh (tx_dev _ _ _ _ X)) as (x3 & a3 & E3 & R3 & P3 & W3); [lia|lia|lia|apply X| | | |].
  { intros j b Hj. destruct (txn_pin _ _ _ _ _ _ X Hj) as (Hp & Hr & Hnl). split.
    - change (Z.to_nat 0 + j)%nat with j. rewrite (tx_bs _ _ _ _ X j); [done|]. by eapply lookup_lt_Some.
    - split; [done|]. split; [exists (Pin 1 (new_of N b) false); cbn; by rewrite P1, Hp|]. unfold in_log, LOGSIZE, MAXOPBLOCKS in Hnl. lia. }
  { intros i Hi. cbn. rewrite P1. apply (txn_log_unused _ _ _ _ _ X). unfold in_log, LOGSIZE, MAXOPBLOCKS. lia. }
  { right. split; [done|]. cbn. rewrite P1. unfold NBUF. lia. }
  rewrite (bind_run (install_trans false) _ _ tt (World h (Lst x3 l))).
  2:{ unfold install_trans. mstep. cbn [lg]. rewrite (tx_n _ _ _ _ X). exact E3. }
  mstep. unfold upd_log. cbn [lb lg].
  assert (pins a3 = ∅) as Hp3.
  { apply map_eq. intros b. rewrite P3, lookup_empty. case_decide as Hb; [done|]. cbn. rewrite P1, (tx_pins _ _ _ _ X), lookup_fmap.
    destruct (N !! b) eqn:E; [|done]. exfalso. apply Hb. apply X. eauto. }
  pose proof (home_ws_logged (start l) h1 (new_of N) (adisk a) (adisk a1) bs (proj1 W1)) as Hhome.
  destruct (write_head_run x3 a3 (set_lh 0 (lh_block l) l) h [] R3 Hh (tx_dev _ _ _ _ X)) as (x4 & E4 & R4);
    [cbn; lia|rewrite Hp3; apply lookup_empty|rewrite Hp3, map_size_empty; unfold NBUF; lia|done|simpl; lia|].
  exists x4. eexists. split; [exact E4|]. split; [exact R4|]. split; [exact Hp3|]. cbn [start set_lh].
  unfold commit_ws. fold h1. eapply wrote_app; [exact W1|]. eapply (wrote_cons _ _ _ _ a2); [reflexivity|reflexivity|].
  rewrite <- Hhome. change (<[start l := h1]> (adisk a1)) with (adisk a2). eapply wrote_app; [exact W3|].
  assert (disk_block (adisk a3) (start l) = h1) as ->.
  { rewrite (proj1 W3), apply_writes_other; [cbn; by rewrite disk_block_insert, decide_True|]. rewrite home_ws_fst. intros Hin.
    pose proof (tx_home _ _ _ _ X) as Hf. rewrite Forall_forall in Hf. destruct (Hf _ Hin) as [_ Hf']. apply Hf'.
    unfold in_log, LOGSIZE, MAXOPBLOCKS. lia. }
  split; reflexivity.
Qed.
End commit.
