(* ===== verification/LogProps.v ===== *)
(** * Crash safety of the log

    Every state the disk passes through while a transaction commits, or while
    recovery runs, stands for the old or for the new file system. *)

From S2P Require Import Prelude Sleeplock Bio BioSpec Log LogSpec.

Section crash.
Implicit Types (D : gmap Z (list Z)) (bs : list Z) (N : gmap Z (list Z)).

(** Writes to home blocks and log blocks leave the header alone. *)
Lemma header_kept ws D st : (st ∉ ws.*1) -> disk_block (apply_writes ws D) st = disk_block D st.
Proof. apply apply_writes_other. Qed.

Lemma elem_take {A} (x : A) n l : x ∈ take n l -> x ∈ l.
Proof. intros Hx. rewrite <- (take_drop n l). apply elem_of_app. by left. Qed.

Lemma log_ws_blocks st new bs b : b ∈ (log_ws st 0 new bs).*1 -> st + 1 <= b <= st + Z.of_nat (length bs).
Proof. rewrite log_ws_fst. intros Hin. apply list_elem_of_fmap in Hin as (i & -> & Hi). apply elem_of_seqZ in Hi. lia. Qed.

Lemma head_ok_nil st D' : length (disk_block D' st) = 1024%nat -> hdr_n (disk_block D' st) = 0 -> head_ok st D' [].
Proof. intros Hl Hn. split; try done; [simpl; lia|by apply hdr_blocks_empty|constructor]. Qed.

Section prefix.
Context (st : Z) (D : gmap Z (list Z)) (bs : list Z) (N : gmap Z (list Z)).
Context (Hlen : (length bs < NBUF)%nat) (Hnd : NoDup bs)
        (Hhome : Forall (fun b => 0 <= b < 2^31 /\ ~ in_log st b) bs)
        (Hdom : forall b, b ∈ bs <-> is_Some (N !! b))
        (Hsize : length (disk_block D st) = 1024%nat) (Hempty : hdr_n (disk_block D st) = 0).

Let ws1 := log_ws st 0 (new_of N) bs.
Let h1 := put_head bs (disk_block D st).
Let ws3 := (fun b => (b, new_of N b)) <$> bs.
Let D1 := apply_writes ws1 D.

Lemma home_not_log b : b ∈ bs -> ~ in_log st b.
Proof using Hlen Hnd Hhome Hdom Hsize Hempty. intros Hin. rewrite Forall_forall in Hhome. by destruct (Hhome b Hin). Qed.

Lemma ws3_fst : ws3.*1 = bs.
Proof. unfold ws3. rewrite <- list_fmap_compose. apply list_fmap_id. Qed.

(** Before the header is written. *)
Lemma logical_old k bn : ~ in_log st bn -> logical st (apply_writes (take k ws1) D) bn = disk_block D bn.
Proof using Hlen Hnd Hhome Hdom Hsize Hempty.
  intros Hbn. assert (forall b, ~ (st + 1 <= b <= st + Z.of_nat (length bs)) -> disk_block (apply_writes (take k ws1) D) b = disk_block D b) as Hk.
  { intros b Hb. apply apply_writes_other. rewrite fmap_take. intros Hin. apply elem_take in Hin. apply log_ws_blocks in Hin. lia. }
  destruct (logical_head st (apply_writes (take k ws1) D) [] bn) as [_ ->].
  - rewrite Hk by lia. by apply hdr_blocks_empty.
  - constructor.
  - apply Hk. unfold in_log, LOGSIZE, MAXOPBLOCKS, NBUF in *. lia.
  - apply not_elem_of_nil.
Qed.

Lemma log_block_new i b : bs !! i = Some b -> disk_block D1 (st + 1 + Z.of_nat i) = new_of N b.
Proof using Hlen Hnd Hhome Hdom Hsize Hempty.
  intros Hi. unfold D1, ws1. apply (apply_writes_in _ _ _ _ i).
  - rewrite log_ws_fst. apply NoDup_fmap_2_strong; [intros; lia|apply NoDup_seqZ].
  - rewrite (log_ws_lookup _ _ _ _ _ _ Hi). do 3 f_equal. lia.
Qed.

(** After the header is written, through the installation. *)
Lemma logical_new k bn :
  ~ in_log st bn ->
  logical st (apply_writes (take k ws3) (<[st := h1]> D1)) bn = default (disk_block D bn) (N !! bn).
Proof using Hlen Hnd Hhome Hdom Hsize Hempty.
  intros Hbn. set (D3 := apply_writes (take k ws3) (<[st := h1]> D1)).
  assert (forall b, in_log st b -> disk_block D3 b = disk_block (<[st := h1]> D1) b) as Hlog.
  { intros b Hb. apply apply_writes_other. rewrite fmap_take, ws3_fst. intros Hin. apply elem_take in Hin. by apply home_not_log in Hin. }
  assert (hdr_blocks (disk_block D3 st) = bs) as Hh.
  { rewrite Hlog by (unfold in_log, LOGSIZE, MAXOPBLOCKS; lia). rewrite disk_block_insert, decide_True by done.
    apply put_head_blocks; [done|unfold NBUF in Hlen; lia|]. eapply Forall_impl; [exact Hhome|]. cbn. tauto. }
  destruct (logical_head st D3 bs bn Hh Hnd) as [Hin Hout]. destruct (decide (bn ∈ bs)) as [Hb|Hb].
  - apply list_elem_of_lookup_1 in Hb as [i Hi]. rewrite (Hin i Hi). rewrite Hlog.
    2:{ apply lookup_lt_Some in Hi. unfold in_log, LOGSIZE, MAXOPBLOCKS, NBUF in *. lia. }
    rewrite disk_block_insert, decide_False by lia. rewrite (log_block_new i bn Hi). unfold new_of.
    assert (is_Some (N !! bn)) as [d ->] by (apply Hdom; by eapply list_elem_of_lookup_2). done.
  - rewrite Hout by done. unfold D3. rewrite apply_writes_other.
    2:{ rewrite fmap_take, ws3_fst. intros Hin'. apply elem_take in Hin'. done. }
    rewrite disk_block_insert, decide_False by (intros ->; apply Hbn; unfold in_log, LOGSIZE, MAXOPBLOCKS; lia).
    unfold D1. rewrite apply_writes_other.
    2:{ intros Hin'. apply log_ws_blocks in Hin'. unfold in_log, LOGSIZE, MAXOPBLOCKS, NBUF in *. lia. }
    destruct (N !! bn) eqn:E; [|done]. exfalso. apply Hb, Hdom. eauto.
Qed.

(** After the header is cleared. *)
Lemma logical_done bn :
  ~ in_log st bn ->
  logical st (<[st := put_head [] h1]> (apply_writes ws3 (<[st := h1]> D1))) bn = default (disk_block D bn) (N !! bn).
Proof using Hlen Hnd Hhome Hdom Hsize Hempty.
  intros Hbn. assert (length h1 = 1024%nat) as Hl1 by (apply put_head_length; [done|unfold NBUF in Hlen; lia]).
  destruct (logical_head st (<[st := put_head [] h1]> (apply_writes ws3 (<[st := h1]> D1))) [] bn) as [_ ->].
  - rewrite disk_block_insert, decide_True by done. by apply put_head_nil.
  - constructor.
  - assert (st <> bn) as Hne by (intros ->; apply Hbn; unfold in_log, LOGSIZE, MAXOPBLOCKS; lia).
    rewrite disk_block_insert, decide_False by done. destruct (decide (bn ∈ bs)) as [Hb|Hb].
    + apply list_elem_of_lookup_1 in Hb as [i Hi]. erewrite (apply_writes_in _ _ _ (new_of N bn) i).
      * unfold new_of. assert (is_Some (N !! bn)) as [d ->] by (apply Hdom; by eapply list_elem_of_lookup_2). done.
      * by rewrite ws3_fst.
      * unfold ws3. by rewrite list_lookup_fmap, Hi.
    + rewrite apply_writes_other by (by rewrite ws3_fst). rewrite disk_block_insert, decide_False by done.
      unfold D1. rewrite apply_writes_other.
      2:{ intros Hin'. apply log_ws_blocks in Hin'. unfold in_log, LOGSIZE, MAXOPBLOCKS, NBUF in *. lia. }
      destruct (N !! bn) eqn:E; [|done]. exfalso. apply Hb, Hdom. eauto.
  - apply not_elem_of_nil.
Qed.

Lemma length_log_ws k new l : length (log_ws st k new l) = length l.
Proof. revert k. induction l as [|b l IH]; intros k; [done|]. cbn. by rewrite IH. Qed.

Lemma commit_prefix k bn :
  ~ in_log st bn ->
  logical st (apply_writes (take k (commit_ws st D bs N)) D) bn
  = if decide (k <= length bs)%nat then disk_block D bn else default (disk_block D bn) (N !! bn).
Proof using Hlen Hnd Hhome Hdom Hsize Hempty.
  intros Hbn. unfold commit_ws. fold h1 ws1 ws3.
  assert (length ws1 = length bs) as Hl1 by apply length_log_ws.
  assert (length ws3 = length bs) as Hl3 by apply length_fmap.
  case_decide as Hk.
  - rewrite take_app_le by lia. by apply logical_old.
  - rewrite take_app_ge by lia. unfold apply_writes. rewrite foldl_app. fold (apply_writes ws1 D). fold D1.
    replace (k - length ws1)%nat with (S (k - length ws1 - 1)) by lia. cbn [app take foldl fst snd].
    destruct (decide (k - length ws1 - 1 <= length ws3)%nat).
    + rewrite take_app_le by lia. by apply (logical_new (k - length ws1 - 1)).
    + rewrite take_app_ge by lia. rewrite foldl_app. fold (apply_writes ws3 (<[st := h1]> D1)).
      replace (k - length ws1 - 1 - length ws3)%nat with (S (k - length ws1 - 1 - length ws3 - 1)) by lia.
      cbn [take foldl fst snd]. rewrite take_nil. cbn [foldl]. by apply logical_done.
Qed.

Lemma commit_prefix_head k : exists bs', head_ok st (apply_writes (take k (commit_ws st D bs N)) D) bs'.
Proof using Hlen Hnd Hhome Hdom Hsize Hempty.
  unfold commit_ws. fold h1 ws1 ws3. assert (length ws1 = length bs) as Hl1 by apply length_log_ws.
  assert (length ws3 = length bs) as Hl3 by apply length_fmap.
  assert (length h1 = 1024%nat) as Hlh by (apply put_head_length; [done|unfold NBUF in Hlen; lia]).
  destruct (decide (k <= length bs)%nat) as [Hk|Hk].
  - exists []. rewrite take_app_le by lia. assert (disk_block (apply_writes (take k ws1) D) st = disk_block D st) as E.
    { apply apply_writes_other. rewrite fmap_take. intros Hin. apply elem_take in Hin. apply log_ws_blocks in Hin. lia. }
    apply head_ok_nil; by rewrite E.
  - rewrite take_app_ge by lia. unfold apply_writes. rewrite foldl_app. fold (apply_writes ws1 D). fold D1.
    replace (k - length ws1)%nat with (S (k - length ws1 - 1)) by lia. cbn [app take foldl fst snd].
    destruct (decide (k - length ws1 - 1 <= length ws3)%nat).
    + rewrite take_app_le by lia. exists bs. fold (apply_writes (take (k - length ws1 - 1) ws3) (<[st := h1]> D1)).
      assert (disk_block (apply_writes (take (k - length ws1 - 1) ws3) (<[st := h1]> D1)) st = h1) as E.
      { rewrite apply_writes_other; [by rewrite disk_block_insert, decide_True|]. rewrite fmap_take, ws3_fst. intros Hin.
        apply elem_take, home_not_log in Hin. apply Hin. unfold in_log, LOGSIZE, MAXOPBLOCKS. lia. }
      split; rewrite ?E; try done; [apply put_head_n; [done|unfold NBUF in Hlen; lia]|unfold NBUF in Hlen; lia|].
      apply put_head_blocks; [done|unfold NBUF in Hlen; lia|]. eapply Forall_impl; [exact Hhome|]. cbn. tauto.
    + exists []. rewrite take_app_ge by lia. rewrite foldl_app. fold (apply_writes ws3 (<[st := h1]> D1)).
      replace (k - length ws1 - 1 - length ws3)%nat with (S (k - length ws1 - 1 - length ws3 - 1)) by lia.
      cbn [take foldl fst snd]. rewrite take_nil. cbn [foldl].
      apply head_ok_nil; rewrite disk_block_insert, decide_True by done; [apply put_head_length; [done|simpl; lia]|by apply put_head_nil].
Qed.
End prefix.
End crash.

(** ** Recovery *)

(** The disk writes of [recover_from_log], in order. *)
Definition recover_ws (st : Z) (D : gmap Z (list Z)) (bs : list Z) : list (Z * list Z) :=
  home_ws st 0 D bs ++ [(st, put_head [] (disk_block D st))].

Section recovery.
Context {T H : Type} {BO : BlockOps T H} {BC : BlockCache T H}.
Implicit Types (x : T) (l : log) (h : list lockid).

Lemma recover_run x a l h bs :
  rep x a -> cache_free h -> pins a = ∅ -> ldev l = ROOTDEV -> 0 <= start l -> start l + LOGSIZE < 2^31 ->
  length (lh_block l) = 30%nat -> head_ok (start l) (adisk a) bs ->
  exists x' a' l', recover_from_log (World h (Lst x l)) = Ok tt (World h (Lst x' l')) /\ rep x' a' /\
    pins a' = ∅ /\ lh_n l' = 0 /\ start l' = start l /\ wrote (recover_ws (start l) (adisk a) bs) a a'.
Proof.
  intros R Hh Hp Hdev Hs0 Hs1 Hll Hd. unfold LOGSIZE, MAXOPBLOCKS in Hs1. pose proof (hd_len _ _ _ Hd) as Hlen.
  assert (forall b, pins a !! b = None) as Hpn by (intros b; rewrite Hp; apply lookup_empty).
  assert (size (pins a) = 0%nat) as Hsz by (rewrite Hp; apply map_size_empty).
  unfold recover_from_log.
  destruct (read_head_run x a l h R Hh Hdev) as (x1 & bl & E1 & R1 & Hbl & Hbs);
    [lia|done|unfold NBUF; lia|rewrite (hd_n _ _ _ Hd); lia|done|].
  rewrite (hd_n _ _ _ Hd), (hd_bs _ _ _ Hd) in *. rewrite (bind_run _ _ _ _ _ E1). set (l1 := set_lh _ bl l) in *.
  assert (forall b, b ∈ bs -> 0 <= b < 2^31 /\ ~ in_log (start l) b) as Hhome by (apply Forall_forall, Hd).
  destruct (install_loop_run true bs 0 x1 a l1 h R1 Hh Hdev) as (x3 & a3 & E3 & R3 & P3 & W3); cbn [start set_lh l1];
    [lia|lia|lia|apply Hd| |intros; apply Hpn|left; unfold NBUF; lia|].
  { intros j b Hj. pose proof (list_elem_of_lookup_2 _ _ _ Hj) as Hin. destruct (Hhome b Hin) as [Hr Hnl]. split; [|split; [done|split]].
    - cbn [lh_block set_lh]. change (Z.to_nat 0 + j)%nat with j. rewrite Hbs; [done|]. apply lookup_lt_Some in Hj. lia.
    - apply Hpn.
    - unfold in_log, LOGSIZE, MAXOPBLOCKS in Hnl. lia. }
  rewrite (bind_run (install_trans true) _ _ tt (World h (Lst x3 l1))).
  2:{ unfold install_trans. mstep. exact E3. }
  mstep. unfold upd_log. cbn [lb lg].
  assert (pins a3 = ∅) as Hp3 by (apply map_eq; intros b; rewrite P3, Hpn, lookup_empty; by case_decide).
  destruct (write_head_run x3 a3 (set_lh 0 (lh_block l1) l1) h [] R3 Hh Hdev) as (x4 & E4 & R4);
    [cbn; lia|rewrite Hp3; apply lookup_empty|rewrite Hp3, map_size_empty; unfold NBUF; lia|done|simpl; lia|].
  exists x4. eexists. eexists. split; [exact E4|]. split; [exact R4|]. split; [exact Hp3|]. split; [done|]. split; [done|].
  cbn [start set_lh l1]. unfold recover_ws. eapply wrote_app; [exact W3|].
  assert (disk_block (adisk a3) (start l) = disk_block (adisk a) (start l)) as ->.
  { rewrite (proj1 W3), apply_writes_other; [done|]. rewrite home_ws_fst. intros Hin.
    destruct (Hhome _ Hin) as [_ Hf']. apply Hf'. unfold in_log, LOGSIZE, MAXOPBLOCKS. lia. }
  split; reflexivity.
Qed.
End recovery.

Section recover_prefix.
Context (st : Z) (D : gmap Z (list Z)) (bs : list Z) (Hd : head_ok st D bs).

Lemma home_writes_log k b : in_log st b -> disk_block (apply_writes (take k (home_ws st 0 D bs)) D) b = disk_block D b.
Proof using Hd.
  intros Hb. apply apply_writes_other. rewrite fmap_take, home_ws_fst. intros Hin. apply elem_take in Hin.
  pose proof (hd_home _ _ _ Hd) as Hf. rewrite Forall_forall in Hf. by destruct (Hf _ Hin).
Qed.

(** The disk after all home writes is the logical one. *)
Lemma home_writes_done bn :
  ~ in_log st bn -> disk_block (apply_writes (home_ws st 0 D bs) D) bn = logical st D bn.
Proof using Hd.
  intros Hbn. destruct (logical_head st D bs bn (hd_bs _ _ _ Hd) (hd_nodup _ _ _ Hd)) as [Hin Hout].
  destruct (decide (bn ∈ bs)) as [Hb|Hb].
  - apply list_elem_of_lookup_1 in Hb as [i Hi]. rewrite (Hin i Hi).
    apply (apply_writes_in _ _ _ _ i); [rewrite home_ws_fst; apply Hd|]. rewrite (home_ws_lookup _ _ _ _ _ _ Hi). do 4 f_equal. lia.
  - rewrite Hout by done. apply apply_writes_other. by rewrite home_ws_fst.
Qed.

Lemma recover_prefix k bn :
  ~ in_log st bn -> logical st (apply_writes (take k (recover_ws st D bs)) D) bn = logical st D bn.
Proof using Hd.
  intros Hbn. pose proof (hd_len _ _ _ Hd) as Hlen. assert (st <> bn) as Hne by (intros ->; apply Hbn; unfold in_log, LOGSIZE, MAXOPBLOCKS; lia).
  assert (length (home_ws st 0 D bs) = length bs) as Hl by (rewrite <- (length_fmap fst), home_ws_fst; done).
  unfold recover_ws. destruct (decide (k <= length bs)%nat) as [Hk|Hk].
  - rewrite take_app_le by lia. set (Dk := apply_writes _ D).
    assert (hdr_blocks (disk_block Dk st) = bs) as Hh.
    { unfold Dk. rewrite home_writes_log by (unfold in_log, LOGSIZE, MAXOPBLOCKS; lia). apply Hd. }
    destruct (logical_head st Dk bs bn Hh (hd_nodup _ _ _ Hd)) as [Hin Hout].
    destruct (logical_head st D bs bn (hd_bs _ _ _ Hd) (hd_nodup _ _ _ Hd)) as [Hin0 Hout0].
    destruct (decide (bn ∈ bs)) as [Hb|Hb].
    + apply list_elem_of_lookup_1 in Hb as [i Hi]. rewrite (Hin i Hi), (Hin0 i Hi). apply home_writes_log.
      apply lookup_lt_Some in Hi. unfold in_log, LOGSIZE, MAXOPBLOCKS. lia.
    + rewrite Hout, Hout0 by done. apply apply_writes_other. rewrite fmap_take, home_ws_fst. intros Hin'. by apply elem_take in Hin'.
  - rewrite take_app_ge by lia. unfold apply_writes. rewrite foldl_app. fold (apply_writes (home_ws st 0 D bs) D).
    replace (k - length (home_ws st 0 D bs))%nat with (S (k - length bs - 1)) by lia. cbn [take foldl fst snd].
    rewrite take_nil. cbn [foldl]. edestruct (logical_head st) as [_ ->]; [| |rewrite disk_block_insert, decide_False by done; by apply home_writes_done|].
    + rewrite disk_block_insert, decide_True by done. apply put_head_nil. apply Hd.
    + constructor.
    + apply not_elem_of_nil.
Qed.

Lemma recover_done bn :
  ~ in_log st bn -> let D' := apply_writes (recover_ws st D bs) D in
  disk_block D' bn = logical st D bn /\ hdr_n (disk_block D' st) = 0 /\ length (disk_block D' st) = 1024%nat.
Proof using Hd.
  intros Hbn D'. assert (st <> bn) as Hne by (intros ->; apply Hbn; unfold in_log, LOGSIZE, MAXOPBLOCKS; lia).
  subst D'. unfold recover_ws, apply_writes. rewrite foldl_app. fold (apply_writes (home_ws st 0 D bs) D). cbn [foldl fst snd].
  rewrite !disk_block_insert, decide_False, decide_True by done. split_and!.
  - by apply home_writes_done.
  - apply put_head_nil. apply Hd.
  - apply put_head_length; [apply Hd|simpl; lia].
Qed.
End recover_prefix.

(** The disk that recovery leaves after a crash in [commit]. *)
Section crashed.
Context (st : Z) (D : gmap Z (list Z)) (bs : list Z) (N : gmap Z (list Z)).
Context (Hlen : (length bs < NBUF)%nat) (Hnd : NoDup bs)
        (Hhome : Forall (fun b => 0 <= b < 2^31 /\ ~ in_log st b) bs)
        (Hdom : forall b, b ∈ bs <-> is_Some (N !! b))
        (Hsize : length (disk_block D st) = 1024%nat) (Hempty : hdr_n (disk_block D st) = 0).

Lemma recover_done_commit k : let Dk := apply_writes (take k (commit_ws st D bs N)) D in
  exists bs', head_ok st Dk bs' /\ forall bn, ~ in_log st bn ->
    disk_block (apply_writes (recover_ws st Dk bs') Dk) bn = (if decide (k <= length bs)%nat then disk_block D bn else default (disk_block D bn) (N !! bn)) /\
    hdr_n (disk_block (apply_writes (recover_ws st Dk bs') Dk) st) = 0.
Proof using Hlen Hnd Hhome Hdom Hsize Hempty.
  intros Dk. destruct (commit_prefix_head st D bs N Hlen Hnd Hhome Hdom Hsize Hempty k) as [bs' Hd]. exists bs'. split; [done|].
  intros bn Hbn. destruct (recover_done _ _ _ Hd bn Hbn) as (E1 & E2 & _). split; [|done]. etransitivity; [exact E1|]. by apply commit_prefix.
Qed.

(** The disk after the whole of [commit]. *)
Lemma commit_done bn : ~ in_log st bn -> disk_block (apply_writes (commit_ws st D bs N) D) bn = default (disk_block D bn) (N !! bn).
Proof using Hlen Hnd Hhome Hdom Hsize Hempty.
  intros Hbn. rewrite <- (logical_done st D bs N) by done. set (h1 := put_head bs (disk_block D st)).
  destruct (logical_head st (apply_writes (commit_ws st D bs N) D) [] bn) as [_ E]; [..|].
  - unfold commit_ws, apply_writes. rewrite !foldl_app. cbn [foldl fst snd]. rewrite disk_block_insert, decide_True by done.
    apply put_head_nil. apply put_head_length; [done|unfold NBUF in Hlen; lia].
  - constructor.
  - rewrite <- E by apply not_elem_of_nil. f_equal. unfold commit_ws, apply_writes. by rewrite !foldl_app.
Qed.
End crashed.

(** ** Theorems *)

Section log_theorems.
Context {T H : Type} {BO : BlockOps T H} {BC : BlockCache T H}.

(** A commit is atomic.  [commit] returns with nothing left in use; and
    if the machine stops after any number [k] of its disk writes, the disk
    stands for the old file system as long as the header is not written
    (k <= n), and for the new one, every logged block changed and no other,
    from that write on. *)
Theorem commit_atomic (x : T) (a : abs) (l : log) (h : list lockid) (bs : list Z) (N : gmap Z (list Z)) :
  rep x a -> cache_free h -> txn a l bs N -> bs <> [] ->
  length (disk_block (adisk a) (start l)) = 1024%nat -> hdr_n (disk_block (adisk a) (start l)) = 0 ->
  exists x' a', commit (World h (Lst x l)) = Ok tt (World h (Lst x' (set_lh 0 (lh_block l) l))) /\ rep x' a' /\
    pins a' = ∅ /\ wrote (commit_ws (start l) (adisk a) bs N) a a' /\
    forall k bn, ~ in_log (start l) bn ->
      logical (start l) (apply_writes (take k (commit_ws (start l) (adisk a) bs N)) (adisk a)) bn
      = if decide (k <= length bs)%nat then disk_block (adisk a) bn else default (disk_block (adisk a) bn) (N !! bn).
Proof.
  intros R Hh X Hne Hsz He. destruct (commit_run x a l h bs N R Hh X Hne) as (x' & a' & E & R' & Hp & Hw).
  exists x', a'. split_and!; [done..|]. intros k bn Hbn. apply commit_prefix; try done; apply X.
Qed.

(** Recovery is idempotent and completes the commit.  Started on a disk
    with a well-formed header, [recover_from_log] returns; a crash after any
    number of its writes leaves a disk that stands for the same file system;
    and at the end the log is empty and every block outside it is as the file
    system the crashed disk stood for. *)
Theorem recovery_completes (x : T) (a : abs) (l : log) (h : list lockid) (bs : list Z) :
  rep x a -> cache_free h -> pins a = ∅ -> ldev l = ROOTDEV -> 0 <= start l -> start l + LOGSIZE < 2^31 ->
  length (lh_block l) = 30%nat -> head_ok (start l) (adisk a) bs ->
  exists x' a' l', recover_from_log (World h (Lst x l)) = Ok tt (World h (Lst x' l')) /\ rep x' a' /\ lh_n l' = 0 /\
    wrote (recover_ws (start l) (adisk a) bs) a a' /\
    (forall k bn, ~ in_log (start l) bn ->
       logical (start l) (apply_writes (take k (recover_ws (start l) (adisk a) bs)) (adisk a)) bn = logical (start l) (adisk a) bn) /\
    forall bn, ~ in_log (start l) bn ->
      disk_block (adisk a') bn = logical (start l) (adisk a) bn /\ hdr_n (disk_block (adisk a') (start l)) = 0.
Proof.
  intros R Hh Hp Hdev Hs0 Hs1 Hll Hd.
  destruct (recover_run x a l h bs R Hh Hp Hdev Hs0 Hs1 Hll Hd) as (x' & a' & l' & E & R' & _ & Hn & _ & Hw).
  exists x', a', l'. split_and!; [done..| |].
  - intros k bn Hbn. by apply recover_prefix.
  - intros bn Hbn. rewrite (proj1 Hw). destruct (recover_done _ _ _ Hd bn Hbn) as (? & ? & _). done.
Qed.

(** C1: crash safety end to end.  [commit] of a transaction that logged the
    blocks [bs] with new contents [N] returns, having made the disk writes
    [ws], which leave exactly the new contents in place.  Whatever number [k]
    of them reached the disk when the machine stopped, [recover_from_log] on
    that disk after a reboot returns with an empty log, and every block outside
    the log area is as before the transaction if k <= n, and as after it
    otherwise: all old or all new. *)
Theorem crash_recovery (x0 : T) (a : abs) (l0 : log) (h0 : list lockid) (bs : list Z) (N : gmap Z (list Z)) :
  rep x0 a -> cache_free h0 -> txn a l0 bs N -> bs <> [] ->
  length (disk_block (adisk a) (start l0)) = 1024%nat -> hdr_n (disk_block (adisk a) (start l0)) = 0 ->
  exists x1 a1 ws, commit (World h0 (Lst x0 l0)) = Ok tt (World h0 (Lst x1 (set_lh 0 (lh_block l0) l0))) /\ rep x1 a1 /\ wrote ws a a1 /\
    (forall bn, ~ in_log (start l0) bn -> disk_block (adisk a1) bn = default (disk_block (adisk a) bn) (N !! bn)) /\
    forall (k : nat) (x : T) (l : log) (h : list lockid) tr,
      rep x (Abs ∅ (apply_writes (take k ws) (adisk a)) tr) -> cache_free h -> ldev l = ROOTDEV -> start l = start l0 -> length (lh_block l) = 30%nat ->
      exists x' a' l', recover_from_log (World h (Lst x l)) = Ok tt (World h (Lst x' l')) /\ rep x' a' /\ lh_n l' = 0 /\
        hdr_n (disk_block (adisk a') (start l0)) = 0 /\
        forall bn, ~ in_log (start l0) bn ->
          disk_block (adisk a') bn = if decide (k <= length bs)%nat then disk_block (adisk a) bn else default (disk_block (adisk a) bn) (N !! bn).
Proof.
  intros R0 Hh0 X Hne Hsz He. destruct (tx_start _ _ _ _ X) as [Hs0 Hs1].
  destruct (commit_run x0 a l0 h0 bs N R0 Hh0 X Hne) as (x1 & a1 & E0 & R1 & _ & Hw0).
  pose proof (fun k => recover_done_commit (start l0) (adisk a) bs N (tx_len _ _ _ _ X) (tx_nodup _ _ _ _ X) (tx_home _ _ _ _ X) (tx_dom _ _ _ _ X) Hsz He k) as Hk.
  exists x1, a1, (commit_ws (start l0) (adisk a) bs N). split_and!; [done..| |].
  - intros bn Hbn. rewrite (proj1 Hw0). apply commit_done; try done; apply X.
  - intros k x l h tr R Hh Hdev Hst Hll. destruct (Hk k) as (bs' & Hd & Hold).
    destruct (recover_run x _ l h bs' R Hh eq_refl Hdev) as (x' & a' & l' & E & R' & _ & Hn & _ & Hw); rewrite ?Hst; [done..|].
    rewrite Hst in Hw. pose proof (proj1 Hw) as Ew. cbn [adisk] in Ew. rewrite <- Ew in Hold. exists x', a', l'.
    split_and!; [done..| |]; [|intros bn Hbn; by apply Hold]. apply (Hold (start l0 - 1)). unfold in_log, LOGSIZE, MAXOPBLOCKS. lia.
Qed.
End log_theorems.

(** Block 40 modified, logged and released, on the buffer cache of [Bio]. *)
Definition demo_new : list Z := replicate 1024 7.
Definition demo_log : log := Log 2 31 0 true ROOTDEV 1 (40 :: replicate 29 0) [].
Definition demo_modify : M bst unit :=
  b ← bread ROOTDEV 40; modify (b_setdata b (fun _ => demo_new));; bpin b;; brelse b.
Definition demo_txn_st : bst := match demo_modify (World [] demo_bst) with Ok _ w => st w | _ => demo_bst end.
Definition demo_abs : abs := Abs {[40 := Pin 1 demo_new false]} demo_disk [].

Lemma demo_txn_rep : bio_rep demo_txn_st demo_abs.
Proof.
  unfold demo_txn_st, demo_modify.
  destruct (bio_read_fresh demo_bst (Abs ∅ demo_disk []) 40 []) as (x1 & E1 & R1 & _);
    [apply demo_bst_rep|apply cache_free_nil|reflexivity|vm_compute; lia|].
  rewrite (bind_run _ _ _ _ _ E1), modify_run.
  destruct (bio_setdata x1 _ 40 _ (fun _ => demo_new) R1 (lookup_insert_eq _ _ _) eq_refl) as [R2 F2].
  change (b_setdata (bio_handle x1 40) (fun _ => demo_new) x1) with (updb (bio_handle x1 40) (fun b => set_data demo_new b) x1).
  set (x2 := updb _ _ x1) in *. rewrite <- (F2 40).
  destruct (bio_pin x2 _ 40 _ [] R2 cache_free_nil (lookup_insert_eq _ _ _)) as (x3 & E3 & R3 & F3); [cbn; lia|].
  rewrite (bind_run _ _ _ _ _ E3). rewrite <- (F3 40).
  destruct (bio_relse x3 _ 40 _ [] R3 cache_free_nil (lookup_insert_eq _ _ _) eq_refl) as (x4 & E4 & R4 & _); [done|].
  rewrite E4. unfold unref in R4. cbn in R4. erewrite abs_eq; [exact R4|..]; cbn; try done.
Qed.

Lemma demo_txn : txn demo_abs demo_log [40] {[40 := demo_new]}.
Proof.
  split; try reflexivity.
  - unfold LOGSIZE, MAXOPBLOCKS. cbn. lia.
  - unfold NBUF. simpl. lia.
  - intros [|i] Hi; [done|simpl in Hi; lia].
  - apply NoDup_singleton.
  - constructor; [|constructor]. unfold in_log, LOGSIZE, MAXOPBLOCKS. cbn. lia.
  - intros b. rewrite list_elem_of_singleton. split; [intros ->; by rewrite lookup_singleton_eq|].
    intros [d Hd]. by apply lookup_singleton_Some in Hd as [<- _].
Qed.

Lemma commit_atomic_witness :
  exists x' a', commit (World [] (Lst demo_txn_st demo_log)) = Ok tt (World [] (Lst x' (set_lh 0 (lh_block demo_log) demo_log))) /\
    rep x' a' /\ pins a' = ∅ /\ wrote (commit_ws 2 demo_disk [40] {[40 := demo_new]}) demo_abs a' /\
    forall k bn, ~ in_log 2 bn ->
      logical 2 (apply_writes (take k (commit_ws 2 demo_disk [40] {[40 := demo_new]})) demo_disk) bn
      = if decide (k <= 1)%nat then disk_block demo_disk bn else default (disk_block demo_disk bn) (({[40 := demo_new]} : gmap Z (list Z)) !! bn).
Proof.
  apply (commit_atomic demo_txn_st demo_abs demo_log [] [40] {[40 := demo_new]}).
  - exact demo_txn_rep.
  - exact cache_free_nil.
  - exact demo_txn.
  - discriminate.
  - reflexivity.
  - reflexivity.
Defined.

Definition demo_log0 : log := Log 2 31 0 false ROOTDEV 0 (replicate 30 0) [].
Lemma demo_head : head_ok 2 demo_disk [].
Proof. apply (head_ok_nil 2 demo_disk); reflexivity. Qed.

Lemma recovery_completes_witness :
  exists x' a' l', recover_from_log (World [] (Lst demo_bst demo_log0)) = Ok tt (World [] (Lst x' l')) /\ rep x' a' /\ lh_n l' = 0 /\
    wrote (recover_ws 2 demo_disk []) (Abs ∅ demo_disk []) a' /\
    (forall k bn, ~ in_log 2 bn -> logical 2 (apply_writes (take k (recover_ws 2 demo_disk [])) demo_disk) bn = logical 2 demo_disk bn) /\
    forall bn, ~ in_log 2 bn -> disk_block (adisk a') bn = logical 2 demo_disk bn /\ hdr_n (disk_block (adisk a') 2) = 0.
Proof.
  apply (recovery_completes demo_bst (Abs ∅ demo_disk []) demo_log0 [] []).
  - apply demo_bst_rep.
  - exact cache_free_nil.
  - reflexivity.
  - reflexivity.
  - cbn. lia.
  - unfold LOGSIZE, MAXOPBLOCKS. cbn. lia.
  - reflexivity.
  - exact demo_head.
Defined.

(** The machine reboots on a disk. *)
Definition reboot (D : gmap Z (list Z)) : bst :=
  match binit (World [] (BSt (replicate (S NBUF) buf0) D [] 3 [])) with Ok _ w => st w | _ => demo_bst end.
Lemma reboot_rep D : bio_rep (reboot D) (Abs ∅ D []).
Proof. destruct (binit_run D [] 3 []) as (s' & Hrun & _ & R). unfold reboot. by rewrite Hrun. Qed.

(** Block 40 is committed; the machine stops after the two writes of the
    logged block and of the header, before the block is installed, and
    recovery installs it.  One write earlier it is as if nothing happened. *)
Lemma crash_recovery_witness :
  exists x1 a1 ws, commit (World [] (Lst demo_txn_st demo_log)) = Ok tt (World [] (Lst x1 (set_lh 0 (lh_block demo_log) demo_log))) /\ wrote ws demo_abs a1 /\
    (exists x' a' l', recover_from_log (World [] (Lst (reboot (apply_writes (take 2 ws) demo_disk)) demo_log0)) = Ok tt (World [] (Lst x' l')) /\ rep x' a' /\
      lh_n l' = 0 /\ disk_block (adisk a') 40 = demo_new) /\
    (exists x' a' l', recover_from_log (World [] (Lst (reboot (apply_writes (take 1 ws) demo_disk)) demo_log0)) = Ok tt (World [] (Lst x' l')) /\ rep x' a' /\
      lh_n l' = 0 /\ disk_block (adisk a') 40 = disk_block demo_disk 40).
Proof.
  destruct (crash_recovery (BC := bio_cache) demo_txn_st demo_abs demo_log [] [40] {[40 := demo_new]} demo_txn_rep cache_free_nil demo_txn)
    as (x1 & a1 & ws & E & _ & Hw & _ & Hk); [discriminate|reflexivity|reflexivity|].
  assert (~ in_log (start demo_log) 40) as H40 by (unfold in_log, LOGSIZE, MAXOPBLOCKS; cbn; lia).
  exists x1, a1, ws. split; [exact E|]. split; [exact Hw|]. split.
  - destruct (Hk 2%nat (reboot (apply_writes (take 2 ws) demo_disk)) demo_log0 [] []) as (x' & a' & l' & E' & R' & Hn & _ & Hb);
      [apply reboot_rep|exact cache_free_nil|reflexivity|reflexivity|reflexivity|].
    exists x', a', l'. split; [exact E'|]. split; [exact R'|]. split; [exact Hn|]. exact (Hb 40 H40).
  - destruct (Hk 1%nat (reboot (apply_writes (take 1 ws) demo_disk)) demo_log0 [] []) as (x' & a' & l' & E' & R' & Hn & _ & Hb);
      [apply reboot_rep|exact cache_free_nil|reflexivity|reflexivity|reflexivity|].
    exists x', a', l'. split; [exact E'|]. split; [exact R'|]. split; [exact Hn|]. exact (Hb 40 H40).
Defined.
