(* ===== verification/LogOps.v ===== *)
(** * Operations of a transaction: admission, absorption, log space *)

From S2P Require Import Prelude Sleeplock Bio BioSpec Log LogSpec.

(** The block numbers recorded so far. *)
Definition logged (l : log) : list Z := take (Z.to_nat (lh_n l)) (lh_block l).

Record log_ok (l : log) : Prop := {
  lo_n : 0 <= lh_n l <= LOGSIZE;
  lo_len' : length (lh_block l) = 30%nat;
  lo_range : Forall (fun b => 0 <= b < 2^31) (logged l);
  lo_nodup : NoDup (logged l)
}.

Lemma absorb_spec blocks bn i n :
  (i + n <= length blocks)%nat -> Forall (fun b => 0 <= b < 2^31) (take n (drop i blocks)) -> 0 <= bn < 2^31 ->
  let j := absorb blocks bn i n in
  (i <= j <= i + n)%nat /\ ((j < i + n)%nat -> blocks !! j = Some bn) /\ (j = (i + n)%nat -> bn ∉ take n (drop i blocks)).
Proof.
  revert i. induction n as [|n IH]; intros i Hlen Hf Hbn; cbn [absorb].
  - split_and!; [lia|lia|lia|]. intros _. apply not_elem_of_nil.
  - destruct (lookup_lt_is_Some_2 blocks i) as [x Hx]; [lia|]. rewrite Hx. rewrite (drop_S _ _ _ Hx) in *. cbn [take] in *.
    apply Forall_cons in Hf as [Hxr Hf]. rewrite (u32_small x) by lia. destruct (Z.eqb_spec x bn) as [->|Hne].
    + split_and!; [lia|lia|done|lia].
    + destruct (IH (S i)) as (H1 & H2 & H3); [lia|done|done|]. split_and!; [lia|lia|intros; apply H2; lia|].
      intros E. apply not_elem_of_cons. split; [done|]. apply H3. lia.
Qed.

Section logops.
Context {T H : Type} {BO : BlockOps T H} {BC : BlockCache T H}.
Implicit Types (x : T) (l : log) (h : list lockid).

Lemma log_write_run x a l h bn p :
  rep x a -> cache_free h -> (log_lock ∉ h) -> pins a !! bn = Some p -> pcnt p + 1 < 2^32 -> 0 <= bn < 2^31 ->
  log_ok l -> lh_n l < LOGSIZE -> lh_n l < lsize l - 1 -> 1 <= outstanding l ->
  let bs := logged l in
  exists x' l', log_write (handle x bn) (World h (Lst x l)) = Ok tt (World h (Lst x' l')) /\ log_ok l' /\
    logged l' = (if decide (bn ∈ bs) then bs else bs ++ [bn]) /\
    (outstanding l', committing l', lsize l', start l') = (outstanding l, committing l, lsize l, start l) /\
    rep x' (if decide (bn ∈ bs) then a else set_pin bn (Pin (pcnt p + 1) (pdat p) (plock p)) a) /\
    forall bn', handle x' bn' = handle x bn'.
Proof.
  intros R Hh Hlh Hp Hpc Hbn Hok Hlt1 Hlt2 Hout bs. destruct Hok as [Hn Hlen Hrg Hnd]. unfold LOGSIZE, MAXOPBLOCKS in *.
  unfold log_write. rewrite acquire_run by done. mstep. cbn [lg]. unfold LOGSIZE, MAXOPBLOCKS.
  destruct (Z.leb_spec (10 * 3) (lh_n l)), (Z.leb_spec (lsize l - 1) (lh_n l)), (Z.ltb_spec (outstanding l) 1); try lia. cbn [orb].
  mstep. cbn [lb]. destruct (rep_data x a bn p R Hp) as [_ Hb]. rewrite Hb. mstep. unfold upd_log. cbn [lb lg].
  destruct (absorb_spec (lh_block l) bn 0 (Z.to_nat (lh_n l))) as (Ha1 & Ha2 & Ha3); [lia|by rewrite drop_0|done|].
  rewrite drop_0 in Ha3. fold (logged l) in Ha3. fold bs in Ha3. set (i := absorb _ _ _ _) in *.
  assert (i32 bn = bn) as Hi32 by (apply signed_small; lia). rewrite Hi32.
  destruct (Z.eqb_spec (Z.of_nat i) (lh_n l)) as [Heq|Hne]; unfold when.
  - assert (bn ∉ bs) as Hni by (apply Ha3; lia). destruct (decide (bn ∈ bs)) as [?|_]; [done|].
    destruct (rep_pin x a bn p (log_lock :: h) R) as (x' & E' & R' & F'); [|done|done|].
    { destruct Hh as [Hh1 Hh2]. split; [apply not_elem_of_cons; done|]. intros j. apply not_elem_of_cons. done. }
    rewrite bind_assoc, (bind_run _ _ _ _ _ (cache_run _ _ _ _ _ _ E')). mstep. unfold upd_log. cbn [lb lg].
    rewrite release_last by done. eexists x', _. split; [done|]. cbn [set_lh lh_n lh_block].
    assert (logged (set_lh (lh_n l + 1) (<[i := bn]> (lh_block l)) (set_lh (lh_n l) (<[i := bn]> (lh_block l)) l)) = bs ++ [bn]) as Hlg.
    { unfold logged. cbn [set_lh lh_n lh_block]. replace (Z.to_nat (lh_n l + 1)) with (S i) by lia.
      rewrite (take_S_r _ i bn) by (apply list_lookup_insert_eq; lia). f_equal. rewrite take_insert_ge by lia. subst bs. unfold logged. f_equal. lia. }
    split_and!; [|exact Hlg|reflexivity|exact R'|exact F'].
    split; [cbn; unfold LOGSIZE, MAXOPBLOCKS; lia|cbn; by rewrite length_insert| |].
    + rewrite Hlg. apply Forall_app. split; [done|]. constructor; [done|constructor].
    + rewrite Hlg. apply NoDup_app. split_and!; [done| |apply NoDup_singleton]. intros y Hy E. apply list_elem_of_singleton in E. congruence.
  - assert (lh_block l !! i = Some bn) as Hi by (apply Ha2; lia).
    assert (bn ∈ bs) as Hin.
    { subst bs. unfold logged. apply (list_elem_of_lookup_2 _ i). rewrite lookup_take_lt by lia. done. }
    destruct (decide (bn ∈ bs)) as [_|?]; [|done]. rewrite (bind_run (mret tt) _ _ tt (World (log_lock :: h) (Lst x (set_lh (lh_n l) (<[i := bn]> (lh_block l)) l)))) by done.
    rewrite release_last by done. rewrite (list_insert_id _ _ _ Hi).
    assert (set_lh (lh_n l) (lh_block l) l = l) as -> by (by destruct l).
    exists x, l. split_and!; done.
Qed.

(** ** What a successful run does to [struct log], whatever the cache does *)

Definition lg_same {A} (m : M (lst T) A) : Prop := forall w r w', m w = Ok r w' -> lg (st w') = lg (st w) /\ held w' = held w.

(** The operations of the cache release the spinlocks they take. *)
Definition cache_balanced : Prop :=
  (forall d b, held_same (b_read d b)) /\ (forall b, held_same (b_write b)) /\ (forall b, held_same (b_relse b)) /\
  (forall b, held_same (b_pin b)) /\ (forall b, held_same (b_unpin b)).

Context (HB : cache_balanced).

Lemma lg_cache {A} (m : M T A) : held_same m -> lg_same (cache m).
Proof.
  intros Hs [h s] r [h' s'] E. unfold cache, zoom in E. cbn [held st] in E. destruct (m (World h (lb s))) as [r' w| | |] eqn:Em; try done.
  injection E as <- <- <-. apply Hs in Em. done.
Qed.
Lemma lg_bind {A B} (m : M (lst T) A) (k : A -> M (lst T) B) : lg_same m -> (forall a, lg_same (k a)) -> lg_same (m ≫= k).
Proof.
  intros Hm Hk w r w' E. apply bind_Ok in E as (a & w1 & E1 & E2). apply Hm in E1 as [E1 F1]. apply Hk in E2 as [E2 F2].
  split; congruence.
Qed.
Lemma lg_gets {A} (f : lst T -> A) : lg_same (gets f).
Proof. intros w r w' E. by injection E as <- <-. Qed.
Lemma lg_ret {A} (a : A) : lg_same (mret a).
Proof. intros w r w' E. by injection E as <- <-. Qed.
Lemma lg_lset b f : lg_same (lset b f).
Proof. intros w r w' E. by injection E as <- <-. Qed.
Lemma lg_undefined {A} : lg_same (undefined (A := A)).
Proof. intros w r w' E. done. Qed.

Lemma lg_write_log_loop ts : lg_same (write_log_loop ts).
Proof using HB.
  destruct HB as (H1 & H2 & H3 & H4 & H5).
  induction ts as [|t ts IH]; cbn [write_log_loop]; [apply lg_ret|]. apply lg_bind; [apply lg_gets|intros l].
  apply lg_bind; [apply lg_cache; auto|intros to]. destruct (lh_block l !! _); [|apply lg_undefined].
  repeat (apply lg_bind; [first [apply lg_cache; auto|apply lg_gets|apply lg_lset]|intros ?]). done.
Qed.
Lemma lg_install_loop ts r : lg_same (install_trans_loop ts r).
Proof using HB.
  destruct HB as (H1 & H2 & H3 & H4 & H5).
  induction ts as [|t ts IH]; cbn [install_trans_loop]; [apply lg_ret|]. apply lg_bind; [apply lg_gets|intros l].
  apply lg_bind; [apply lg_cache; auto|intros to]. destruct (lh_block l !! _); [|apply lg_undefined].
  repeat (apply lg_bind; [first [apply lg_cache; auto|apply lg_gets|apply lg_lset|unfold when; destruct (negb r); [apply lg_cache; auto|apply lg_ret]]|intros ?]). done.
Qed.
Lemma lg_write_head_loop b ts : lg_same (write_head_loop b ts).
Proof.
  induction ts as [|t ts IH]; cbn [write_head_loop]; [apply lg_ret|]. apply lg_bind; [apply lg_gets|intros l].
  destruct (lh_block l !! _); [|apply lg_undefined]. apply lg_bind; [apply lg_lset|intros ?]. done.
Qed.
Lemma lg_write_head : lg_same write_head.
Proof using HB.
  destruct HB as (H1 & H2 & H3 & H4 & H5). unfold write_head.
  repeat (apply lg_bind; [first [apply lg_cache; auto|apply lg_gets|apply lg_lset|apply lg_write_head_loop]|intros ?]).
  apply lg_cache. auto.
Qed.

Lemma lg_write_log : lg_same write_log.
Proof using HB. apply lg_bind; [apply lg_gets|intros n; apply lg_write_log_loop]. Qed.
Lemma lg_install r : lg_same (install_trans r).
Proof using HB. apply lg_bind; [apply lg_gets|intros n; apply lg_install_loop]. Qed.

Lemma commit_lg w w' :
  commit w = Ok tt w' -> 0 <= lh_n (lg (st w)) ->
  held w' = held w /\ lg (st w') = set_lh 0 (lh_block (lg (st w))) (lg (st w)).
Proof using HB.
  intros E Hn. unfold commit in E. apply bind_Ok in E as (n & w0 & E0 & E). injection E0 as <- <-. unfold when in E.
  destruct (Z.ltb_spec 0 (lh_n (lg (st w)))) as [Hp|Hz].
  - apply bind_Ok in E as (? & w1 & E1 & E). apply lg_write_log in E1 as [L1 F1].
    apply bind_Ok in E as (? & w2 & E2 & E). apply lg_write_head in E2 as [L2 F2].
    apply bind_Ok in E as (? & w3 & E3 & E). apply lg_install in E3 as [L3 F3].
    apply bind_Ok in E as (? & w4 & E4 & E). injection E4 as _ <-. apply lg_write_head in E as [L5 F5]. cbn in L5, F5.
    split; congruence.
  - injection E as <-. split; [done|]. destruct (lg (st w)) as [a b c d e n bl k]. cbn in *. unfold set_lh. cbn. f_equal. lia.
Qed.

(** ** Log space: each operation reserves [MAXOPBLOCKS] blocks *)

(** The log and, per operation in progress, the number of new blocks it has
    logged.  Operations are admitted by [begin_op], log blocks, use the cache
    in any other way, and leave by [end_op]; the operations may interleave in
    any order. *)
Inductive lstep : lst T * list Z -> lst T * list Z -> Prop :=
| ls_begin s s' us : begin_op [] (World [] s) = Ok [] (World [] s') -> lstep (s, us) (s', 0 :: us)
| ls_write s s' us1 u us2 b :
    u < MAXOPBLOCKS -> log_write b (World [] s) = Ok tt (World [] s') ->
    lstep (s, us1 ++ u :: us2) (s', us1 ++ (u + (lh_n (lg s') - lh_n (lg s))) :: us2)
| ls_cache s s' us : lg s' = lg s -> lstep (s, us) (s', us)
| ls_end s s' us1 u us2 : end_op (World [] s) = Ok tt (World [] s') -> lstep (s, us1 ++ u :: us2) (s', us1 ++ us2).

Definition reserved (us : list Z) : Z := foldr (fun u z => MAXOPBLOCKS - u + z) 0 us.

Record space_inv (c : lst T * list Z) : Prop := {
  sp_out : outstanding (lg (fst c)) = Z.of_nat (length (snd c));
  sp_comm : committing (lg (fst c)) = false;
  sp_used : Forall (fun u => 0 <= u <= MAXOPBLOCKS) (snd c);
  sp_room : 0 <= lh_n (lg (fst c)) /\ lh_n (lg (fst c)) + reserved (snd c) <= LOGSIZE;
  sp_size : LOGSIZE < lsize (lg (fst c))
}.

Lemma reserved_app us1 us2 : reserved (us1 ++ us2) = reserved us1 + reserved us2.
Proof. induction us1 as [|u us1 IH]; cbn; [done|]. fold (reserved us1). unfold reserved in *. lia. Qed.
Lemma reserved_pos us : Forall (fun u => 0 <= u <= MAXOPBLOCKS) us -> 0 <= reserved us <= MAXOPBLOCKS * Z.of_nat (length us).
Proof.
  induction us as [|u us IH]; intros Hf; [cbn; lia|]. apply Forall_cons in Hf as [Hu Hf]. specialize (IH Hf).
  cbn [reserved foldr length]. fold (reserved us). unfold MAXOPBLOCKS in *. lia.
Qed.

Lemma begin_op_lg (s s' : lst T) :
  begin_op [] (World [] s) = Ok [] (World [] s') ->
  committing (lg s) = false /\ lh_n (lg s) + (outstanding (lg s) + 1) * MAXOPBLOCKS <= LOGSIZE /\
  lg s' = set_out (outstanding (lg s) + 1) (committing (lg s)) (lg s).
Proof.
  unfold begin_op. rewrite acquire_run by apply not_elem_of_nil. cbn [begin_op_loop]. rewrite gets_run.
  destruct (committing (lg s)) eqn:Hc; cbn [orb]; [intros E; discriminate E|]. destruct (Z.ltb_spec LOGSIZE (lh_n (lg s) + (outstanding (lg s) + 1) * MAXOPBLOCKS)); [intros E; discriminate E|].
  rewrite modify_run, release_run by apply not_elem_of_nil. intros E. injection E as <-. cbn. rewrite Hc. done.
Qed.

Lemma log_write_lg (b : H) (s s' : lst T) :
  log_write b (World [] s) = Ok tt (World [] s') ->
  exists bl n, (n = lh_n (lg s) \/ n = lh_n (lg s) + 1) /\ lg s' = set_lh n bl (lg s).
Proof using HB.
  destruct HB as (_ & _ & _ & H4 & _). unfold log_write. rewrite acquire_run by apply not_elem_of_nil. rewrite gets_run.
  destruct ((LOGSIZE <=? lh_n (lg s)) || _); [done|]. destruct (outstanding (lg s) <? 1); [done|]. rewrite gets_run, modify_run.
  set (i := absorb _ _ _ _). intros E. apply bind_Ok in E as (? & w1 & E1 & E). unfold release in E. destruct (decide _) as [_|]; [|done]. injection E as _ <-.
  unfold when in E1. destruct (Z.of_nat i =? lh_n (lg s)).
  - apply bind_Ok in E1 as (? & w2 & E2 & E1). apply (lg_cache _ (H4 b)) in E2 as [L2 _]. injection E1 as _ <-. cbn in *.
    rewrite L2. eexists _, _. split; [by right|]. reflexivity.
  - injection E1 as _ <-. eexists _, _. split; [by left|]. reflexivity.
Qed.

Lemma end_op_lg (s s' : lst T) :
  0 <= lh_n (lg s) -> end_op (World [] s) = Ok tt (World [] s') ->
  exists bl wk n, lg s' = Log (start (lg s)) (lsize (lg s)) (outstanding (lg s) - 1) false (ldev (lg s)) n bl wk /\
    n = (if outstanding (lg s) - 1 =? 0 then 0 else lh_n (lg s)).
Proof using HB.
  intros Hn. unfold end_op. rewrite acquire_run by apply not_elem_of_nil. rewrite modify_run, gets_run. cbn [upd_log lg set_out committing outstanding].
  destruct (committing (lg s)) eqn:Hc; [done|]. destruct (outstanding (lg s) - 1 =? 0) eqn:Ho.
  - rewrite modify_run, release_run by apply not_elem_of_nil. unfold when. intros E. apply bind_Ok in E as (? & [h1 s1] & E1 & E).
    destruct x. apply commit_lg in E1 as [F1 L1]; [|done]. cbn in F1, L1. subst h1.
    rewrite acquire_run, modify_run in E by apply not_elem_of_nil. unfold lwakeup in E. rewrite modify_run, release_last in E by apply not_elem_of_nil.
    injection E as <-. cbn. rewrite L1. cbn. eauto.
  - unfold lwakeup. rewrite modify_run, release_run by apply not_elem_of_nil. unfold when. intros E. injection E as <-. cbn. rewrite Hc. eauto.
Qed.

Lemma space_step c c' : space_inv c -> lstep c c' -> space_inv c'.
Proof using HB.
  intros [I1 I2 I3 [I4 I5] I6] Hs. destruct Hs as [s s' us E|s s' us1 u us2 b Hu E|s s' us E|s s' us1 u us2 E]; cbn [fst snd] in *.
  - apply begin_op_lg in E as (_ & Hg & L). pose proof (reserved_pos us I3). unfold LOGSIZE, MAXOPBLOCKS in *.
    split; cbn [fst snd]; rewrite ?L; cbn; [lia|done|by constructor; [unfold MAXOPBLOCKS|]| |done].
    fold (reserved us). unfold LOGSIZE, MAXOPBLOCKS in *. lia.
  - apply log_write_lg in E as (bl & n & Hn & L). rewrite L. cbn [set_lh lh_n]. apply Forall_app in I3 as [I31 I32]. apply Forall_cons in I32 as [I3u I32].
    rewrite reserved_app in I5. cbn [reserved foldr] in I5. fold (reserved us2) in I5. rewrite length_app in I1.
    split; cbn [fst snd]; rewrite ?L; cbn [set_lh outstanding committing lh_n lsize]; [rewrite length_app; done|done| | |done].
    + apply Forall_app. split; [done|]. constructor; [lia|done].
    + rewrite reserved_app. cbn [reserved foldr]. fold (reserved us2). lia.
  - split; cbn [fst snd]; rewrite ?E; done.
  - apply end_op_lg in E as (bl & wk & n & L & Hn); [|done]. apply Forall_app in I3 as [I31 I32]. apply Forall_cons in I32 as [I3u I32].
    rewrite reserved_app in I5. cbn [reserved foldr] in I5. fold (reserved us2) in I5. rewrite length_app in I1. cbn [length] in I1.
    pose proof (reserved_pos us1 I31). pose proof (reserved_pos us2 I32).
    split; cbn [fst snd]; rewrite ?L; cbn; [rewrite length_app; lia|done|by apply Forall_app| |done].
    rewrite reserved_app. destruct (Z.eqb_spec (outstanding (lg s) - 1) 0); subst n; [|lia].
    assert (us1 = [] /\ us2 = []) as [-> ->] by (destruct us1, us2; simpl in *; try lia; done). cbn. unfold LOGSIZE, MAXOPBLOCKS. lia.
Qed.

Lemma space_reachable c0 c : space_inv c0 -> rtc lstep c0 c -> space_inv c.
Proof using HB. intros I Hs. induction Hs; [done|]. apply IHHs. by eapply space_step. Qed.

Lemma space_start s0 :
  outstanding (lg s0) = 0 -> committing (lg s0) = false -> lh_n (lg s0) = 0 -> LOGSIZE < lsize (lg s0) -> space_inv (s0, []).
Proof. intros Ho Hc Hn Hl. split; cbn; rewrite ?Ho, ?Hc, ?Hn; try done. Qed.

(** An operation with room in its reservation finds room in the log. *)
Lemma space_room s us u :
  space_inv (s, us) -> u ∈ us -> u < MAXOPBLOCKS ->
  lh_n (lg s) < LOGSIZE /\ lh_n (lg s) < lsize (lg s) - 1 /\ 1 <= outstanding (lg s).
Proof.
  intros [I1 I2 I3 [I4 I5] I6] Hin Hu. cbn [fst snd] in *.
  apply list_elem_of_split in Hin as (us1 & us2 & ->). rewrite reserved_app in I5. cbn [reserved foldr] in I5.
  fold (reserved us2) in I5. apply Forall_app in I3 as [I31 I32]. apply Forall_cons in I32 as [I3u I32].
  pose proof (reserved_pos us1 I31). pose proof (reserved_pos us2 I32). rewrite length_app in I1. cbn [length] in I1. lia.
Qed.

Lemma log_write_panic (b : H) (s : lst T) msg :
  lh_n (lg s) < LOGSIZE -> lh_n (lg s) < lsize (lg s) - 1 -> 1 <= outstanding (lg s) ->
  log_write b (World [] s) = Panic msg -> b_pin b (World [log_lock] (lb s)) = Panic msg.
Proof using HB.
  intros R1 R2 R3. unfold log_write. rewrite acquire_run by apply not_elem_of_nil. rewrite gets_run.
  destruct (Z.leb_spec LOGSIZE (lh_n (lg s))); [lia|]. destruct (Z.leb_spec (lsize (lg s) - 1) (lh_n (lg s))); [lia|].
  destruct (Z.ltb_spec (outstanding (lg s)) 1); [lia|]. cbn [orb]. rewrite gets_run, modify_run. unfold when. destruct (_ =? _).
  - unfold mbind, M_bind, cache, zoom. cbn [held st lb upd_log]. destruct HB as (_ & _ & _ & H5 & _).
    destruct (b_pin b (World [log_lock] (lb s))) as [r w| | |] eqn:E; try done; [|by intros [= <-]].
    cbn [held st modify]. apply H5 in E. cbn in E. rewrite E. unfold release. cbn [held]. rewrite decide_True by apply list_elem_of_here. done.
  - unfold mbind, M_bind. cbn [mret M_ret]. unfold release. cbn [held]. rewrite decide_True by apply list_elem_of_here. done.
Qed.
End logops.

(** ** The buffer cache of [Bio] is balanced *)

Lemma bio_balanced : cache_balanced (T := bst) (H := nat).
Proof.
  assert (forall b (w : bool), held_same (virtio_disk_rw b w)) by (intros b []; apply held_modify).
  assert (forall c, held_same (bwakeup c)) by (intros c; apply held_modify).
  unfold cache_balanced. split_and!; intros; cbn [b_read b_write b_relse b_pin b_unpin bio_ops]; unfold bread, bget, bwrite, brelse, bpin, bunpin,
    acquiresleep, holdingsleep, releasesleep, link_front; held_tac.
Qed.

(** ** Theorems *)

(** [log_write] records each block once: a block already in the
    transaction is absorbed and nothing changes; another is appended and its
    buffer pinned so that it cannot be evicted before the commit. *)
Theorem log_write_absorbs {T H : Type} {BO : BlockOps T H} {BC : BlockCache T H}
    (x : T) (a : abs) (l : log) (h : list lockid) (bn : Z) (p : pin) :
  rep x a -> cache_free h -> log_lock ∉ h -> pins a !! bn = Some p -> pcnt p + 1 < 2^32 -> 0 <= bn < 2^31 ->
  log_ok l -> lh_n l < LOGSIZE -> lh_n l < lsize l - 1 -> 1 <= outstanding l ->
  let bs := logged l in
  exists x' l', log_write (handle x bn) (World h (Lst x l)) = Ok tt (World h (Lst x' l')) /\ log_ok l' /\
    logged l' = (if decide (bn ∈ bs) then bs else bs ++ [bn]) /\
    (outstanding l', committing l', lsize l', start l') = (outstanding l, committing l, lsize l, start l) /\
    rep x' (if decide (bn ∈ bs) then a else set_pin bn (Pin (pcnt p + 1) (pdat p) (plock p)) a) /\
    forall bn', handle x' bn' = handle x bn'.
Proof. apply log_write_run. Qed.

(** C9: admission control keeps the log from overflowing.  With a log area of
    more than LOGSIZE blocks, in any interleaving of file-system operations
    that each log at most MAXOPBLOCKS new blocks: while an operation still has
    room in its reservation its [log_write] does not panic (unless pinning the
    buffer does), and every operation in progress is counted in [outstanding],
    with no commit under way. *)
Theorem log_space_suffices {T H : Type} {BO : BlockOps T H} (s0 s : lst T) (us : list Z) (u : Z) (b : H) :
  cache_balanced (T := T) (H := H) ->
  outstanding (lg s0) = 0 -> committing (lg s0) = false -> lh_n (lg s0) = 0 -> LOGSIZE < lsize (lg s0) ->
  rtc (lstep (T := T) (H := H)) (s0, []) (s, us) -> u ∈ us -> u < MAXOPBLOCKS ->
  (forall msg, log_write b (World [] s) = Panic msg -> b_pin b (World [log_lock] (lb s)) = Panic msg) /\
  outstanding (lg s) = Z.of_nat (length us) /\ committing (lg s) = false /\ lh_n (lg s) < LOGSIZE.
Proof.
  intros HB Ho Hc Hn Hl Hs Hin Hu. apply space_reachable in Hs as I; [|done|by apply space_start].
  pose proof (space_room _ _ _ I Hin Hu) as (R1 & R2 & R3). destruct I as [I1 I2 _ _ _]. cbn [fst snd] in *. split_and!; [|done..].
  intros msg. by apply log_write_panic.
Qed.

Definition demo_log1 : log := Log 2 31 1 false ROOTDEV 0 (replicate 30 0) [].
Lemma demo_log1_ok : log_ok demo_log1.
Proof. split; try done. constructor. Qed.

(** Block 5, read and locked, in the first operation of a transaction. *)
Lemma log_write_absorbs_witness :
  exists x' l', log_write (bio_handle demo_open 5) (World [] (Lst demo_open demo_log1)) = Ok tt (World [] (Lst x' l')) /\
    log_ok l' /\ logged l' = [5].
Proof.
  destruct (log_write_absorbs (BC := bio_cache) demo_open (set_pin 5 (Pin 1 (disk_block demo_disk 5) true) (Abs ∅ demo_disk [])) demo_log1 [] 5
    (Pin 1 (disk_block demo_disk 5) true) demo_open_rep cache_free_nil (not_elem_of_nil _) (lookup_insert_eq _ _ _))
    as (x' & l' & E & Hok & Hl & _).
  - cbn. lia.
  - lia.
  - exact demo_log1_ok.
  - reflexivity.
  - reflexivity.
  - cbn. lia.
  - exists x', l'. split; [exact E|]. split; [exact Hok|exact Hl].
Defined.

Definition empty_bst : bst := BSt (replicate (S NBUF) buf0) ∅ [] 3 [].
Lemma log_space_suffices_witness :
  (forall msg, log_write 3%nat (World [] (Lst empty_bst demo_log1)) = Panic msg -> b_pin 3%nat (World [log_lock] empty_bst) = Panic msg) /\
  lh_n demo_log1 < LOGSIZE.
Proof.
  destruct (log_space_suffices (T := bst) (H := nat) (Lst empty_bst (Log 2 31 0 false ROOTDEV 0 (replicate 30 0) [])) (Lst empty_bst demo_log1) [0] 0 3%nat bio_balanced)
    as (Hp & _ & _ & Hlt).
  - reflexivity.
  - reflexivity.
  - reflexivity.
  - reflexivity.
  - apply rtc_once, ls_begin. reflexivity.
  - apply list_elem_of_here.
  - reflexivity.
  - cbn [lb lg] in Hp, Hlt. split; [exact Hp|exact Hlt].
Defined.
