(* ===== verification/Fs.v ===== *)
(** * kernel/fs.c: blocks, inodes, directories, path names

    Written on the log ([Log]) and through it on any block cache.  A [struct
    inode *] is an index of the inode table; on-disk structures are read and
    written inside block contents with the layouts of kernel/fs.h. *)

From S2P Require Import Prelude Mem Riscv Kalloc Vm Sleeplock Bio BioSpec Log.

Definition ROOTINO : Z := 1.
Definition FSMAGIC : Z := 0x10203040.
Definition NDIRECT : Z := 12.
Definition NINDIRECT : Z := BSIZE / 4.
Definition MAXFILE : Z := NDIRECT + NINDIRECT.
Definition NINODE : Z := 50.
Definition sizeof_dinode : Z := 64.
Definition IPB : Z := BSIZE / sizeof_dinode.
Definition BPB : Z := BSIZE * 8.
Definition DIRSIZ : Z := 14.
Definition sizeof_dirent : Z := 16.
Definition T_DIR : Z := 1.
Definition T_FILE : Z := 2.
Definition T_DEVICE : Z := 3.

Definition IBLOCK (i : Z) (sb : superblock) : Z := u32 (i / IPB + sb_inodestart sb).
Definition BBLOCK (b : Z) (sb : superblock) : Z := u32 (b / BPB + sb_bmapstart sb).

(** 16-bit fields inside a block, and single bytes. *)
Definition get16 (d : list Z) (off : nat) : Z := little_endian_to_Z 8 (take 2 (drop off d)).
Definition put16 (off : nat) (v : Z) (d : list Z) : list Z := splice d off (Z_to_little_endian 2 8 v).
Definition get8 (d : list Z) (off : nat) : Z := default 0 (d !! off).

(** In-memory copy of an inode (kernel/file.h). *)
Record inode : Type := Inode {
  ip_dev : Z;
  ip_inum : Z;
  ip_ref : Z;
  ip_lock : sleeplock;
  ip_valid : bool;
  ip_type : Z;
  ip_major : Z;
  ip_minor : Z;
  ip_nlink : Z;
  ip_size : Z;
  ip_addrs : list Z
}.
Definition inode0 : inode := Inode 0 0 0 (Sleeplock false 0) false 0 0 0 0 0 (replicate 13 0).

Definition set_ref (r : Z) (ip : inode) : inode :=
  Inode (ip_dev ip) (ip_inum ip) r (ip_lock ip) (ip_valid ip) (ip_type ip) (ip_major ip) (ip_minor ip) (ip_nlink ip) (ip_size ip) (ip_addrs ip).
Definition set_ilock (l : sleeplock) (ip : inode) : inode :=
  Inode (ip_dev ip) (ip_inum ip) (ip_ref ip) l (ip_valid ip) (ip_type ip) (ip_major ip) (ip_minor ip) (ip_nlink ip) (ip_size ip) (ip_addrs ip).
Definition set_ivalid (v : bool) (ip : inode) : inode :=
  Inode (ip_dev ip) (ip_inum ip) (ip_ref ip) (ip_lock ip) v (ip_type ip) (ip_major ip) (ip_minor ip) (ip_nlink ip) (ip_size ip) (ip_addrs ip).
Definition set_type (t : Z) (ip : inode) : inode :=
  Inode (ip_dev ip) (ip_inum ip) (ip_ref ip) (ip_lock ip) (ip_valid ip) t (ip_major ip) (ip_minor ip) (ip_nlink ip) (ip_size ip) (ip_addrs ip).
Definition set_meta (mj mn nl : Z) (ip : inode) : inode :=
  Inode (ip_dev ip) (ip_inum ip) (ip_ref ip) (ip_lock ip) (ip_valid ip) (ip_type ip) mj mn nl (ip_size ip) (ip_addrs ip).
Definition set_size (n : Z) (ip : inode) : inode :=
  Inode (ip_dev ip) (ip_inum ip) (ip_ref ip) (ip_lock ip) (ip_valid ip) (ip_type ip) (ip_major ip) (ip_minor ip) (ip_nlink ip) n (ip_addrs ip).
Definition set_addrs (a : list Z) (ip : inode) : inode :=
  Inode (ip_dev ip) (ip_inum ip) (ip_ref ip) (ip_lock ip) (ip_valid ip) (ip_type ip) (ip_major ip) (ip_minor ip) (ip_nlink ip) (ip_size ip) a.
Definition set_addr (i a : Z) (ip : inode) : inode := set_addrs (<[Z.to_nat i := a]> (ip_addrs ip)) ip.
Definition get_addr (ip : inode) (i : Z) : Z := default 0 (ip_addrs ip !! Z.to_nat i).

(** [struct dinode] at byte [o] of a block: type, major, minor and nlink
    (shorts), size, then NDIRECT + 1 block addresses. *)
Definition dinode_off (inum : Z) : nat := Z.to_nat (sizeof_dinode * (inum mod IPB)).
Definition dip_type (d : list Z) (o : nat) : Z := i16 (get16 d o).
Definition dip_addrs (d : list Z) (o : nat) : list Z := (fun j => get32 d (o + 12 + 4 * j)) <$> seq 0 13.
Fixpoint put_words (o : nat) (vs : list Z) (d : list Z) : list Z :=
  match vs with
  | [] => d
  | v :: vs => put_words (o + 4) vs (put32 o v d)
  end.
Definition put_dinode (o : nat) (ip : inode) (d : list Z) : list Z :=
  put_words (o + 12) (ip_addrs ip)
    (put32 (o + 8) (ip_size ip)
      (put16 (o + 6) (ip_nlink ip)
        (put16 (o + 4) (ip_minor ip)
          (put16 (o + 2) (ip_major ip)
            (put16 o (ip_type ip) d))))).
Definition load_dinode (d : list Z) (o : nat) (ip : inode) : inode :=
  Inode (ip_dev ip) (ip_inum ip) (ip_ref ip) (ip_lock ip) (ip_valid ip)
    (dip_type d o) (i16 (get16 d (o + 2))) (i16 (get16 d (o + 4))) (i16 (get16 d (o + 6)))
    (get32 d (o + 8)) (dip_addrs d o).

(** The superblock at the start of a block. *)
Definition load_sb (d : list Z) : superblock :=
  Superblock (get32 d 0) (get32 d 4) (get32 d 8) (get32 d 12) (get32 d 16) (get32 d 20) (get32 d 24) (get32 d 28).

(** File-system state: physical memory, cache and log, the inode table, the
    superblock, and of the running process its pid, page table and current
    directory. *)
Record fst (T : Type) : Type := Fst {
  fk : kstate;
  fl : lst T;
  itab : list inode;
  fsb : superblock;
  fpid : Z;
  fpt : Z;
  fcwd : nat;
  fwakes : list lockid
}.
Arguments Fst {T} _ _ _ _ _ _ _ _.
Arguments fk {T} _.
Arguments fl {T} _.
Arguments itab {T} _.
Arguments fsb {T} _.
Arguments fpid {T} _.
Arguments fpt {T} _.
Arguments fcwd {T} _.
Arguments fwakes {T} _.

Definition itable_lock : lockid := ("itable"%string, 0).
Definition inode_lock (i : nat) : lockid := ("inode"%string, Z.of_nat i).

(** Where [readi] puts bytes: a user address, a kernel address, or a local
    variable of the caller, which receives them as a result. *)
Inductive kdst : Type := ToUser (a : Z) | ToKernel (a : Z) | ToLocal.
Inductive ksrc : Type := FromUser (a : Z) | FromKernel (a : Z) | FromLocal (bs : list Z).

(** [strncmp] and [strncpy] (kernel/string.c) of at most [n] bytes on the
    contents of two arrays. *)
Fixpoint strncmp_list (n : nat) (p q : list Z) : Z :=
  match n with
  | O => 0
  | S n =>
      let x := default 0 (head p) in let y := default 0 (head q) in
      if negb (x =? 0) && (x =? y) then strncmp_list n (tail p) (tail q)
      else x - y
  end.
Fixpoint strncpy_list (n : nat) (t : list Z) : list Z :=
  match n with
  | O => []
  | S n => match t with
           | [] => replicate (S n) 0
           | c :: t => if c =? 0 then replicate (S n) 0 else c :: strncpy_list n t
           end
  end.
Definition namecmp (s t : list Z) : Z := strncmp_list (Z.to_nat DIRSIZ) s t.

(** ** Path elements

    A path is the list of its bytes up to the terminating NUL. *)
Definition slash : Z := 47.
Fixpoint skip_slashes (path : list Z) : list Z :=
  match path with
  | c :: path' => if c =? slash then skip_slashes path' else path
  | [] => []
  end.
Fixpoint elem_of_path (path : list Z) : list Z * list Z :=
  match path with
  | c :: path' => if c =? slash then ([], path) else let '(e, r) := elem_of_path path' in (c :: e, r)
  | [] => ([], [])
  end.
(** [name] is the buffer of [DIRSIZ] bytes the element is copied to: shorter
    elements are followed by a NUL and leave the rest of it as it was. *)
Definition skipelem (path name : list Z) : option (list Z * list Z) :=
  match skip_slashes path with
  | [] => None
  | path =>
      let '(s, rest) := elem_of_path path in
      let len := Z.of_nat (length s) in
      let name' := if DIRSIZ <=? len then splice name 0 (take (Z.to_nat DIRSIZ) s) else splice name 0 (s ++ [0]) in
      Some (skip_slashes rest, name')
  end.

Section fs.
Context {L : Layout} {T H : Type} {BO : BlockOps T H}.
Abbreviation F := (M (fst T)).

Definition in_log {A} (m : M (lst T) A) : F A :=
  zoom fl (fun x s => Fst (fk s) x (itab s) (fsb s) (fpid s) (fpt s) (fcwd s) (fwakes s)) m.
Definition in_mem {A} (m : M kstate A) : F A :=
  zoom fk (fun x s => Fst x (fl s) (itab s) (fsb s) (fpid s) (fpt s) (fcwd s) (fwakes s)) m.
Definition upd_itab (f : list inode -> list inode) (s : fst T) : fst T :=
  Fst (fk s) (fl s) (f (itab s)) (fsb s) (fpid s) (fpt s) (fcwd s) (fwakes s).
Definition geti (s : fst T) (i : nat) : inode := default inode0 (itab s !! i).
Definition updi (i : nat) (f : inode -> inode) (s : fst T) : fst T := upd_itab (fun t => <[i := f (geti s i)]> t) s.
Definition get_ilock (i : nat) (s : fst T) : sleeplock := ip_lock (geti s i).
Definition put_ilock (i : nat) (l : sleeplock) (s : fst T) : fst T := updi i (set_ilock l) s.
Definition fwakeup (c : lockid) : F unit := modify (fun s =>
  Fst (fk s) (fl s) (itab s) (fsb s) (fpid s) (fpt s) (fcwd s) (c :: fwakes s)).

Definition bread_ (dv bn : Z) : F H := in_log (lread dv bn).
Definition bdata (b : H) : F (list Z) := in_log (ldata b).
Definition bset (b : H) (f : list Z -> list Z) : F unit := in_log (lset b f).
Definition brelse_ (b : H) : F unit := in_log (cache (b_relse b)).
Definition log_write_ (b : H) : F unit := in_log (log_write b).

Definition readsb (dv : Z) : F superblock :=
  bp ← bread_ dv 1;
  d ← bdata bp;
  brelse_ bp;;
  mret (load_sb d).

Definition fsinit (dv : Z) : F unit :=
  sb ← readsb dv;
  modify (fun s => Fst (fk s) (fl s) (itab s) sb (fpid s) (fpt s) (fcwd s) (fwakes s));;
  if negb (sb_magic sb =? FSMAGIC) then panic "invalid file system" else
  in_log (initlog dv sb).

Definition bzero (dv bno : Z) : F unit :=
  bp ← bread_ dv bno;
  bset bp (fun _ => zeroes BSIZE);;
  log_write_ bp;;
  brelse_ bp.

(** The two loops of [balloc]: over the bits of one bitmap block, and over the
    bitmap blocks.  [None]: no free bit in this block. *)
Definition bit_mask (bi : Z) : Z := Z.shiftl 1 (bi mod 8).
Definition set_bit (bi : Z) (d : list Z) : list Z :=
  <[Z.to_nat (bi / 8) := Z.lor (get8 d (Z.to_nat (bi / 8))) (bit_mask bi)]> d.
Definition clear_bit (bi : Z) (d : list Z) : list Z :=
  <[Z.to_nat (bi / 8) := Z.land (get8 d (Z.to_nat (bi / 8))) (Z.lnot (bit_mask bi))]> d.
Definition bit_used (d : list Z) (bi : Z) : bool := flag (get8 d (Z.to_nat (bi / 8))) (bit_mask bi).

Fixpoint free_bit (fuel : nat) (d : list Z) (size b bi : Z) : option Z :=
  match fuel with
  | O => None
  | S fuel =>
      if (bi <? BPB) && (b + bi <? size) then
        if negb (bit_used d bi) then Some bi else free_bit fuel d size b (bi + 1)
      else None
  end.
Fixpoint balloc_loop (fuel : nat) (dv b : Z) : F Z :=
  match fuel with
  | O => spin
  | S fuel =>
      sb ← gets fsb;
      if negb (b <? sb_size sb) then panic "balloc: out of blocks" else
      bp ← bread_ dv (BBLOCK b sb);
      d ← bdata bp;
      match free_bit (Z.to_nat BPB) d (sb_size sb) b 0 with
      | Some bi =>
          bset bp (set_bit bi);;
          log_write_ bp;;
          brelse_ bp;;
          bzero dv (b + bi);;
          mret (b + bi)
      | None => brelse_ bp;; balloc_loop fuel dv (b + BPB)
      end
  end.
(** Each turn passes [BPB] blocks. *)
Definition balloc (dv : Z) : F Z :=
  sb ← gets fsb;
  balloc_loop (S (Z.to_nat (sb_size sb / BPB + 1))) dv 0.

Definition bfree (dv b : Z) : F unit :=
  sb ← gets fsb;
  bp ← bread_ dv (BBLOCK b sb);
  let bi := b mod BPB in
  d ← bdata bp;
  if negb (bit_used d bi) then panic "freeing free block" else
  bset bp (clear_bit bi);;
  log_write_ bp;;
  brelse_ bp.

Fixpoint iinit_loop (is_ : list nat) : F unit :=
  match is_ with
  | [] => mret tt
  | i :: is_ => initsleeplock (inode_lock i) (put_ilock i);; iinit_loop is_
  end.
Definition iinit : F unit :=
  initlock itable_lock;;
  iinit_loop (seq 0 (Z.to_nat NINODE)).

(** The scan of [iget]: the entry of (dev, inum), else the first empty one. *)
Fixpoint iget_scan (dv inum : Z) (empty : option nat) (i : nat) (t : list inode) : nat + option nat :=
  match t with
  | [] => inr empty
  | ip :: t =>
      if (0 <? ip_ref ip) && (ip_dev ip =? dv) && (ip_inum ip =? inum) then inl i
      else iget_scan dv inum (match empty with None => if ip_ref ip =? 0 then Some i else None | e => e end) (S i) t
  end.
Definition iget (dv inum : Z) : F nat :=
  acquire itable_lock;;
  t ← gets itab;
  match iget_scan dv inum None 0 t with
  | inl i => modify (updi i (fun ip => set_ref (ip_ref ip + 1) ip));;
             release itable_lock;;
             mret i
  | inr None => panic "iget: no inodes"
  | inr (Some i) =>
      modify (updi i (fun ip => Inode dv inum 1 (ip_lock ip) false (ip_type ip) (ip_major ip) (ip_minor ip)
                                      (ip_nlink ip) (ip_size ip) (ip_addrs ip)));;
      release itable_lock;;
      mret i
  end.

Fixpoint ialloc_loop (fuel : nat) (dv type inum : Z) : F nat :=
  match fuel with
  | O => spin
  | S fuel =>
      sb ← gets fsb;
      if negb (inum <? sb_ninodes sb) then panic "ialloc: no inodes" else
      bp ← bread_ dv (IBLOCK inum sb);
      let dip := dinode_off inum in
      d ← bdata bp;
      if dip_type d dip =? 0 then
        bset bp (fun d => put16 dip type (splice d dip (zeroes sizeof_dinode)));;
        log_write_ bp;;
        brelse_ bp;;
        iget dv inum
      else brelse_ bp;; ialloc_loop fuel dv type (inum + 1)
  end.
Definition ialloc (dv type : Z) : F nat :=
  sb ← gets fsb;
  ialloc_loop (S (Z.to_nat (sb_ninodes sb))) dv type 1.

Definition iupdate (i : nat) : F unit :=
  ip ← gets (fun s => geti s i);
  sb ← gets fsb;
  bp ← bread_ (ip_dev ip) (IBLOCK (ip_inum ip) sb);
  bset bp (put_dinode (dinode_off (ip_inum ip)) ip);;
  log_write_ bp;;
  brelse_ bp.

Definition idup (i : nat) : F nat :=
  acquire itable_lock;;
  modify (updi i (fun ip => set_ref (ip_ref ip + 1) ip));;
  release itable_lock;;
  mret i.

Definition ilock (i : nat) : F unit :=
  ip ← gets (fun s => geti s i);
  if ip_ref ip <? 1 then panic "ilock" else
  pid ← gets fpid;
  acquiresleep (inode_lock i) (get_ilock i) (put_ilock i) pid;;
  ip ← gets (fun s => geti s i);
  if ip_valid ip then mret tt else
  sb ← gets fsb;
  bp ← bread_ (ip_dev ip) (IBLOCK (ip_inum ip) sb);
  d ← bdata bp;
  modify (updi i (load_dinode d (dinode_off (ip_inum ip))));;
  brelse_ bp;;
  modify (updi i (set_ivalid true));;
  ip ← gets (fun s => geti s i);
  if ip_type ip =? 0 then panic "ilock: no type" else mret tt.

Definition iunlock (i : nat) : F unit :=
  pid ← gets fpid;
  ok ← holdingsleep (inode_lock i) (get_ilock i) pid;
  ip ← gets (fun s => geti s i);
  if negb ok || (ip_ref ip <? 1) then panic "iunlock" else
  releasesleep (inode_lock i) (put_ilock i) fwakeup.

(** Inode content: the disk block of the [bn]th block of inode [i], allocating
    it (and the indirect block) if there is none. *)
Definition bmap (i : nat) (bn : Z) : F Z :=
  ip ← gets (fun s => geti s i);
  if bn <? NDIRECT then
    (if get_addr ip bn =? 0 then
       addr ← balloc (ip_dev ip);
       modify (updi i (set_addr bn addr));;
       mret addr
     else mret (get_addr ip bn))
  else
  let bn := bn - NDIRECT in
  if bn <? NINDIRECT then
    addr ← (if get_addr ip NDIRECT =? 0 then
              addr ← balloc (ip_dev ip);
              modify (updi i (set_addr NDIRECT addr));;
              mret addr
            else mret (get_addr ip NDIRECT));
    bp ← bread_ (ip_dev ip) addr;
    a ← bdata bp;
    addr ← (if get32 a (Z.to_nat (4 * bn)) =? 0 then
              addr ← balloc (ip_dev ip);
              bset bp (put32 (Z.to_nat (4 * bn)) addr);;
              log_write_ bp;;
              mret addr
            else mret (get32 a (Z.to_nat (4 * bn))));
    brelse_ bp;;
    mret addr
  else panic "bmap: out of range".

Fixpoint itrunc_direct (i : nat) (js : list Z) : F unit :=
  match js with
  | [] => mret tt
  | j :: js =>
      ip ← gets (fun s => geti s i);
      when (negb (get_addr ip j =? 0))
        (bfree (ip_dev ip) (get_addr ip j);; modify (updi i (set_addr j 0)));;
      itrunc_direct i js
  end.
Fixpoint itrunc_indirect (dv : Z) (bp : H) (js : list Z) : F unit :=
  match js with
  | [] => mret tt
  | j :: js =>
      a ← bdata bp;
      let aj := get32 a (Z.to_nat (4 * j)) in
      when (negb (aj =? 0)) (bfree dv aj);;
      itrunc_indirect dv bp js
  end.
Definition itrunc (i : nat) : F unit :=
  itrunc_direct i (seqZ 0 NDIRECT);;
  ip ← gets (fun s => geti s i);
  when (negb (get_addr ip NDIRECT =? 0))
    (bp ← bread_ (ip_dev ip) (get_addr ip NDIRECT);
     itrunc_indirect (ip_dev ip) bp (seqZ 0 NINDIRECT);;
     brelse_ bp;;
     bfree (ip_dev ip) (get_addr ip NDIRECT);;
     modify (updi i (set_addr NDIRECT 0)));;
  modify (updi i (set_size 0));;
  iupdate i.

Definition iput (i : nat) : F unit :=
  acquire itable_lock;;
  ip ← gets (fun s => geti s i);
  when ((ip_ref ip =? 1) && ip_valid ip && (ip_nlink ip =? 0))
    (pid ← gets fpid;
     acquiresleep (inode_lock i) (get_ilock i) (put_ilock i) pid;;
     release itable_lock;;
     itrunc i;;
     modify (updi i (set_type 0));;
     iupdate i;;
     modify (updi i (set_ivalid false));;
     releasesleep (inode_lock i) (put_ilock i) fwakeup;;
     acquire itable_lock);;
  modify (updi i (fun ip => set_ref (ip_ref ip - 1) ip));;
  release itable_lock.

Definition iunlockput (i : nat) : F unit := iunlock i;; iput i.

(** The fields of [struct stat]: dev, ino, type, nlink, size. *)
Definition stati (i : nat) : F (Z * Z * Z * Z * Z) :=
  ip ← gets (fun s => geti s i);
  mret (i32 (ip_dev ip), ip_inum ip, ip_type ip, ip_nlink ip, ip_size ip).

(** [either_copyout] and [either_copyin] at [tot] bytes from the start. *)
Definition copy_to (dst : kdst) (tot : Z) (bs : list Z) : F Z :=
  pt ← gets fpt;
  match dst with
  | ToUser a => in_mem (either_copyout true pt (u64 (a + tot)) bs)
  | ToKernel a => in_mem (either_copyout false pt (u64 (a + tot)) bs)
  | ToLocal => mret 0
  end.
Definition copy_from (src : ksrc) (tot len : Z) : F (Z * list Z) :=
  pt ← gets fpt;
  match src with
  | FromUser a => in_mem (either_copyin true pt (u64 (a + tot)) len)
  | FromKernel a => in_mem (either_copyin false pt (u64 (a + tot)) len)
  | FromLocal bs => mret (0, take (Z.to_nat len) (drop (Z.to_nat tot) bs))
  end.

(** Every turn transfers at least one byte.  The result is the return value
    and the bytes transferred. *)
Fixpoint readi_loop (fuel : nat) (i : nat) (dst : kdst) (off n tot : Z) (got : list Z) : F (Z * list Z) :=
  match fuel with
  | O => spin
  | S fuel =>
      if negb (tot <? n) then mret (i32 tot, got) else
      ip ← gets (fun s => geti s i);
      addr ← bmap i (off / BSIZE);
      bp ← bread_ (ip_dev ip) addr;
      let m := Z.min (n - tot) (BSIZE - off mod BSIZE) in
      d ← bdata bp;
      let bs := take (Z.to_nat m) (drop (Z.to_nat (off mod BSIZE)) d) in
      r ← copy_to dst tot bs;
      if r =? -1 then brelse_ bp;; mret (-1, got)
      else brelse_ bp;; readi_loop fuel i dst (off + m) n (tot + m) (got ++ bs)
  end.
Definition readi (i : nat) (dst : kdst) (off n : Z) : F (Z * list Z) :=
  ip ← gets (fun s => geti s i);
  if (ip_size ip <? off) || (u32 (off + n) <? off) then mret (0, []) else
  let n := if ip_size ip <? u32 (off + n) then u32 (ip_size ip - off) else n in
  readi_loop (S (Z.to_nat n)) i dst off n 0 [].

(** The loop ends with the offset reached and the number of bytes written. *)
Fixpoint writei_loop (fuel : nat) (i : nat) (src : ksrc) (off n tot : Z) : F (Z * Z) :=
  match fuel with
  | O => spin
  | S fuel =>
      if negb (tot <? n) then mret (off, tot) else
      ip ← gets (fun s => geti s i);
      addr ← bmap i (off / BSIZE);
      bp ← bread_ (ip_dev ip) addr;
      let m := Z.min (n - tot) (BSIZE - off mod BSIZE) in
      r ← copy_from src tot m;
      (* a failed copyin has stored the bytes of the pages before the fault *)
      bset bp (fun d => splice d (Z.to_nat (off mod BSIZE)) (snd r));;
      if Z.eqb (Datatypes.fst r) (-1) then brelse_ bp;; mret (off, tot)
      else
        log_write_ bp;;
        brelse_ bp;;
        writei_loop fuel i src (off + m) n (tot + m)
  end.
Definition writei (i : nat) (src : ksrc) (off n : Z) : F Z :=
  ip ← gets (fun s => geti s i);
  if (ip_size ip <? off) || (u32 (off + n) <? off) then mret (-1) else
  if MAXFILE * BSIZE <? u32 (off + n) then mret (-1) else
  r ← writei_loop (S (Z.to_nat n)) i src off n 0;
  ip ← gets (fun s => geti s i);
  when (ip_size ip <? Datatypes.fst r) (modify (updi i (set_size (Datatypes.fst r))));;
  iupdate i;;
  mret (i32 (snd r)).

(** [struct dirent]: a 16-bit inode number and [DIRSIZ] bytes of name. *)
Definition de_inum (de : list Z) : Z := get16 de 0.
Definition de_name (de : list Z) : list Z := drop 2 de.
Definition dirent (inum : Z) (name : list Z) : list Z := Z_to_little_endian 2 8 inum ++ name.

(** The entry found and its offset. *)
Fixpoint dirlookup_loop (fuel : nat) (dp : nat) (name : list Z) (off : Z) : F (option (nat * Z)) :=
  match fuel with
  | O => spin
  | S fuel =>
      ip ← gets (fun s => geti s dp);
      if negb (off <? ip_size ip) then mret None else
      r ← readi dp ToLocal off sizeof_dirent;
      if negb (Datatypes.fst r =? sizeof_dirent) then panic "dirlookup read" else
      let de := snd r in
      if de_inum de =? 0 then dirlookup_loop fuel dp name (off + sizeof_dirent)
      else if namecmp name (de_name de) =? 0 then
        ip' ← iget (ip_dev ip) (de_inum de);
        mret (Some (ip', off))
      else dirlookup_loop fuel dp name (off + sizeof_dirent)
  end.
Definition dirlookup (dp : nat) (name : list Z) : F (option (nat * Z)) :=
  ip ← gets (fun s => geti s dp);
  if negb (ip_type ip =? T_DIR) then panic "dirlookup not DIR" else
  dirlookup_loop (S (Z.to_nat (ip_size ip))) dp name 0.

Fixpoint dirlink_slot (fuel : nat) (dp : nat) (off : Z) : F Z :=
  match fuel with
  | O => spin
  | S fuel =>
      ip ← gets (fun s => geti s dp);
      if negb (off <? ip_size ip) then mret off else
      r ← readi dp ToLocal off sizeof_dirent;
      if negb (Datatypes.fst r =? sizeof_dirent) then panic "dirlink read" else
      if de_inum (snd r) =? 0 then mret off else dirlink_slot fuel dp (off + sizeof_dirent)
  end.
Definition dirlink (dp : nat) (name : list Z) (inum : Z) : F Z :=
  r ← dirlookup dp name;
  match r with
  | Some (ip, _) => iput ip;; mret (-1)
  | None =>
      ip ← gets (fun s => geti s dp);
      off ← dirlink_slot (S (Z.to_nat (ip_size ip))) dp 0;
      let de := dirent (u16 inum) (strncpy_list (Z.to_nat DIRSIZ) name) in
      n ← writei dp (FromLocal de) off sizeof_dirent;
      if negb (n =? sizeof_dirent) then panic "dirlink" else mret 0
  end.

(** [skipelem] removes at least one byte of the path.  The result is the inode
    and the last element copied to [name]. *)
Fixpoint namex_loop (fuel : nat) (ip : nat) (path : list Z) (nameiparent : bool) (name : list Z)
  : F (option nat * list Z) :=
  match fuel with
  | O => spin
  | S fuel =>
      match skipelem path name with
      | None =>
          if nameiparent then iput ip;; mret (None, name) else mret (Some ip, name)
      | Some (path, name) =>
          ilock ip;;
          x ← gets (fun s => geti s ip);
          if negb (ip_type x =? T_DIR) then iunlockput ip;; mret (None, name) else
          if nameiparent && bool_decide (path = []) then iunlock ip;; mret (Some ip, name) else
          r ← dirlookup ip name;
          match r with
          | None => iunlockput ip;; mret (None, name)
          | Some (next, _) => iunlockput ip;; namex_loop fuel next path nameiparent name
          end
      end
  end.
Definition namex (path : list Z) (nameiparent : bool) (name : list Z) : F (option nat * list Z) :=
  ip ← (if bool_decide (head path = Some slash) then iget ROOTDEV ROOTINO
        else (cwd ← gets fcwd; idup cwd));
  namex_loop (S (length path)) ip path nameiparent name.
(** [name] is a local array of [DIRSIZ] bytes, whatever it holds. *)
Definition namei (garbage path : list Z) : F (option nat) :=
  r ← namex path false garbage;
  mret (Datatypes.fst r).
Definition nameiparent (path name : list Z) : F (option nat * list Z) := namex path true name.

End fs.
