(* ===== verification/FsTxn.v ===== *)
(** * Blocks as the file system sees them inside a transaction

    [tview x l D V O]: the cache [x] and the log [l] are in the middle of an
    operation in which block [bn] reads as [V bn]; [D] is the disk, which holds
    every block that has not been logged, and [O] lists the blocks whose
    buffers the thread has locked.  Each primitive of the file system (read a
    block, modify it, log it, release it) is one move between such views. *)

From S2P Require Import Prelude Mem Riscv Kalloc Vm Sleeplock Bio BioSpec Log LogSpec LogOps Fs.

Definition view : Type := Z -> list Z.
Definition vset (bn : Z) (d : list Z) (V : view) : view := fun b => if decide (b = bn) then d else V b.

Lemma vset_eq bn d V : vset bn d V bn = d.
Proof. unfold vset. by rewrite decide_True. Qed.
Lemma vset_ne bn d V b : b <> bn -> vset bn d V b = V b.
Proof. intros. unfold vset. by rewrite decide_False. Qed.

(** The state of the buffer of block [bn]. *)
Definition pin_of (lgd O : list Z) (V : view) (bn : Z) : option pin :=
  if decide (bn ∈ O) then Some (Pin (if decide (bn ∈ lgd) then 2 else 1) (V bn) true)
  else if decide (bn ∈ lgd) then Some (Pin 1 (V bn) false) else None.

(** The spinlocks taken below the file system. *)
Definition fs_free (h : list lockid) : Prop := cache_free h /\ log_lock ∉ h.

(** [add_logged bn bs]: the logged blocks after a [log_write] of [bn]. *)
Definition add_logged (bn : Z) (bs : list Z) : list Z := if decide (bn ∈ bs) then bs else bs ++ [bn].

Lemma elem_of_add_logged b bn bs : b ∈ add_logged bn bs <-> b = bn \/ b ∈ bs.
Proof.
  unfold add_logged. case_decide as Hin; [split; [auto|intros [->|]; done]|].
  rewrite elem_of_app, list_elem_of_singleton. tauto.
Qed.
Lemma length_add_logged bn bs : (length bs <= length (add_logged bn bs) <= S (length bs))%nat.
Proof. unfold add_logged. case_decide; rewrite ?length_app; simpl; lia. Qed.

Section txn_view.
Context {T H : Type} {BO : BlockOps T H} {BC : BlockCache T H}.
Implicit Types (x : T) (l : log) (D V : view) (O : list Z).

Record tview (x : T) (l : log) (D V : view) (O : list Z) : Prop := {
  tv_rep : exists a, rep x a /\ (forall bn, pins a !! bn = pin_of (logged l) O V bn) /\ forall bn, disk_block (adisk a) bn = D bn;
  tv_ok : log_ok l;
  tv_nodup : NoDup O;
  tv_clean : forall bn, bn ∉ logged l -> bn ∉ O -> V bn = D bn;
  tv_out : 1 <= outstanding l;
  tv_lsize : LOGSIZE < lsize l
}.

Lemma pins_size (a : abs) l O V :
  (forall bn, pins a !! bn = pin_of (logged l) O V bn) -> (size (pins a) <= length (logged l) + length O)%nat.
Proof.
  intros Hp. rewrite <- length_app, <- size_dom.
  transitivity (size (list_to_set (C := gset Z) (logged l ++ O))).
  - apply subseteq_size. intros b Hb. apply elem_of_dom in Hb as [p Hb]. rewrite elem_of_list_to_set, elem_of_app.
    rewrite Hp in Hb. unfold pin_of in Hb. repeat case_decide; auto; done.
  - clear. induction (logged l ++ O) as [|b bs IH]; [by rewrite list_to_set_nil, size_empty|]. cbn [length].
    rewrite list_to_set_cons, size_union_alt, size_singleton. etrans; [|apply le_n_S, IH]. cbn [Nat.add].
    apply le_n_S, subseteq_size. set_solver.
Qed.

Lemma logged_length l : log_ok l -> length (logged l) = Z.to_nat (lh_n l).
Proof. intros [Hn Hl _ _]. unfold logged. rewrite length_take. unfold LOGSIZE, MAXOPBLOCKS in Hn. lia. Qed.

Lemma tview_read x l D V O bn h :
  tview x l D V O -> cache_free h -> (bn ∉ O) -> 0 <= bn < 2^32 -> (length (logged l) + length O < NBUF)%nat ->
  exists x', lread ROOTDEV bn (World h (Lst x l)) = Ok (handle x' bn) (World h (Lst x' l)) /\
    tview x' l D V (bn :: O) /\ forall b, b ∈ O -> handle x' b = handle x b.
Proof.
  intros [(a & R & Hp & HD) Hok Hnd Hcl Ho Hl] Hh Hni Hbn Hsz. pose proof (pins_size a l O V Hp) as Hsize.
  destruct (lread_run x a bn h l R Hh Hbn) as (x' & E & R' & F').
  { rewrite Hp. unfold pin_of. rewrite decide_False by done. case_decide; [done|lia]. }
  exists x'. split; [done|]. split.
  - split; try done; [|by constructor|].
    + eexists. split; [exact R'|]. split; [|done]. intros b. cbn [set_pin pins]. rewrite lookup_insert, !Hp. unfold pin_of.
      destruct (decide (bn = b)) as [<-|Hne].
      * rewrite (decide_True (P := bn ∈ bn :: O)) by apply list_elem_of_here. rewrite (decide_False (P := bn ∈ O)) by done.
        case_decide as Hlg; cbn; [done|]. by rewrite HD, Hcl.
      * assert (b ∈ bn :: O <-> b ∈ O) as Hiff by (rewrite elem_of_cons; naive_solver).
        destruct (decide (b ∈ O)), (decide (b ∈ bn :: O)); first [done|tauto].
    + intros b Hb Hb'. apply not_elem_of_cons in Hb' as [_ ?]. auto.
  - intros b Hb. apply F'. rewrite Hp. unfold pin_of. rewrite decide_True by done. eauto.
Qed.

Lemma tview_data x l D V O bn : tview x l D V O -> bn ∈ O -> b_data x (handle x bn) = V bn.
Proof.
  intros [(a & R & Hp & _) _ _ _ _ _] Hin. assert (pins a !! bn = Some (Pin (if decide (bn ∈ logged l) then 2 else 1) (V bn) true)) as E.
  { rewrite Hp. unfold pin_of. by rewrite decide_True. }
  by destruct (rep_data x a bn _ R E).
Qed.

Lemma tview_set x l D V O bn f :
  tview x l D V O -> bn ∈ O ->
  let x' := b_setdata (handle x bn) f x in
  tview x' l D (vset bn (f (V bn)) V) O /\ forall b, handle x' b = handle x b.
Proof.
  intros [(a & R & Hp & HD) Hok Hnd Hcl Ho Hl] Hin x'.
  assert (pins a !! bn = Some (Pin (if decide (bn ∈ logged l) then 2 else 1) (V bn) true)) as E.
  { rewrite Hp. unfold pin_of. by rewrite decide_True. }
  destruct (rep_setdata x a bn _ f R E eq_refl) as [R' F']. split; [|exact F'].
  split; try done.
  - eexists. split; [exact R'|]. split; [|done]. intros b. cbn [set_pin pins pcnt pdat]. rewrite lookup_insert, !Hp. unfold pin_of.
    destruct (decide (bn = b)) as [<-|Hne].
    + rewrite (decide_True (P := bn ∈ O)) by done. by rewrite vset_eq.
    + by rewrite !vset_ne by done.
  - intros b Hb Hb'. rewrite vset_ne by (intros ->; done). auto.
Qed.

Lemma tview_log x l D V O bn h :
  tview x l D V O -> fs_free h -> bn ∈ O -> 0 <= bn < 2^31 -> lh_n l < LOGSIZE ->
  exists x' l', log_write (handle x bn) (World h (Lst x l)) = Ok tt (World h (Lst x' l')) /\
    tview x' l' D V O /\ logged l' = add_logged bn (logged l) /\ forall b, handle x' b = handle x b.
Proof.
  intros [(a & R & Hp & HD) Hok Hnd Hcl Ho Hl] [Hh Hlh] Hin Hbn Hlt.
  assert (pins a !! bn = Some (Pin (if decide (bn ∈ logged l) then 2 else 1) (V bn) true)) as E.
  { rewrite Hp. unfold pin_of. by rewrite decide_True. }
  destruct (log_write_run x a l h bn _ R Hh Hlh E) as (x' & l' & Erun & Hok' & Hlg & Hf & R' & F');
    [cbn; case_decide; lia|done|done|done|lia|done|].
  exists x', l'. split; [done|]. split_and!; [|done|done]. injection Hf as Ho' _ Hls _.
  split; try done; rewrite ?Ho', ?Hls; try done.
  - eexists. split; [exact R'|]. rewrite Hlg. destruct (decide (bn ∈ logged l)) as [Hl1|Hl1]; [done|].
    split; [|done]. intros b. cbn [set_pin pins pcnt pdat plock]. rewrite lookup_insert, !Hp. unfold pin_of.
    destruct (decide (bn = b)) as [<-|Hne].
    + rewrite (decide_True (P := bn ∈ O)) by done. rewrite (decide_True (P := bn ∈ logged l ++ [bn])) by (rewrite elem_of_app, list_elem_of_singleton; auto).
      done.
    + assert (b ∈ logged l ++ [bn] <-> b ∈ logged l) as Hiff by (rewrite elem_of_app, list_elem_of_singleton; naive_solver).
      repeat case_decide; first [done|tauto].
  - intros b Hb Hb'. rewrite Hlg in Hb. change (b ∉ add_logged bn (logged l)) in Hb. rewrite elem_of_add_logged in Hb.
    apply Hcl; tauto.
Qed.

Lemma tview_relse x l D V O bn h :
  tview x l D V (bn :: O) -> cache_free h -> (bn ∈ logged l \/ V bn = D bn) ->
  exists x', cache (b_relse (handle x bn)) (World h (Lst x l)) = Ok tt (World h (Lst x' l)) /\
    tview x' l D V O /\ forall b, handle x' b = handle x b.
Proof.
  intros [(a & R & Hp & HD) Hok Hnd Hcl Ho Hl] Hh Hc. apply NoDup_cons in Hnd as [Hni Hnd].
  assert (pins a !! bn = Some (Pin (if decide (bn ∈ logged l) then 2 else 1) (V bn) true)) as E.
  { rewrite Hp. unfold pin_of. by rewrite decide_True by apply list_elem_of_here. }
  destruct (rep_relse x a bn _ h R Hh E) as (x' & Erun & R' & F'); [done| |].
  { cbn. rewrite HD. case_decide; [lia|]. intros _. tauto. }
  exists x'. split; [by apply cache_run|]. split; [|done]. split; try done.
  - eexists. split; [exact R'|]. unfold unref. cbn [pcnt pdat plock]. split.
    + intros b. assert (b <> bn -> pin_of (logged l) (bn :: O) V b = pin_of (logged l) O V b) as Hoth.
      { intros Hne. unfold pin_of. assert (b ∈ bn :: O <-> b ∈ O) by (rewrite elem_of_cons; naive_solver). repeat case_decide; first [done|tauto]. }
      assert (pin_of (logged l) O V bn = if decide (bn ∈ logged l) then Some (Pin 1 (V bn) false) else None) as Hbn.
      { unfold pin_of. by rewrite (decide_False (P := bn ∈ O)). }
      destruct (decide (bn ∈ logged l)); cbn; rewrite ?lookup_insert, ?lookup_delete; case_decide as Eb; subst; rewrite ?Hp; auto.
    + intros b. destruct (decide (bn ∈ logged l)); apply HD.
  - intros b Hb Hb'. destruct (decide (b = bn)) as [->|Hne]; [tauto|]. apply Hcl; [done|]. by apply not_elem_of_cons.
Qed.
End txn_view.

(** ** The primitives of [Fs] on views *)

Section fs_view.
Context {L : Layout} {T H : Type} {BO : BlockOps T H} {BC : BlockCache T H}.
Implicit Types (s : fst T) (D V : view) (O : list Z) (h : list lockid).

Definition set_fl (x : lst T) (s : fst T) : fst T :=
  Fst (fk s) x (itab s) (fsb s) (fpid s) (fpt s) (fcwd s) (fwakes s).
(** Only the cache and the log may differ. *)
Definition same_rest (s s' : fst T) : Prop := s' = set_fl (fl s') s.

Definition fview (s : fst T) (D V : view) (O : list Z) : Prop := tview (lb (fl s)) (lg (fl s)) D V O.
Definition lgd (s : fst T) : list Z := logged (lg (fl s)).
Definition hnd (s : fst T) (bn : Z) : H := handle (lb (fl s)) bn.

#[export] Instance same_rest_preorder : PreOrder same_rest.
Proof.
  split.
  - intros s. by destruct s.
  - intros s s' s'' E1 E2. unfold same_rest, set_fl in *. destruct s, s', s''. cbn in *. congruence.
Qed.
Lemma same_rest_itab s s' : same_rest s s' -> itab s' = itab s.
Proof. by intros ->. Qed.
Lemma same_rest_geti s s' i : same_rest s s' -> geti s' i = geti s i.
Proof. by intros ->. Qed.
Lemma same_rest_sb s s' : same_rest s s' -> fsb s' = fsb s.
Proof. by intros ->. Qed.
Lemma same_rest_fk s s' : same_rest s s' -> fk s' = fk s.
Proof. by intros ->. Qed.
Lemma same_rest_fpt s s' : same_rest s s' -> fpt s' = fpt s.
Proof. by intros ->. Qed.

Lemma fview_ext s D V V' O : fview s D V O -> (forall b, V b = V' b) -> fview s D V' O.
Proof.
  intros [(a & R & Hp & HD) Hok Hnd Hcl Ho Hl] E. split; try done.
  - exists a. split_and!; [done| |done]. intros bn. rewrite Hp. unfold pin_of. by rewrite E.
  - intros bn. rewrite <- E. apply Hcl.
Qed.

Lemma lst_eta (x : lst T) : Lst (lb x) (lg x) = x.
Proof. by destruct x. Qed.

Lemma in_log_run {A} (m : M (lst T) A) r h s x :
  m (World h (fl s)) = Ok r (World h x) -> in_log m (World h s) = Ok r (World h (set_fl x s)).
Proof. intros E. unfold in_log, zoom. cbn [held st]. by rewrite E. Qed.

Lemma open_run s D V O bn h :
  fview s D V O -> fs_free h -> (bn ∉ O) -> 0 <= bn < 2^32 -> (length (lgd s) + length O < NBUF)%nat ->
  exists s', (forall A (k : H -> list Z -> M (fst T) A),
      (bp ← bread_ ROOTDEV bn; d ← bdata bp; k bp d) (World h s) = k (hnd s' bn) (V bn) (World h s')) /\
    same_rest s s' /\ fview s' D V (bn :: O) /\ lgd s' = lgd s /\ forall b, b ∈ O -> hnd s' b = hnd s b.
Proof.
  intros Hv [Hh _] Hni Hbn Hr. destruct (fl s) as [x l] eqn:Efl. unfold fview, lgd in *. rewrite Efl in Hv, Hr.
  destruct (tview_read x l D V O bn h Hv Hh Hni Hbn Hr) as (x' & E & Hv' & F'). cbn [lb lg] in *.
  exists (set_fl (Lst x' l) s). split_and!; [|done|done|by rewrite Efl|].
  - intros A k. unfold bread_. rewrite (bind_run _ _ _ (handle x' bn) (World h (set_fl (Lst x' l) s))) by (apply in_log_run; by rewrite Efl).
    unfold bdata. erewrite bind_run; [|apply in_log_run; reflexivity]. cbn [fl set_fl lb].
    cbv beta. rewrite <- (tview_data x' l D V _ bn Hv') by apply list_elem_of_here. done.
  - intros b Hb. unfold hnd. cbn [fl set_fl lb]. rewrite Efl. auto.
Qed.

(** The same without looking at the data. *)
Lemma open_run' s D V O bn h :
  fview s D V O -> fs_free h -> (bn ∉ O) -> 0 <= bn < 2^32 -> (length (lgd s) + length O < NBUF)%nat ->
  exists s', (forall A (k : H -> M (fst T) A), (bp ← bread_ ROOTDEV bn; k bp) (World h s) = k (hnd s' bn) (World h s')) /\
    same_rest s s' /\ fview s' D V (bn :: O) /\ lgd s' = lgd s /\ forall b, b ∈ O -> hnd s' b = hnd s b.
Proof.
  intros Hv Hh Hni Hbn Hr. destruct (open_run s D V O bn h Hv Hh Hni Hbn Hr) as (s' & E & ?).
  exists s'. split; [|done]. intros A k. rewrite <- (E A (fun bp _ => k bp)). apply bind_ext. intros bp [h0 []]. done.
Qed.

Lemma data_run {A} s D V O bn h (k : list Z -> M (fst T) A) :
  fview s D V O -> bn ∈ O -> (d ← bdata (hnd s bn); k d) (World h s) = k (V bn) (World h s).
Proof.
  intros Hv Hin. unfold bdata, in_log, zoom, mbind, M_bind. cbn. unfold hnd. rewrite (tview_data _ _ _ _ _ _ Hv Hin). by destruct s.
Qed.

Lemma set_run s D V O bn f h :
  fview s D V O -> bn ∈ O ->
  exists s', (forall A (k : unit -> M (fst T) A), (bset (hnd s bn) f ≫= k) (World h s) = k tt (World h s')) /\
    same_rest s s' /\ fview s' D (vset bn (f (V bn)) V) O /\ lgd s' = lgd s /\ forall b, hnd s' b = hnd s b.
Proof.
  intros Hv Hin. destruct (tview_set _ _ _ _ _ bn f Hv Hin) as [Hv' F'].
  eexists (set_fl (Lst _ (lg (fl s))) s). split_and!; [|done|exact Hv'|done|exact F'].
  intros A k. apply bind_run. apply in_log_run. done.
Qed.

Lemma log_run s D V O bn h :
  fview s D V O -> fs_free h -> bn ∈ O -> 0 <= bn < 2^31 -> (length (lgd s) < 30)%nat ->
  exists s', (forall A (k : unit -> M (fst T) A), (log_write_ (hnd s bn) ≫= k) (World h s) = k tt (World h s')) /\
    same_rest s s' /\ fview s' D V O /\ lgd s' = add_logged bn (lgd s) /\ forall b, hnd s' b = hnd s b.
Proof.
  intros Hv Hh Hin Hbn Hr. pose proof (tv_ok _ _ _ _ _ Hv) as Hok. unfold lgd in Hr. rewrite logged_length in Hr by done.
  destruct (tview_log _ _ _ _ _ bn h Hv Hh Hin Hbn) as (x' & l' & E & Hv' & Hlg & F').
  { destruct Hok. unfold LOGSIZE, MAXOPBLOCKS. lia. }
  exists (set_fl (Lst x' l') s). split_and!; [|done|done|done|done].
  intros A k. apply bind_run. apply in_log_run. rewrite lst_eta in E. exact E.
Qed.

Lemma relse_run s D V O bn h :
  fview s D V (bn :: O) -> fs_free h -> bn ∈ lgd s \/ V bn = D bn ->
  exists s', brelse_ (hnd s bn) (World h s) = Ok tt (World h s') /\
    same_rest s s' /\ fview s' D V O /\ lgd s' = lgd s /\ forall b, hnd s' b = hnd s b.
Proof.
  intros Hv [Hh _] Hc. destruct (tview_relse _ _ _ _ _ _ h Hv Hh Hc) as (x' & E & Hv' & F').
  exists (set_fl (Lst x' (lg (fl s))) s). split_and!; [|done|done|done|done].
  apply in_log_run. rewrite lst_eta in E. exact E.
Qed.

Lemma relse_step s D V O bn h :
  fview s D V (bn :: O) -> fs_free h -> bn ∈ lgd s \/ V bn = D bn ->
  exists s', (forall A (k : unit -> M (fst T) A), (brelse_ (hnd s bn) ≫= k) (World h s) = k tt (World h s')) /\
    same_rest s s' /\ fview s' D V O /\ lgd s' = lgd s /\ forall b, hnd s' b = hnd s b.
Proof.
  intros Hv Hh Hc. destruct (relse_run s D V O bn h Hv Hh Hc) as (s' & E & ?). exists s'. split; [|done]. intros A k. by apply bind_run.
Qed.

(** Modify, log and release the buffer opened last. *)
Lemma save_step s D V O bn f h :
  fview s D V (bn :: O) -> fs_free h -> 0 <= bn < 2^31 -> (length (lgd s) < 30)%nat ->
  exists s', (forall A (k : unit -> M (fst T) A),
      (bset (hnd s bn) f;; log_write_ (hnd s bn);; (brelse_ (hnd s bn) ≫= k)) (World h s) = k tt (World h s')) /\
    same_rest s s' /\ fview s' D (vset bn (f (V bn)) V) O /\ lgd s' = add_logged bn (lgd s) /\ forall b, hnd s' b = hnd s b.
Proof.
  intros Hv Hh Hbn Hr. assert (bn ∈ bn :: O) as Hin by apply list_elem_of_here.
  destruct (set_run s D V _ bn f h Hv Hin) as (s1 & E1 & S1 & V1 & L1 & F1).
  destruct (log_run s1 D _ _ bn h V1 Hh Hin Hbn) as (s2 & E2 & S2 & V2 & L2 & F2); [by rewrite L1|].
  destruct (relse_step s2 D _ _ bn h V2 Hh) as (s3 & E3 & S3 & V3 & L3 & F3); [left; rewrite L2, elem_of_add_logged; auto|].
  exists s3. split; [intros A k; rewrite E1, <- (F1 bn), E2, <- (F2 bn); apply E3|]. split; [by rewrite S1, S2|]. split; [done|]. split; [by rewrite L3, L2, L1|].
  intros b. by rewrite F3, F2, F1.
Qed.

Lemma save_run s D V O bn f h :
  fview s D V (bn :: O) -> fs_free h -> 0 <= bn < 2^31 -> (length (lgd s) < 30)%nat ->
  exists s', (bset (hnd s bn) f;; log_write_ (hnd s bn);; brelse_ (hnd s bn)) (World h s) = Ok tt (World h s') /\
    same_rest s s' /\ fview s' D (vset bn (f (V bn)) V) O /\ lgd s' = add_logged bn (lgd s) /\ forall b, hnd s' b = hnd s b.
Proof.
  intros Hv Hh Hbn Hr. destruct (save_step s D V O bn f h Hv Hh Hbn Hr) as (s' & E & ?). exists s'. split; [|done].
  etrans; [|exact (E unit (fun _ => mret tt))]. apply bind_ext. intros [] w1. apply bind_ext. intros [] w2. by rewrite bind_ret_r.
Qed.

(** [bzero] and [iupdate]: a whole update of one block. *)
Lemma update_run s D V O bn f h :
  fview s D V O -> fs_free h -> (bn ∉ O) -> 0 <= bn < 2^31 -> (length (lgd s) + length O < NBUF)%nat ->
  exists s', (bp ← bread_ ROOTDEV bn; bset bp f;; log_write_ bp;; brelse_ bp) (World h s) = Ok tt (World h s') /\
    same_rest s s' /\ fview s' D (vset bn (f (V bn)) V) O /\ lgd s' = add_logged bn (lgd s) /\
    forall b, b ∈ O -> hnd s' b = hnd s b.
Proof.
  intros Hv Hh Hni Hbn Hr.
  destruct (open_run' s D V O bn h Hv Hh Hni) as (s1 & E1 & S1 & V1 & L1 & F1); [lia|done|].
  destruct (save_run s1 D V O bn f h V1 Hh Hbn) as (s2 & E2 & S2 & V2 & L2 & F2); [unfold NBUF in *; rewrite L1; lia|].
  exists s2. split; [rewrite E1; exact E2|]. split; [by rewrite S1, S2|]. split; [done|]. split; [by rewrite L2, L1|].
  intros b Hb. rewrite F2. auto.
Qed.
End fs_view.
