(* ===== verification/FsAlloc.v ===== *)
(** * The free-block bitmap: [balloc] and [bfree] *)

From S2P Require Import Prelude Mem Riscv Kalloc Vm Sleeplock Bio BioSpec Log LogSpec LogOps Fs FsTxn.

(** ** Bits of a bitmap block *)

Lemma flag_testbit x k : 0 <= k -> flag x (Z.shiftl 1 k) = Z.testbit x k.
Proof.
  intros Hk. unfold flag. destruct (Z.testbit x k) eqn:E.
  - apply negb_true_iff, Z.eqb_neq. intros E0. apply (f_equal (fun z => Z.testbit z k)) in E0.
    rewrite Z.land_spec, Z.shiftl_spec, E, Z.sub_diag, Z.bits_0 in E0 by lia. done.
  - apply negb_false_iff, Z.eqb_eq. apply Z.bits_inj'. intros j Hj. rewrite Z.land_spec, Z.shiftl_spec, Z.bits_0 by lia.
    destruct (decide (j = k)) as [->|Hne]; [by rewrite E|].
    destruct (decide (j < k)); [rewrite (Z.testbit_neg_r 1) by lia; apply andb_false_r|].
    rewrite (Z.bits_above_log2 1) by (simpl; lia). apply andb_false_r.
Qed.

Lemma bit_used_testbit d bi : bit_used d bi = Z.testbit (get8 d (Z.to_nat (bi / 8))) (bi mod 8).
Proof. apply flag_testbit. apply Z.mod_pos_bound. lia. Qed.

Lemma get8_insert d i j v : (i < length d)%nat -> get8 (<[i := v]> d) j = if decide (i = j) then v else get8 d j.
Proof.
  intros Hi. unfold get8. case_decide as E.
  - subst j. by rewrite list_lookup_insert_eq.
  - by rewrite list_lookup_insert_ne.
Qed.

(** Two bits of the same byte have different positions in it. *)
Lemma same_byte bi bi' : 0 <= bi -> 0 <= bi' -> Z.to_nat (bi / 8) = Z.to_nat (bi' / 8) -> bi mod 8 = bi' mod 8 -> bi = bi'.
Proof. intros H1 H2 E1 E2. pose proof (Z.div_mod bi 8). pose proof (Z.div_mod bi' 8). pose proof (Z.div_pos bi 8). pose proof (Z.div_pos bi' 8). lia. Qed.

Lemma bit_used_set d bi bi' :
  length d = 1024%nat -> 0 <= bi < BPB -> 0 <= bi' < BPB ->
  bit_used (set_bit bi d) bi' = if decide (bi' = bi) then true else bit_used d bi'.
Proof.
  intros Hl Hb Hb'. unfold BPB, BSIZE in *. rewrite !bit_used_testbit. unfold set_bit.
  rewrite get8_insert by (rewrite Hl; pose proof (Z.div_lt_upper_bound bi 8 1024); lia).
  pose proof (Z.mod_pos_bound bi 8). pose proof (Z.mod_pos_bound bi' 8).
  case_decide as E; [|rewrite decide_False; [done|intros ->; done]].
  rewrite <- E, Z.lor_spec. unfold bit_mask. rewrite Z.shiftl_spec by lia. case_decide as Eb.
  - subst bi'. rewrite Z.sub_diag. apply orb_true_r.
  - assert (bi' mod 8 <> bi mod 8) by (intros Em; apply Eb; apply same_byte; (lia || congruence)).
    destruct (decide (bi' mod 8 < bi mod 8)); [rewrite (Z.testbit_neg_r 1) by lia|rewrite (Z.bits_above_log2 1) by (simpl; lia)]; apply orb_false_r.
Qed.

Lemma bit_used_clear d bi bi' :
  length d = 1024%nat -> 0 <= bi < BPB -> 0 <= bi' < BPB ->
  bit_used (clear_bit bi d) bi' = if decide (bi' = bi) then false else bit_used d bi'.
Proof.
  intros Hl Hb Hb'. unfold BPB, BSIZE in *. rewrite !bit_used_testbit. unfold clear_bit.
  rewrite get8_insert by (rewrite Hl; pose proof (Z.div_lt_upper_bound bi 8 1024); lia).
  pose proof (Z.mod_pos_bound bi 8). pose proof (Z.mod_pos_bound bi' 8).
  case_decide as E; [|rewrite decide_False; [done|intros ->; done]].
  rewrite <- E, Z.land_spec, Z.lnot_spec by lia. unfold bit_mask. rewrite Z.shiftl_spec by lia. case_decide as Eb.
  - subst bi'. rewrite Z.sub_diag. apply andb_false_r.
  - assert (bi' mod 8 <> bi mod 8) by (intros Em; apply Eb; apply same_byte; (lia || congruence)).
    destruct (decide (bi' mod 8 < bi mod 8)); [rewrite (Z.testbit_neg_r 1) by lia|rewrite (Z.bits_above_log2 1) by (simpl; lia)]; apply andb_true_r.
Qed.

Lemma length_set_bit bi d : length (set_bit bi d) = length d.
Proof. apply length_insert. Qed.
Lemma length_clear_bit bi d : length (clear_bit bi d) = length d.
Proof. apply length_insert. Qed.

Lemma free_bit_spec fuel d size b bi :
  0 <= bi -> BPB - bi <= Z.of_nat fuel ->
  match free_bit fuel d size b bi with
  | Some j => bi <= j < BPB /\ b + j < size /\ bit_used d j = false /\ forall k, bi <= k < j -> bit_used d k = true
  | None => forall k, bi <= k < BPB -> b + k < size -> bit_used d k = true
  end.
Proof.
  revert bi. induction fuel as [|fuel IH]; intros bi Hbi Hf; cbn [free_bit]; [lia|].
  destruct (Z.ltb_spec bi BPB); cbn [andb]; [|lia]. destruct (Z.ltb_spec (b + bi) size); cbn [andb]; [|lia].
  destruct (bit_used d bi) eqn:E; cbn [negb]; [|split_and!; [lia|lia|lia|done|lia]].
  specialize (IH (bi + 1) ltac:(lia) ltac:(lia)). destruct (free_bit fuel d size b (bi + 1)) as [j|].
  - destruct IH as (H1 & H2 & H3 & H4). split_and!; [lia|lia|done|done|]. intros k Hk.
    destruct (decide (k = bi)) as [->|]; [done|]. apply H4. lia.
  - intros k Hk Hs. destruct (decide (k = bi)) as [->|]; [done|]. apply IH; lia.
Qed.

(** ** The blocks in use *)

(** Where the bitmap lies, and that block numbers fit an [int]. *)
Record sb_ok (sb : superblock) : Prop := {
  so_size : 0 < sb_size sb < 2^30;
  so_bmap : 2 <= sb_bmapstart sb;
  so_bmap_end : sb_bmapstart sb + sb_size sb / BPB + 1 < 2^30
}.
Definition data_start (sb : superblock) : Z := sb_bmapstart sb + sb_size sb / BPB + 1.
Definition bused (sb : superblock) (V : view) (b : Z) : bool := bit_used (V (BBLOCK b sb)) (b mod BPB).
(** The boot block, superblock, log, inodes and bitmap are marked in use, and
    every block has [BSIZE] bytes. *)
Record fs_ok (sb : superblock) (V : view) : Prop := {
  fo_sb : sb_ok sb;
  fo_len : forall b, length (V b) = 1024%nat;
  fo_meta : forall b, 0 <= b < data_start sb -> bused sb V b = true
}.
(** What [balloc] and [bfree] do to a view. *)
Definition mark (sb : superblock) (b : Z) (V : view) : view := vset (BBLOCK b sb) (set_bit (b mod BPB) (V (BBLOCK b sb))) V.
Definition unmark (sb : superblock) (b : Z) (V : view) : view := vset (BBLOCK b sb) (clear_bit (b mod BPB) (V (BBLOCK b sb))) V.

Section bitmap.
Context (sb : superblock) (SB : sb_ok sb).
Implicit Types V : view.

Lemma BBLOCK_eq b : 0 <= b < sb_size sb -> BBLOCK b sb = b / BPB + sb_bmapstart sb.
Proof using SB.
  intros Hb. destruct SB. unfold BBLOCK. apply u32_small. pose proof (Z.div_pos b BPB). pose proof (Z.div_le_mono b (sb_size sb) BPB).
  unfold BPB, BSIZE in *. lia.
Qed.
Lemma BBLOCK_range b : 0 <= b < sb_size sb -> sb_bmapstart sb <= BBLOCK b sb < data_start sb.
Proof using SB.
  intros Hb. rewrite BBLOCK_eq by done. unfold data_start. pose proof (Z.div_pos b BPB). pose proof (Z.div_le_mono b (sb_size sb) BPB).
  unfold BPB, BSIZE in *. lia.
Qed.
Lemma data_start_range : 2 <= data_start sb < 2^30.
Proof using SB. destruct SB. unfold data_start. pose proof (Z.div_pos (sb_size sb) BPB). unfold BPB, BSIZE in *. lia. Qed.
Lemma bit_range b : 0 <= b mod BPB < BPB.
Proof. apply Z.mod_pos_bound. done. Qed.

(** Blocks with the same bitmap block differ in their bit. *)
Lemma bit_inj b b' : 0 <= b < sb_size sb -> 0 <= b' < sb_size sb -> BBLOCK b sb = BBLOCK b' sb -> b mod BPB = b' mod BPB -> b = b'.
Proof using SB.
  intros Hb Hb' E1 E2. rewrite !BBLOCK_eq in E1 by done. pose proof (Z.div_mod b BPB ltac:(done)). pose proof (Z.div_mod b' BPB ltac:(done)).
  assert (b / BPB = b' / BPB) as E by lia. rewrite E in *. lia.
Qed.

Lemma bused_mark V b b' :
  (forall b, length (V b) = 1024%nat) -> 0 <= b < sb_size sb -> 0 <= b' < sb_size sb ->
  bused sb (mark sb b V) b' = if decide (b' = b) then true else bused sb V b'.
Proof using SB.
  intros Hl Hb Hb'. unfold bused, mark, vset. destruct (decide (BBLOCK b' sb = BBLOCK b sb)) as [E|E].
  - rewrite bit_used_set by (done || apply bit_range). rewrite E. destruct (decide (b' = b)) as [->|Hne]; [by rewrite decide_True|].
    rewrite decide_False; [done|]. intros Em. apply Hne. by apply bit_inj.
  - rewrite decide_False; [done|]. by intros ->.
Qed.
Lemma bused_unmark V b b' :
  (forall b, length (V b) = 1024%nat) -> 0 <= b < sb_size sb -> 0 <= b' < sb_size sb ->
  bused sb (unmark sb b V) b' = if decide (b' = b) then false else bused sb V b'.
Proof using SB.
  intros Hl Hb Hb'. unfold bused, unmark, vset. destruct (decide (BBLOCK b' sb = BBLOCK b sb)) as [E|E].
  - rewrite bit_used_clear by (done || apply bit_range). rewrite E. destruct (decide (b' = b)) as [->|Hne]; [by rewrite decide_True|].
    rewrite decide_False; [done|]. intros Em. apply Hne. by apply bit_inj.
  - rewrite decide_False; [done|]. by intros ->.
Qed.
(** Contents of a data block do not matter to the bitmap. *)
Lemma bused_data V b d b' : data_start sb <= b -> 0 <= b' < sb_size sb -> bused sb (vset b d V) b' = bused sb V b'.
Proof using SB. intros Hb Hb'. unfold bused. rewrite vset_ne; [done|]. pose proof (BBLOCK_range b' Hb'). lia. Qed.
End bitmap.

(** ** [balloc] and [bfree] *)

Section alloc.
Context {L : Layout} {T H : Type} {BO : BlockOps T H} {BC : BlockCache T H}.
Implicit Types (s : fst T) (D V : view) (O : list Z) (h : list lockid).

Lemma clean_or_logged s D V O bn : fview s D V O -> (bn ∉ O) -> bn ∈ lgd s \/ V bn = D bn.
Proof. intros Hv Hni. destruct (decide (bn ∈ lgd s)); [auto|]. right. by apply (tv_clean _ _ _ _ _ Hv). Qed.

(** The lowest free block. *)
Definition first_free (sb : superblock) (V : view) (b0 : Z) : Prop :=
  0 <= b0 < sb_size sb /\ bused sb V b0 = false /\ forall b, 0 <= b < b0 -> bused sb V b = true.
(** The blocks a caller may have locked: data blocks in use. *)
Definition open_ok (sb : superblock) (V : view) (O : list Z) : Prop :=
  Forall (fun b => data_start sb <= b < sb_size sb /\ bused sb V b = true) O.

Lemma open_meta sb V O b : open_ok sb V O -> b < data_start sb -> b ∉ O.
Proof. intros Ho Hb Hin. pose proof (proj1 (Forall_forall _ _) Ho b Hin) as [Hr _]. lia. Qed.
Lemma open_free sb V O b : open_ok sb V O -> bused sb V b = false -> b ∉ O.
Proof. intros Ho Hb Hin. pose proof (proj1 (Forall_forall _ _) Ho b Hin) as [_ Hr]. congruence. Qed.

Lemma first_free_data sb V b0 : fs_ok sb V -> first_free sb V b0 -> data_start sb <= b0.
Proof.
  intros [_ _ Hm] (Hr & Hf & _). destruct (decide (data_start sb <= b0)); [done|]. rewrite Hm in Hf by lia. done.
Qed.

(** The bit of block [b0] in the bitmap block scanned from [b]. *)
Lemma scan_index sb b j : 0 <= b -> b mod BPB = 0 -> 0 <= j < BPB -> BBLOCK (b + j) sb = BBLOCK b sb /\ (b + j) mod BPB = j.
Proof.
  intros Hb Hm Hj. unfold BBLOCK, BPB, BSIZE in *. change (1024 * 8) with 8192 in *.
  assert ((b + j) / 8192 = b / 8192 /\ (b + j) mod 8192 = j) as [-> ->]; [|done].
  Z.to_euclidean_division_equations. lia.
Qed.

Lemma scan_found sb V b b0 j :
  0 <= b -> b mod BPB = 0 -> first_free sb V b0 -> b <= b0 -> 0 <= j < BPB -> b + j < sb_size sb ->
  bit_used (V (BBLOCK b sb)) j = false -> (forall k, 0 <= k < j -> bit_used (V (BBLOCK b sb)) k = true) -> b0 = b + j.
Proof.
  intros Hb Hm (Hr & Hf & Hlow) Hle Hj Hs Hfree Hused. destruct (scan_index sb b j Hb Hm Hj) as [E1 E2].
  assert (bused sb V (b + j) = false) as Hj' by (unfold bused; rewrite E1, E2; done).
  destruct (Z.lt_trichotomy b0 (b + j)) as [Hlt|[?|Hgt]]; [|done|].
  - destruct (scan_index sb b (b0 - b) Hb Hm) as [E3 E4]; [lia|]. replace (b + (b0 - b)) with b0 in E3, E4 by lia.
    unfold bused in Hf. rewrite E3, E4, Hused in Hf by lia. done.
  - rewrite Hlow in Hj' by lia. done.
Qed.
Lemma scan_none sb V b b0 :
  0 <= b -> b mod BPB = 0 -> first_free sb V b0 -> b <= b0 ->
  (forall k, 0 <= k < BPB -> b + k < sb_size sb -> bit_used (V (BBLOCK b sb)) k = true) -> b + BPB <= b0.
Proof.
  intros Hb Hm (Hr & Hf & Hlow) Hle Hused. destruct (decide (b + BPB <= b0)); [done|]. exfalso.
  destruct (scan_index sb b (b0 - b) Hb Hm) as [E3 E4]; [lia|]. replace (b + (b0 - b)) with b0 in E3, E4 by lia.
  unfold bused in Hf. rewrite E3, E4, Hused in Hf by lia. done.
Qed.

Definition alloc_view (sb : superblock) (b0 : Z) (V : view) : view := vset b0 (zeroes BSIZE) (mark sb b0 V).

Lemma balloc_loop_run fuel s D V O b b0 h :
  fview s D V O -> fs_free h -> fs_ok (fsb s) V -> open_ok (fsb s) V O -> (length (lgd s) + length O + 1 < NBUF)%nat ->
  0 <= b -> b mod BPB = 0 -> first_free (fsb s) V b0 -> b <= b0 -> b0 - b < BPB * Z.of_nat fuel ->
  exists s', balloc_loop fuel ROOTDEV b (World h s) = Ok b0 (World h s') /\ same_rest s s' /\
    fview s' D (alloc_view (fsb s) b0 V) O /\ lgd s' = add_logged b0 (add_logged (BBLOCK b0 (fsb s)) (lgd s)) /\
    forall b, b ∈ O -> hnd s' b = hnd s b.
Proof.
  revert s b. induction fuel as [|fuel IH]; intros s b Hv Hh Hok Ho Hr Hb Hm Hff Hle Hfu; [lia|].
  cbn [balloc_loop]. rewrite gets_run. set (sb := fsb s) in *. pose proof (fo_sb _ _ Hok) as SB. pose proof (so_size _ SB) as Hsz.
  pose proof (data_start_range _ SB) as Hds.
  assert (b < sb_size sb) as Hbs by (destruct Hff as [? _]; lia). destruct (Z.ltb_spec b (sb_size sb)); [|lia]. cbn [negb].
  pose proof (BBLOCK_range sb SB b ltac:(lia)) as HB. pose proof (so_bmap _ SB).
  destruct (open_run s D V O (BBLOCK b sb) h) as (s1 & -> & S1 & V1 & L1 & F1); [done|done|apply (open_meta sb V); [done|lia]|lia|lia|].
  pose proof (free_bit_spec (Z.to_nat BPB) (V (BBLOCK b sb)) (sb_size sb) b 0 ltac:(lia) ltac:(done)) as Hfb.
  destruct (free_bit _ _ _ _ _) as [j|].
  - destruct Hfb as (Hj & Hjs & Hjf & Hju). pose proof (scan_found sb V b b0 j Hb Hm Hff Hle ltac:(lia) Hjs Hjf Hju) as ->.
    destruct (scan_index sb b j Hb Hm ltac:(lia)) as [E1 E2]. pose proof (first_free_data sb V _ Hok Hff) as Hd.
    destruct (save_step s1 D V O (BBLOCK b sb) (set_bit j) h) as (s2 & -> & S2 & V2 & L2 & F2); [done|done|lia|rewrite L1; unfold NBUF in *; lia|].
    destruct (update_run s2 D _ O (b + j) (fun _ => zeroes BSIZE) h V2 Hh) as (s3 & E3 & S3 & V3 & L3 & F3).
    { apply (open_free sb V); [done|]. apply Hff. }
    { lia. }
    { rewrite L2, L1. pose proof (length_add_logged (BBLOCK b sb) (lgd s)). unfold NBUF in *. lia. }
    unfold bzero. rewrite (bind_run _ _ _ _ _ E3). exists s3. split; [done|]. split; [by rewrite S1, S2|]. split; [|split].
    + eapply fview_ext; [exact V3|]. intros x. unfold alloc_view, mark. rewrite E1, E2. done.
    + rewrite L3, L2, L1, E1. done.
    + intros x Hx. rewrite F3, F2 by done. auto.
  - destruct (relse_step s1 D V O (BBLOCK b sb) h) as (s2 & -> & S2 & V2 & L2 & F2);
      [done|done|rewrite L1; eapply clean_or_logged; [done|apply (open_meta sb V); [done|lia]]|].
    assert (fsb s2 = sb) as Esb by (rewrite (same_rest_sb s1), (same_rest_sb s) by done; done).
    destruct (IH s2 (b + BPB)) as (s3 & E3 & S3 & V3 & L3 & F3); rewrite ?Esb, ?L2, ?L1; try done; try lia.
    { unfold BPB, BSIZE in *. lia. }
    { rewrite Z.add_mod by done. by rewrite Hm, Z.mod_same by done. }
    { by eapply scan_none. }
    exists s3. split; [done|]. split; [by rewrite S1, S2|]. rewrite Esb in V3, L3. split; [done|].
    rewrite L2, L1 in L3. split; [done|]. intros x Hx. rewrite F3, F2 by done. auto.
Qed.

Lemma balloc_run s D V O b0 h :
  fview s D V O -> fs_free h -> fs_ok (fsb s) V -> open_ok (fsb s) V O -> (length (lgd s) + length O + 1 < NBUF)%nat ->
  first_free (fsb s) V b0 ->
  exists s', balloc ROOTDEV (World h s) = Ok b0 (World h s') /\ same_rest s s' /\
    fview s' D (alloc_view (fsb s) b0 V) O /\ lgd s' = add_logged b0 (add_logged (BBLOCK b0 (fsb s)) (lgd s)) /\
    forall b, b ∈ O -> hnd s' b = hnd s b.
Proof.
  intros Hv Hh Hok Ho Hr Hff. unfold balloc. rewrite gets_run. apply (balloc_loop_run _ s D V O 0); try done; try apply Hff.
  destruct Hff as [Hb _]. pose proof (Z.div_mod (sb_size (fsb s)) BPB ltac:(done)). pose proof (bit_range (sb_size (fsb s))).
  pose proof (Z.div_pos (sb_size (fsb s)) BPB). unfold BPB, BSIZE in *. lia.
Qed.

(** What an allocation does to the bitmap and to block lengths. *)
Lemma alloc_used sb V b0 b :
  fs_ok sb V -> first_free sb V b0 -> 0 <= b < sb_size sb ->
  bused sb (alloc_view sb b0 V) b = if decide (b = b0) then true else bused sb V b.
Proof.
  intros Hok Hff Hb. pose proof (fo_sb _ _ Hok) as SB. unfold alloc_view.
  rewrite bused_data; [|done|by eapply first_free_data|done]. apply bused_mark; [done|apply Hok|apply Hff|done].
Qed.
Lemma alloc_other sb V b0 b : fs_ok sb V -> 0 <= b0 < sb_size sb -> data_start sb <= b -> b <> b0 -> alloc_view sb b0 V b = V b.
Proof.
  intros Hok Hb0 Hb Hne. unfold alloc_view, mark. rewrite !vset_ne; [done| |done].
  pose proof (BBLOCK_range sb (fo_sb _ _ Hok) b0 Hb0). lia.
Qed.
Lemma alloc_fs_ok sb V b0 : fs_ok sb V -> first_free sb V b0 -> fs_ok sb (alloc_view sb b0 V).
Proof.
  intros Hok Hff. pose proof (fo_sb _ _ Hok) as SB. split; [done| |].
  - intros b. unfold alloc_view, mark, vset. repeat case_decide; [done|rewrite length_set_bit; apply Hok|apply Hok].
  - intros b Hb. destruct (decide (b < sb_size sb)) as [Hlt|Hge].
    + rewrite alloc_used by (done || lia). case_decide; [done|]. by apply Hok.
    + pose proof (first_free_data sb V b0 Hok Hff). destruct Hff as [? _]. lia.
Qed.

Lemma bfree_run s D V O b h :
  fview s D V O -> fs_free h -> fs_ok (fsb s) V -> open_ok (fsb s) V O -> (length (lgd s) + length O < NBUF)%nat ->
  0 <= b < sb_size (fsb s) ->
  if bused (fsb s) V b then
    exists s', bfree ROOTDEV b (World h s) = Ok tt (World h s') /\ same_rest s s' /\
      fview s' D (unmark (fsb s) b V) O /\ lgd s' = add_logged (BBLOCK b (fsb s)) (lgd s) /\ forall b, b ∈ O -> hnd s' b = hnd s b
  else bfree ROOTDEV b (World h s) = Panic "freeing free block".
Proof.
  intros Hv Hh Hok Ho Hr Hb. unfold bfree. rewrite gets_run. set (sb := fsb s) in *. pose proof (fo_sb _ _ Hok) as SB.
  pose proof (BBLOCK_range sb SB b Hb) as HB. pose proof (so_bmap _ SB). pose proof (data_start_range _ SB).
  destruct (open_run s D V O (BBLOCK b sb) h) as (s1 & E1 & S1 & V1 & L1 & F1); [done|done|apply (open_meta sb V); [done|lia]|lia|lia|].
  unfold bused. destruct (bit_used (V (BBLOCK b sb)) (b mod BPB)) eqn:Eu.
  - destruct (save_run s1 D V O (BBLOCK b sb) (clear_bit (b mod BPB)) h V1 Hh) as (s2 & E2 & S2 & V2 & L2 & F2);
      [lia|rewrite L1; unfold NBUF in *; lia|].
    exists s2. split; [|split_and!; [by rewrite S1, S2|done|by rewrite L2, L1|intros x Hx; rewrite F2; auto]].
    rewrite E1. rewrite Eu. cbn [negb]. exact E2.
  - rewrite E1. rewrite Eu. done.
Qed.
End alloc.
