(* ===== verification/FsFile.v ===== *)
(** * Files: [bmap], [readi], [writei], [iupdate]

    The contents of an inode are the bytes its block addresses lead to.
    [bmap] may allocate blocks but leaves every file's bytes alone; [writei]
    changes exactly the bytes of its range; the blocks of other files never
    change. *)

From S2P Require Import Prelude Mem Riscv Kalloc Vm Sleeplock Bio BioSpec Log LogSpec LogOps Fs FsTxn FsAlloc.

(** ** The blocks and bytes of an inode *)

Definition blk (V : view) (ip : inode) (n : Z) : Z :=
  if n <? NDIRECT then get_addr ip n
  else if get_addr ip NDIRECT =? 0 then 0
  else get32 (V (get_addr ip NDIRECT)) (Z.to_nat (4 * (n - NDIRECT))).
(** The byte at offset [o] (0 in a hole). *)
Definition fbyte (V : view) (ip : inode) (o : Z) : Z :=
  if blk V ip (o / BSIZE) =? 0 then 0 else get8 (V (blk V ip (o / BSIZE))) (Z.to_nat (o mod BSIZE)).
(** The blocks that belong to the inode. *)
Definition own (V : view) (ip : inode) (b : Z) : Prop :=
  b <> 0 /\ (b = get_addr ip NDIRECT \/ exists n, 0 <= n < MAXFILE /\ b = blk V ip n).

Definition data_block (sb : superblock) (V : view) (b : Z) : Prop :=
  data_start sb <= b < sb_size sb /\ bused sb V b = true.

Record inode_ok (sb : superblock) (V : view) (ip : inode) : Prop := {
  io_dev : ip_dev ip = ROOTDEV;
  io_len : length (ip_addrs ip) = 13%nat;
  io_inum : 0 <= ip_inum ip /\ 2 <= IBLOCK (ip_inum ip) sb < sb_bmapstart sb;
  io_size : 0 <= ip_size ip <= MAXFILE * BSIZE;
  io_own : forall b, own V ip b -> data_block sb V b;
  io_inj : forall n m, 0 <= n < MAXFILE -> 0 <= m < MAXFILE -> blk V ip n = blk V ip m -> blk V ip n <> 0 -> n = m;
  io_ind : forall n, 0 <= n < MAXFILE -> blk V ip n <> 0 -> blk V ip n <> get_addr ip NDIRECT;
  io_full : forall n, 0 <= n < MAXFILE -> n * BSIZE < ip_size ip -> blk V ip n <> 0
}.

(** The inode and the disk have moved from ([V], [ip]) to ([V'], [ip']) and
    only blocks of this file and free blocks are affected. *)
Record ext (sb : superblock) (V : view) (ip : inode) (V' : view) (ip' : inode) : Prop := {
  e_ok : fs_ok sb V';
  e_io : inode_ok sb V' ip';
  e_rest : ip' = set_addrs (ip_addrs ip') ip;
  e_meta : forall b, b < sb_bmapstart sb -> V' b = V b;
  e_used : forall b, 0 <= b < sb_size sb -> bused sb V b = true -> bused sb V' b = true;
  e_frame : forall b, data_block sb V b -> ~ own V ip b -> V' b = V b;
  e_own : forall b, own V' ip' b -> own V ip b \/ (bused sb V b = false);
  e_blk : forall n, 0 <= n < MAXFILE -> blk V ip n <> 0 -> blk V' ip' n = blk V ip n;
  e_ind : get_addr ip NDIRECT <> 0 -> get_addr ip' NDIRECT = get_addr ip NDIRECT
}.

Section ext.
Context (sb : superblock).
Implicit Types (V : view) (ip : inode).

Lemma fext_refl V ip : fs_ok sb V -> inode_ok sb V ip -> ext sb V ip V ip.
Proof. intros Hok Hio. split; try done; [by destruct ip|intros b Hb; by left]. Qed.

Lemma fext_trans V ip V1 ip1 V2 ip2 : ext sb V ip V1 ip1 -> ext sb V1 ip1 V2 ip2 -> ext sb V ip V2 ip2.
Proof.
  intros [Ok1 Io1 Re1 Me1 Us1 Fr1 Ow1 Bl1 In1] [Ok2 Io2 Re2 Me2 Us2 Fr2 Ow2 Bl2 In2].
  pose proof (data_start_range sb (fo_sb _ _ Ok1)). split; [done|done| | | | | | |].
  - rewrite Re2, Re1. done.
  - intros b Hb. rewrite Me2 by done. auto.
  - auto.
  - intros b Hd Hno. rewrite Fr2; [auto| |].
    + destruct Hd as [Hr Hu]. split; [done|]. apply Us1; [lia|done].
    + intros Ho. apply Ow1 in Ho as [?|?]; [done|]. destruct Hd as [_ Hu]. congruence.
  - intros b Ho. destruct (Ow2 b Ho) as [Ho1|Hf]; [auto|]. right.
    apply (io_own _ _ _ Io2) in Ho as [? _]. destruct (bused sb V b) eqn:Eu; [|done]. rewrite Us1 in Hf by (done || lia). done.
  - intros n Hn Hb. rewrite Bl2 by (rewrite ?Bl1 by done; done). auto.
  - intros Hi. rewrite In2 by (rewrite ?In1 by done; done). auto.
Qed.

Lemma own_data V ip n : inode_ok sb V ip -> 0 <= n < MAXFILE -> blk V ip n <> 0 -> data_block sb V (blk V ip n).
Proof. intros Hio Hn Hb. apply (io_own _ _ _ Hio). split; [done|]. right. eauto. Qed.
Lemma own_ind V ip : inode_ok sb V ip -> get_addr ip NDIRECT <> 0 -> data_block sb V (get_addr ip NDIRECT).
Proof. intros Hio Hb. apply (io_own _ _ _ Hio). split; [done|]. by left. Qed.

(** A fresh block [b0] becomes the [bn]th block of the file, or its indirect
    block, and nothing else of the file changes. *)
Record adopts (V : view) (ip : inode) (V' : view) (ip' : inode) (b0 bn : Z) : Prop := {
  ad_ok : fs_ok sb V';
  ad_rest : ip' = set_addrs (ip_addrs ip') ip;
  ad_len : length (ip_addrs ip') = 13%nat;
  ad_meta : forall b, b < sb_bmapstart sb -> V' b = V b;
  ad_free : first_free sb V b0;
  ad_used : forall b, 0 <= b < sb_size sb -> bused sb V' b = if decide (b = b0) then true else bused sb V b;
  ad_keep : forall b, data_block sb V b -> b <> get_addr ip NDIRECT -> V' b = V b;
  ad_zero : V' b0 = zeroes BSIZE;
  ad_ind : get_addr ip' NDIRECT = get_addr ip NDIRECT \/
    (get_addr ip NDIRECT = 0 /\ get_addr ip' NDIRECT = b0 /\ forall n, 0 <= n < MAXFILE -> blk V' ip' n = blk V ip n);
  ad_blk : forall n, 0 <= n < MAXFILE -> blk V' ip' n = blk V ip n \/
    (n = bn /\ blk V ip n = 0 /\ blk V' ip' n = b0 /\ get_addr ip' NDIRECT <> b0)
}.

Section adopts.
Context (V : view) (ip : inode) (V' : view) (ip' : inode) (b0 bn : Z).
Context (Hok : fs_ok sb V) (Hio : inode_ok sb V ip) (A : adopts V ip V' ip' b0 bn).

Lemma adopt_fresh b : own V ip b -> b <> b0.
Proof using All. intros Ho ->. apply (io_own _ _ _ Hio) in Ho as [_ Hu]. destruct (ad_free _ _ _ _ _ _ A) as (_ & Hf & _). congruence. Qed.

Lemma adopt_b0 : data_start sb <= b0 < sb_size sb /\ b0 <> 0.
Proof using All.
  pose proof (first_free_data sb V b0 Hok (ad_free _ _ _ _ _ _ A)). destruct (ad_free _ _ _ _ _ _ A) as ([? ?] & _).
  pose proof (data_start_range sb (fo_sb _ _ Hok)). lia.
Qed.

Lemma adopt_own b : own V' ip' b -> own V ip b \/ b = b0.
Proof using All.
  intros [Hb [E|(n & Hn & E)]].
  - destruct (ad_ind _ _ _ _ _ _ A) as [Ei|(_ & Ei & _)]; rewrite Ei in E; [|by right]. left. split; [done|by left].
  - destruct (ad_blk _ _ _ _ _ _ A n Hn) as [Ei|(_ & _ & Ei & _)]; rewrite Ei in E; [|by right]. left. split; [done|right; eauto].
Qed.

Lemma adopt_data b : data_block sb V b -> data_block sb V' b.
Proof using All.
  intros [Hr Hu]. pose proof (data_start_range sb (fo_sb _ _ Hok)). split; [done|]. rewrite (ad_used _ _ _ _ _ _ A) by lia.
  by case_decide.
Qed.

Lemma adopt_inode_ok : inode_ok sb V' ip'.
Proof using All.
  pose proof adopt_b0 as [Hb0 Hb0']. pose proof (data_start_range sb (fo_sb _ _ Hok)) as Hds.
  destruct Hio as [Idev Ilen Iinum Isize Iown Iinj Iind Ifull].
  rewrite (ad_rest _ _ _ _ _ _ A). split; cbn [set_addrs ip_dev ip_inum ip_size ip_addrs]; try done.
  all: rewrite <- ?(ad_rest _ _ _ _ _ _ A).
  - apply A.
  - intros b Ho. destruct (adopt_own b Ho) as [Ho'| ->]; [apply adopt_data; auto|].
    split; [done|]. rewrite (ad_used _ _ _ _ _ _ A) by lia. by rewrite decide_True.
  - intros n m Hn Hm E Hne. destruct (ad_blk _ _ _ _ _ _ A n Hn) as [En|(-> & _ & En & _)], (ad_blk _ _ _ _ _ _ A m Hm) as [Em|(-> & _ & Em & _)];
      rewrite ?En, ?Em in E; rewrite ?En in Hne; [by apply Iinj| | |done]; exfalso.
    + eapply adopt_fresh; [|exact E]. split; [done|]. right. eauto.
    + symmetry in E. eapply adopt_fresh; [|exact E]. split; [congruence|]. right. eauto.
  - intros n Hn Hne. destruct (ad_blk _ _ _ _ _ _ A n Hn) as [En|(-> & _ & En & Hni)]; rewrite En in *; [|congruence].
    destruct (ad_ind _ _ _ _ _ _ A) as [Ei|(_ & Ei & _)]; rewrite Ei; [by apply Iind|]. apply adopt_fresh. split; [done|]. right. eauto.
  - intros n Hn Hs. specialize (Ifull n Hn Hs). destruct (ad_blk _ _ _ _ _ _ A n Hn) as [En|(-> & E0 & _)]; congruence.
Qed.

Lemma adopt_ext : ext sb V ip V' ip'.
Proof using All.
  split; try apply A; [apply adopt_inode_ok| | | | |].
  - intros b Hb Hu. rewrite (ad_used _ _ _ _ _ _ A) by done. by case_decide.
  - intros b Hd Hno. apply (ad_keep _ _ _ _ _ _ A); [done|]. intros ->. apply Hno. split; [|by left].
    destruct Hd as [? _]. pose proof (data_start_range sb (fo_sb _ _ Hok)). lia.
  - intros b Ho. destruct (adopt_own b Ho) as [?| ->]; [auto|]. right. apply A.
  - intros n Hn Hb. destruct (ad_blk _ _ _ _ _ _ A n Hn) as [En|(_ & E0 & _)]; congruence.
  - intros Hi. destruct (ad_ind _ _ _ _ _ _ A) as [Ei|(E0 & _)]; congruence.
Qed.

Lemma get8_zeroes k : get8 (zeroes BSIZE) k = 0.
Proof. unfold get8, zeroes. destruct (replicate _ 0 !! k) eqn:E; [|done]. apply lookup_replicate in E as [-> _]. done. Qed.

Lemma adopt_bytes o : 0 <= o < MAXFILE * BSIZE -> fbyte V' ip' o = fbyte V ip o.
Proof using All.
  intros Ho. unfold fbyte. assert (0 <= o / BSIZE < MAXFILE) as Hn by (split; [apply Z.div_pos; done || lia|apply Z.div_lt_upper_bound; done || lia]).
  destruct (ad_blk _ _ _ _ _ _ A _ Hn) as [En|(_ & E0 & En & _)]; rewrite En.
  - destruct (Z.eqb_spec (blk V ip (o / BSIZE)) 0) as [|Hne]; [done|]. f_equal. apply (ad_keep _ _ _ _ _ _ A).
    + by apply own_data.
    + by apply (io_ind _ _ _ Hio).
  - rewrite E0. cbn [Z.eqb]. rewrite (ad_zero _ _ _ _ _ _ A), get8_zeroes. by destruct (_ =? _).
Qed.
End adopts.
End ext.

(** ** The three ways [bmap] allocates *)

Lemma get_addr_set i a ip j :
  0 <= i < 13 -> 0 <= j -> length (ip_addrs ip) = 13%nat -> get_addr (set_addr i a ip) j = if decide (i = j) then a else get_addr ip j.
Proof.
  intros Hi Hj Hl. unfold get_addr, set_addr. cbn [set_addrs ip_addrs]. case_decide as E.
  - subst j. rewrite list_lookup_insert_eq by lia. done.
  - rewrite list_lookup_insert_ne by lia. done.
Qed.
Lemma blk_direct V ip n : n < NDIRECT -> blk V ip n = get_addr ip n.
Proof. intros Hn. unfold blk. by destruct (Z.ltb_spec n NDIRECT); [|lia]. Qed.
Lemma blk_indirect V ip n : NDIRECT <= n -> get_addr ip NDIRECT <> 0 ->
  blk V ip n = get32 (V (get_addr ip NDIRECT)) (Z.to_nat (4 * (n - NDIRECT))).
Proof. intros Hn Hi. unfold blk. destruct (Z.ltb_spec n NDIRECT); [lia|]. by destruct (Z.eqb_spec (get_addr ip NDIRECT) 0). Qed.
Lemma blk_no_indirect V ip n : NDIRECT <= n -> get_addr ip NDIRECT = 0 -> blk V ip n = 0.
Proof. intros Hn Hi. unfold blk. destruct (Z.ltb_spec n NDIRECT); [lia|]. by rewrite Hi. Qed.

Section allocations.
Context (sb : superblock) (V : view) (ip : inode) (b0 : Z).
Context (Hok : fs_ok sb V) (Hio : inode_ok sb V ip) (Hff : first_free sb V b0).

Lemma fresh_b0 : data_start sb <= b0 < sb_size sb /\ 2 <= data_start sb.
Proof using All.
  pose proof (first_free_data sb V b0 Hok Hff). pose proof (data_start_range sb (fo_sb _ _ Hok)). destruct Hff as ([? ?] & _). lia.
Qed.
Lemma alloc_meta b : b < sb_bmapstart sb -> alloc_view sb b0 V b = V b.
Proof using All.
  intros Hb. pose proof fresh_b0. pose proof (BBLOCK_range sb (fo_sb _ _ Hok) b0 ltac:(apply Hff)).
  unfold alloc_view, mark. rewrite !vset_ne by lia. done.
Qed.
Lemma alloc_zero : alloc_view sb b0 V b0 = zeroes BSIZE.
Proof. apply vset_eq. Qed.
Lemma alloc_keep b : data_block sb V b -> alloc_view sb b0 V b = V b.
Proof using All.
  intros [Hr Hu]. apply alloc_other; [done|apply Hff|lia|]. intros ->. destruct Hff as (_ & Hf & _). congruence.
Qed.

Lemma adopt_direct bn :
  0 <= bn < NDIRECT -> get_addr ip bn = 0 -> adopts sb V ip (alloc_view sb b0 V) (set_addr bn b0 ip) b0 bn.
Proof using All.
  intros Hbn H0. pose proof fresh_b0. pose proof (io_len _ _ _ Hio) as Hl. unfold NDIRECT in *.
  assert (get_addr (set_addr bn b0 ip) 12 = get_addr ip 12) as Hi by (rewrite get_addr_set by lia; by rewrite decide_False by lia).
  split; try done.
  - by apply alloc_fs_ok.
  - cbn. by rewrite length_insert.
  - apply alloc_meta.
  - intros b Hb. by apply alloc_used.
  - intros b Hb _. by apply alloc_keep.
  - apply alloc_zero.
  - by left.
  - intros n Hn. destruct (decide (n = bn)) as [->|Hne].
    + right. rewrite !blk_direct by (unfold NDIRECT; lia). rewrite get_addr_set, decide_True by lia. split_and!; try done.
      unfold NDIRECT. rewrite Hi. intros E. destruct (decide (b0 = 0)) as [->|]; [lia|]. pose proof (own_ind sb V ip Hio) as Ho. unfold NDIRECT in Ho. rewrite E in Ho.
      destruct Ho as [_ Hu]; [done|]. destruct Hff as (_ & Hf & _). congruence.
    + left. unfold blk, NDIRECT. rewrite Hi. destruct (Z.ltb_spec n 12); [by rewrite get_addr_set, decide_False by lia|].
      destruct (Z.eqb_spec (get_addr ip 12) 0); [done|]. rewrite alloc_keep; [done|]. by apply own_ind.
Qed.

Lemma get32_zeroes k : get32 (zeroes BSIZE) k = 0.
Proof.
  unfold get32, zeroes. rewrite drop_replicate, take_replicate. generalize (Z.to_nat BSIZE - k)%nat. intros n.
  destruct n as [|[|[|[|n]]]]; done.
Qed.

Lemma adopt_indirect bn :
  get_addr ip NDIRECT = 0 -> adopts sb V ip (alloc_view sb b0 V) (set_addr NDIRECT b0 ip) b0 bn.
Proof using All.
  intros H0. pose proof fresh_b0. pose proof (io_len _ _ _ Hio) as Hl.
  assert (get_addr (set_addr NDIRECT b0 ip) NDIRECT = b0) as Hi by (rewrite get_addr_set by (unfold NDIRECT; lia); by rewrite decide_True).
  assert (forall n, 0 <= n < MAXFILE -> blk (alloc_view sb b0 V) (set_addr NDIRECT b0 ip) n = blk V ip n) as Hb.
  { intros n Hn. destruct (decide (n < NDIRECT)) as [Hlt|Hge].
    - rewrite !blk_direct by done. rewrite get_addr_set by (unfold NDIRECT; lia). by rewrite decide_False by lia.
    - rewrite blk_indirect, (blk_no_indirect V) by (lia || rewrite Hi; lia). rewrite Hi, alloc_zero. apply get32_zeroes. }
  split; try done; [by apply alloc_fs_ok|cbn; by rewrite length_insert|apply alloc_meta|intros b ?; by apply alloc_used
    |intros b Hd _; by apply alloc_keep|apply alloc_zero|right; done|left; auto].
Qed.

(** The entry of the indirect block. *)
Definition entry_view (bn : Z) : view :=
  vset (get_addr ip NDIRECT) (put32 (Z.to_nat (4 * (bn - NDIRECT))) b0 (V (get_addr ip NDIRECT))) (alloc_view sb b0 V).

Lemma adopt_entry bn :
  NDIRECT <= bn < MAXFILE -> get_addr ip NDIRECT <> 0 -> blk V ip bn = 0 -> adopts sb V ip (entry_view bn) ip b0 bn.
Proof using All.
  intros Hbn Hi H0. pose proof fresh_b0. pose proof (own_ind sb V ip Hio Hi) as [Hir Hiu].
  assert (get_addr ip NDIRECT <> b0) as Hne by (intros E; rewrite E in Hiu; destruct Hff as (_ & Hf & _); congruence).
  pose proof (alloc_fs_ok sb V b0 Hok Hff) as Hok1. pose proof (fo_sb _ _ Hok) as SB. pose proof (so_size _ SB) as Hsz.
  pose proof (BBLOCK_range sb SB) as HBB. assert (length (V (get_addr ip NDIRECT)) = 1024%nat) as Hlen by apply Hok.
  assert (forall n, NDIRECT <= n < MAXFILE -> (Z.to_nat (4 * (n - NDIRECT)) + 4 <= 1024)%nat) as Hoff.
  { unfold MAXFILE, NINDIRECT, NDIRECT, BSIZE. intros n. change (1024 / 4) with 256. lia. }
  split.
  - split; [done| |].
    + intros b. unfold entry_view, vset. case_decide; [|apply Hok1]. rewrite length_put32; [done|]. rewrite Hlen. by apply Hoff.
    + intros b Hb. unfold entry_view. rewrite bused_data; [by apply Hok1|done|lia|lia].
  - by destruct ip.
  - apply Hio.
  - intros b Hb. unfold entry_view. rewrite vset_ne; [by apply alloc_meta|].
    assert (sb_bmapstart sb <= data_start sb). { pose proof (HBB b0 ltac:(lia)). lia. } lia.
  - done.
  - intros b Hb. unfold entry_view. rewrite bused_data by (done || lia). by apply alloc_used.
  - intros b Hd Hn. unfold entry_view. rewrite vset_ne by done. by apply alloc_keep.
  - unfold entry_view. rewrite vset_ne by done. apply alloc_zero.
  - by left.
  - intros n Hn. destruct (decide (n < NDIRECT)) as [Hlt|Hge]; [left; by rewrite !blk_direct by done|].
    rewrite !blk_indirect by (done || lia). unfold entry_view. rewrite vset_eq. destruct (decide (n = bn)) as [->|Hnb].
    + right. split_and!; [done|by rewrite <- (blk_indirect V ip bn) by (done || lia)|rewrite get32_put32 by (rewrite Hlen; by apply Hoff); apply u32_small; lia|done].
    + left. apply get32_put32_ne; [rewrite Hlen; by apply Hoff|lia].
Qed.
End allocations.

(** ** Free space *)

(** At least [k] blocks are free. *)
Definition nfree (sb : superblock) (V : view) (k : nat) : Prop :=
  exists bs : list Z, NoDup bs /\ (k <= length bs)%nat /\ Forall (fun b => 0 <= b < sb_size sb /\ bused sb V b = false) bs.

Lemma nfree_mono sb V k k' : (k' <= k)%nat -> nfree sb V k -> nfree sb V k'.
Proof. intros Hk (bs & Hnd & Hl & Hf). exists bs. split_and!; [done|lia|done]. Qed.

Lemma first_free_upto sb V n :
  (exists b0, first_free sb V b0) \/ (forall b, 0 <= b < Z.of_nat n -> b < sb_size sb -> bused sb V b = true).
Proof.
  induction n as [|n IH]; [right; intros; lia|]. destruct IH as [?|IH]; [by left|].
  destruct (decide (Z.of_nat n < sb_size sb)) as [Hn|Hn]; [|right; intros b Hb Hs; apply IH; lia].
  destruct (bused sb V (Z.of_nat n)) eqn:E.
  - right. intros b Hb Hs. destruct (decide (b = Z.of_nat n)) as [->|]; [done|]. apply IH; lia.
  - left. exists (Z.of_nat n). split; [lia|]. split; [done|]. intros b Hb. apply IH; lia.
Qed.
Lemma nfree_first sb V k : nfree sb V (S k) -> exists b0, first_free sb V b0.
Proof.
  intros (bs & _ & Hl & Hf). destruct bs as [|b bs]; [simpl in Hl; lia|]. apply Forall_cons in Hf as [[Hb Hu] _].
  destruct (first_free_upto sb V (S (Z.to_nat b))) as [?|Hall]; [done|]. rewrite Hall in Hu by lia. done.
Qed.
(** A view in which at most block [b0] is newly in use. *)
Lemma nfree_take sb V V' b0 k :
  (forall b, 0 <= b < sb_size sb -> bused sb V' b = if decide (b = b0) then true else bused sb V b) ->
  nfree sb V (S k) -> nfree sb V' k.
Proof.
  intros Hu (bs & Hnd & Hl & Hf). exists (filter (fun b => b <> b0) bs). split_and!.
  - by apply NoDup_filter.
  - assert (length bs <= S (length (filter (fun b => b <> b0) bs)))%nat; [|lia]. clear -Hnd.
    induction bs as [|b bs IH]; [simpl; lia|]. apply NoDup_cons in Hnd as [Hni Hnd]. rewrite filter_cons. case_decide as E; simpl.
    + specialize (IH Hnd). lia.
    + subst b. rewrite filter_ne_notin by done. lia.
  - apply Forall_forall. intros b Hb. apply list_elem_of_filter in Hb as [Hne Hb]. rewrite Forall_forall in Hf. destruct (Hf b Hb) as [Hr Hb'].
    split; [done|]. rewrite Hu by done. by rewrite decide_False.
Qed.

(** ** Inode-table frames *)

Section file_ops.
Context {L : Layout} {T H : Type} {BO : BlockOps T H} {BC : BlockCache T H}.
Implicit Types (s : fst T) (D V : view) (O : list Z) (h : list lockid).

(** Only the cache, the log and inode [i] may differ. *)
Record keeps (i : nat) (s s' : fst T) : Prop := {
  k_fk : fk s' = fk s;
  k_sb : fsb s' = fsb s;
  k_pid : fpid s' = fpid s;
  k_pt : fpt s' = fpt s;
  k_cwd : fcwd s' = fcwd s;
  k_wakes : fwakes s' = fwakes s;
  k_len : length (itab s') = length (itab s);
  k_other : forall j, j <> i -> geti s' j = geti s j
}.
#[export] Instance keeps_preorder i : PreOrder (keeps i).
Proof.
  split; [by split|]. intros s1 s2 s3 K1 K2. split; [by rewrite (k_fk _ _ _ K2), (k_fk _ _ _ K1)|by rewrite (k_sb _ _ _ K2), (k_sb _ _ _ K1)
    |by rewrite (k_pid _ _ _ K2), (k_pid _ _ _ K1)|by rewrite (k_pt _ _ _ K2), (k_pt _ _ _ K1)|by rewrite (k_cwd _ _ _ K2), (k_cwd _ _ _ K1)
    |by rewrite (k_wakes _ _ _ K2), (k_wakes _ _ _ K1)|by rewrite (k_len _ _ _ K2), (k_len _ _ _ K1)|].
  intros j Hj. by rewrite (k_other _ _ _ K2), (k_other _ _ _ K1).
Qed.
Lemma same_rest_keeps i s s' : same_rest s s' -> keeps i s s'.
Proof. intros E. rewrite E. by split. Qed.
Lemma geti_updi i f s : (i < length (itab s))%nat -> geti (updi i f s) i = f (geti s i).
Proof. intros Hi. unfold geti, updi, upd_itab. cbn [itab]. rewrite list_lookup_insert_eq by done. done. Qed.
Lemma updi_keeps i f s : keeps i s (updi i f s).
Proof.
  split; try done; unfold updi, upd_itab, geti; cbn [itab]; [apply length_insert|]. intros j Hj. rewrite list_lookup_insert_ne; done.
Qed.
Lemma updi_fview i f s D V O : fview s D V O -> fview (updi i f s) D V O.
Proof. done. Qed.

(** The state before an operation on inode [i]. *)
Record fpre (i : nat) (s : fst T) (D V : view) : Prop := {
  fp_view : fview s D V [];
  fp_ok : fs_ok (fsb s) V;
  fp_ino : inode_ok (fsb s) V (geti s i);
  fp_idx : (i < length (itab s))%nat;
  fp_small : sb_size (fsb s) <= BPB
}.
(** One or more steps of an operation on inode [i] that logged, besides the
    bitmap and the indirect block, only blocks of [W]. *)
Record moved (i : nat) (s : fst T) (D V : view) (s' : fst T) (V' : view) (W : list Z) : Prop := {
  m_keeps : keeps i s s';
  m_pre : fpre i s' D V';
  m_ext : ext (fsb s) V (geti s i) V' (geti s' i);
  m_log : forall b, b ∈ lgd s' -> b ∈ lgd s \/ b = sb_bmapstart (fsb s) \/ (b <> 0 /\ b = get_addr (geti s' i) NDIRECT) \/ b ∈ W
}.

Lemma moved_trans i s D V s1 V1 W1 s2 V2 W2 :
  moved i s D V s1 V1 W1 -> moved i s1 D V1 s2 V2 W2 -> moved i s D V s2 V2 (W1 ++ W2).
Proof.
  intros [K1 P1 E1 L1] [K2 P2 E2 L2]. pose proof (k_sb _ _ _ K1) as Esb. rewrite Esb in *. split; [by etrans|done|by eapply fext_trans|].
  intros b Hb. destruct (L2 b Hb) as [Hb'|[?|[?|?]]]; [|auto|auto|right; right; right; apply elem_of_app; auto].
  destruct (L1 b Hb') as [?|[?|[[Hb0 Hi]|?]]]; [auto|auto| |right; right; right; apply elem_of_app; auto].
  right; right; left. split; [done|]. rewrite (e_ind _ _ _ _ _ E2); congruence.
Qed.

Lemma moved_sub i s D V s' V' W W' : moved i s D V s' V' W -> W ⊆ W' -> moved i s D V s' V' W'.
Proof. intros [K P E Lg] Hs. split; [done..|]. intros b Hb. destruct (Lg b Hb) as [?|[?|[?|?]]]; auto 10. Qed.

Lemma BBLOCK_small sb b : sb_ok sb -> sb_size sb <= BPB -> 0 <= b < sb_size sb -> BBLOCK b sb = sb_bmapstart sb.
Proof. intros SB Hs Hb. rewrite BBLOCK_eq by done. rewrite Z.div_small by lia. lia. Qed.

(** The result of an allocation that the inode adopts. *)
Lemma adopted_moved i s D V s' V' b0 bn W :
  fpre i s D V -> keeps i s s' -> fview s' D V' [] -> adopts (fsb s) V (geti s i) V' (geti s' i) b0 bn ->
  (forall b, b ∈ lgd s' -> b ∈ lgd s \/ b = sb_bmapstart (fsb s) \/ (b <> 0 /\ b = get_addr (geti s' i) NDIRECT) \/ b ∈ W) ->
  moved i s D V s' V' W.
Proof.
  intros P K Hv A Hl. pose proof (adopt_ext _ _ _ _ _ _ _ (fp_ok _ _ _ _ P) (fp_ino _ _ _ _ P) A) as E.
  split; try done. split; rewrite ?(k_sb _ _ _ K), ?(k_len _ _ _ K); [done|apply E|apply E|apply P|apply P].
Qed.

Lemma bmap_hit i s D V bn h :
  fpre i s D V -> fs_free h -> 0 <= bn < MAXFILE -> blk V (geti s i) bn <> 0 -> (length (lgd s) < NBUF)%nat ->
  exists s', bmap i bn (World h s) = Ok (blk V (geti s i) bn) (World h s') /\ same_rest s s' /\ fview s' D V [] /\ lgd s' = lgd s.
Proof.
  intros [Hv Hok Hio Hi Hs] Hh Hbn Hb Hr. unfold bmap. rewrite gets_run. rewrite (io_dev _ _ _ Hio).
  destruct (Z.ltb_spec bn NDIRECT) as [Hd|Hd].
  - rewrite blk_direct in * by done. destruct (Z.eqb_spec (get_addr (geti s i) bn) 0); [done|]. exists s. split_and!; done.
  - destruct (Z.ltb_spec (bn - NDIRECT) NINDIRECT) as [_|]; [|unfold MAXFILE in *; lia].
    destruct (Z.eqb_spec (get_addr (geti s i) NDIRECT) 0) as [E0|E0]; [by rewrite blk_no_indirect in Hb|].
    rewrite blk_indirect in * by done. set (ind := get_addr (geti s i) NDIRECT) in *.
    pose proof (own_ind _ _ _ Hio E0) as [Hir _]. fold ind in Hir. pose proof (so_size _ (fo_sb _ _ Hok)). pose proof (data_start_range _ (fo_sb _ _ Hok)).
    rewrite (bind_run (mret ind) _ _ ind (World h s)) by done.
    destruct (open_run s D V [] ind h Hv Hh (not_elem_of_nil _)) as (s1 & E1 & S1 & V1 & L1 & _); [lia|simpl; lia|]. rewrite E1.
    destruct (Z.eqb_spec (get32 (V ind) (Z.to_nat (4 * (bn - NDIRECT)))) 0); [done|].
    rewrite (bind_run (mret _) _ _ (get32 (V ind) (Z.to_nat (4 * (bn - NDIRECT)))) (World h s1)) by done.
    destruct (relse_run s1 D V [] ind h V1 Hh) as (s2 & E2 & S2 & V2 & L2 & _).
    { rewrite L1. eapply clean_or_logged; [done|apply not_elem_of_nil]. }
    rewrite (bind_run _ _ _ _ _ E2). exists s2. split_and!; [done|by rewrite S1, S2|done|by rewrite L2, L1].
Qed.

(** What [bmap] promises to its callers. *)
Record mapped (i : nat) (s : fst T) (D V : view) (bn : Z) (s' : fst T) (V' : view) (r : Z) : Prop := {
  mp_moved : moved i s D V s' V' [r];
  mp_blk : blk V' (geti s' i) bn = r;
  mp_nz : r <> 0;
  mp_bytes : forall o, 0 <= o < MAXFILE * BSIZE -> fbyte V' (geti s' i) o = fbyte V (geti s i) o;
  mp_free : forall k, nfree (fsb s) V (S (S k)) -> nfree (fsb s) V' k
}.

(** Allocation of a block, or of the indirect block, that inode [i] adopts. *)
Lemma balloc_for i s D V O b0 h :
  fview s D V O -> open_ok (fsb s) V O -> fs_ok (fsb s) V -> sb_size (fsb s) <= BPB -> fs_free h ->
  (length (lgd s) + length O + 1 < NBUF)%nat -> first_free (fsb s) V b0 ->
  exists s', balloc ROOTDEV (World h s) = Ok b0 (World h s') /\ same_rest s s' /\ keeps i s s' /\ fview s' D (alloc_view (fsb s) b0 V) O /\
    (forall b, b ∈ lgd s' -> b ∈ lgd s \/ b = sb_bmapstart (fsb s) \/ b = b0) /\ (length (lgd s') <= length (lgd s) + 2)%nat /\
    forall b, b ∈ O -> hnd s' b = hnd s b.
Proof.
  intros Hv Ho Hok Hs Hh Hr Hff. destruct (balloc_run s D V O b0 h Hv Hh Hok Ho Hr Hff) as (s' & E & S & Hv' & Lg & F').
  exists s'. split_and!; [done|done|by apply same_rest_keeps|done| | |done].
  - intros b. rewrite Lg, !elem_of_add_logged. rewrite (BBLOCK_small _ b0 (fo_sb _ _ Hok) Hs) by apply Hff. tauto.
  - rewrite Lg. pose proof (length_add_logged b0 (add_logged (BBLOCK b0 (fsb s)) (lgd s))). pose proof (length_add_logged (BBLOCK b0 (fsb s)) (lgd s)). lia.
Qed.

Lemma bmap_direct i s D V bn h b0 :
  fpre i s D V -> fs_free h -> 0 <= bn < NDIRECT -> get_addr (geti s i) bn = 0 -> (length (lgd s) + 1 < NBUF)%nat ->
  first_free (fsb s) V b0 ->
  exists s' V', bmap i bn (World h s) = Ok b0 (World h s') /\ mapped i s D V bn s' V' b0.
Proof.
  intros P Hh Hbn H0 Hr Hff. pose proof P as [Hv Hok Hio Hi Hs]. unfold bmap. rewrite gets_run, (io_dev _ _ _ Hio).
  destruct (Z.ltb_spec bn NDIRECT); [|lia]. rewrite H0. cbn [Z.eqb].
  destruct (balloc_for i s D V [] b0 h Hv ltac:(constructor) Hok Hs Hh ltac:(simpl; lia) Hff) as (s1 & E1 & S1 & K1 & V1 & L1 & _).
  rewrite (bind_run _ _ _ _ _ E1), modify_run. eexists (updi i (set_addr bn b0) s1), (alloc_view (fsb s) b0 V). split; [done|].
  assert (i < length (itab s1))%nat as Hi1 by (by rewrite (k_len _ _ _ K1)).
  assert (geti (updi i (set_addr bn b0) s1) i = set_addr bn b0 (geti s i)) as Eg by (rewrite geti_updi by done; by rewrite (same_rest_geti _ _ _ S1)).
  pose proof (adopt_direct _ _ _ b0 Hok Hio Hff bn Hbn H0) as A. pose proof (fresh_b0 _ _ _ _ Hok Hio Hff).
  assert (0 <= bn < MAXFILE) by (change MAXFILE with 268; unfold NDIRECT in *; lia). pose proof (io_len _ _ _ Hio).
  split; rewrite ?Eg; [|rewrite blk_direct, get_addr_set, decide_True by (unfold NDIRECT in *; lia); done|lia
    |intros o; by apply (adopt_bytes _ _ _ _ _ _ _ Hok Hio A)|].
  - eapply adopted_moved; [done|etrans; [exact K1|apply updi_keeps]|exact V1|rewrite Eg; exact A|].
    intros b Hb. destruct (L1 b Hb) as [?|[?| ->]]; auto. right; right; right. apply list_elem_of_singleton. done.
  - intros k Hk. apply (nfree_take _ V _ b0); [apply A|]. by eapply nfree_mono; [|exact Hk]; lia.
Qed.

(** The first half of [bmap] beyond the direct blocks. *)
Lemma bmap_ind i s D V h :
  fpre i s D V -> fs_free h -> (length (lgd s) + 1 < NBUF)%nat -> nfree (fsb s) V 1 ->
  exists s' V', (if get_addr (geti s i) NDIRECT =? 0
                 then addr ← balloc (ip_dev (geti s i)); modify (updi i (set_addr NDIRECT addr));; mret addr
                 else mret (get_addr (geti s i) NDIRECT)) (World h s) = Ok (get_addr (geti s' i) NDIRECT) (World h s') /\
    moved i s D V s' V' [] /\ get_addr (geti s' i) NDIRECT <> 0 /\ (length (lgd s') <= length (lgd s) + 2)%nat /\
    (forall n, 0 <= n < MAXFILE -> blk V' (geti s' i) n = blk V (geti s i) n) /\
    (forall o, 0 <= o < MAXFILE * BSIZE -> fbyte V' (geti s' i) o = fbyte V (geti s i) o) /\
    forall k, nfree (fsb s) V (S k) -> nfree (fsb s) V' k.
Proof.
  intros P Hh Hr Hn. pose proof P as [Hv Hok Hio Hi Hs]. rewrite (io_dev _ _ _ Hio).
  destruct (Z.eqb_spec (get_addr (geti s i) NDIRECT) 0) as [E0|E0].
  - destruct (nfree_first _ _ _ Hn) as [b0 Hff].
    destruct (balloc_for i s D V [] b0 h Hv ltac:(constructor) Hok Hs Hh ltac:(simpl; lia) Hff) as (s1 & E1 & S1 & K1 & V1 & L1 & Ln & _).
    rewrite (bind_run _ _ _ _ _ E1), modify_run. eexists (updi i (set_addr NDIRECT b0) s1), (alloc_view (fsb s) b0 V).
    assert (i < length (itab s1))%nat as Hi1 by (by rewrite (k_len _ _ _ K1)).
    assert (geti (updi i (set_addr NDIRECT b0) s1) i = set_addr NDIRECT b0 (geti s i)) as Eg by (rewrite geti_updi by done; by rewrite (same_rest_geti _ _ _ S1)).
    pose proof (adopt_indirect _ _ _ b0 Hok Hio Hff 0 E0) as A. pose proof (fresh_b0 _ _ _ _ Hok Hio Hff). pose proof (io_len _ _ _ Hio).
    assert (get_addr (set_addr NDIRECT b0 (geti s i)) NDIRECT = b0) as Ei by (rewrite get_addr_set by (unfold NDIRECT; lia); by rewrite decide_True).
    rewrite Eg, Ei. split; [done|]. split_and!; [|lia|exact Ln| | |].
    + eapply adopted_moved; [done|etrans; [exact K1|apply updi_keeps]|exact V1|rewrite Eg; exact A|].
      intros b Hb. rewrite Eg, Ei. destruct (L1 b Hb) as [?|[?| ->]]; auto. right; right; left. split; [lia|done].
    + intros n Hn'. destruct (ad_ind _ _ _ _ _ _ _ A) as [E|(_ & _ & E)]; [rewrite Ei, E0 in E; lia|auto].
    + intros o. by apply (adopt_bytes _ _ _ _ _ _ _ Hok Hio A).
    + intros k. apply (nfree_take _ V _ b0). apply A.
  - exists s, V. split; [done|]. split_and!; [|done|lia|done|done|intros k; by apply nfree_mono; lia].
    split; [done|done|by apply fext_refl|auto].
Qed.

(** The second half: the entry of the indirect block. *)
Definition bmap_entry_code (dv addr bn : Z) : M (fst T) Z :=
  bp ← bread_ dv addr;
  a ← bdata bp;
  addr ← (if get32 a (Z.to_nat (4 * bn)) =? 0 then
            addr ← balloc dv;
            bset bp (put32 (Z.to_nat (4 * bn)) addr);;
            log_write_ bp;;
            mret addr
          else mret (get32 a (Z.to_nat (4 * bn))));
  brelse_ bp;;
  mret addr.

Lemma bmap_entry i s D V bn h b0 :
  fpre i s D V -> fs_free h -> NDIRECT <= bn < MAXFILE -> get_addr (geti s i) NDIRECT <> 0 -> blk V (geti s i) bn = 0 ->
  (length (lgd s) + 2 < NBUF)%nat -> first_free (fsb s) V b0 ->
  exists s' V', bmap_entry_code ROOTDEV (get_addr (geti s i) NDIRECT) (bn - NDIRECT) (World h s) = Ok b0 (World h s') /\
    mapped i s D V bn s' V' b0 /\ forall k, nfree (fsb s) V (S k) -> nfree (fsb s) V' k.
Proof.
  intros P Hh Hbn Hi0 H0 Hr Hff. pose proof P as [Hv Hok Hio Hi Hs]. unfold bmap_entry_code. set (ind := get_addr (geti s i) NDIRECT) in *.
  pose proof (own_ind _ _ _ Hio Hi0) as Hind. fold ind in Hind. pose proof (so_size _ (fo_sb _ _ Hok)). pose proof (data_start_range _ (fo_sb _ _ Hok)).
  destruct Hind as [Hir Hiu].
  destruct (open_run s D V [] ind h Hv Hh (not_elem_of_nil _)) as (s1 & E1 & S1 & V1 & L1 & _); [lia|simpl; lia|]. rewrite E1.
  rewrite blk_indirect in H0 by (done || lia). fold ind in H0. rewrite H0. cbn [Z.eqb].
  pose proof (same_rest_sb _ _ S1) as Esb.
  destruct (balloc_for i s1 D V [ind] b0 h V1) as (s2 & E2 & S2 & K2 & V2 & L2 & Ln2 & F2); rewrite ?Esb; try done.
  { constructor; [split; [lia|done]|constructor]. }
  { rewrite L1. simpl. lia. }
  rewrite bind_assoc, (bind_run _ _ _ _ _ E2), bind_assoc. rewrite Esb in V2, L2. rewrite <- (F2 ind) by apply list_elem_of_here.
  destruct (set_run s2 D _ [ind] ind (put32 (Z.to_nat (4 * (bn - NDIRECT))) b0) h V2 (list_elem_of_here _ _)) as (s3 & E3 & S3 & V3 & L3 & F3).
  rewrite E3. rewrite bind_assoc, <- (F3 ind).
  destruct (log_run s3 D _ [ind] ind h V3 Hh (list_elem_of_here _ _)) as (s4 & E4 & S4 & V4 & L4 & F4); [lia|rewrite L3; rewrite L1 in Ln2; unfold NBUF in *; lia|].
  rewrite E4. rewrite (bind_run (mret b0) _ _ b0 (World h s4)) by done. rewrite <- (F4 ind).
  destruct (relse_run s4 D _ [] ind h V4 Hh) as (s5 & E5 & S5 & V5 & L5 & F5); [left; rewrite L4, elem_of_add_logged; auto|].
  rewrite (bind_run _ _ _ _ _ E5).
  assert (same_rest s s5) as S by (by rewrite S1, S2, S3, S4).
  pose proof (adopt_entry _ _ _ b0 Hok Hio Hff bn Hbn Hi0 ltac:(rewrite blk_indirect by (done || lia); exact H0)) as A.
  assert (fview s5 D (entry_view (fsb s) V (geti s i) b0 bn) []) as V5'.
  { eapply fview_ext; [exact V5|]. intros b. unfold entry_view. fold ind. unfold vset. case_decide; [|done].
    by rewrite (alloc_keep _ _ _ b0 Hok Hio Hff ind) by done. }
  exists s5, (entry_view (fsb s) V (geti s i) b0 bn). split; [done|]. pose proof (fresh_b0 _ _ _ _ Hok Hio Hff).
  assert (length (V ind) = 1024%nat) as Hlen by apply Hok.
  split; [|intros k; apply (nfree_take _ V _ b0), A].
  split; rewrite ?(same_rest_geti _ _ _ S); [| |lia|intros o; by apply (adopt_bytes _ _ _ _ _ _ _ Hok Hio A)|].
  - eapply adopted_moved; [done|by apply same_rest_keeps|done|rewrite (same_rest_geti _ _ _ S); exact A|].
    intros b. rewrite L5, L4, elem_of_add_logged, (same_rest_geti _ _ _ S), L3. fold ind. intros [->|Hb]; [auto 10|].
    destruct (L2 b Hb) as [Hb'|[?| ->]]; [rewrite L1 in Hb'; auto|auto|]. right; right; right. apply list_elem_of_singleton. done.
  - rewrite blk_indirect by (done || lia). fold ind. unfold entry_view. fold ind. rewrite vset_eq, get32_put32, u32_small; [done|lia|].
    rewrite Hlen. revert Hbn. change MAXFILE with 268. unfold NDIRECT. lia.
  - intros k Hk. apply (nfree_take _ V _ b0); [apply A|]. by eapply nfree_mono; [|exact Hk]; lia.
Qed.

Lemma bmap_run i s D V bn h :
  fpre i s D V -> fs_free h -> 0 <= bn < MAXFILE -> (length (lgd s) + 4 < NBUF)%nat -> nfree (fsb s) V 2 ->
  exists r s' V', bmap i bn (World h s) = Ok r (World h s') /\ mapped i s D V bn s' V' r.
Proof.
  intros P Hh Hbn Hr Hf. destruct (decide (blk V (geti s i) bn = 0)) as [H0|H0].
  - destruct (decide (bn < NDIRECT)) as [Hd|Hd].
    + destruct (nfree_first _ _ _ Hf) as [b0 Hff]. rewrite blk_direct in H0 by done.
      destruct (bmap_direct i s D V bn h b0 P Hh) as (s' & V' & ? & ?); [lia|done|lia|done|]. exists b0, s', V'. done.
    + destruct (bmap_ind i s D V h P Hh) as (s1 & V1 & E1 & M1 & Hi1 & Ln1 & B1 & Y1 & F1); [lia|by eapply nfree_mono; [|exact Hf]; lia|].
      pose proof (m_pre _ _ _ _ _ _ _ M1) as P1. pose proof (k_sb _ _ _ (m_keeps _ _ _ _ _ _ _ M1)) as Esb.
      destruct (nfree_first (fsb s) V1 0) as [b0 Hff]; [by apply F1|].
      destruct (bmap_entry i s1 D V1 bn h b0 P1 Hh) as (s2 & V2 & E2 & M2 & F2); [lia|done|by rewrite B1|lia|by rewrite Esb|].
      exists b0, s2, V2. split.
      * unfold bmap. rewrite gets_run. destruct (Z.ltb_spec bn NDIRECT); [lia|].
        destruct (Z.ltb_spec (bn - NDIRECT) NINDIRECT) as [_|]; [|unfold MAXFILE in *; lia].
        rewrite (bind_run _ _ _ _ _ E1), (io_dev _ _ _ (fp_ino _ _ _ _ P)). exact E2.
      * destruct M2 as [Mv Mb Mn My _]. rewrite Esb in F2. split; [eapply (moved_trans _ _ _ _ _ _ []); done|done|done| |].
        -- intros o Ho. rewrite My by done. auto.
        -- intros k Hk. auto.
  - destruct (bmap_hit i s D V bn h P Hh Hbn H0) as (s' & E & S & Hv & Lg); [lia|].
    exists (blk V (geti s i) bn), s', V. split; [done|]. pose proof P as [_ Hok Hio Hi Hs].
    split; rewrite ?(same_rest_geti _ _ _ S); try done; [|intros k; by apply nfree_mono; lia].
    split; [by apply same_rest_keeps| |rewrite (same_rest_geti _ _ _ S); by apply fext_refl|rewrite Lg; auto].
    by split; rewrite ?(same_rest_sb _ _ S), ?(same_rest_geti _ _ _ S), ?(same_rest_itab _ _ S).
Qed.
End file_ops.
