(* ===== verification/FsInode.v ===== *)
(** * On-disk inodes: the layout of [struct dinode], [iupdate], [ilock] *)

From S2P Require Import Prelude Mem Riscv Kalloc Vm Sleeplock Bio BioSpec Log LogSpec LogOps Fs FsTxn FsAlloc FsFile.

(** ** Reading and writing fields of a block *)

(** [n] bytes at [off]. *)
Definition sub (d : list Z) (off n : nat) : list Z := take n (drop off d).

Lemma sub_splice_ne d off l off' n :
  (off + length l <= length d)%nat -> (off' + n <= off \/ off + length l <= off')%nat -> sub (splice d off l) off' n = sub d off' n.
Proof.
  intros Hl Hd. apply list_eq. intros j. unfold sub. destruct (decide (j < n)%nat).
  - rewrite !lookup_take_lt, !lookup_drop by lia. apply lookup_splice_old; lia.
  - by rewrite !lookup_take_ge by lia.
Qed.
Lemma get32_sub d off : get32 d off = little_endian_to_Z 8 (sub d off 4).
Proof. done. Qed.
Lemma get16_sub d off : get16 d off = little_endian_to_Z 8 (sub d off 2).
Proof. done. Qed.

Lemma length_le_bytes n v : 0 <= n -> length (Z_to_little_endian n 8 v) = Z.to_nat n.
Proof. intros Hn. pose proof (length_Z_to_little_endian n 8 v Hn). lia. Qed.

Lemma get16_put16 d off v : (off + 2 <= length d)%nat -> get16 (put16 off v d) off = u16 v.
Proof.
  intros Hl. unfold get16, put16. pose proof (length_le_bytes 2 v ltac:(lia)) as Hlen. change (Z.to_nat 2) with 2%nat in Hlen.
  rewrite <- Hlen at 1. rewrite splice_read by lia. by rewrite little_endian_to_Z_to_little_endian by lia.
Qed.
Lemma length_put16 d off v : (off + 2 <= length d)%nat -> length (put16 off v d) = length d.
Proof. intros Hl. unfold put16. pose proof (length_le_bytes 2 v ltac:(lia)). apply length_splice. lia. Qed.
Lemma sub_put16 d off v off' n :
  (off + 2 <= length d)%nat -> (off' + n <= off \/ off + 2 <= off')%nat -> sub (put16 off v d) off' n = sub d off' n.
Proof. intros Hl Hd. pose proof (length_le_bytes 2 v ltac:(lia)). apply sub_splice_ne; lia. Qed.
Lemma sub_put32 d off v off' n :
  (off + 4 <= length d)%nat -> (off' + n <= off \/ off + 4 <= off')%nat -> sub (put32 off v d) off' n = sub d off' n.
Proof. intros Hl Hd. pose proof (length_le_bytes 4 v ltac:(lia)). apply sub_splice_ne; lia. Qed.

Lemma length_put_words o vs d : (o + 4 * length vs <= length d)%nat -> length (put_words o vs d) = length d.
Proof.
  revert o d. induction vs as [|v vs IH]; intros o d Hl; cbn [put_words]; [done|]. simpl in Hl.
  rewrite IH; rewrite length_put32; lia.
Qed.
Lemma sub_put_words o vs d off' n :
  (o + 4 * length vs <= length d)%nat -> (off' + n <= o \/ o + 4 * length vs <= off')%nat -> sub (put_words o vs d) off' n = sub d off' n.
Proof.
  revert o d. induction vs as [|v vs IH]; intros o d Hl Hd; cbn [put_words]; [done|]. simpl in Hl, Hd.
  rewrite IH by (rewrite ?length_put32; lia). apply sub_put32; lia.
Qed.
Lemma get32_put_words o vs d j v :
  (o + 4 * length vs <= length d)%nat -> vs !! j = Some v -> get32 (put_words o vs d) (o + 4 * j) = u32 v.
Proof.
  revert o d j. induction vs as [|w vs IH]; intros o d j Hl Hj; [done|]. cbn [put_words]. simpl in Hl. destruct j as [|j].
  - injection Hj as ->. rewrite get32_sub, sub_put_words by (rewrite ?length_put32; lia). rewrite <- get32_sub.
    replace (o + 4 * 0)%nat with o by lia. apply get32_put32. lia.
  - replace (o + 4 * S j)%nat with (o + 4 + 4 * j)%nat by lia. apply IH; [rewrite length_put32; lia|done].
Qed.

(** ** A whole [struct dinode] *)

(** The fields fit their C types. *)
Record fields_ok (ip : inode) : Prop := {
  fo_type : -2^15 <= ip_type ip < 2^15;
  fo_major : -2^15 <= ip_major ip < 2^15;
  fo_minor : -2^15 <= ip_minor ip < 2^15;
  fo_nlink : -2^15 <= ip_nlink ip < 2^15;
  fo_size : 0 <= ip_size ip < 2^32;
  fo_alen : length (ip_addrs ip) = 13%nat;
  fo_addrs : Forall (fun a => 0 <= a < 2^32) (ip_addrs ip)
}.

Section dinode.
Context (d : list Z) (o : nat) (ip : inode) (Hl : (o + 64 <= length d)%nat) (Ha : length (ip_addrs ip) = 13%nat).

Definition short_fields : list Z :=
  put16 (o + 6) (ip_nlink ip) (put16 (o + 4) (ip_minor ip) (put16 (o + 2) (ip_major ip) (put16 o (ip_type ip) d))).
Lemma length_short : length short_fields = length d.
Proof using Hl. clear Ha. unfold short_fields. rewrite !length_put16; rewrite ?length_put16; rewrite ?length_put16; rewrite ?length_put16; lia. Qed.
Lemma length_put_dinode : length (put_dinode o ip d) = length d.
Proof using Hl Ha. unfold put_dinode. fold short_fields. pose proof length_short. rewrite length_put_words; rewrite length_put32; lia. Qed.

Lemma sub_shorts off' n : (off' + n <= o \/ o + 8 <= off')%nat -> sub short_fields off' n = sub d off' n.
Proof using Hl.
  clear Ha. intros Hd. unfold short_fields.
  set (d1 := put16 o (ip_type ip) d). assert (length d1 = length d) as H1 by (apply length_put16; lia).
  set (d2 := put16 (o + 2) (ip_major ip) d1). assert (length d2 = length d) as H2 by (unfold d2; rewrite length_put16; lia).
  set (d3 := put16 (o + 4) (ip_minor ip) d2). assert (length d3 = length d) as H3 by (unfold d3; rewrite length_put16; lia).
  rewrite sub_put16 by lia. unfold d3. rewrite sub_put16 by lia. unfold d2. rewrite sub_put16 by lia. apply sub_put16; lia.
Qed.

Lemma sub_put_dinode off' n : (off' + n <= o \/ o + 64 <= off')%nat -> sub (put_dinode o ip d) off' n = sub d off' n.
Proof using Hl Ha.
  intros Hd. unfold put_dinode. fold short_fields. pose proof length_short as Hs.
  rewrite sub_put_words by (rewrite ?length_put32; lia). rewrite sub_put32 by lia. apply sub_shorts. lia.
Qed.

Lemma shorts_get :
  get16 short_fields o = u16 (ip_type ip) /\ get16 short_fields (o + 2) = u16 (ip_major ip) /\
  get16 short_fields (o + 4) = u16 (ip_minor ip) /\ get16 short_fields (o + 6) = u16 (ip_nlink ip).
Proof using Hl.
  clear Ha. unfold short_fields.
  set (d1 := put16 o (ip_type ip) d). assert (length d1 = length d) as H1 by (apply length_put16; lia).
  set (d2 := put16 (o + 2) (ip_major ip) d1). assert (length d2 = length d) as H2 by (unfold d2; rewrite length_put16; lia).
  set (d3 := put16 (o + 4) (ip_minor ip) d2). assert (length d3 = length d) as H3 by (unfold d3; rewrite length_put16; lia).
  split_and!.
  - rewrite get16_sub, sub_put16 by lia. unfold d3. rewrite sub_put16 by lia. unfold d2. rewrite sub_put16 by lia. apply get16_put16. lia.
  - rewrite get16_sub, sub_put16 by lia. unfold d3. rewrite sub_put16 by lia. apply get16_put16. lia.
  - rewrite get16_sub, sub_put16 by lia. apply get16_put16. lia.
  - apply get16_put16. lia.
Qed.

(** What [ilock] reads back of what [iupdate] wrote. *)
Lemma load_put_dinode ip0 :
  fields_ok ip ->
  load_dinode (put_dinode o ip d) o ip0 =
  Inode (ip_dev ip0) (ip_inum ip0) (ip_ref ip0) (ip_lock ip0) (ip_valid ip0)
    (ip_type ip) (ip_major ip) (ip_minor ip) (ip_nlink ip) (ip_size ip) (ip_addrs ip).
Proof using Hl Ha.
  intros [F1 F2 F3 F4 F5 _ F6]. pose proof length_short as Hs. destruct shorts_get as (G1 & G2 & G3 & G4).
  assert (forall x v, -2^15 <= v < 2^15 -> x = u16 v -> i16 x = v) as Hi.
  { intros x v Hv ->. unfold i16, signed, u16. rewrite Z.mod_mod by done. fold (signed 16 v). by apply signed_small. }
  assert (forall off', (off' + 2 <= o + 8)%nat -> get16 (put_dinode o ip d) off' = get16 short_fields off') as Hg.
  { intros off' Ho. rewrite !get16_sub. unfold put_dinode. fold short_fields. rewrite sub_put_words by (rewrite ?length_put32; lia).
    by rewrite sub_put32 by lia. }
  unfold load_dinode, dip_type. f_equal.
  - apply Hi; [done|]. rewrite Hg by lia. done.
  - apply Hi; [done|]. rewrite Hg by lia. done.
  - apply Hi; [done|]. rewrite Hg by lia. done.
  - apply Hi; [done|]. rewrite Hg by lia. done.
  - rewrite get32_sub. unfold put_dinode. fold short_fields. rewrite sub_put_words by (rewrite ?length_put32; lia).
    rewrite <- get32_sub, get32_put32 by lia. by apply u32_small.
  - apply list_eq. intros j. unfold dip_addrs. rewrite list_lookup_fmap. destruct (decide (j < 13)%nat) as [Hj|Hj].
    + rewrite lookup_seq_lt by done. cbn [fmap option_fmap option_map]. destruct (lookup_lt_is_Some_2 (ip_addrs ip) j) as [v Hv]; [lia|].
      rewrite Hv. f_equal. unfold put_dinode. fold short_fields. cbn [Nat.add].
      rewrite (get32_put_words (o + 12) (ip_addrs ip) _ j v) by (done || (rewrite length_put32; lia)). apply u32_small.
      by apply (Forall_lookup_1 _ _ _ _ F6 Hv).
    + rewrite lookup_seq_ge by lia. symmetry. apply lookup_ge_None. lia.
Qed.
End dinode.

Lemma dinode_off_range inum : (dinode_off inum + 64 <= 1024)%nat.
Proof. unfold dinode_off. pose proof (Z.mod_pos_bound inum IPB ltac:(done)). unfold IPB, sizeof_dinode, BSIZE in *. change (1024 / 64) with 16 in *. lia. Qed.

(** Inodes of the same block occupy disjoint bytes. *)
Lemma dinode_disjoint sb i j :
  0 <= i -> 0 <= j -> IBLOCK i sb = IBLOCK j sb -> i <> j -> i / IPB + sb_inodestart sb < 2^32 -> j / IPB + sb_inodestart sb < 2^32 -> 0 <= sb_inodestart sb ->
  (dinode_off i + 64 <= dinode_off j \/ dinode_off j + 64 <= dinode_off i)%nat.
Proof.
  intros Hi Hj E Hne Hb Hb' Hs. unfold IBLOCK in E. pose proof (Z.div_pos i IPB Hi ltac:(done)). pose proof (Z.div_pos j IPB Hj ltac:(done)).
  rewrite !u32_small in E by lia. pose proof (Z.div_mod i IPB ltac:(done)). pose proof (Z.div_mod j IPB ltac:(done)).
  pose proof (Z.mod_pos_bound i IPB ltac:(done)). pose proof (Z.mod_pos_bound j IPB ltac:(done)).
  assert (i mod IPB <> j mod IPB) by (intros Em; apply Hne; assert (i / IPB = j / IPB) as Ed by lia; rewrite Ed, Em in *; lia).
  unfold dinode_off, sizeof_dinode. lia.
Qed.

(** An inode survives the disk.  What [ilock] loads from the slot of an
    inode after [iupdate] stored it there is, field by field, what was stored,
    and the slots of the other inodes of the block keep their bytes. *)
Theorem inode_roundtrip (sb : superblock) (d : list Z) (ip ip0 : inode) (j : Z) :
  length d = 1024%nat -> fields_ok ip -> 0 <= ip_inum ip -> 0 <= j -> j <> ip_inum ip -> IBLOCK j sb = IBLOCK (ip_inum ip) sb ->
  0 <= sb_inodestart sb -> j / IPB + sb_inodestart sb < 2^32 -> ip_inum ip / IPB + sb_inodestart sb < 2^32 ->
  let d' := put_dinode (dinode_off (ip_inum ip)) ip d in
  load_dinode d' (dinode_off (ip_inum ip)) ip0 =
    Inode (ip_dev ip0) (ip_inum ip0) (ip_ref ip0) (ip_lock ip0) (ip_valid ip0)
      (ip_type ip) (ip_major ip) (ip_minor ip) (ip_nlink ip) (ip_size ip) (ip_addrs ip) /\
  take 64 (drop (dinode_off j) d') = take 64 (drop (dinode_off j) d).
Proof.
  intros Hd Hf Hi Hj Hne Hb Hs H1 H2 d'. pose proof (dinode_off_range (ip_inum ip)). pose proof (fo_alen _ Hf). split.
  - apply load_put_dinode; [lia|done|done].
  - change (sub d' (dinode_off j) 64 = sub d (dinode_off j) 64). apply sub_put_dinode; [lia|done|]. destruct (dinode_disjoint sb (ip_inum ip) j Hi Hj) as [?|?]; [done|done|done|done|done|lia|lia].
Qed.
Lemma inode_roundtrip_witness :
  let ip := Inode 1 17 1 (Sleeplock false 0) true 2 0 0 1 5 (46 :: replicate 12 0) in
  load_dinode (put_dinode (dinode_off 17) ip (zeroes BSIZE)) (dinode_off 17) ip = ip /\
  take 64 (drop (dinode_off 18) (put_dinode (dinode_off 17) ip (zeroes BSIZE))) = take 64 (drop (dinode_off 18) (zeroes BSIZE)).
Proof.
  intros ip. apply (inode_roundtrip (Superblock 0 0 0 0 0 0 32 45) (zeroes BSIZE) ip ip 18).
  - reflexivity.
  - split; cbn; try lia. repeat constructor; lia.
  - cbn. lia.
  - lia.
  - cbn. lia.
  - reflexivity.
  - cbn. lia.
  - reflexivity.
  - reflexivity.
Defined.
