(* ===== verification/FsRw.v ===== *)
(** * [readi] and [writei] on the bytes of a file *)

From S2P Require Import Prelude Mem Riscv Kalloc Vm VmSpec VmProps Copy Sleeplock Bio BioSpec Log LogSpec LogOps Fs FsTxn FsAlloc FsFile FsInode.

(** ** One block at a time *)

Lemma off_split o m : 0 <= o -> 0 <= m -> o mod BSIZE + m < BSIZE -> (o + m) / BSIZE = o / BSIZE /\ (o + m) mod BSIZE = o mod BSIZE + m.
Proof. intros Ho Hm Hlt. unfold BSIZE in *. Z.to_euclidean_division_equations. lia. Qed.

Lemma chunk_lookup (d : list Z) (o m j : nat) : (o + m <= length d)%nat -> (j < m)%nat -> take m (drop o d) !! j = Some (get8 d (o + j)).
Proof.
  intros Hl Hj. rewrite lookup_take_lt, lookup_drop by lia. unfold get8. destruct (lookup_lt_is_Some_2 d (o + j)) as [x Hx]; [lia|].
  by rewrite Hx.
Qed.

(** The bytes of a file in [off, off + n). *)
Definition fbytes (V : view) (ip : inode) (off n : Z) : list Z := fbyte V ip <$> seqZ off n.

Lemma chunk_fbytes V ip off m :
  0 <= off -> 0 <= m -> off mod BSIZE + m <= BSIZE -> blk V ip (off / BSIZE) <> 0 -> length (V (blk V ip (off / BSIZE))) = 1024%nat ->
  take (Z.to_nat m) (drop (Z.to_nat (off mod BSIZE)) (V (blk V ip (off / BSIZE)))) = fbytes V ip off m.
Proof.
  intros Ho Hm Hlt Hb Hl. pose proof (Z.mod_pos_bound off BSIZE ltac:(done)) as Hmod. pose proof (off_split off) as Hsp. unfold fbytes, fbyte. unfold BSIZE in *.
  apply list_eq. intros j. rewrite list_lookup_fmap. destruct (decide (j < Z.to_nat m)%nat) as [Hj|Hj].
  - rewrite chunk_lookup by lia. rewrite lookup_seqZ_lt by lia. cbn [fmap option_fmap option_map]. f_equal.
    destruct (Hsp (Z.of_nat j)) as [-> ->]; [lia|lia|lia|]. destruct (Z.eqb_spec (blk V ip (off / 1024)) 0); [done|].
    f_equal. lia.
  - rewrite lookup_take_ge by lia. rewrite lookup_seqZ_ge by lia. done.
Qed.

Lemma fbytes_app V ip off m n : 0 <= m -> 0 <= n -> fbytes V ip off (m + n) = fbytes V ip off m ++ fbytes V ip (off + m) n.
Proof. intros Hm Hn. unfold fbytes. rewrite seqZ_app by done. by rewrite fmap_app. Qed.
Lemma length_fbytes V ip off n : length (fbytes V ip off n) = Z.to_nat n.
Proof. unfold fbytes. by rewrite length_fmap, length_seqZ. Qed.

(** Overwriting a data block of the file. *)
Section write_block.
Context (sb : superblock) (V : view) (ip : inode) (n : Z) (d : list Z).
Context (Hok : fs_ok sb V) (Hio : inode_ok sb V ip) (Hn : 0 <= n < MAXFILE) (Hb : blk V ip n <> 0) (Hd : length d = 1024%nat).
#[local] Abbreviation V' := (vset (blk V ip n) d V).

Lemma write_blk m : 0 <= m < MAXFILE -> blk V' ip m = blk V ip m.
Proof using All.
  intros Hm. destruct (decide (m < NDIRECT)); [by rewrite !blk_direct by done|].
  destruct (decide (get_addr ip NDIRECT = 0)); [by rewrite !blk_no_indirect by (done || lia)|].
  rewrite !(blk_indirect _ _ m) by (done || lia). rewrite vset_ne; [done|]. intros E. by apply (io_ind _ _ _ Hio n Hn Hb).
Qed.
Lemma write_own b : own V' ip b <-> own V ip b.
Proof using All. unfold own. split; intros [H0 [?|(m & Hm & ->)]]; (split; [done|]); auto; right; exists m; (split; [done|]); by rewrite write_blk by done. Qed.
Lemma write_used b : 0 <= b < sb_size sb -> bused sb V' b = bused sb V b.
Proof using All. intros. apply bused_data; [apply Hok| |done]. by apply (own_data sb V ip n). Qed.

Lemma write_ext : ext sb V ip V' ip.
Proof using All.
  pose proof (own_data sb V ip n Hio Hn Hb) as [Hr Hu]. pose proof (data_start_range sb (fo_sb _ _ Hok)) as Hds.
  assert (fs_ok sb V') as Hok'.
  { split; [apply Hok| |].
    - intros b. unfold vset. case_decide; [done|apply Hok].
    - intros b Hb'. destruct (decide (b < sb_size sb)); [rewrite write_used by lia; by apply Hok|].
      unfold bused. rewrite vset_ne; [by apply Hok|]. intros E.
      assert (BBLOCK b sb < data_start sb); [|lia]. destruct (fo_sb _ _ Hok) as [? ? ?]. unfold BBLOCK.
      pose proof (Z.div_le_mono b (data_start sb) BPB ltac:(done) ltac:(lia)). unfold data_start in *. lia. }
  destruct Hio as [Idev Ilen Iinum Isize Iown Iinj Iind Ifull]. split; try done.
  - split; try done.
    + intros b Ho. apply write_own in Ho. destruct (Iown b Ho) as [? Hub]. split; [done|]. rewrite write_used by lia. done.
    + intros m m' Hm Hm'. rewrite !write_blk by done. auto.
    + intros m Hm. rewrite write_blk by done. auto.
    + intros m Hm. rewrite write_blk by done. auto.
  - by destruct ip.
  - intros b Hb'. rewrite vset_ne; [done|]. pose proof (BBLOCK_range sb (fo_sb _ _ Hok) (blk V ip n) ltac:(lia)). lia.
  - intros b Hb' Hub. by rewrite write_used.
  - intros b _ Hno. rewrite vset_ne; [done|]. intros ->. apply Hno. split; [done|]. right. eauto.
  - intros b Ho. left. by apply write_own.
  - intros m Hm Hb'. by apply write_blk.
Qed.

Lemma write_fbyte o : 0 <= o < MAXFILE * BSIZE ->
  fbyte V' ip o = if decide (o / BSIZE = n) then get8 d (Z.to_nat (o mod BSIZE)) else fbyte V ip o.
Proof using All.
  intros Ho. assert (0 <= o / BSIZE < MAXFILE) as Hon by (split; [apply Z.div_pos; done || lia|apply Z.div_lt_upper_bound; done || lia]).
  unfold fbyte. rewrite write_blk by done. case_decide as E.
  - subst n. destruct (Z.eqb_spec (blk V ip (o / BSIZE)) 0); [done|]. by rewrite vset_eq.
  - destruct (Z.eqb_spec (blk V ip (o / BSIZE)) 0); [done|]. rewrite vset_ne; [done|]. intros E'. apply E. by apply (io_inj _ _ _ Hio).
Qed.
End write_block.

(** ** Reading *)

Section rw.
Context {L : Layout} {T H : Type} {BO : BlockOps T H} {BC : BlockCache T H}.
Implicit Types (s : fst T) (D V : view) (h : list lockid).

Definition set_fk (k : kstate) (s : fst T) : fst T :=
  Fst k (fl s) (itab s) (fsb s) (fpid s) (fpt s) (fcwd s) (fwakes s).
(** Only memory, the cache and the log may differ. *)
Definition reads (s s' : fst T) : Prop := s' = set_fk (fk s') (set_fl (fl s') s).
#[export] Instance reads_preorder : PreOrder reads.
Proof.
  split; [by intros []|]. intros s s' s'' E1 E2. unfold reads, set_fk, set_fl in *. destruct s, s', s''. cbn in *. congruence.
Qed.
Lemma same_rest_reads s s' : same_rest s s' -> reads s s'.
Proof. intros ->. done. Qed.
Lemma reads_geti s s' i : reads s s' -> geti s' i = geti s i.
Proof. by intros ->. Qed.
Lemma reads_fpre i s s' D V : reads s s' -> fview s' D V [] -> fpre i s D V -> fpre i s' D V.
Proof. intros R Hv [_ Hok Hio Hi Hs]. split; [done|..]; rewrite R; done. Qed.

(** A destination with page table [pt] that takes [N] bytes: [P got] is what
    holds of memory once the bytes [got] have been copied. *)
Definition accepts (dst : kdst) (pt : Z) (N : nat) (P : list Z -> kstate -> Prop) (h : list lockid) : Prop :=
  forall s got bs, fpt s = pt -> (length got + length bs <= N)%nat -> P got (fk s) ->
  exists k, copy_to dst (Z.of_nat (length got)) bs (World h s) = Ok 0 (World h (set_fk k s)) /\ P (got ++ bs) k.

(** Where the bytes of a destination are, starting from memory [k0]. *)
Definition received (dst : kdst) (pt : Z) (k0 : kstate) (got : list Z) (k : kstate) : Prop :=
  match dst with
  | ToLocal => k = k0
  | ToKernel a => k = KState (stn (kmem k0) a got) (freelist k0)
  | ToUser a => user_written (kmem k0) (kmem k) pt a got /\ freelist k = freelist k0
  end.
(** The [N] bytes of the destination exist; those of a user address are
    mapped for the user, one to one, outside the page table. *)
Definition room (dst : kdst) (pt : Z) (k0 : kstate) (N : nat) : Prop :=
  match dst with
  | ToLocal => True
  | ToKernel a => 0 <= a /\ a + Z.of_nat N < 2^64
  | ToUser a => 0 <= a /\ a + Z.of_nat N < 2^64 /\
      exists own, pt_inv (kmem k0) pt own /\ user_range (kmem k0) pt own a (Z.of_nat N) /\ user_inj (kmem k0) pt a (Z.of_nat N)
  end.

Lemma accepts_local pt N (P : kstate -> Prop) h : accepts ToLocal pt N (fun _ => P) h.
Proof. intros s got bs _ _ HP. exists (fk s). split; [|done]. unfold copy_to. rewrite gets_run. by destruct s. Qed.

Lemma stn_app m a bs1 bs2 : stn m a (bs1 ++ bs2) = stn (stn m a bs1) (a + Z.of_nat (length bs1)) bs2.
Proof.
  revert m a. induction bs1 as [|b bs1 IH]; intros m a; [by rewrite Z.add_0_r|]. cbn [app stn length]. rewrite IH. f_equal. lia.
Qed.

(** What an address space keeps under stores to its user pages. *)
Definition user_kept (pt : Z) (k0 k : kstate) (own : gmap Z (list Z)) : Prop :=
  pt_inv (kmem k) pt own /\ forall va, utrans (kmem k) pt va = utrans (kmem k0) pt va.

Lemma accepts_room {LO : LayoutOk L} dst pt k0 N h : room dst pt k0 N ->
  exists P, accepts dst pt N P h /\ P [] k0 /\ forall got k, P got k -> received dst pt k0 got k.
Proof.
  destruct dst as [a|a|]; cbn [room received].
  - intros (Ha & Hmax & own & Hpt & Hur & Hinj).
    exists (fun got k => user_written (kmem k0) (kmem k) pt a got /\ freelist k = freelist k0 /\ user_kept pt k0 k own).
    split; [|split; [split; [split; [intros i b Hi; by rewrite lookup_nil in Hi|done]|done]|tauto]].
    intros s got bs Epts Hl (Hw & Hfl & Hpt1 & Htr). unfold copy_to. rewrite gets_run, Epts. rewrite u64_small by lia.
    destruct (copyout_loop_spec (S (length bs)) (a + Z.of_nat (length got)) bs h (fk s) pt own) as (k & E & Hf1 & Hpt2 & Htr2 & Hw2); [lia|done| | |].
    { intros x Hx. rewrite Htr. apply Hur. lia. }
    { intros x y Hx Hy. rewrite !Htr. apply Hinj; lia. }
    exists k. split; [|split; [|split; [congruence|split; [done|intros va; by rewrite Htr2]]]].
    + unfold in_mem, zoom, either_copyout, copyout. cbn [held st]. by rewrite E.
    + apply (user_written_seq _ (kmem (fk s))); [|done|done|exact Hw2]. intros x y Hx Hy. rewrite length_app in Hx, Hy. apply Hinj; lia.
  - intros [Ha Hmax]. exists (fun got k => k = KState (stn (kmem k0) a got) (freelist k0)). split_and!; [|by destruct k0|done].
    intros s got bs _ Hl Hk. exists (KState (stn (kmem k0) a (got ++ bs)) (freelist k0)). split; [|done].
    unfold copy_to. rewrite gets_run, u64_small by lia. unfold in_mem, zoom, either_copyout. cbn [held st]. rewrite Hk.
    cbv [mbind M_bind modify mret M_ret upd_mem kmem freelist held st]. by rewrite stn_app.
  - intros _. exists (fun _ k => k = k0). split_and!; [apply accepts_local|done|done].
Qed.

(** One turn of the loop of [readi]. *)
Lemma readi_turn {A} i s D V dst N P off m got h (k : list Z -> M (fst T) A) (fail : M (fst T) A) :
  fpre i s D V -> fs_free h -> accepts dst (fpt s) N P h -> P got (fk s) -> Z.of_nat (length got) + m <= Z.of_nat N -> 0 <= off -> 0 < m -> off mod BSIZE + m <= BSIZE -> off < MAXFILE * BSIZE ->
  blk V (geti s i) (off / BSIZE) <> 0 -> (length (lgd s) < NBUF)%nat ->
  exists s', (addr ← bmap i (off / BSIZE);
       bp ← bread_ ROOTDEV addr; d ← bdata bp;
       r ← copy_to dst (Z.of_nat (length got)) (take (Z.to_nat m) (drop (Z.to_nat (off mod BSIZE)) d));
       if r =? -1 then brelse_ bp;; fail else brelse_ bp;; k (take (Z.to_nat m) (drop (Z.to_nat (off mod BSIZE)) d))) (World h s)
    = k (fbytes V (geti s i) off m) (World h s') /\ reads s s' /\ fview s' D V [] /\ lgd s' = lgd s /\ P (got ++ fbytes V (geti s i) off m) (fk s').
Proof.
  intros Pre Hh Hacc HP HN Ho Hm Hlt Hmax Hb Hr. pose proof Pre as [Hv Hok Hio Hi Hs].
  assert (0 <= off / BSIZE < MAXFILE) as Hn by (split; [apply Z.div_pos; done || lia|apply Z.div_lt_upper_bound; done || lia]).
  destruct (bmap_hit i s D V (off / BSIZE) h Pre Hh Hn Hb Hr) as (s1 & E1 & S1 & V1 & L1). rewrite (bind_run _ _ _ _ _ E1).
  set (b := blk V (geti s i) (off / BSIZE)) in *. pose proof (own_data _ _ _ _ Hio Hn Hb) as [Hbr _]. fold b in Hbr.
  pose proof (so_size _ (fo_sb _ _ Hok)). pose proof (data_start_range _ (fo_sb _ _ Hok)).
  destruct (open_run s1 D V [] b h V1 Hh (not_elem_of_nil _)) as (s2 & E2 & S2 & V2 & L2 & _); [lia|rewrite L1; simpl; lia|]. rewrite E2.
  assert (take (Z.to_nat m) (drop (Z.to_nat (off mod BSIZE)) (V b)) = fbytes V (geti s i) off m) as Ech
    by (unfold b; apply chunk_fbytes; [lia|lia|done|done|apply Hok]). rewrite Ech.
  destruct (Hacc s2 got (fbytes V (geti s i) off m)) as (k' & E3 & HP').
  { by rewrite S2, S1. }
  { unfold fbytes. rewrite length_fmap, length_seqZ. lia. }
  { rewrite (same_rest_fk _ _ S2), (same_rest_fk _ _ S1). done. }
  rewrite (bind_run _ _ _ _ _ E3). cbn [Z.eqb].
  destruct (relse_run (set_fk k' s2) D V [] b h V2 Hh) as (s4 & E4 & S4 & V4 & L4 & _).
  { change (lgd (set_fk k' s2)) with (lgd s2). rewrite L2, L1. eapply clean_or_logged; [done|apply not_elem_of_nil]. }
  change (hnd (set_fk k' s2) b) with (hnd s2 b) in E4. rewrite (bind_run _ _ _ _ _ E4). exists s4. split.
  - done.
  - split_and!; [|done| |].
    + rewrite (same_rest_reads _ _ S1), (same_rest_reads _ _ S2). etrans; [|by apply same_rest_reads]. by unfold reads.
    + rewrite L4. change (lgd (set_fk k' s2)) with (lgd s2). by rewrite L2.
    + by rewrite (same_rest_fk _ _ S4).
Qed.

Lemma readi_loop_run fuel i s D V dst P off n tot got h :
  fpre i s D V -> fs_free h -> accepts dst (fpt s) (Z.to_nat n) P h -> P got (fk s) -> Z.of_nat (length got) = tot -> 0 <= off -> 0 <= tot <= n -> n < 2^31 ->
  off + (n - tot) <= ip_size (geti s i) -> (length (lgd s) < NBUF)%nat -> n - tot < Z.of_nat fuel ->
  exists s', readi_loop fuel i dst off n tot got (World h s) = Ok (n, got ++ fbytes V (geti s i) off (n - tot)) (World h s') /\
    reads s s' /\ fview s' D V [] /\ lgd s' = lgd s /\ P (got ++ fbytes V (geti s i) off (n - tot)) (fk s').
Proof.
  revert s off tot got. induction fuel as [|fuel IH]; intros s off tot got Pre Hh Hacc HP Hg Ho Ht Hn Hsz Hr Hf; [lia|]. cbn [readi_loop].
  pose proof Pre as [Hv Hok Hio Hi Hs]. pose proof (io_size _ _ _ Hio) as Hms.
  destruct (Z.ltb_spec tot n) as [Hlt|Hge]; cbn [negb].
  - rewrite gets_run, (io_dev _ _ _ Hio). set (m := Z.min (n - tot) (BSIZE - off mod BSIZE)).
    pose proof (Z.mod_pos_bound off BSIZE ltac:(done)) as Hmod.
    assert (0 < m /\ off mod BSIZE + m <= BSIZE /\ m <= n - tot) as (Hm1 & Hm2 & Hm3) by lia.
    assert (blk V (geti s i) (off / BSIZE) <> 0) as Hb.
    { apply (io_full _ _ _ Hio).
      - split; [apply Z.div_pos; done || lia|apply Z.div_lt_upper_bound; done || lia].
      - rewrite Z.mul_comm. pose proof (Z.mul_div_le off BSIZE ltac:(done)). lia. }
    destruct (readi_turn i s D V dst (Z.to_nat n) P off m got h (fun bs => readi_loop fuel i dst (off + m) n (tot + m) (got ++ bs)) (mret (-1, got)))
      as (s1 & E1 & R1 & V1 & L1 & P1); try done; [lia|lia|]. rewrite Hg in E1.
    assert (length (fbytes V (geti s i) off m) = Z.to_nat m) as Hlm by (unfold fbytes; by rewrite length_fmap, length_seqZ).
    destruct (IH s1 (off + m) (tot + m) (got ++ fbytes V (geti s i) off m)) as (s2 & E2 & R2 & V2 & L2 & P2); rewrite ?(reads_geti _ _ i R1), ?L1; try done; try lia.
    { by apply (reads_fpre i s). }
    { by rewrite R1. }
    { rewrite length_app. lia. }
    rewrite (reads_geti _ _ i R1) in E2, P2.
    replace (n - (tot + m)) with (n - tot - m) in E2, P2 by lia. rewrite <- app_assoc, <- fbytes_app in E2, P2 by lia.
    replace (m + (n - tot - m)) with (n - tot) in E2, P2 by lia.
    exists s2. split; [|split_and!; [by rewrite R1|done|by rewrite L2, L1|done]]. etrans; [exact E1|]. exact E2.
  - assert (n - tot = 0) as -> by lia. exists s. rewrite app_nil_r. split_and!; try done. unfold i32. rewrite signed_small by lia.
    do 2 f_equal. lia.
Qed.

Lemma readi_run i s D V dst P off n h :
  let len := if (ip_size (geti s i) <? off) || (u32 (off + n) <? off) then 0 else Z.min n (ip_size (geti s i) - off) in
  fpre i s D V -> fs_free h -> accepts dst (fpt s) (Z.to_nat len) P h -> P [] (fk s) -> 0 <= off < 2^32 -> 0 <= n < 2^32 -> (length (lgd s) < NBUF)%nat ->
  exists s', readi i dst off n (World h s) = Ok (len, fbytes V (geti s i) off len) (World h s') /\
    reads s s' /\ fview s' D V [] /\ lgd s' = lgd s /\ P (fbytes V (geti s i) off len) (fk s').
Proof.
  intros len Pre Hh Hacc HP Ho Hn Hr. pose proof (io_size _ _ _ (fp_ino _ _ _ _ Pre)) as Hms. change (MAXFILE * BSIZE) with 274432 in Hms.
  unfold readi. rewrite gets_run. destruct (Z.ltb_spec (ip_size (geti s i)) off) as [H1|H1]; cbn [orb] in *.
  { exists s. split_and!; try done; apply Pre. }
  destruct (Z.ltb_spec (u32 (off + n)) off) as [H2|H2].
  { exists s. split_and!; try done; apply Pre. }
  assert (off + n < 2^32) as Hno.
  { destruct (decide (off + n < 2^32)); [done|]. unfold u32 in H2. rewrite (Z.mod_eq (off + n)) in H2 by done.
    assert ((off + n) / 2^32 = 1) as E by (symmetry; apply (Z.div_unique _ _ _ (off + n - 2^32)); lia). rewrite E in H2. lia. }
  rewrite (u32_small (off + n)) by lia.
  assert ((if ip_size (geti s i) <? off + n then u32 (ip_size (geti s i) - off) else n) = len) as ->.
  { subst len. destruct (Z.ltb_spec (ip_size (geti s i)) (off + n)); [rewrite u32_small by lia; lia|lia]. }
  destruct (readi_loop_run (S (Z.to_nat len)) i s D V dst P off len 0 [] h) as (s' & E & R & V' & L' & P'); try done; try lia.
  rewrite Z.sub_0_r in E, P'. exists s'. by split_and!.
Qed.

(** ** Writing *)

(** A source that yields [bs] as long as memory is that of [s0]. *)
Definition delivers (s0 : fst T) (src : ksrc) (bs : list Z) (h : list lockid) : Prop :=
  forall s tot m, fk s = fk s0 -> fpt s = fpt s0 -> 0 <= tot -> 0 < m -> tot + m <= Z.of_nat (length bs) ->
  copy_from src tot m (World h s) = Ok (0, take (Z.to_nat m) (drop (Z.to_nat tot) bs)) (World h s).

Lemma delivers_local s0 bs h : delivers s0 (FromLocal bs) bs h.
Proof. intros s tot m _ _ _ _ _. unfold copy_from. by rewrite gets_run. Qed.
Lemma delivers_kernel s0 a n h : 0 <= a -> a + Z.of_nat n <= 2^64 -> delivers s0 (FromKernel a) (ldn (kmem (fk s0)) a n) h.
Proof.
  intros Ha Hn s tot m Ek _ Ht Hm Hl. rewrite length_ldn in Hl. unfold copy_from. rewrite gets_run.
  rewrite u64_small by lia. unfold either_copyin, in_mem, zoom. cbn [held st]. rewrite gets_run. cbv beta. rewrite Ek.
  assert (ldn (kmem (fk s0)) (a + tot) (Z.to_nat m) = take (Z.to_nat m) (drop (Z.to_nat tot) (ldn (kmem (fk s0)) a n))) as ->.
  { apply list_eq. intros j. destruct (decide (j < Z.to_nat m)%nat).
    - rewrite lookup_take_lt, lookup_drop, !lookup_ldn by lia. do 2 f_equal. lia.
    - rewrite lookup_take_ge by lia. apply lookup_ge_None. rewrite length_ldn. lia. }
  rewrite <- Ek. by destruct s.
Qed.

(** Blocks touched by [n] bytes at [off]. *)
Definition nblocks (off n : Z) : Z := if n =? 0 then 0 else (off mod BSIZE + n + BSIZE - 1) / BSIZE.

Lemma nblocks_step off n :
  0 <= off -> 0 < n -> let m := Z.min n (BSIZE - off mod BSIZE) in nblocks (off + m) (n - m) = nblocks off n - 1.
Proof.
  intros Ho Hn m. pose proof (Z.mod_pos_bound off BSIZE ltac:(done)) as Hmod. unfold nblocks. destruct (Z.eqb_spec n 0); [lia|].
  destruct (Z.eqb_spec (n - m) 0).
  - rewrite <- (Z.div_unique (off mod BSIZE + n + BSIZE - 1) BSIZE 1 (off mod BSIZE + n - 1)); unfold BSIZE in *; lia.
  - assert (m = BSIZE - off mod BSIZE) as -> by lia.
    assert ((off + (BSIZE - off mod BSIZE)) mod BSIZE = 0) as ->.
    { replace (off + (BSIZE - off mod BSIZE)) with (BSIZE * (off / BSIZE + 1)); [rewrite Z.mul_comm; by apply Z.mod_mul|].
      pose proof (Z.div_mod off BSIZE ltac:(done)). unfold BSIZE in *. lia. }
    replace (off mod BSIZE + n + BSIZE - 1) with (0 + (n - (BSIZE - off mod BSIZE)) + BSIZE - 1 + 1 * BSIZE) by lia.
    rewrite Z.div_add by done. lia.
Qed.
Lemma nblocks_pos off n : 0 <= off -> 0 < n -> 1 <= nblocks off n.
Proof.
  intros Ho Hn. pose proof (Z.mod_pos_bound off BSIZE ltac:(done)). unfold nblocks. destruct (Z.eqb_spec n 0); [lia|].
  apply Z.div_le_lower_bound; unfold BSIZE in *; lia.
Qed.

(** Bytes after a write of [bs] at [off]. *)
Definition overwrite (off : Z) (bs : list Z) (f : Z -> Z) (o : Z) : Z :=
  if (off <=? o) && (o <? off + Z.of_nat (length bs)) then default 0 (bs !! Z.to_nat (o - off)) else f o.

Lemma splice_fbyte V ip off bs o :
  0 <= off -> off mod BSIZE + Z.of_nat (length bs) <= BSIZE -> 0 <= o -> blk V ip (off / BSIZE) <> 0 ->
  length (V (blk V ip (off / BSIZE))) = 1024%nat -> o / BSIZE = off / BSIZE ->
  get8 (splice (V (blk V ip (off / BSIZE))) (Z.to_nat (off mod BSIZE)) bs) (Z.to_nat (o mod BSIZE)) = overwrite off bs (fbyte V ip) o.
Proof.
  intros Ho Hl Hoo Hb Hlen E. pose proof (Z.mod_pos_bound off BSIZE ltac:(done)). pose proof (Z.mod_pos_bound o BSIZE ltac:(done)).
  pose proof (Z.div_mod off BSIZE ltac:(done)) as Eo. pose proof (Z.div_mod o BSIZE ltac:(done)) as Eoo. rewrite E in Eoo.
  unfold overwrite, get8. destruct (Z.leb_spec off o), (Z.ltb_spec o (off + Z.of_nat (length bs))); cbn [andb];
    try (rewrite lookup_splice_old by (unfold BSIZE in *; lia); unfold fbyte; rewrite E;
         destruct (Z.eqb_spec (blk V ip (off / BSIZE)) 0); done).
  rewrite lookup_splice_new by (unfold BSIZE in *; lia). do 2 f_equal. unfold BSIZE in *. lia.
Qed.
Lemma overwrite_other V ip off bs o :
  0 <= off -> off mod BSIZE + Z.of_nat (length bs) <= BSIZE -> 0 <= o -> o / BSIZE <> off / BSIZE -> overwrite off bs (fbyte V ip) o = fbyte V ip o.
Proof.
  intros Ho Hl Hoo Hne. unfold overwrite. destruct (Z.leb_spec off o), (Z.ltb_spec o (off + Z.of_nat (length bs))); cbn [andb]; try done.
  exfalso. apply Hne. destruct (off_split off (o - off)) as [E _]; [lia|lia|lia|]. rewrite <- E. f_equal. lia.
Qed.

(** One turn of the loop of [writei]: the chunk [bs] at [off]. *)
Lemma writei_turn {A} i s D V src off tot m bs h (k : M (fst T) A) (fail : M (fst T) A) :
  fpre i s D V -> fs_free h -> 0 <= off -> Z.of_nat (length bs) = m -> 0 < m -> off mod BSIZE + m <= BSIZE -> off < MAXFILE * BSIZE ->
  (forall s', fk s' = fk s -> fpt s' = fpt s -> copy_from src tot m (World h s') = Ok (0, bs) (World h s')) ->
  (length (lgd s) + 4 < NBUF)%nat -> nfree (fsb s) V 2 ->
  exists s' V' r, (addr ← bmap i (off / BSIZE);
       bp ← bread_ ROOTDEV addr; r ← copy_from src tot m;
       bset bp (fun d => splice d (Z.to_nat (off mod BSIZE)) (snd r));;
       if Z.eqb (Datatypes.fst r) (-1) then brelse_ bp;; fail else log_write_ bp;; brelse_ bp;; k) (World h s) = k (World h s') /\
    moved i s D V s' V' [r] /\ blk V' (geti s' i) (off / BSIZE) <> 0 /\
    (forall o, 0 <= o < MAXFILE * BSIZE -> fbyte V' (geti s' i) o = overwrite off bs (fbyte V (geti s i)) o) /\
    forall j, nfree (fsb s) V (S (S j)) -> nfree (fsb s) V' j.
Proof.
  intros Pre Hh Ho Hlen Hm Hlt Hmax Hsrc Hr Hfr.
  assert (0 <= off / BSIZE < MAXFILE) as Hn by (split; [apply Z.div_pos; done || lia|apply Z.div_lt_upper_bound; done || lia]).
  destruct (bmap_run i s D V (off / BSIZE) h Pre Hh Hn Hr Hfr) as (r & s1 & V1 & E1 & [Mv Mb Mz My Mf]). rewrite (bind_run _ _ _ _ _ E1).
  pose proof (m_pre _ _ _ _ _ _ _ Mv) as Pre1. pose proof Pre1 as [Hv1 Hok1 Hio1 Hi1 Hs1]. pose proof (m_keeps _ _ _ _ _ _ _ Mv) as K1.
  assert (length (lgd s1) <= length (lgd s) + 3)%nat as Hlg1.
  { assert (lgd s1 ⊆+ lgd s ++ [sb_bmapstart (fsb s); get_addr (geti s1 i) NDIRECT; r]) as Hsub.
    { apply NoDup_submseteq; [apply (tv_ok _ _ _ _ _ Hv1)|]. intros b Hb. apply elem_of_app. rewrite !elem_of_cons.
      destruct (m_log _ _ _ _ _ _ _ Mv b Hb) as [?|[?|[[_ ?]|Hb']]]; [auto..|]. apply list_elem_of_singleton in Hb'. auto. }
    apply submseteq_length in Hsub. rewrite length_app in Hsub. simpl in Hsub. lia. }
  assert (blk V1 (geti s1 i) (off / BSIZE) <> 0) as Hb1 by (by rewrite Mb).
  pose proof (own_data _ _ _ _ Hio1 Hn Hb1) as [Hbr _]. rewrite Mb in Hbr. pose proof (so_size _ (fo_sb _ _ Hok1)). pose proof (data_start_range _ (fo_sb _ _ Hok1)).
  destruct (open_run' s1 D V1 [] r h Hv1 Hh (not_elem_of_nil _)) as (s2 & E2 & S2 & V2 & L2 & _); [lia|simpl; lia|]. rewrite E2.
  rewrite (bind_run _ _ _ _ _ (Hsrc s2 ltac:(rewrite (same_rest_fk _ _ S2); apply K1) ltac:(rewrite (same_rest_fpt _ _ S2); apply K1))).
  cbn [Datatypes.fst snd Z.eqb].
  destruct (save_step s2 D V1 [] r (fun d => splice d (Z.to_nat (off mod BSIZE)) bs) h V2 Hh) as (s3 & E3 & S3 & V3 & L3 & _);
    [lia|rewrite L2; unfold NBUF in *; lia|]. rewrite E3.
  assert (same_rest s1 s3) as S by (by rewrite S2). set (d := splice (V1 r) (Z.to_nat (off mod BSIZE)) bs) in *.
  pose proof (Z.mod_pos_bound off BSIZE ltac:(done)) as Hmod.
  assert (length (V1 r) = 1024%nat) as Hlr by apply Hok1.
  assert (length d = 1024%nat) as Hld by (unfold d; rewrite length_splice by (unfold BSIZE in *; lia); done).
  pose proof (write_ext _ V1 (geti s1 i) (off / BSIZE) d Hok1 Hio1 Hn Hb1 Hld) as Ex. rewrite Mb in Ex.
  exists s3, (vset r d V1), r. split; [done|]. split_and!.
  - apply (moved_sub _ _ _ _ _ _ ([r] ++ [r])); [|set_solver]. apply (moved_trans i s D V s1 V1 [r] s3 _ [r] Mv). split; [by apply same_rest_keeps| |by rewrite (same_rest_geti _ _ i S)|].
    + split; rewrite ?(same_rest_sb _ _ S), ?(same_rest_geti _ _ i S), ?(same_rest_itab _ _ S); try done; apply Ex.
    + intros b. rewrite L3, L2, elem_of_add_logged, list_elem_of_singleton. intros [?|?]; auto.
  - rewrite (same_rest_geti _ _ i S). rewrite (e_blk _ _ _ _ _ Ex) by done. done.
  - intros o Hoo. rewrite (same_rest_geti _ _ i S). rewrite <- Mb at 1. rewrite (write_fbyte _ V1 (geti s1 i) (off / BSIZE) d Hok1 Hio1 Hn Hb1 Hld) by done.
    case_decide as E.
    + unfold d. rewrite <- Mb. rewrite splice_fbyte; try done; [|lia|lia|by rewrite Mb]. unfold overwrite. case_match; [done|]. by apply My.
    + rewrite My by done. symmetry. apply overwrite_other; [done|lia|lia|done].
  - intros j Hj. destruct (Mf j Hj) as (bs' & Hnd & Hl & Hfa). exists bs'. split_and!; [done|done|]. eapply Forall_impl; [exact Hfa|].
    intros b [Hbr' Hbu]. split; [done|]. rewrite <- Mb. rewrite <- (k_sb _ _ _ K1) in *.
    rewrite (write_used _ V1 (geti s1 i) (off / BSIZE) d Hok1 Hio1 Hn Hb1 Hld) by done. done.
Qed.

Lemma overwrite_app off (a b : list Z) f o :
  overwrite (off + Z.of_nat (length a)) b (overwrite off a f) o = overwrite off (a ++ b) f o.
Proof.
  unfold overwrite. rewrite length_app.
  destruct (Z.leb_spec (off + Z.of_nat (length a)) o), (Z.ltb_spec o (off + Z.of_nat (length a) + Z.of_nat (length b))); cbn [andb].
  - destruct (Z.leb_spec off o), (Z.ltb_spec o (off + Z.of_nat (length a + length b))); try lia. cbn [andb].
    rewrite lookup_app_r by lia. do 2 f_equal. lia.
  - destruct (Z.leb_spec off o), (Z.ltb_spec o (off + Z.of_nat (length a))), (Z.ltb_spec o (off + Z.of_nat (length a + length b))); cbn [andb]; done || lia.
  - destruct (Z.leb_spec off o), (Z.ltb_spec o (off + Z.of_nat (length a))), (Z.ltb_spec o (off + Z.of_nat (length a + length b))); cbn [andb]; try done; try lia.
    by rewrite lookup_app_l by lia.
  - destruct (Z.leb_spec off o), (Z.ltb_spec o (off + Z.of_nat (length a))), (Z.ltb_spec o (off + Z.of_nat (length a + length b))); cbn [andb]; try done; try lia.
Qed.
Lemma overwrite_nil off f o : overwrite off [] f o = f o.
Proof. unfold overwrite. change (Z.of_nat (length [])) with 0. destruct (Z.leb_spec off o), (Z.ltb_spec o (off + 0)); cbn [andb]; done || lia. Qed.
Lemma overwrite_ext off bs f g o : f o = g o -> overwrite off bs f o = overwrite off bs g o.
Proof. intros E. unfold overwrite. by case_match. Qed.

(** The log holds at most [Lg], the bitmap, the indirect block and [W]. *)
Definition log_within (i : nat) (s : fst T) (Lg W : list Z) : Prop :=
  forall b, b ∈ lgd s -> b ∈ Lg \/ b = sb_bmapstart (fsb s) \/ (b <> 0 /\ b = get_addr (geti s i) NDIRECT) \/ b ∈ W.

Lemma log_within_len i s D V Lg W : fview s D V [] -> log_within i s Lg W -> (length (lgd s) <= length Lg + 2 + length W)%nat.
Proof.
  intros Hv Hw. assert (lgd s ⊆+ Lg ++ sb_bmapstart (fsb s) :: get_addr (geti s i) NDIRECT :: W) as Hsub.
  { apply NoDup_submseteq; [apply (tv_ok _ _ _ _ _ Hv)|]. intros b Hb. apply elem_of_app. rewrite !elem_of_cons.
    destruct (Hw b Hb) as [?|[?|[[_ ?]|?]]]; auto. }
  apply submseteq_length in Hsub. rewrite length_app in Hsub. simpl in Hsub. lia.
Qed.
Lemma log_within_moved i s D V s' V' Lg W W' : moved i s D V s' V' W' -> log_within i s Lg W -> log_within i s' Lg (W ++ W').
Proof.
  intros [K P E Lm] Hw b Hb. rewrite (k_sb _ _ _ K). destruct (Lm b Hb) as [Hb'|[?|[?|?]]]; [|auto|auto|right; right; right; apply elem_of_app; auto].
  destruct (Hw b Hb') as [?|[?|[[H0 Hi]|?]]]; [auto|auto| |right; right; right; apply elem_of_app; auto].
  right; right; left. split; [done|]. rewrite (e_ind _ _ _ _ _ E); congruence.
Qed.

Lemma writei_loop_run fuel i s0 s D V src bs off tot Lg W h :
  let n := Z.of_nat (length bs) in
  fpre i s D V -> fs_free h -> delivers s0 src bs h -> fk s = fk s0 -> fpt s = fpt s0 -> 0 <= off -> 0 <= tot <= n ->
  off + (n - tot) <= MAXFILE * BSIZE -> log_within i s Lg W ->
  Z.of_nat (length Lg + length W) + nblocks off (n - tot) + 5 < 30 -> nfree (fsb s) V (2 * Z.to_nat (nblocks off (n - tot))) ->
  n - tot < Z.of_nat fuel ->
  exists s' V' W', writei_loop fuel i src off n tot (World h s) = Ok (off + (n - tot), n) (World h s') /\
    moved i s D V s' V' W' /\ Z.of_nat (length W') = nblocks off (n - tot) /\
    (forall o, 0 <= o < MAXFILE * BSIZE -> fbyte V' (geti s' i) o = overwrite off (drop (Z.to_nat tot) bs) (fbyte V (geti s i)) o) /\
    forall k, off / BSIZE <= k -> k * BSIZE < off + (n - tot) -> 0 < n - tot -> blk V' (geti s' i) k <> 0.
Proof.
  intros n. revert s V off tot W. induction fuel as [|fuel IH]; intros s V off tot W Pre Hh Hsrc Ek Ept Ho Ht Hmax Hw Hroom Hfree Hf; [lia|].
  cbn [writei_loop]. destruct (Z.ltb_spec tot n) as [Hlt|Hge]; cbn [negb].
  - rewrite gets_run, (io_dev _ _ _ (fp_ino _ _ _ _ Pre)). set (m := Z.min (n - tot) (BSIZE - off mod BSIZE)) in *.
    pose proof (Z.mod_pos_bound off BSIZE ltac:(done)) as Hmod. pose proof (nblocks_pos off (n - tot) Ho ltac:(lia)) as Hnb.
    pose proof (nblocks_step off (n - tot) Ho ltac:(lia)) as Hns. fold m in Hns. cbv zeta in Hns.
    assert (0 < m /\ off mod BSIZE + m <= BSIZE /\ m <= n - tot) as (Hm1 & Hm2 & Hm3) by lia.
    pose proof (log_within_len _ _ _ _ _ _ (fp_view _ _ _ _ Pre) Hw) as Hll.
    set (c := take (Z.to_nat m) (drop (Z.to_nat tot) bs)).
    assert (Z.of_nat (length c) = m) as Hlc by (unfold c; rewrite length_take, length_drop; lia).
    destruct (writei_turn i s D V src off tot m c h (writei_loop fuel i src (off + m) n (tot + m)) (mret (off, tot)) Pre Hh)
      as (s1 & V1 & r & E1 & M1 & B1 & Y1 & F1); try done; [lia| |unfold NBUF; lia|by eapply nfree_mono; [|exact Hfree]; lia|].
    { intros s' E1 E2. apply Hsrc; [congruence|congruence|lia|lia|lia]. }
    pose proof (k_sb _ _ _ (m_keeps _ _ _ _ _ _ _ M1)) as Esb. pose proof (m_keeps _ _ _ _ _ _ _ M1) as K1.
    destruct (IH s1 V1 (off + m) (tot + m) (W ++ [r])) as (s2 & V2 & W2 & E2 & M2 & Hl2 & Y2 & B2);
      rewrite ?Esb; try done; try lia; replace (n - (tot + m)) with (n - tot - m) in * by lia; try (by rewrite ?(k_fk _ _ _ K1), ?(k_pt _ _ _ K1));
      [apply M1|by eapply log_within_moved|rewrite Hns, length_app; simpl; lia|apply F1; eapply nfree_mono; [|exact Hfree]; lia|].
    exists s2, V2, (r :: W2). split; [etrans; [exact E1|]; rewrite E2; do 2 f_equal; lia|]. split_and!.
    + by apply (moved_trans _ _ _ _ _ _ [r] _ _ W2 M1).
    + cbn [length]. lia.
    + intros o Hoo. rewrite Y2 by done. rewrite (overwrite_ext _ _ _ _ _ (Y1 o Hoo)). rewrite <- Hlc at 1. rewrite overwrite_app. f_equal.
      unfold c. rewrite <- (take_drop (Z.to_nat m) (drop (Z.to_nat tot) bs)) at 2. f_equal. rewrite drop_drop. f_equal. lia.
    + intros k Hk1 Hk2 _. destruct (decide (k = off / BSIZE)) as [->|Hne].
      * rewrite (e_blk _ _ _ _ _ (m_ext _ _ _ _ _ _ _ M2)); [done| |done]. split; [apply Z.div_pos; done || lia|apply Z.div_lt_upper_bound; done || lia].
      * pose proof (Z.div_mod off BSIZE ltac:(done)) as Ediv. apply B2; [|lia|unfold BSIZE in *; lia]. destruct (decide (off mod BSIZE + m < BSIZE)) as [Hlt'|Hge'].
        -- destruct (off_split off m) as [-> _]; [lia|lia|done|lia].
        -- replace (off + m) with (BSIZE * (off / BSIZE + 1)); [rewrite Z.mul_comm, Z.div_mul by done; lia|]. lia.
  - assert (n - tot = 0) as E0 by lia. rewrite E0 in *. exists s, V, []. split; [rewrite Z.add_0_r; do 2 f_equal; lia|]. split_and!.
    + split; [done|done|by apply fext_refl; apply Pre|auto].
    + done.
    + intros o Hoo. rewrite drop_ge by lia. by rewrite overwrite_nil.
    + lia.
Qed.

(** ** The inode written back *)

Section meta_block.
Context (sb : superblock) (V : view) (IB : Z) (d : list Z).
Context (Hok : fs_ok sb V) (HIB : IB < sb_bmapstart sb).

Lemma meta_used b : 0 <= b < sb_size sb -> bused sb (vset IB d V) b = bused sb V b.
Proof using Hok HIB. intros Hb. unfold bused. rewrite vset_ne; [done|]. pose proof (BBLOCK_range sb (fo_sb _ _ Hok) b Hb). lia. Qed.
Lemma meta_fs_ok : length d = 1024%nat -> fs_ok sb (vset IB d V).
Proof using Hok HIB.
  intros Hd. destruct Hok as [SB Hl Hm]. split; [done| |].
  - intros b. unfold vset. by case_decide.
  - intros b Hb. unfold bused. rewrite vset_ne; [by apply Hm|]. destruct SB as [? ? ?]. unfold BBLOCK.
    pose proof (Z.div_pos b BPB ltac:(lia) ltac:(done)). assert (b / BPB <= b) by (apply Z.div_le_upper_bound; [done|unfold BPB, BSIZE; lia]).
    pose proof (Z.div_pos (sb_size sb) BPB ltac:(lia) ltac:(done)). unfold data_start in *. rewrite u32_small; lia.
Qed.
Lemma meta_data b : data_block sb V b -> vset IB d V b = V b.
Proof using Hok HIB.
  intros [Hr _]. rewrite vset_ne; [done|]. pose proof (BBLOCK_range sb (fo_sb _ _ Hok) b). pose proof (data_start_range sb (fo_sb _ _ Hok)). lia.
Qed.
Lemma meta_blk ip n : inode_ok sb V ip -> blk (vset IB d V) ip n = blk V ip n.
Proof using Hok HIB.
  intros Hio. destruct (decide (n < NDIRECT)); [by rewrite !blk_direct by done|].
  destruct (decide (get_addr ip NDIRECT = 0)); [by rewrite !blk_no_indirect by (done || lia)|].
  rewrite !(blk_indirect _ _ n) by (done || lia). rewrite meta_data; [done|]. by apply own_ind.
Qed.
Lemma meta_fbyte ip o : inode_ok sb V ip -> 0 <= o < MAXFILE * BSIZE -> fbyte (vset IB d V) ip o = fbyte V ip o.
Proof using Hok HIB.
  intros Hio Ho. unfold fbyte. rewrite meta_blk by done. destruct (Z.eqb_spec (blk V ip (o / BSIZE)) 0); [done|].
  rewrite meta_data; [done|]. apply own_data; [done| |done]. split; [apply Z.div_pos; done || lia|apply Z.div_lt_upper_bound; done || lia].
Qed.
Lemma meta_inode_ok ip : inode_ok sb V ip -> inode_ok sb (vset IB d V) ip.
Proof using Hok HIB.
  intros Hio. pose proof (data_start_range sb (fo_sb _ _ Hok)) as Hds. pose proof (fun n => meta_blk ip n Hio) as Hb.
  destruct Hio as [Idev Ilen Iinum Isize Iown Iinj Iind Ifull]. split; try done.
  - intros b [H0 Ho]. assert (own V ip b) as Ho'.
    { split; [done|]. destruct Ho as [?|(n & Hn & E)]; [by left|right; exists n; by rewrite <- Hb]. }
    destruct (Iown b Ho') as [Hr Hu]. split; [done|]. rewrite meta_used by lia. done.
  - intros n m. rewrite !Hb. auto.
  - intros n. rewrite !Hb. auto.
  - intros n. rewrite !Hb. auto.
Qed.
End meta_block.

Lemma iupdate_run i s D V h :
  fview s D V [] -> fs_free h -> inode_ok (fsb s) V (geti s i) -> fs_ok (fsb s) V -> (length (lgd s) < NBUF)%nat ->
  let IB := IBLOCK (ip_inum (geti s i)) (fsb s) in
  exists s', iupdate i (World h s) = Ok tt (World h s') /\ same_rest s s' /\
    fview s' D (vset IB (put_dinode (dinode_off (ip_inum (geti s i))) (geti s i) (V IB)) V) [] /\ lgd s' = add_logged IB (lgd s).
Proof.
  intros Hv Hh Hio Hok Hr IB. unfold iupdate. rewrite !gets_run. rewrite (io_dev _ _ _ Hio). fold IB.
  destruct (io_inum _ _ _ Hio) as [_ HIB]. fold IB in HIB. pose proof (data_start_range _ (fo_sb _ _ Hok)).
  assert (sb_bmapstart (fsb s) < 2^30) by (destruct (fo_sb _ _ Hok); pose proof (Z.div_pos (sb_size (fsb s)) BPB); unfold BPB, BSIZE in *; lia).
  destruct (update_run s D V [] IB (put_dinode (dinode_off (ip_inum (geti s i))) (geti s i)) h Hv Hh (not_elem_of_nil _)) as (s' & E & S & V' & Lg & _);
    [lia|simpl; lia|]. exists s'. done.
Qed.

(** The inode after the size update. *)
Lemma size_inode_ok sb V ip off n :
  inode_ok sb V ip -> 0 <= off <= ip_size ip -> ip_size ip < off + n -> off + n <= MAXFILE * BSIZE ->
  (forall k, off / BSIZE <= k -> k * BSIZE < off + n -> 0 < n -> blk V ip k <> 0) -> inode_ok sb V (set_size (off + n) ip).
Proof.
  intros [Idev Ilen Iinum Isize Iown Iinj Iind Ifull] Ho Hgt Hmax Hb. split; try done; cbn [set_size ip_size]; [lia|].
  intros k Hk Hlt. destruct (decide (k * BSIZE < ip_size ip)) as [Hs|Hs]; [by apply Ifull|].
  apply Hb; [|done|lia]. apply Z.div_le_upper_bound; [done|]. lia.
Qed.

Lemma writei_errors i s src off n h :
  0 <= off < 2^32 -> 0 <= n < 2^32 -> (ip_size (geti s i) < off \/ MAXFILE * BSIZE < off + n) ->
  writei i src off n (World h s) = Ok (-1) (World h s).
Proof.
  intros Ho Hn Hbad. unfold writei. rewrite gets_run. destruct (Z.ltb_spec (ip_size (geti s i)) off) as [?|Hs]; [done|]. cbn [orb].
  destruct Hbad as [?|Hbad]; [lia|]. change (MAXFILE * BSIZE) with 274432 in *.
  destruct (decide (off + n < 2^32)) as [Hlt|Hge].
  - rewrite u32_small by lia. destruct (Z.ltb_spec (off + n) off); [done|]. destruct (Z.ltb_spec 274432 (off + n)); [done|lia].
  - assert (u32 (off + n) = off + n - 2^32) as -> by (symmetry; apply (Z.mod_unique _ _ 1); lia).
    destruct (Z.ltb_spec (off + n - 2^32) off); [done|lia].
Qed.

(** The size grows when the write went past the end of the file. *)
Lemma grow_size_run i s D V off n h :
  let ip := geti s i in
  fpre i s D V -> 0 <= off <= ip_size ip -> off + n <= MAXFILE * BSIZE ->
  (forall k, off / BSIZE <= k -> k * BSIZE < off + n -> 0 < n -> blk V ip k <> 0) ->
  exists s', (when (ip_size ip <? off + n) (modify (updi i (set_size (off + n))))) (World h s) = Ok tt (World h s') /\
    geti s' i = set_size (Z.max (ip_size ip) (off + n)) ip /\ keeps i s s' /\ lgd s' = lgd s /\ fpre i s' D V.
Proof.
  intros ip [Hv Hok Hio Hi Hs] Ho Hmax Hb. destruct (Z.ltb_spec (ip_size ip) (off + n)) as [Hlt|Hge]; cbn [when].
  - eexists. split; [reflexivity|]. rewrite geti_updi by done. rewrite Z.max_r by lia. split_and!; [done|apply updi_keeps|done|].
    split; rewrite ?geti_updi by done; [done|done|by apply size_inode_ok| |done].
    rewrite (k_len _ _ _ (updi_keeps i _ s)). done.
  - exists s. rewrite Z.max_l by lia. split_and!; [done|unfold ip; by destruct (geti s i)|done|done|by split].
Qed.

Lemma writei_run i s D V src bs off h :
  let n := Z.of_nat (length bs) in let ip := geti s i in let IB := IBLOCK (ip_inum ip) (fsb s) in
  fpre i s D V -> fs_free h -> delivers s src bs h -> 0 <= off <= ip_size ip -> off + n <= MAXFILE * BSIZE ->
  Z.of_nat (length (lgd s)) + nblocks off n + 5 < 30 -> nfree (fsb s) V (2 * Z.to_nat (nblocks off n)) ->
  exists s' V', writei i src off n (World h s) = Ok n (World h s') /\ keeps i s s' /\ fpre i s' D V' /\
    geti s' i = set_size (Z.max (ip_size ip) (off + n)) (set_addrs (ip_addrs (geti s' i)) ip) /\
    (forall o, 0 <= o < MAXFILE * BSIZE -> fbyte V' (geti s' i) o = overwrite off bs (fbyte V ip) o) /\
    (forall b, data_block (fsb s) V b -> ~ own V ip b -> V' b = V b) /\
    (forall b, b < sb_bmapstart (fsb s) -> b <> IB -> V' b = V b) /\
    V' IB = put_dinode (dinode_off (ip_inum ip)) (geti s' i) (V IB) /\
    Z.of_nat (length (lgd s')) <= Z.of_nat (length (lgd s)) + nblocks off n + 3.
Proof.
  intros n ip IB Pre Hh Hsrc Ho Hmax Hroom Hfree. assert (0 <= n) as Hn by lia. change (MAXFILE * BSIZE) with 274432 in *.
  unfold writei. rewrite gets_run. fold ip. rewrite (u32_small (off + n)) by lia.
  destruct (Z.ltb_spec (ip_size ip) off); [lia|]. destruct (Z.ltb_spec (off + n) off); [lia|]. cbn [orb].
  change (MAXFILE * BSIZE) with 274432. destruct (Z.ltb_spec 274432 (off + n)); [lia|].
  destruct (writei_loop_run (S (Z.to_nat n)) i s s D V src bs off 0 (lgd s) [] h) as (s1 & V1 & W & E1 & M1 & HlW & Y1 & B1);
    fold n; rewrite ?Z.sub_0_r; try done; try lia; try (change (MAXFILE * BSIZE) with 274432; lia);
    [intros b Hb; by left|rewrite Nat.add_0_r; done|]. fold n in E1, HlW, B1. rewrite Z.sub_0_r in *. rewrite drop_0 in Y1.
  rewrite (bind_run _ _ _ _ _ E1), gets_run. cbn [Datatypes.fst snd].
  pose proof (m_keeps _ _ _ _ _ _ _ M1) as K1. pose proof (m_ext _ _ _ _ _ _ _ M1) as Ex. pose proof (m_pre _ _ _ _ _ _ _ M1) as [Hv1 Hok1 Hio1 Hi1 Hs1].
  assert (ip_size (geti s1 i) = ip_size ip /\ ip_inum (geti s1 i) = ip_inum ip) as [Esz Ein] by (rewrite (e_rest _ _ _ _ _ Ex); done).
  pose proof (log_within_len _ _ _ _ _ _ Hv1 (log_within_moved _ _ _ _ _ _ (lgd s) [] W M1 (fun b Hb => or_introl Hb))) as Hl1. cbn [app] in Hl1.
  destruct (grow_size_run i s1 D V1 off n h) as (s2 & Ew & Eg & K2 & El2 & [Hv2 Hok2 Hio2 Hi2 Hs2]); rewrite ?Esz; try done.
  rewrite Esz in Ew, Eg. rewrite (bind_run _ _ _ _ _ Ew).
  pose proof (k_sb _ _ _ K1) as Esb1. assert (fsb s2 = fsb s) as Esb2 by (rewrite (k_sb _ _ _ K2); done). rewrite Esb2 in Hio2.
  destruct (iupdate_run i s2 D V1 h Hv2 Hh) as (s3 & E3 & S3 & V3 & L3); rewrite ?Esb2; [done|by rewrite <- Esb1|rewrite El2; unfold NBUF; lia|].
  rewrite (bind_run _ _ _ _ _ E3). assert (ip_inum (geti s2 i) = ip_inum ip) as Ein2 by (by rewrite Eg).
  rewrite Esb2, Ein2 in V3, L3. fold IB in V3, L3. set (d := put_dinode _ _ _) in V3.
  pose proof (io_inum _ _ _ Hio2) as [_ HIB]. rewrite Ein2 in HIB. fold IB in HIB. rewrite Esb1 in Hok1.
  assert (length d = 1024%nat) as Hd.
  { unfold d. pose proof (dinode_off_range (ip_inum ip)). rewrite length_put_dinode; rewrite ?(fo_len _ _ Hok1); [done|lia|]. apply Hio2. }
  exists s3, (vset IB d V1). split.
  { unfold i32. rewrite signed_small by lia. done. }
  pose proof (same_rest_geti _ _ i S3) as Eg3.
  assert (forall b, b < sb_bmapstart (fsb s) -> V1 b = V b) as Hm1 by (intros; by apply (e_meta _ _ _ _ _ Ex)).
  assert (forall b, data_block (fsb s) V b -> IB <> b) as Hdne.
  { intros b [Hr _] ->. pose proof (BBLOCK_range _ (fo_sb _ _ Hok1) b). pose proof (data_start_range _ (fo_sb _ _ Hok1)). lia. }
  split_and!.
  - rewrite K1, K2. by apply same_rest_keeps.
  - split; rewrite ?Eg3, ?(same_rest_sb _ _ S3), ?Esb2, ?(same_rest_itab _ _ S3); [done| | | |apply Pre].
    + apply meta_fs_ok; done || lia.
    + apply meta_inode_ok; done || lia.
    + rewrite (k_len _ _ _ K2). done.
  - rewrite Eg3, Eg, (e_rest _ _ _ _ _ Ex). done.
  - intros o Hoo. rewrite Eg3. rewrite (meta_fbyte (fsb s)) by (done || lia). rewrite <- Y1 by done. rewrite Eg. done.
  - intros b Hb Hno. rewrite vset_ne by (intros ->; by apply (Hdne IB)). by apply (e_frame _ _ _ _ _ Ex).
  - intros b Hb Hne. rewrite vset_ne by done. auto.
  - rewrite vset_eq, Eg3. unfold d. f_equal. apply Hm1. lia.
  - rewrite L3, El2. pose proof (length_add_logged IB (lgd s1)). lia.
Qed.
End rw.
