(* ===== verification/FsProps.v ===== *)
(** * The file system: theorems

    Stated for any block cache that meets [BlockCache]; the witnesses run the
    buffer cache of [Bio]. *)

From S2P Require Import Prelude Mem Riscv Kalloc Vm VmSpec VmProps Copy Sleeplock Bio BioSpec Log LogSpec LogOps Fs FsTxn FsAlloc FsFile FsInode FsRw.

Section fs_theorems.
Context {L : Layout} {T H : Type} {BO : BlockOps T H} {BC : BlockCache T H}.
Implicit Types (s : fst T) (D V : view) (h : list lockid).

(** C14: [writei] stores the given bytes at the given offset of the file and
    nowhere else.  From any state inside a transaction with room for the
    blocks it touches and enough free blocks, it returns the number of bytes;
    then the file reads as before with the bytes overwritten, of the inode only
    the size (now at least the end of the write) and the block addresses have
    changed, the on-disk inode is the
    in-memory one, every block in use by other files and every other block of
    the inode area are untouched, and the log grew by at most three blocks more
    than the blocks the range covers. *)
Theorem writei_writes i s D V src bs off h :
  let n := Z.of_nat (length bs) in let ip := geti s i in let IB := IBLOCK (ip_inum ip) (fsb s) in
  fpre i s D V -> fs_free h -> delivers s src bs h -> 0 <= off <= ip_size ip -> off + n <= MAXFILE * BSIZE ->
  Z.of_nat (length (lgd s)) + nblocks off n + 5 < 30 -> nfree (fsb s) V (2 * Z.to_nat (nblocks off n)) ->
  exists s' V', writei i src off n (World h s) = Ok n (World h s') /\ keeps i s s' /\ fpre i s' D V' /\
    geti s' i = set_size (Z.max (ip_size ip) (off + n)) (set_addrs (ip_addrs (geti s' i)) ip) /\
    (forall o, 0 <= o < MAXFILE * BSIZE -> fbyte V' (geti s' i) o = overwrite off bs (fbyte V ip) o) /\
    (forall b, data_block (fsb s) V b -> ~ own V ip b -> V' b = V b) /\
    (forall b, b < sb_bmapstart (fsb s) -> b <> IB -> V' b = V b) /\
    V' IB = put_dinode (dinode_off (ip_inum ip)) (geti s' i) (V IB) /\
    Z.of_nat (length (lgd s')) <= Z.of_nat (length (lgd s)) + nblocks off n + 3.
Proof. apply writei_run. Qed.

(** The bytes of a range just overwritten. *)
Lemma written_fbytes off bs V1 ip f :
  0 <= off -> off + Z.of_nat (length bs) <= MAXFILE * BSIZE ->
  (forall o, 0 <= o < MAXFILE * BSIZE -> fbyte V1 ip o = overwrite off bs f o) -> fbytes V1 ip off (Z.of_nat (length bs)) = bs.
Proof.
  intros Ho Hmax Hy. apply list_eq. intros j. unfold fbytes. rewrite list_lookup_fmap. destruct (decide (j < length bs)%nat) as [Hj|Hj].
  - rewrite lookup_seqZ_lt by lia. cbn [fmap option_fmap option_map]. rewrite Hy by lia. unfold overwrite.
    destruct (Z.leb_spec off (off + Z.of_nat j)), (Z.ltb_spec (off + Z.of_nat j) (off + Z.of_nat (length bs))); try lia. cbn [andb].
    replace (Z.to_nat (off + Z.of_nat j - off)) with j by lia. destruct (lookup_lt_is_Some_2 bs j Hj) as [x ->]. done.
  - rewrite lookup_seqZ_ge by lia. symmetry. apply lookup_ge_None. lia.
Qed.

(** C15: what is written is read back.  A [writei] of some bytes followed by a
    [readi] of as many at the same offset delivers those bytes: to a local
    variable, to the bytes at a kernel address, or through the page table of
    the process to the bytes at a user address, and to no other byte of memory,
    however the file range straddles blocks and the user range straddles pages.
    The read changes no block. *)
Theorem write_read_back {LO : LayoutOk L} i s D V src bs off dst h :
  let n := Z.of_nat (length bs) in
  fpre i s D V -> fs_free h -> delivers s src bs h -> 0 <= off <= ip_size (geti s i) -> off + n <= MAXFILE * BSIZE ->
  Z.of_nat (length (lgd s)) + nblocks off n + 5 < 30 -> nfree (fsb s) V (2 * Z.to_nat (nblocks off n)) ->
  room dst (fpt s) (fk s) (length bs) ->
  exists s1 V1 s2 got, writei i src off n (World h s) = Ok n (World h s1) /\ fview s1 D V1 [] /\
    readi i dst off n (World h s1) = Ok (n, got) (World h s2) /\ fview s2 D V1 [] /\ lgd s2 = lgd s1 /\
    match dst with
    | ToLocal => got = bs /\ fk s2 = fk s
    | ToKernel a => kmem (fk s2) = stn (kmem (fk s)) a bs
    | ToUser a => user_written (kmem (fk s)) (kmem (fk s2)) (fpt s) a bs
    end.
Proof.
  intros n Pre Hh Hsrc Ho Hmax Hroom Hfree Hdst. change (MAXFILE * BSIZE) with 274432 in *.
  destruct (writei_run i s D V src bs off h Pre Hh Hsrc Ho Hmax Hroom Hfree) as (s1 & V1 & E1 & K1 & P1 & Hg & Hy & _ & _ & _ & Hl).
  assert (ip_size (geti s1 i) = Z.max (ip_size (geti s i)) (off + n)) as Hsz by (by rewrite Hg).
  fold n in E1, Hl. assert (0 <= n) as Hn by lia.
  assert ((if (ip_size (geti s1 i) <? off) || (u32 (off + n) <? off) then 0 else Z.min n (ip_size (geti s1 i) - off)) = n) as Elen.
  { rewrite u32_small by lia. destruct (Z.ltb_spec (ip_size (geti s1 i)) off), (Z.ltb_spec (off + n) off); cbn [orb]; lia. }
  destruct (accepts_room (T := T) dst (fpt s) (fk s) (length bs) h Hdst) as (P & Hacc & HP & Hrec).
  pose proof (readi_run i s1 D V1 dst P off n h) as Hread. cbv zeta in Hread. rewrite Elen, (k_fk _ _ _ K1), (k_pt _ _ _ K1) in Hread.
  replace (Z.to_nat n) with (length bs) in Hread by lia.
  destruct (Hread P1 Hh Hacc HP) as (s2 & E2 & _ & V2 & L2 & P2); [lia|lia|unfold NBUF; lia|].
  subst n. rewrite (written_fbytes off bs V1 (geti s1 i) (fbyte V (geti s i))) in E2, P2 by (done || lia).
  exists s1, V1, s2, bs. split_and!; [done|apply P1|done|done|done|]. apply Hrec in P2. destruct dst; cbn in P2; [tauto|by rewrite P2|by rewrite P2].
Qed.

(** C16: [writei] refuses offsets past the end of the file and writes beyond
    the largest file, whatever the 32-bit sum of offset and length wraps to,
    and then changes nothing. *)
Theorem writei_refuses i s src off n h :
  0 <= off < 2^32 -> 0 <= n < 2^32 -> (ip_size (geti s i) < off \/ MAXFILE * BSIZE < off + n) ->
  writei i src off n (World h s) = Ok (-1) (World h s).
Proof. apply writei_errors. Qed.

(** [balloc] returns the lowest free block, zeroed and marked in use, and
    changes the bitmap bit of no other block; [bfree] of it then makes the set
    of blocks in use what it was, and a second [bfree] panics. *)
Theorem balloc_bfree s D V b0 h :
  fview s D V [] -> fs_free h -> fs_ok (fsb s) V -> (length (lgd s) + 3 < NBUF)%nat -> first_free (fsb s) V b0 ->
  exists s1 V1 s2 V2, balloc ROOTDEV (World h s) = Ok b0 (World h s1) /\ fview s1 D V1 [] /\ V1 b0 = zeroes BSIZE /\
    (forall b, 0 <= b < sb_size (fsb s) -> bused (fsb s) V1 b = if decide (b = b0) then true else bused (fsb s) V b) /\
    bfree ROOTDEV b0 (World h s1) = Ok tt (World h s2) /\ fview s2 D V2 [] /\
    (forall b, 0 <= b < sb_size (fsb s) -> bused (fsb s) V2 b = bused (fsb s) V b) /\
    bfree ROOTDEV b0 (World h s2) = Panic "freeing free block".
Proof.
  intros Hv Hh Hok Hr Hff. pose proof (fo_sb _ _ Hok) as SB. assert (0 <= b0 < sb_size (fsb s)) as Hb0 by apply Hff.
  assert (forall V, open_ok (fsb s) V []) as Hno by (intros; constructor).
  destruct (balloc_run s D V [] b0 h Hv Hh Hok (Hno _)) as (s1 & E1 & S1 & V1 & L1 & _); [simpl; lia|done|].
  pose proof (alloc_fs_ok _ _ _ Hok Hff) as Hok1. set (W := alloc_view (fsb s) b0 V) in *. pose proof (same_rest_sb _ _ S1) as Esb1.
  assert (forall b, 0 <= b < sb_size (fsb s) -> bused (fsb s) W b = if decide (b = b0) then true else bused (fsb s) V b) as Hu1
    by (intros b Hb; by apply alloc_used).
  assert (length (lgd s1) <= length (lgd s) + 2)%nat as Hl1.
  { rewrite L1. pose proof (length_add_logged b0 (add_logged (BBLOCK b0 (fsb s)) (lgd s))). pose proof (length_add_logged (BBLOCK b0 (fsb s)) (lgd s)). lia. }
  pose proof (bfree_run s1 D W [] b0 h V1 Hh) as HF. rewrite Esb1 in HF. specialize (HF Hok1 (Hno _) ltac:(simpl; lia) Hb0).
  rewrite Hu1, decide_True in HF by done. destruct HF as (s2 & E2 & S2 & V2 & L2 & _).
  assert (forall b, 0 <= b < sb_size (fsb s) -> bused (fsb s) (unmark (fsb s) b0 W) b = bused (fsb s) V b) as Hu2.
  { intros b Hb. rewrite bused_unmark by (done || apply Hok1). destruct (decide (b = b0)) as [->|Hne]; [symmetry; apply Hff|].
    rewrite Hu1 by done. by rewrite decide_False. }
  assert (fs_ok (fsb s) (unmark (fsb s) b0 W)) as Hok2.
  { split; [done| |].
    - intros b. unfold unmark, vset. case_decide; [rewrite length_clear_bit|]; apply Hok1.
    - intros b Hb. pose proof (first_free_data _ _ _ Hok Hff). rewrite Hu2 by lia. apply Hok. lia. }
  exists s1, W, s2, (unmark (fsb s) b0 W). split_and!; try done; [apply vset_eq|].
  pose proof (bfree_run s2 D _ [] b0 h V2 Hh) as HF. rewrite (same_rest_sb _ _ S2), Esb1 in HF.
  assert (length (lgd s2) <= length (lgd s1) + 1)%nat by (rewrite L2; pose proof (length_add_logged (BBLOCK b0 (fsb s)) (lgd s1)); lia).
  specialize (HF Hok2 (Hno _) ltac:(simpl; lia) Hb0). rewrite Hu2 in HF by done. destruct Hff as (_ & Hf & _). by rewrite Hf in HF.
Qed.
End fs_theorems.

(** ** A small file system: 100 blocks, bitmap in block 45, an empty file *)

Definition demo_bitmap : list Z := [255; 255; 255; 255; 255; 63] ++ replicate 1018 0.
Definition demo_fdisk : gmap Z (list Z) := {[45 := demo_bitmap]}.
Definition demo_fbst : bst :=
  match binit (World [] (BSt (replicate (S NBUF) buf0) demo_fdisk [] 3 [])) with Ok _ w => st w | _ => BSt [] ∅ [] 0 [] end.
Lemma demo_fbst_rep : bio_rep demo_fbst (Abs ∅ demo_fdisk []).
Proof. destruct (binit_run demo_fdisk [] 3 []) as (s' & Hrun & _ & R). unfold demo_fbst. by rewrite Hrun. Qed.

Definition demo_sb : superblock := Superblock FSMAGIC 100 54 200 30 2 32 45.
Definition demo_inode (ty : Z) : inode := Inode ROOTDEV 5 1 (Sleeplock true 3) true ty 0 0 1 0 (replicate 13 0).
Definition demo_fst (ty : Z) : fst bst :=
  Fst (KState ∅ 0) (Lst demo_fbst demo_log1) [demo_inode ty] demo_sb 3 0 0 [].
Definition demo_view : view := disk_block demo_fdisk.

Lemma demo_sb_ok : sb_ok demo_sb.
Proof. by split. Qed.
Lemma demo_fs_ok : fs_ok demo_sb demo_view.
Proof.
  split; [exact demo_sb_ok| |].
  - intros b. unfold demo_view, disk_block, demo_fdisk. rewrite lookup_singleton. by case_decide.
  - intros b Hb. change (data_start demo_sb) with 46 in Hb. unfold bused.
    rewrite (BBLOCK_small demo_sb b demo_sb_ok) by (done || (cbn; lia)). change (sb_bmapstart demo_sb) with 45.
    unfold demo_view, disk_block, demo_fdisk. rewrite lookup_singleton_eq. rewrite Z.mod_small by (change BPB with 8192; lia).
    assert (forall k, (k < 46)%nat -> bit_used demo_bitmap (Z.of_nat k) = true) as Hall by (intros k Hk; do 46 (destruct k as [|k]; [reflexivity|]); lia).
    specialize (Hall (Z.to_nat b) ltac:(lia)). rewrite Z2Nat.id in Hall by lia. exact Hall.
Qed.
Lemma demo_addr ty n : get_addr (demo_inode ty) n = 0.
Proof. unfold get_addr. cbn [ip_addrs demo_inode]. destruct (replicate 13 0 !! Z.to_nat n) eqn:E; [|done]. by apply lookup_replicate in E as [-> _]. Qed.
Lemma demo_blk ty n : blk demo_view (demo_inode ty) n = 0.
Proof. unfold blk. rewrite !demo_addr. by destruct (n <? NDIRECT). Qed.

Lemma demo_fpre ty : fpre 0 (demo_fst ty) demo_view demo_view.
Proof.
  split.
  - split; [|exact demo_log1_ok|constructor|done|cbn; lia|done]. exists (Abs ∅ demo_fdisk []). split; [exact demo_fbst_rep|done].
  - exact demo_fs_ok.
  - change (geti (demo_fst ty) 0) with (demo_inode ty). split; try done.
    + intros b [H0 [E|(n & _ & E)]]; [rewrite demo_addr in E|rewrite demo_blk in E]; done.
    + intros n m _ _ _. by rewrite demo_blk.
    + intros n Hn Hlt. cbn in Hlt. change BSIZE with 1024 in Hlt. lia.
  - cbn. lia.
  - done.
Qed.
Lemma demo_fs_free : fs_free [].
Proof. split; [exact cache_free_nil|apply not_elem_of_nil]. Qed.
Lemma demo_nfree : nfree demo_sb demo_view 2.
Proof. exists [46; 47]. split_and!; [apply NoDup_cons; split; [by rewrite list_elem_of_singleton|apply NoDup_singleton]|done|]. repeat constructor; cbn; done || lia. Qed.

Lemma writei_writes_witness :
  exists s' V', writei 0 (FromLocal [7; 8; 9]) 0 3 (World [] (demo_fst T_FILE)) = Ok 3 (World [] s') /\ fpre 0 s' demo_view V' /\
    fbyte V' (geti s' 0) 1 = 8.
Proof.
  destruct (writei_writes 0 (demo_fst T_FILE) demo_view demo_view (FromLocal [7; 8; 9]) [7; 8; 9] 0 [] (demo_fpre T_FILE) demo_fs_free
    (delivers_local (demo_fst T_FILE) [7; 8; 9] [])) as (s' & V' & E & _ & P & _ & Y & _).
  - cbn. lia.
  - done.
  - reflexivity.
  - exact demo_nfree.
  - exists s', V'. split; [exact E|]. split; [exact P|]. specialize (Y 1 ltac:(split; done)). unfold overwrite in Y. cbn [length Z.of_nat Pos.of_succ_nat Pos.succ Z.leb Z.ltb andb] in Y. exact Y.
Defined.

Lemma write_read_back_witness :
  exists s1 s2 got, writei 0 (FromLocal [7; 8; 9]) 0 3 (World [] (demo_fst T_FILE)) = Ok 3 (World [] s1) /\
    readi 0 (ToKernel 0x80100000) 0 3 (World [] s1) = Ok (3, got) (World [] s2) /\ ldn (kmem (fk s2)) 0x80100000 3 = [7; 8; 9].
Proof.
  destruct (write_read_back 0 (demo_fst T_FILE) demo_view demo_view (FromLocal [7; 8; 9]) [7; 8; 9] 0 (ToKernel 0x80100000) [] (demo_fpre T_FILE) demo_fs_free
    (delivers_local (demo_fst T_FILE) [7; 8; 9] [])) as (s1 & V1 & s2 & got & E1 & _ & E2 & _ & _ & Em).
  - cbn. lia.
  - done.
  - reflexivity.
  - exact demo_nfree.
  - done.
  - exists s1, s2, got. split; [exact E1|]. split; [exact E2|]. rewrite Em. vm_compute. reflexivity.
Defined.

Lemma writei_refuses_witness : writei 0 (FromLocal [7]) 0 0xffffffff (World [] (demo_fst T_FILE)) = Ok (-1) (World [] (demo_fst T_FILE)).
Proof. apply (writei_refuses 0 (demo_fst T_FILE) (FromLocal [7]) 0 0xffffffff []); [lia|lia|right; reflexivity]. Defined.

Lemma balloc_bfree_witness :
  exists s1 s2, balloc ROOTDEV (World [] (demo_fst T_FILE)) = Ok 46 (World [] s1) /\ bfree ROOTDEV 46 (World [] s1) = Ok tt (World [] s2) /\
    bfree ROOTDEV 46 (World [] s2) = Panic "freeing free block".
Proof.
  destruct (balloc_bfree (demo_fst T_FILE) demo_view demo_view 46 [] (fp_view _ _ _ _ (demo_fpre T_FILE)) demo_fs_free demo_fs_ok)
    as (s1 & V1 & s2 & V2 & E1 & _ & _ & _ & E2 & _ & _ & E3).
  - change (lgd (demo_fst T_FILE)) with (@nil Z). unfold NBUF. simpl. lia.
  - split; [cbn; lia|]. split; [reflexivity|]. intros b Hb. apply demo_fs_ok. exact Hb.
  - exists s1, s2. split; [exact E1|]. split; [exact E2|exact E3].
Defined.
