(* ===== verification/FsDir.v ===== *)
(** * Path names, directories and the inode table *)

From S2P Require Import Prelude Mem CString Riscv Kalloc Vm Sleeplock Bio BioSpec Log LogSpec LogOps Fs FsTxn FsAlloc FsFile FsInode FsRw FsProps.

(** ** Path elements *)

(** The reference: split at every slash, drop the empty pieces. *)
Fixpoint split_path (path : list Z) : list (list Z) :=
  match path with
  | [] => [[]]
  | c :: path =>
      if c =? slash then [] :: split_path path
      else match split_path path with
           | e :: es => (c :: e) :: es
           | [] => [[c]]
           end
  end.
Definition path_elems (path : list Z) : list (list Z) := filter (fun e => e <> []) (split_path path).

(** The element a name buffer holds: its bytes up to a NUL, at most [DIRSIZ]. *)
Fixpoint cstr (n : nat) (l : list Z) : list Z :=
  match n, l with
  | S n, c :: l => if c =? 0 then [] else c :: cstr n l
  | _, _ => []
  end.
Definition name_of (buf : list Z) : list Z := cstr (Z.to_nat DIRSIZ) buf.

Lemma split_path_nonempty path : split_path path <> [].
Proof. destruct path as [|c path]; cbn; [done|]. destruct (c =? slash); [done|]. by destruct (split_path path). Qed.

Lemma elems_slash path : path_elems (slash :: path) = path_elems path.
Proof. unfold path_elems. cbn [split_path]. rewrite Z.eqb_refl. by rewrite filter_cons_False by (intros E; by apply E). Qed.
Lemma elems_skip path : path_elems (skip_slashes path) = path_elems path.
Proof.
  induction path as [|c path IH]; [done|]. cbn [skip_slashes]. destruct (Z.eqb_spec c slash) as [->|]; [|done].
  by rewrite elems_slash.
Qed.
Lemma skip_head path : match skip_slashes path with c :: _ => c <> slash | [] => True end.
Proof. induction path as [|c path IH]; [done|]. cbn [skip_slashes]. by destruct (Z.eqb_spec c slash). Qed.

(** The first element and what follows it. *)
Lemma elem_split path e rest :
  elem_of_path path = (e, rest) ->
  path = e ++ rest /\ (slash ∉ e) /\ (rest = [] \/ exists r, rest = slash :: r) /\
  exists es, split_path path = e :: es /\ (rest = [] -> es = []) /\ forall r, rest = slash :: r -> es = split_path r.
Proof.
  revert e rest. induction path as [|c path IH]; intros e rest E; cbn in E.
  - injection E as <- <-. split_and!; [done|apply not_elem_of_nil|by left|]. exists []. split_and!; done.
  - destruct (Z.eqb_spec c slash) as [->|Hne].
    + injection E as <- <-. split_and!; [done|apply not_elem_of_nil|eauto|]. exists (split_path path). cbn [split_path]. rewrite Z.eqb_refl.
      split_and!; [done|done|]. by intros r [= ->].
    + destruct (elem_of_path path) as [e' r'] eqn:E'. injection E as <- <-. destruct (IH e' r' eq_refl) as (-> & Hni & Hr & es & Hs & H1 & H2).
      split_and!; [done|by apply not_elem_of_cons|done|]. exists es. cbn [split_path]. destruct (Z.eqb_spec c slash); [done|]. rewrite Hs. split_and!; done.
Qed.

Lemma elems_cons path e rest :
  elem_of_path path = (e, rest) -> e <> [] -> path_elems path = e :: path_elems rest.
Proof.
  intros E He. destruct (elem_split _ _ _ E) as (_ & _ & Hr & es & Hs & H1 & H2). unfold path_elems. rewrite Hs.
  rewrite filter_cons_True by done. f_equal. destruct Hr as [->|[r ->]]; [by rewrite H1|]. rewrite (H2 r) by done. symmetry. apply elems_slash.
Qed.

Lemma elem_nonempty path c r e rest : path = c :: r -> c <> slash -> elem_of_path path = (e, rest) -> exists e', e = c :: e'.
Proof.
  intros -> Hc E. cbn in E. destruct (Z.eqb_spec c slash); [done|]. destruct (elem_of_path r). injection E as <- <-. eauto.
Qed.

(** [cstr] of a prefix that has no NUL. *)
Lemma cstr_app n e l : (0 ∉ e) -> (length e < n)%nat -> cstr n (e ++ 0 :: l) = e.
Proof.
  revert n. induction e as [|c e IH]; intros n Hni Hn; destruct n as [|n]; simpl in Hn; try lia; [done|].
  apply not_elem_of_cons in Hni as [Hc Hni]. cbn. destruct (Z.eqb_spec c 0); [done|]. f_equal. apply IH; [done|lia].
Qed.
Lemma cstr_take n e l : (0 ∉ e) -> (n <= length e)%nat -> cstr n (take n e ++ l) = take n e.
Proof.
  revert e. induction n as [|n IH]; intros e Hni Hn; [done|]. destruct e as [|c e]; simpl in Hn; [lia|].
  apply not_elem_of_cons in Hni as [Hc Hni]. cbn. destruct (Z.eqb_spec c 0); [done|]. f_equal. apply IH; [done|lia].
Qed.

Lemma skipelem_spec path name :
  (0 ∉ path) -> length name = 14%nat ->
  match skipelem path name with
  | None => path_elems path = []
  | Some (rest, name') =>
      exists e, path_elems path = e :: path_elems rest /\ name_of name' = take 14 e /\ length name' = 14%nat /\ (0 ∉ rest) /\
        (length rest < length path)%nat /\ (rest = [] <-> path_elems rest = []) /\ skip_slashes rest = rest
  end.
Proof.
  intros Hz Hn. unfold skipelem. rewrite <- (elems_skip path). pose proof (skip_head path) as Hh.
  assert (length (skip_slashes path) <= length path)%nat as Hlen.
  { clear. induction path as [|c path IH]; [done|]. cbn [skip_slashes]. destruct (c =? slash); simpl in *; lia. }
  assert (forall p, (0 ∉ p) -> 0 ∉ skip_slashes p) as Hsz.
  { clear. induction p as [|c p IH]; intros Hp; [done|]. cbn [skip_slashes]. destruct (c =? slash); [|done]. apply IH. by apply not_elem_of_cons in Hp as [_ ?]. }
  specialize (Hsz path Hz) as Hz'. destruct (skip_slashes path) as [|c p] eqn:Es; [done|].
  destruct (elem_of_path (c :: p)) as [e rest] eqn:Ee. destruct (elem_nonempty _ c p e rest eq_refl Hh Ee) as [e' He].
  destruct (elem_split _ _ _ Ee) as (Ep & Hse & Hr & _). exists e. rewrite Ep in Hz'. apply not_elem_of_app in Hz' as [Hze Hzr].
  split_and!.
  - rewrite (elems_cons _ _ _ Ee) by (rewrite He; done). by rewrite elems_skip.
  - unfold name_of, DIRSIZ, splice. change (Z.to_nat 14) with 14%nat. rewrite take_0. cbn [app]. destruct (Z.leb_spec 14 (Z.of_nat (length e))).
    + apply cstr_take; [done|lia].
    + rewrite <- app_assoc. cbn [app]. rewrite cstr_app by (done || lia). by rewrite take_ge by lia.
  - unfold DIRSIZ. change (Z.to_nat 14) with 14%nat. destruct (Z.leb_spec 14 (Z.of_nat (length e))).
    + rewrite length_splice; [done|]. rewrite length_take. lia.
    + rewrite length_splice; [done|]. rewrite length_app. simpl. lia.
  - auto.
  - apply (f_equal length) in Ep. rewrite length_app, He in Ep. simpl in Ep. simpl in Hlen.
    assert (length (skip_slashes rest) <= length rest)%nat; [|lia].
    clear. induction rest as [|c' r IH]; [done|]. cbn [skip_slashes]. destruct (c' =? slash); simpl in *; lia.
  - split; [by intros ->|]. intros E0. pose proof (skip_head rest) as Hh'. destruct (skip_slashes rest) as [|c' r'] eqn:Er; [done|].
    exfalso. destruct (elem_of_path (c' :: r')) as [e2 rest2] eqn:Ee2. destruct (elem_nonempty _ c' r' e2 rest2 eq_refl Hh' Ee2) as [e2' ->].
    rewrite (elems_cons _ _ _ Ee2) in E0 by done. done.
  - pose proof (skip_head rest) as Hh'. destruct (skip_slashes rest) as [|c' r']; [done|]. cbn. by destruct (Z.eqb_spec c' slash).
Qed.

(** ** Names *)

Definition is_byte (c : Z) : Prop := 0 <= c < 256.

Lemma strncmp_list_cstr n p q :
  Forall is_byte p -> Forall is_byte q -> strncmp_list n p q = 0 <-> cstr n p = cstr n q.
Proof.
  revert p q. induction n as [|n IH]; intros p q Hp Hq; [by destruct p, q|]. cbn [strncmp_list].
  assert (forall l, Forall is_byte l -> is_byte (default 0 (head l)) /\ Forall is_byte (tail l)) as Hl.
  { intros [|c l] Hl; cbn; [split; [by split|constructor]|]. by apply Forall_cons in Hl. }
  assert (forall l, cstr (S n) l = if default 0 (head l) =? 0 then [] else default 0 (head l) :: cstr n (tail l)) as Hc.
  { intros [|c l]; cbn; [done|]. by destruct (c =? 0). }
  destruct (Hl p Hp) as [Hx Hp'], (Hl q Hq) as [Hy Hq']. rewrite !Hc.
  set (x := default 0 (head p)) in *. set (y := default 0 (head q)) in *. unfold is_byte in *.
  destruct (Z.eqb_spec x 0) as [Ex|Ex], (Z.eqb_spec y 0) as [Ey|Ey], (Z.eqb_spec x y) as [Exy|Exy]; cbn [negb andb].
  all: try (split; [lia|intros E; simplify_eq; lia]); try lia.
  - split; [done|lia].
  - rewrite (IH _ _ Hp' Hq'). rewrite Exy. split; [by intros ->|by intros [= ->]].
Qed.

(** [namecmp] is the [strncmp] of kernel/string.c on arrays in memory. *)
Lemma strncmp_list_mem n (m : mem) a b :
  strncmp m a b (Z.of_nat n) = strncmp_list n (ldn m a n) (ldn m b n).
Proof.
  unfold strncmp. rewrite Nat2Z.id. revert a b. induction n as [|n IH]; intros a b; [done|].
  cbn [strncmp_loop strncmp_list ldn head default tail]. by rewrite IH.
Qed.

(** ** Directories as lists of entries *)

Definition entry : Type := Z * list Z.
(** The [k]th entry: inode number and name. *)
Definition dir_entry (V : view) (ip : inode) (k : nat) : entry :=
  let de := fbytes V ip (16 * Z.of_nat k) 16 in (de_inum de, name_of (de_name de)).
Definition dir_entries (V : view) (ip : inode) : list entry := dir_entry V ip <$> seq 0 (Z.to_nat (ip_size ip / 16)).

(** The first entry in use with the name. *)
Fixpoint find_entry (name : list Z) (es : list entry) (k : nat) : option (nat * Z) :=
  match es with
  | [] => None
  | (inum, nm) :: es => if negb (inum =? 0) && bool_decide (nm = name) then Some (k, inum) else find_entry name es (S k)
  end.
(** The first entry not in use, or the end. *)
Fixpoint free_entry (es : list entry) (k : nat) : nat :=
  match es with
  | [] => k
  | (inum, _) :: es => if inum =? 0 then k else free_entry es (S k)
  end.

Record dir_ok (V : view) (ip : inode) : Prop := {
  do_type : ip_type ip = T_DIR;
  do_size : ip_size ip mod 16 = 0;
  do_bytes : forall o, 0 <= o < ip_size ip -> is_byte (fbyte V ip o)
}.

Lemma dir_bytes V ip k :
  dir_ok V ip -> 0 <= ip_size ip -> 16 * Z.of_nat k + 16 <= ip_size ip -> Forall is_byte (fbytes V ip (16 * Z.of_nat k) 16).
Proof.
  intros Hd Hs Hk. apply Forall_forall. intros c Hc. unfold fbytes in Hc. apply list_elem_of_fmap in Hc as (o & -> & Ho).
  apply elem_of_seqZ in Ho. apply Hd. lia.
Qed.

Section dir_ops.
Context {L : Layout} {T H : Type} {BO : BlockOps T H} {BC : BlockCache T H}.
Implicit Types (s : fst T) (D V : view) (h : list lockid).

(** One [readi] of an entry. *)
Lemma read_entry i s D V k h :
  fpre i s D V -> fs_free h -> 16 * Z.of_nat k + 16 <= ip_size (geti s i) -> (length (lgd s) < NBUF)%nat ->
  exists s', readi i ToLocal (16 * Z.of_nat k) sizeof_dirent (World h s)
      = Ok (sizeof_dirent, fbytes V (geti s i) (16 * Z.of_nat k) 16) (World h s') /\
    reads s s' /\ fview s' D V [] /\ lgd s' = lgd s.
Proof.
  intros Pre Hh Hk Hr. pose proof (io_size _ _ _ (fp_ino _ _ _ _ Pre)) as Hs. change (MAXFILE * BSIZE) with 274432 in Hs. unfold sizeof_dirent.
  destruct (readi_run i s D V ToLocal (fun _ _ => True) (16 * Z.of_nat k) 16 h Pre Hh (accepts_local _ _ _ h) I) as (s' & E & R & V' & Lg & _); [lia|lia|done|].
  exists s'. split; [|done]. rewrite E. rewrite u32_small by lia.
  destruct (Z.ltb_spec (ip_size (geti s i)) (16 * Z.of_nat k)); [lia|]. destruct (Z.ltb_spec (16 * Z.of_nat k + 16) (16 * Z.of_nat k)); [lia|].
  cbn [orb]. by rewrite Z.min_l by lia.
Qed.

Lemma entries_drop V ip k :
  0 <= ip_size ip -> ip_size ip mod 16 = 0 ->
  if decide (16 * Z.of_nat k < ip_size ip) then
    16 * Z.of_nat k + 16 <= ip_size ip /\ drop k (dir_entries V ip) = dir_entry V ip k :: drop (S k) (dir_entries V ip)
  else drop k (dir_entries V ip) = [].
Proof.
  intros Hs Hm. assert (ip_size ip = 16 * (ip_size ip / 16)) as E by (pose proof (Z.div_mod (ip_size ip) 16 ltac:(done)); lia).
  pose proof (Z.div_pos (ip_size ip) 16 Hs ltac:(done)).
  case_decide.
  - split; [lia|]. apply drop_S. unfold dir_entries. rewrite list_lookup_fmap, lookup_seq_lt by lia. done.
  - apply drop_ge. unfold dir_entries. rewrite length_fmap, length_seq. lia.
Qed.

Lemma dirlookup_loop_run fuel dp s D V name k h :
  fpre dp s D V -> fs_free h -> dir_ok V (geti s dp) -> Forall is_byte name -> (length (lgd s) < NBUF)%nat ->
  ip_size (geti s dp) - 16 * Z.of_nat k < Z.of_nat fuel -> (0 < fuel)%nat ->
  exists s', dirlookup_loop fuel dp name (16 * Z.of_nat k) (World h s) =
      match find_entry (name_of name) (drop k (dir_entries V (geti s dp))) k with
      | None => Ok None (World h s')
      | Some (k', inum) => (ip ← iget ROOTDEV inum; mret (Some (ip, 16 * Z.of_nat k'))) (World h s')
      end /\ reads s s' /\ fview s' D V [] /\ lgd s' = lgd s.
Proof.
  revert s k. induction fuel as [|fuel IH]; intros s k Pre Hh Hd Hn Hr Hf H0; [lia|].
  cbn [dirlookup_loop]. rewrite gets_run. pose proof (io_size _ _ _ (fp_ino _ _ _ _ Pre)) as Hs.
  pose proof (entries_drop V (geti s dp) k (proj1 Hs) (do_size _ _ Hd)) as He.
  destruct (Z.ltb_spec (16 * Z.of_nat k) (ip_size (geti s dp))) as [Hlt|Hge]; cbn [negb].
  - rewrite decide_True in He by done. destruct He as [Hk ->]. destruct (read_entry dp s D V k h Pre Hh Hk Hr) as (s1 & E1 & R1 & V1 & L1).
    rewrite (bind_run _ _ _ _ _ E1). cbn [Datatypes.fst snd]. rewrite Z.eqb_refl. cbn [negb].
    pose proof (dir_bytes V (geti s dp) k Hd (proj1 Hs) Hk) as Hb. unfold dir_entry. set (de := fbytes V (geti s dp) (16 * Z.of_nat k) 16) in *.
    cbn [find_entry].
    assert ((namecmp name (de_name de) =? 0) = bool_decide (name_of (de_name de) = name_of name)) as Hcmp.
    { unfold namecmp. apply eq_bool_prop_intro. rewrite bool_decide_spec, Is_true_true, Z.eqb_eq.
      rewrite strncmp_list_cstr by (done || by apply Forall_drop). unfold name_of. split; congruence. }
    destruct (Z.eqb_spec (de_inum de) 0) as [E0|E0]; cbn [negb andb].
    + destruct (IH s1 (S k)) as (s2 & E2 & R2 & V2 & L2); rewrite ?(reads_geti _ _ dp R1), ?L1; try done; [by apply (reads_fpre dp s)|lia|lia|].
      exists s2. split; [|split_and!; [by rewrite R1|done|by rewrite L2]]. rewrite (reads_geti _ _ dp R1) in E2. rewrite <- E2. f_equal. unfold sizeof_dirent. lia.
    + rewrite Hcmp. case_bool_decide as Hnm.
      * exists s1. split; [|done]. rewrite (io_dev _ _ _ (fp_ino _ _ _ _ Pre)). done.
      * destruct (IH s1 (S k)) as (s2 & E2 & R2 & V2 & L2); rewrite ?(reads_geti _ _ dp R1), ?L1; try done; [by apply (reads_fpre dp s)|lia|lia|].
        exists s2. split; [|split_and!; [by rewrite R1|done|by rewrite L2]]. rewrite (reads_geti _ _ dp R1) in E2. rewrite <- E2. f_equal. unfold sizeof_dirent. lia.
  - rewrite decide_False in He by lia. rewrite He. exists s. split_and!; try done. apply Pre.
Qed.

Lemma dirlookup_run dp s D V name h :
  fpre dp s D V -> fs_free h -> dir_ok V (geti s dp) -> Forall is_byte name -> (length (lgd s) < NBUF)%nat ->
  exists s', dirlookup dp name (World h s) =
      match find_entry (name_of name) (dir_entries V (geti s dp)) 0 with
      | None => Ok None (World h s')
      | Some (k, inum) => (ip ← iget ROOTDEV inum; mret (Some (ip, 16 * Z.of_nat k))) (World h s')
      end /\ reads s s' /\ fview s' D V [] /\ lgd s' = lgd s.
Proof.
  intros Pre Hh Hd Hn Hr. unfold dirlookup. rewrite gets_run, (do_type _ _ Hd). cbn [negb Z.eqb T_DIR Pos.eqb].
  pose proof (io_size _ _ _ (fp_ino _ _ _ _ Pre)).
  destruct (dirlookup_loop_run (S (Z.to_nat (ip_size (geti s dp)))) dp s D V name 0 h) as (s' & E & ?); try done; [lia|lia|]. exists s'. done.
Qed.

Lemma dirlink_slot_run fuel dp s D V k h :
  fpre dp s D V -> fs_free h -> dir_ok V (geti s dp) -> (length (lgd s) < NBUF)%nat ->
  ip_size (geti s dp) - 16 * Z.of_nat k < Z.of_nat fuel -> (0 < fuel)%nat -> 16 * Z.of_nat k <= ip_size (geti s dp) ->
  exists s', dirlink_slot fuel dp (16 * Z.of_nat k) (World h s) =
      Ok (16 * Z.of_nat (free_entry (drop k (dir_entries V (geti s dp))) k)) (World h s') /\ reads s s' /\ fview s' D V [] /\ lgd s' = lgd s.
Proof.
  revert s k. induction fuel as [|fuel IH]; intros s k Pre Hh Hd Hr Hf H0 Hk0; [lia|]. cbn [dirlink_slot]. rewrite gets_run.
  pose proof (io_size _ _ _ (fp_ino _ _ _ _ Pre)) as Hs. pose proof (entries_drop V (geti s dp) k (proj1 Hs) (do_size _ _ Hd)) as He.
  destruct (Z.ltb_spec (16 * Z.of_nat k) (ip_size (geti s dp))) as [Hlt|Hge]; cbn [negb].
  - rewrite decide_True in He by done. destruct He as [Hk ->]. destruct (read_entry dp s D V k h Pre Hh Hk Hr) as (s1 & E1 & R1 & V1 & L1).
    rewrite (bind_run _ _ _ _ _ E1). cbn [Datatypes.fst snd]. rewrite Z.eqb_refl. cbn [negb]. unfold dir_entry. cbn [free_entry].
    destruct (Z.eqb_spec (de_inum (fbytes V (geti s dp) (16 * Z.of_nat k) 16)) 0); [exists s1; done|].
    destruct (IH s1 (S k)) as (s2 & E2 & R2 & V2 & L2); rewrite ?(reads_geti _ _ dp R1), ?L1; try done; [by apply (reads_fpre dp s)|lia|lia|lia|].
    exists s2. split; [|split_and!; [by rewrite R1|done|by rewrite L2]]. rewrite (reads_geti _ _ dp R1) in E2. rewrite <- E2. f_equal. unfold sizeof_dirent. lia.
  - rewrite decide_False in He by lia. rewrite He. exists s. split_and!; try done. apply Pre.
Qed.
End dir_ops.

(** ** The entry [dirlink] adds *)

Lemma length_strncpy n t : length (strncpy_list n t) = n.
Proof.
  revert t. induction n as [|n IH]; intros t; [done|]. destruct t as [|c t]; cbn; [by rewrite length_replicate|].
  destruct (c =? 0); cbn; [by rewrite length_replicate|by rewrite IH].
Qed.
Lemma cstr_replicate n k : cstr n (replicate k 0) = [].
Proof. by destruct n, k. Qed.
Lemma cstr_strncpy n t : cstr n (strncpy_list n t) = cstr n t.
Proof.
  revert t. induction n as [|n IH]; intros t; [done|]. destruct t as [|c t]; [done|]. cbn [strncpy_list cstr].
  destruct (Z.eqb_spec c 0) as [->|Hc]; [done|]. cbn. destruct (Z.eqb_spec c 0); [done|]. by rewrite IH.
Qed.
Lemma bytes_strncpy n t : Forall is_byte t -> Forall is_byte (strncpy_list n t).
Proof.
  revert t. induction n as [|n IH]; intros t Ht; [constructor|]. assert (Forall is_byte (replicate (S n) 0)) as Hz by (apply Forall_replicate; by split).
  destruct t as [|c t]; [done|]. cbn [strncpy_list]. destruct (c =? 0); [done|]. apply Forall_cons in Ht as [Hc Ht]. constructor; auto.
Qed.

Lemma length_dirent inum name : length name = 14%nat -> length (dirent inum name) = 16%nat.
Proof. intros Hn. unfold dirent. rewrite length_app, length_le_bytes by lia. simpl. lia. Qed.
Lemma dirent_inum inum name : de_inum (dirent (u16 inum) name) = u16 inum.
Proof.
  unfold de_inum, dirent, get16. rewrite drop_0. assert (length (Z_to_little_endian 2 8 (u16 inum)) = 2%nat) as Hl by (by rewrite length_le_bytes).
  rewrite <- Hl at 1. rewrite take_app_length. rewrite little_endian_to_Z_to_little_endian by lia. unfold u16. change (2 ^ (2 * 8)) with (2^16). by rewrite Z.mod_mod.
Qed.
Lemma dirent_name inum name : de_name (dirent inum name) = name.
Proof.
  unfold de_name, dirent. assert (length (Z_to_little_endian 2 8 inum) = 2%nat) as Hl by (by rewrite length_le_bytes).
  rewrite <- Hl at 1. by rewrite drop_app_length.
Qed.
Lemma bytes_dirent inum name : Forall is_byte name -> Forall is_byte (dirent inum name).
Proof.
  intros Hn. unfold dirent. apply Forall_app. split; [|done]. pose proof (Z_to_little_endian_bound 2 8 inum ltac:(lia) ltac:(lia)) as Hb.
  eapply Forall_impl; [exact Hb|]. intros x Hx. exact Hx.
Qed.

(** Entries after one of them is overwritten. *)
Lemma fbytes_overwrite V V' ip ip' off bs k :
  (forall o, 0 <= o < MAXFILE * BSIZE -> fbyte V' ip' o = overwrite off bs (fbyte V ip) o) -> length bs = 16%nat ->
  16 * Z.of_nat k + 16 <= MAXFILE * BSIZE -> (exists j, off = 16 * Z.of_nat j) ->
  fbytes V' ip' (16 * Z.of_nat k) 16 = if decide (off = 16 * Z.of_nat k) then bs else fbytes V ip (16 * Z.of_nat k) 16.
Proof.
  intros Hy Hl Hk [j Hj]. unfold fbytes. case_decide as E.
  - apply list_eq. intros x. rewrite list_lookup_fmap. destruct (decide (x < 16)%nat).
    + rewrite lookup_seqZ_lt by lia. cbn [fmap option_fmap option_map]. rewrite Hy by lia. unfold overwrite. rewrite Hl.
      destruct (Z.leb_spec off (16 * Z.of_nat k + Z.of_nat x)), (Z.ltb_spec (16 * Z.of_nat k + Z.of_nat x) (off + Z.of_nat 16)); try lia. cbn [andb].
      replace (Z.to_nat (16 * Z.of_nat k + Z.of_nat x - off)) with x by lia. destruct (lookup_lt_is_Some_2 bs x) as [y ->]; [lia|done].
    + rewrite lookup_seqZ_ge by lia. symmetry. apply lookup_ge_None. lia.
  - apply list_fmap_ext. intros x o Ho. apply lookup_seqZ in Ho as [-> Hx]. rewrite Hy by lia. unfold overwrite. rewrite Hl.
    destruct (Z.leb_spec off (16 * Z.of_nat k + Z.of_nat x)), (Z.ltb_spec (16 * Z.of_nat k + Z.of_nat x) (off + Z.of_nat 16)); cbn [andb]; try done. lia.
Qed.

Lemma find_entry_app name es1 es2 k :
  find_entry name (es1 ++ es2) k = match find_entry name es1 k with Some r => Some r | None => find_entry name es2 (k + length es1) end.
Proof.
  revert k. induction es1 as [|[i nm] es1 IH]; intros k; cbn [app find_entry length]; [by rewrite Nat.add_0_r|].
  destruct (negb (i =? 0) && _); [done|]. rewrite IH. by replace (S k + length es1)%nat with (k + S (length es1))%nat by lia.
Qed.
Lemma free_entry_spec es k :
  let j := (free_entry es k - k)%nat in
  (k <= free_entry es k <= k + length es)%nat /\ (drop j es = [] \/ exists nm r, drop j es = (0, nm) :: r).
Proof.
  revert k. induction es as [|[i nm] es IH]; intros k; cbn [free_entry length]; [split; [lia|left; by rewrite drop_nil]|].
  destruct (Z.eqb_spec i 0) as [->|Hi].
  - rewrite Nat.sub_diag. split; [lia|]. right. eauto.
  - destruct (IH (S k)) as [H1 H2]. split; [lia|]. replace (free_entry es (S k) - k)%nat with (S (free_entry es (S k) - S k)) by lia. done.
Qed.

Lemma free_entry_first es k j e : (j < free_entry es k - k)%nat -> es !! j = Some e -> Datatypes.fst e <> 0.
Proof.
  revert k j. induction es as [|[i nm] es IH]; intros k j Hj E; [done|]. cbn [free_entry] in Hj. destruct (Z.eqb_spec i 0) as [->|Hi]; [lia|].
  destruct j as [|j]; [by injection E as <-|]. apply (IH (S k) j); [|done]. pose proof (free_entry_spec es (S k)). lia.
Qed.

Lemma drop_S_tail {A} (l : list A) k : drop (S k) l = tail (drop k l).
Proof. revert k. induction l as [|x l IH]; intros [|k]; try done. cbn. apply IH. Qed.

(** The list of entries with one added in the first free place. *)
Definition add_entry (e : entry) (es : list entry) : list entry :=
  take (free_entry es 0) es ++ e :: drop (S (free_entry es 0)) es.

Lemma find_entry_none_sub name es k k0 : find_entry name es k = None -> find_entry name (take k0 es) k = None.
Proof.
  intros E. rewrite <- (take_drop k0 es) in E. rewrite find_entry_app in E. by destruct (find_entry name (take k0 es) k).
Qed.
Lemma find_shift name es k k' : snd <$> find_entry name es k = snd <$> find_entry name es k'.
Proof.
  revert k k'. induction es as [|[i nm] es IH]; intros k k'; [done|]. cbn [find_entry]. destruct (negb (i =? 0) && _); [done|]. apply IH.
Qed.

Lemma find_added name inum es nm :
  inum <> 0 -> find_entry name es 0 = None ->
  snd <$> find_entry nm (add_entry (inum, name) es) 0 = if decide (nm = name) then Some inum else snd <$> find_entry nm es 0.
Proof.
  intros Hi Hn. unfold add_entry. destruct (free_entry_spec es 0) as [_ Hd]. rewrite Nat.sub_0_r in Hd. set (k0 := free_entry es 0) in *.
  rewrite find_entry_app. case_decide as E.
  - subst nm. rewrite find_entry_none_sub by done. cbn [find_entry]. destruct (Z.eqb_spec inum 0); [done|]. cbn [negb andb]. by rewrite bool_decide_true.
  - assert (find_entry nm es 0 = find_entry nm (take k0 es ++ drop k0 es) 0) as -> by (by rewrite take_drop).
    rewrite find_entry_app. destruct (find_entry nm (take k0 es) 0) as [r|]; [done|].
    cbn [find_entry]. rewrite (bool_decide_false (name = nm)) by congruence. rewrite andb_false_r.
    rewrite drop_S_tail.
    destruct Hd as [->|(nm0 & r & ->)]; cbn [tail find_entry Z.eqb negb andb]; [done|apply find_shift].
Qed.

Section dirlink.
Context {L : Layout} {T H : Type} {BO : BlockOps T H} {BC : BlockCache T H}.
Implicit Types (s : fst T) (D V : view) (h : list lockid).

(** The entries after the write of [dirlink]. *)
Lemma entries_added V V' ip ip' inum name k0 :
  let es := dir_entries V ip in
  0 <= ip_size ip -> ip_size ip mod 16 = 0 -> k0 = free_entry es 0 -> ip_size ip + 16 <= MAXFILE * BSIZE ->
  ip_size ip' = Z.max (ip_size ip) (16 * Z.of_nat k0 + 16) ->
  (forall o, 0 <= o < MAXFILE * BSIZE -> fbyte V' ip' o = overwrite (16 * Z.of_nat k0) (dirent (u16 inum) (strncpy_list 14 name)) (fbyte V ip) o) ->
  dir_entries V' ip' = add_entry (u16 inum, name_of name) es.
Proof.
  intros es Hs Hm Hk0 Hmax Hsz Hy. destruct (free_entry_spec es 0) as [Hk _]. rewrite <- Hk0 in Hk.
  assert (ip_size ip = 16 * (ip_size ip / 16)) as E by (pose proof (Z.div_mod (ip_size ip) 16 ltac:(done)); lia).
  assert (length es = Z.to_nat (ip_size ip / 16)) as Hles by (unfold es, dir_entries; by rewrite length_fmap, length_seq).
  pose proof (Z.div_pos (ip_size ip) 16 Hs ltac:(done)). set (q := ip_size ip / 16) in *.
  assert (ip_size ip' / 16 = Z.max q (Z.of_nat k0 + 1)) as Eq.
  { rewrite Hsz, E. rewrite <- (Z.div_mul (Z.max q (Z.of_nat k0 + 1)) 16) by done. f_equal. lia. }
  apply list_eq. intros k. unfold dir_entries at 1. rewrite Eq, list_lookup_fmap. unfold add_entry. rewrite <- Hk0.
  assert (length (take k0 es) = k0) as Hlt by (rewrite length_take; lia).
  destruct (decide (k < Z.to_nat (Z.max q (Z.of_nat k0 + 1)))%nat) as [Hlt'|Hge].
  - rewrite lookup_seq_lt by done. cbn [fmap option_fmap option_map Nat.add]. unfold dir_entry.
    rewrite (fbytes_overwrite V V' ip ip' (16 * Z.of_nat k0) _ k Hy) by (eauto; try (apply length_dirent, length_strncpy); lia).
    case_decide as Ek.
    + assert (k = k0) as -> by lia. rewrite lookup_app_r by lia. rewrite Hlt, Nat.sub_diag. cbn [lookup list_lookup].
      rewrite dirent_inum, dirent_name. do 2 f_equal. unfold name_of. apply cstr_strncpy.
    + assert (k <> k0) by lia. assert (es !! k = Some (dir_entry V ip k)) as Hes by (unfold es, dir_entries; rewrite list_lookup_fmap, lookup_seq_lt by (fold q; lia); done).
      change (Some (dir_entry V ip k) = (take k0 es ++ (u16 inum, name_of name) :: drop (S k0) es) !! k). rewrite <- Hes.
      destruct (decide (k < k0)%nat).
      * rewrite lookup_app_l by lia. by rewrite lookup_take_lt.
      * rewrite lookup_app_r by lia. rewrite Hlt. destruct (k - k0)%nat as [|j] eqn:Ej; [lia|]. change (es !! k = drop (S k0) es !! j). rewrite lookup_drop. f_equal. lia.
  - rewrite lookup_seq_ge by lia. symmetry. apply lookup_ge_None. rewrite length_app, length_take. cbn [length]. rewrite length_drop. lia.
Qed.

Lemma nblocks_entry k : nblocks (16 * Z.of_nat k) 16 = 1.
Proof.
  unfold nblocks. cbn [Z.eqb]. unfold BSIZE. symmetry. apply (Z.div_unique _ _ _ ((16 * Z.of_nat k) mod 1024 + 15)); [|lia].
  left. Z.to_euclidean_division_equations. lia.
Qed.

Lemma dirlink_run dp s D V name inum h :
  fpre dp s D V -> fs_free h -> dir_ok V (geti s dp) -> Forall is_byte name -> 0 < inum < 2^16 ->
  (length (lgd s) + 6 < 30)%nat -> nfree (fsb s) V 2 -> ip_size (geti s dp) + 16 <= MAXFILE * BSIZE ->
  find_entry (name_of name) (dir_entries V (geti s dp)) 0 = None ->
  exists s' V', dirlink dp name inum (World h s) = Ok 0 (World h s') /\ fpre dp s' D V' /\ dir_ok V' (geti s' dp) /\
    dir_entries V' (geti s' dp) = add_entry (inum, name_of name) (dir_entries V (geti s dp)) /\ (length (lgd s') <= length (lgd s) + 4)%nat.
Proof.
  intros Pre Hh Hd Hn Hi Hr Hfree Hmax Hnone. unfold dirlink. assert (length (lgd s) < NBUF)%nat as Hr0 by (unfold NBUF; lia).
  destruct (dirlookup_run dp s D V name h Pre Hh Hd Hn Hr0) as (s1 & E1 & R1 & V1 & L1). rewrite Hnone in E1. rewrite (bind_run _ _ _ _ _ E1), gets_run.
  pose proof (reads_geti _ _ dp R1) as G1. pose proof (reads_fpre dp s s1 D V R1 V1 Pre) as P1. pose proof (io_size _ _ _ (fp_ino _ _ _ _ Pre)) as Hs.
  destruct (dirlink_slot_run (S (Z.to_nat (ip_size (geti s1 dp)))) dp s1 D V 0 h P1 Hh) as (s2 & E2 & R2 & V2 & L2); rewrite ?G1, ?L1; try done; try lia.
  change (16 * Z.of_nat 0) with 0 in E2. rewrite G1 in E2. rewrite drop_0 in E2. set (k0 := free_entry (dir_entries V (geti s dp)) 0) in *. rewrite (bind_run _ _ _ _ _ E2).
  assert (geti s2 dp = geti s dp) as G2 by (by rewrite (reads_geti _ _ dp R2)). pose proof (reads_fpre dp s1 s2 D V R2 V2 P1) as P2.
  assert (fsb s2 = fsb s) as Esb by (rewrite R2, R1; done).
  destruct (free_entry_spec (dir_entries V (geti s dp)) 0) as [Hk _]. fold k0 in Hk. unfold dir_entries in Hk. rewrite length_fmap, length_seq in Hk.
  assert (ip_size (geti s dp) = 16 * (ip_size (geti s dp) / 16)) as E16 by (pose proof (Z.div_mod (ip_size (geti s dp)) 16 ltac:(done)); pose proof (do_size _ _ Hd); lia).
  set (de := dirent (u16 inum) (strncpy_list (Z.to_nat DIRSIZ) name)).
  assert (length de = 16%nat) as Hlde by (apply length_dirent, length_strncpy).
  destruct (writei_run dp s2 D V (FromLocal de) de (16 * Z.of_nat k0) h P2 Hh (delivers_local s2 de h)) as (s3 & V3 & E3 & _ & P3 & Hg & Hy & _ & _ & _ & Hl3); rewrite ?G2, ?Hlde, ?Esb.
  { lia. }
  { lia. }
  { rewrite nblocks_entry, L2, L1. lia. }
  { rewrite nblocks_entry. done. }
  rewrite Hlde in E3, Hg. rewrite G2 in Hg, Hy. assert (ip_size (geti s3 dp) = Z.max (ip_size (geti s dp)) (16 * Z.of_nat k0 + 16)) as Hsz by (by rewrite Hg). change (Z.of_nat 16) with sizeof_dirent in E3. rewrite (bind_run _ _ _ _ _ E3).
  rewrite Z.eqb_refl. cbn [negb]. exists s3, V3.
  assert (dir_entries V3 (geti s3 dp) = add_entry (inum, name_of name) (dir_entries V (geti s dp))) as Hes.
  { rewrite <- (u16_small inum) at 1 by lia. by apply (entries_added V V3 (geti s dp) (geti s3 dp) inum name k0); [apply Hs|apply Hd| | | |]. }
  rewrite Hlde, nblocks_entry, L2, L1 in Hl3. split_and!; [done|done| |done|lia]. split; [rewrite Hg; apply Hd| |].
  - rewrite Hsz. destruct (Z.max_spec (ip_size (geti s dp)) (16 * Z.of_nat k0 + 16)) as [[_ ->]|[_ ->]]; [|apply Hd].
    replace (16 * Z.of_nat k0 + 16) with ((Z.of_nat k0 + 1) * 16) by lia. by apply Z.mod_mul.
  - intros o Ho. rewrite Hsz in Ho. rewrite Hy by lia. unfold overwrite. rewrite Hlde.
    destruct (Z.leb_spec (16 * Z.of_nat k0) o), (Z.ltb_spec o (16 * Z.of_nat k0 + Z.of_nat 16)); cbn [andb]; try (apply Hd; lia).
    destruct (lookup_lt_is_Some_2 de (Z.to_nat (o - 16 * Z.of_nat k0))) as [c Hc]; [lia|]. rewrite Hc.
    apply (Forall_lookup_1 _ _ _ _ (bytes_dirent (u16 inum) _ (bytes_strncpy (Z.to_nat DIRSIZ) name Hn)) Hc).
Qed.
End dirlink.

(** ** Theorems *)

(** [skipelem] iterates over the elements of a path.  It returns 0 exactly
    when no element is left; otherwise it copies the next element, cut to
    [DIRSIZ] bytes, to the name buffer and returns a strictly shorter path
    that holds the remaining elements and is empty exactly when there are
    none, which is what [namex] tests to stop at the parent. *)
Theorem skipelem_next path name :
  (0 ∉ path) -> length name = 14%nat ->
  match skipelem path name with
  | None => path_elems path = []
  | Some (rest, name') =>
      exists e, path_elems path = e :: path_elems rest /\ name_of name' = take 14 e /\ length name' = 14%nat /\ (0 ∉ rest) /\
        (length rest < length path)%nat /\ (rest = [] <-> path_elems rest = []) /\ skip_slashes rest = rest
  end.
Proof. apply skipelem_spec. Qed.
(** The path "//a/bb" and a name buffer of spaces. *)
Lemma skipelem_next_witness :
  skipelem [47; 47; 97; 47; 98; 98] (replicate 14 32) = Some ([98; 98], 97 :: 0 :: replicate 12 32) /\
  exists e, path_elems [47; 47; 97; 47; 98; 98] = e :: path_elems [98; 98] /\ name_of (97 :: 0 :: replicate 12 32) = take 14 e.
Proof.
  split; [reflexivity|]. destruct (skipelem_next [47; 47; 97; 47; 98; 98] (replicate 14 32)) as (e & E1 & E2 & _).
  - intros Hin. repeat (apply elem_of_cons in Hin as [Hin|Hin]; [discriminate Hin|]). by apply elem_of_nil in Hin.
  - reflexivity.
  - exists e. split; [exact E1|exact E2].
Defined.

(** C17: [dirlookup] finds the first entry in use whose name is the one asked
    for, compared on [DIRSIZ] bytes as NUL-terminated strings, and returns the
    in-memory inode of its number with the entry's offset; with no such entry
    it returns 0.  It modifies no block. *)
Theorem dirlookup_finds {L : Layout} {T H : Type} {BO : BlockOps T H} {BC : BlockCache T H}
    (dp : nat) (s : fst T) (D V : view) (name : list Z) (h : list lockid) :
  fpre dp s D V -> fs_free h -> dir_ok V (geti s dp) -> Forall is_byte name -> (length (lgd s) < NBUF)%nat ->
  exists s', dirlookup dp name (World h s) =
      match find_entry (name_of name) (dir_entries V (geti s dp)) 0 with
      | None => Ok None (World h s')
      | Some (k, inum) => (ip ← iget ROOTDEV inum; mret (Some (ip, 16 * Z.of_nat k))) (World h s')
      end /\ reads s s' /\ fview s' D V [] /\ lgd s' = lgd s.
Proof. apply dirlookup_run. Qed.

(** C18: [dirlink] adds one entry in the first free slot.  For a name that is
    not in the directory it returns 0; the new entry is written over the first
    entry whose inode number is 0, or after the last entry when there is none,
    and every other entry keeps its place and its contents.  So a lookup of the
    name finds the given inode number afterwards, and a lookup of any other
    name finds what it found before. *)
Theorem dirlink_adds {L : Layout} {T H : Type} {BO : BlockOps T H} {BC : BlockCache T H}
    (dp : nat) (s : fst T) (D V : view) (name : list Z) (inum : Z) (h : list lockid) :
  fpre dp s D V -> fs_free h -> dir_ok V (geti s dp) -> Forall is_byte name -> 0 < inum < 2^16 ->
  (length (lgd s) + 6 < 30)%nat -> nfree (fsb s) V 2 -> ip_size (geti s dp) + 16 <= MAXFILE * BSIZE ->
  find_entry (name_of name) (dir_entries V (geti s dp)) 0 = None ->
  exists s' V' k, dirlink dp name inum (World h s) = Ok 0 (World h s') /\ fpre dp s' D V' /\ dir_ok V' (geti s' dp) /\
    (forall j e, (j < k)%nat -> dir_entries V (geti s dp) !! j = Some e -> Datatypes.fst e <> 0) /\
    ((exists nm, dir_entries V (geti s dp) !! k = Some (0, nm)) \/ k = length (dir_entries V (geti s dp))) /\
    dir_entries V' (geti s' dp) = take k (dir_entries V (geti s dp)) ++ (inum, name_of name) :: drop (S k) (dir_entries V (geti s dp)) /\
    forall nm, snd <$> find_entry nm (dir_entries V' (geti s' dp)) 0
             = if decide (nm = name_of name) then Some inum else snd <$> find_entry nm (dir_entries V (geti s dp)) 0.
Proof.
  intros Pre Hh Hd Hn Hi Hr Hf Hm Hno. destruct (dirlink_run dp s D V name inum h Pre Hh Hd Hn Hi Hr Hf Hm Hno) as (s' & V' & E & P' & D' & Es & _).
  set (es := dir_entries V (geti s dp)) in *. destruct (free_entry_spec es 0) as [Hk Hfirst]. rewrite Nat.sub_0_r in Hfirst.
  exists s', V', (free_entry es 0). split_and!; [done..| | |done|].
  - intros j e Hj. apply (free_entry_first es 0). lia.
  - destruct Hfirst as [Hnil|(nm & r & Ecur)].
    + right. apply (f_equal length) in Hnil. rewrite length_drop in Hnil. cbn [length] in Hnil. lia.
    + left. exists nm. pose proof (lookup_drop es (free_entry es 0) 0) as El. rewrite Ecur, Nat.add_0_r in El. symmetry. exact El.
  - intros nm. rewrite Es. apply find_added; [lia|done].
Qed.

Lemma demo_dir_ok : dir_ok demo_view (demo_inode T_DIR).
Proof. split; [done|done|]. intros o Ho. cbn in Ho. lia. Qed.
(** A directory whose only entry is "a", of inode 5. *)
Lemma demo_dir_a : exists s V, fpre 0 s demo_view V /\ dir_ok V (geti s 0) /\ (length (lgd s) <= 4)%nat /\ dir_entries V (geti s 0) = [(5, [97])].
Proof.
  destruct (dirlink_run 0 (demo_fst T_DIR) demo_view demo_view [97; 0] 5 [] (demo_fpre T_DIR) demo_fs_free demo_dir_ok) as (s' & V' & _ & P' & D' & Es & Hl).
  - repeat constructor; done.
  - lia.
  - change (lgd (demo_fst T_DIR)) with (@nil Z). simpl. lia.
  - exact demo_nfree.
  - done.
  - reflexivity.
  - exists s', V'. by split_and!.
Qed.
Lemma dirlookup_finds_witness :
  exists s s' V, dirlookup 0 [97; 0] (World [] s) = (ip ← iget ROOTDEV 5; mret (Some (ip, 0))) (World [] s') /\ fview s' demo_view V [].
Proof.
  destruct demo_dir_a as (s & V & P & Hd & Hl & Es).
  destruct (dirlookup_finds 0 s demo_view V [97; 0] [] P demo_fs_free Hd) as (s' & E & _ & Hv & _).
  - repeat constructor; done.
  - unfold NBUF. lia.
  - exists s, s', V. rewrite Es in E. split; [exact E|exact Hv].
Defined.
Lemma dirlink_adds_witness :
  exists s' V', dirlink 0 [97; 0] 5 (World [] (demo_fst T_DIR)) = Ok 0 (World [] s') /\
    dir_entries V' (geti s' 0) = [(5, [97])].
Proof.
  destruct (dirlink_adds 0 (demo_fst T_DIR) demo_view demo_view [97; 0] 5 [] (demo_fpre T_DIR) demo_fs_free demo_dir_ok) as (s' & V' & k & E & _ & _ & _ & Hk & Es & _).
  - repeat constructor; done.
  - lia.
  - change (lgd (demo_fst T_DIR)) with (@nil Z). simpl. lia.
  - exact demo_nfree.
  - done.
  - reflexivity.
  - exists s', V'. split; [exact E|]. change (dir_entries demo_view (geti (demo_fst T_DIR) 0)) with (@nil entry) in Es, Hk.
    destruct Hk as [[nm Hk]|Hk]; [discriminate Hk|]. rewrite Es, Hk. reflexivity.
Defined.
