(* ===== verification/FsTable.v ===== *)
(** * The inode table: [iget], [idup], [iput]

    Pointers to table entries are handed out by [iget] and [idup] and given
    back to [iput].  In any sequence of these calls the count of an entry is
    the number of pointers to it, and no inode has two entries. *)

From S2P Require Import Prelude Mem Riscv Kalloc Vm Sleeplock Bio BioSpec Log LogOps Fs FsFile.

(** What identifies an entry and its count. *)
Definition ident (ip : inode) : Z * Z * Z := (ip_ref ip, ip_dev ip, ip_inum ip).
Definition idents (t : list inode) : list (Z * Z * Z) := ident <$> t.

Section scan.
Context (dv inum : Z).
Definition matches (ip : inode) : Prop := 0 < ip_ref ip /\ ip_dev ip = dv /\ ip_inum ip = inum.

Lemma matches_bool ip : (0 <? ip_ref ip) && (ip_dev ip =? dv) && (ip_inum ip =? inum) = true <-> matches ip.
Proof. unfold matches. rewrite !andb_true_iff, Z.ltb_lt, !Z.eqb_eq. tauto. Qed.

Lemma iget_scan_spec t i empty :
  match iget_scan dv inum empty i t with
  | inl j => exists k ip, (j = i + k)%nat /\ t !! k = Some ip /\ matches ip
  | inr e => Forall (fun ip => ~ matches ip) t /\
      match empty with
      | Some _ => e = empty
      | None => match e with
                | Some j => exists k ip, (j = i + k)%nat /\ t !! k = Some ip /\ ip_ref ip = 0
                | None => Forall (fun ip => ip_ref ip <> 0) t
                end
      end
  end.
Proof.
  revert i empty. induction t as [|ip t IH]; intros i empty; cbn [iget_scan].
  { split; [constructor|]. destruct empty; [done|constructor]. }
  destruct ((0 <? ip_ref ip) && (ip_dev ip =? dv) && (ip_inum ip =? inum)) eqn:Ec.
  { exists 0%nat, ip. split; [lia|]. split; [done|]. by apply matches_bool. }
  assert (~ matches ip) as Hn by (rewrite <- matches_bool; congruence).
  set (e1 := match empty with None => if ip_ref ip =? 0 then Some i else None | e => e end). specialize (IH (S i) e1).
  destruct (iget_scan dv inum e1 (S i) t) as [j|e'].
  { destruct IH as (k & ip' & -> & Hk & Hm). exists (S k), ip'. split; [lia|done]. }
  destruct IH as [Hf He]. split; [by constructor|]. destruct empty as [e0|]; [done|]. subst e1. destruct (Z.eqb_spec (ip_ref ip) 0) as [E0|E0].
  { subst e'. exists 0%nat, ip. split; [lia|done]. }
  destruct e' as [j|]; [|by constructor]. destruct He as (k & ip' & -> & Hk & Hr). exists (S k), ip'. split; [lia|done].
Qed.
End scan.

Section table.
Context {L : Layout} {T H : Type} {BO : BlockOps T H}.
Implicit Types (s : fst T).

(** Routines that leave identities and counts alone. *)
Definition ids_same {A} (m : M (fst T) A) : Prop := forall w r w', m w = Ok r w' -> idents (itab (st w')) = idents (itab (st w)).

Lemma ids_bind {A B} (m : M (fst T) A) (k : A -> M (fst T) B) : ids_same m -> (forall a, ids_same (k a)) -> ids_same (m ≫= k).
Proof. intros Hm Hk w r w' E. apply bind_Ok in E as (a & w1 & E1 & E2). apply Hm in E1. apply Hk in E2. congruence. Qed.
Lemma ids_ret {A} (a : A) : ids_same (mret a).
Proof. intros w r w' E. by injection E as <- <-. Qed.
Lemma ids_gets {A} (f : fst T -> A) : ids_same (gets f).
Proof. intros w r w' E. by injection E as <- <-. Qed.
Lemma ids_panic {A} msg : ids_same (panic (A := A) msg).
Proof. done. Qed.
Lemma ids_spin {A} : ids_same (spin (A := A)).
Proof. done. Qed.
Lemma ids_sleep {A} c : ids_same (sleep (A := A) c).
Proof. done. Qed.
Lemma ids_log {A} (m : M (lst T) A) : ids_same (in_log m).
Proof. intros [h s] r w' E. unfold in_log, zoom in E. cbn in E. destruct (m _) as [a w| | |]; try done. by injection E as <- <-. Qed.
Lemma ids_acquire lk : ids_same (acquire lk).
Proof. intros [h s] r w' E. unfold acquire in E. destruct (decide _); [done|]. by injection E as <- <-. Qed.
Lemma ids_release lk : ids_same (release lk).
Proof. intros [h s] r w' E. unfold release in E. destruct (decide _); [|done]. by injection E as <- <-. Qed.
Lemma ids_when b m : ids_same m -> ids_same (when b m).
Proof. destruct b; [done|intros _; apply ids_ret]. Qed.
Lemma ids_fwakeup c : ids_same (fwakeup c).
Proof. intros w r w' E. by injection E as <- <-. Qed.

Lemma idents_updi i f s : (forall ip, ident (f ip) = ident ip) -> idents (itab (updi i f s)) = idents (itab s).
Proof.
  intros Hf. unfold idents, updi, upd_itab, geti. cbn [itab]. apply list_eq. intros j. rewrite !list_lookup_fmap.
  destruct (decide (i < length (itab s))%nat) as [Hi|Hi].
  - rewrite list_lookup_insert. destruct (decide (i = j ∧ _)) as [[<- _]|]; [|done].
    destruct (lookup_lt_is_Some_2 _ _ Hi) as [ip E]. rewrite E. cbn. by rewrite Hf.
  - by rewrite list_insert_ge by lia.
Qed.
Lemma ids_updi i f : (forall ip, ident (f ip) = ident ip) -> ids_same (modify (updi i f)).
Proof. intros Hf [h s] r w' E. injection E as <- <-. by apply idents_updi. Qed.
End table.

Create HintDb ids discriminated.
#[export] Hint Resolve ids_ret ids_gets ids_panic ids_spin ids_sleep ids_log ids_acquire ids_release ids_fwakeup : ids.
Ltac ids_step :=
  lazymatch goal with
  | |- ids_same (_ ≫= _) => apply ids_bind; [|intros ?]
  | |- ids_same (when _ _) => apply ids_when
  | |- ids_same (modify (updi _ _)) => apply ids_updi; intros ?; reflexivity
  | |- ids_same (modify (put_ilock _ _)) => apply ids_updi; intros ?; reflexivity
  | |- ids_same (match ?x with _ => _ end) => destruct x
  end.
Ltac ids_tac := repeat ids_step; auto with ids.

Section iput.
Context {L : Layout} {T H : Type} {BO : BlockOps T H}.
Implicit Types (s : fst T).

Lemma ids_bfree dv b : ids_same (bfree (T := T) dv b).
Proof. unfold bfree, bread_, bdata, bset, log_write_, brelse_. ids_tac. Qed.
Lemma ids_iupdate i : ids_same (iupdate (T := T) i).
Proof. unfold iupdate, bread_, bdata, bset, log_write_, brelse_. ids_tac. Qed.
Lemma ids_itrunc_direct i js : ids_same (itrunc_direct (T := T) i js).
Proof. induction js as [|j js IH]; cbn [itrunc_direct]; [apply ids_ret|]. ids_tac. apply ids_bfree. Qed.
Lemma ids_itrunc_indirect dv bp js : ids_same (itrunc_indirect (T := T) dv bp js).
Proof. induction js as [|j js IH]; cbn [itrunc_indirect]; [apply ids_ret|]. unfold bdata. ids_tac. apply ids_bfree. Qed.
Lemma ids_itrunc i : ids_same (itrunc (T := T) i).
Proof.
  unfold itrunc, bread_, brelse_. ids_tac; [apply ids_itrunc_direct|apply ids_itrunc_indirect|apply ids_bfree|apply ids_iupdate].
Qed.
Lemma ids_acquiresleep i pid : ids_same (acquiresleep (inode_lock i) (get_ilock (T := T) i) (put_ilock i) pid).
Proof. unfold acquiresleep. ids_tac. Qed.
Lemma ids_releasesleep i : ids_same (releasesleep (inode_lock i) (put_ilock (T := T) i) fwakeup).
Proof. unfold releasesleep. ids_tac. Qed.

Definition upd_count (i : nat) (f : Z -> Z) (ids : list (Z * Z * Z)) : list (Z * Z * Z) :=
  alter (fun x => (f (Datatypes.fst (Datatypes.fst x)), snd (Datatypes.fst x), snd x)) i ids.

Lemma idents_ref i f s : idents (itab (updi i (fun ip => set_ref (f (ip_ref ip)) ip) s)) = upd_count i f (idents (itab s)).
Proof.
  unfold idents, upd_count, updi, upd_itab, geti. cbn [itab]. apply list_eq. intros j. rewrite list_lookup_alter, !list_lookup_fmap.
  rewrite list_lookup_insert. destruct (decide (i = j)) as [<-|Hne].
  - destruct (itab s !! i) as [ip|] eqn:E.
    + rewrite decide_True by (split; [done|by eapply lookup_lt_Some]). done.
    + rewrite decide_False by (intros [_ Hl]; apply lookup_ge_None in E; lia). done.
  - by rewrite decide_False by tauto.
Qed.

Lemma iput_ids i (w : world (fst T)) w' :
  iput i w = Ok tt w' -> idents (itab (st w')) = upd_count i (fun r => r - 1) (idents (itab (st w))).
Proof.
  intros E. unfold iput in E. apply bind_Ok in E as (a & w1 & E1 & E). apply ids_acquire in E1.
  apply bind_Ok in E as (ip & w2 & E2 & E). injection E2 as <- <-. apply bind_Ok in E as (? & w3 & E3 & E).
  assert (idents (itab (st w3)) = idents (itab (st w1))) as E3'.
  { refine ((_ : ids_same (when _ _)) _ _ _ E3). ids_tac; [apply ids_acquiresleep|apply ids_itrunc|apply ids_iupdate|apply ids_releasesleep]. }
  apply bind_Ok in E as (? & w4 & E4 & E). injection E4 as _ <-. apply ids_release in E. rewrite E. cbn [st].
  rewrite (idents_ref i (fun r => r - 1)). congruence.
Qed.

Lemma idup_ids i (w : world (fst T)) r w' :
  idup i w = Ok r w' -> r = i /\ idents (itab (st w')) = upd_count i (fun r => r + 1) (idents (itab (st w))).
Proof.
  intros E. unfold idup in E. apply bind_Ok in E as (a & w1 & E1 & E). apply ids_acquire in E1.
  apply bind_Ok in E as (? & w2 & E2 & E). injection E2 as _ <-. apply bind_Ok in E as (? & w3 & E3 & E). apply ids_release in E3.
  injection E as <- <-. split; [done|]. rewrite E3. cbn [st]. rewrite (idents_ref i (fun r => r + 1)). congruence.
Qed.
End iput.

(** ** Counts and pointers *)

Definition cnt (i : nat) (ps : list nat) : Z := Z.of_nat (length (filter (fun j => j = i) ps)).

Lemma cnt_cons i j ps : cnt i (j :: ps) = cnt i ps + (if decide (j = i) then 1 else 0).
Proof. unfold cnt. rewrite filter_cons. case_decide; cbn [length]; lia. Qed.
Lemma cnt_app i ps1 ps2 : cnt i (ps1 ++ ps2) = cnt i ps1 + cnt i ps2.
Proof. unfold cnt. rewrite filter_app, length_app. lia. Qed.
Lemma cnt_pos i ps : 0 <= cnt i ps.
Proof. unfold cnt. lia. Qed.
Lemma cnt_in i ps : i ∈ ps -> 0 < cnt i ps.
Proof. intros Hi. apply list_elem_of_split in Hi as (p1 & p2 & ->). rewrite cnt_app, cnt_cons, decide_True by done. pose proof (cnt_pos i p1). pose proof (cnt_pos i p2). lia. Qed.

(** The table on identities: counts agree with the pointers, every inode in
    use has one entry. *)
Record ids_ok (ids : list (Z * Z * Z)) (ps : list nat) : Prop := {
  id_count : forall i r d n, ids !! i = Some (r, d, n) -> r = cnt i ps;
  id_unique : forall i j r r' d n, ids !! i = Some (r, d, n) -> ids !! j = Some (r', d, n) -> 0 < r -> 0 < r' -> i = j;
  id_ptrs : Forall (fun i => (i < length ids)%nat) ps
}.

Lemma lookup_upd_count i f ids j :
  upd_count i f ids !! j = (fun x => if decide (i = j) then (f (Datatypes.fst (Datatypes.fst x)), snd (Datatypes.fst x), snd x) else x) <$> ids !! j.
Proof. unfold upd_count. rewrite list_lookup_alter. case_decide as E; [subst j|]; by destruct (ids !! _). Qed.
Lemma length_upd_count i f ids : length (upd_count i f ids) = length ids.
Proof. apply length_alter. Qed.

Lemma ids_more i ids ps : ids_ok ids ps -> 0 < cnt i ps -> (i < length ids)%nat -> ids_ok (upd_count i (fun r => r + 1) ids) (i :: ps).
Proof.
  intros [Hc Hu Hp] Hi Hl. split.
  - intros j r d n E. rewrite lookup_upd_count in E. rewrite cnt_cons. destruct (ids !! j) as [[[r0 d0] n0]|] eqn:Ej; [|done].
    specialize (Hc _ _ _ _ Ej). case_decide; cbn in E; simplify_eq; lia.
  - intros j k r r' d n Ej Ek Hr Hr'. rewrite lookup_upd_count in Ej, Ek. destruct (ids !! j) as [[[rj dj] nj]|] eqn:E1; [|done].
    destruct (ids !! k) as [[[rk dk] nk]|] eqn:E2; [|done]. pose proof (Hc _ _ _ _ E1). pose proof (Hc _ _ _ _ E2).
    repeat case_decide; cbn in Ej, Ek; simplify_eq; try done; eapply (Hu _ _ _ _ _ _ E1 E2); lia.
  - constructor; [by rewrite length_upd_count|]. by rewrite length_upd_count.
Qed.
Lemma ids_less i ids ps1 ps2 : ids_ok ids (ps1 ++ i :: ps2) -> ids_ok (upd_count i (fun r => r - 1) ids) (ps1 ++ ps2).
Proof.
  intros [Hc Hu Hp]. split.
  - intros j r d n E. rewrite lookup_upd_count in E. rewrite cnt_app. destruct (ids !! j) as [[[r0 d0] n0]|] eqn:Ej; [|done].
    specialize (Hc _ _ _ _ Ej). rewrite cnt_app, cnt_cons in Hc. repeat case_decide; cbn in E; simplify_eq; lia.
  - intros j k r r' d n Ej Ek Hr Hr'. rewrite lookup_upd_count in Ej, Ek. destruct (ids !! j) as [[[rj dj] nj]|] eqn:E1; [|done].
    destruct (ids !! k) as [[[rk dk] nk]|] eqn:E2; [|done].
    repeat case_decide; cbn in Ej, Ek; simplify_eq; try done; eapply (Hu _ _ _ _ _ _ E1 E2); lia.
  - rewrite length_upd_count. apply Forall_app in Hp as [Hp1 Hp2]. apply Forall_cons in Hp2 as [_ Hp2]. by apply Forall_app.
Qed.
(** A free entry is taken for an inode that has none. *)
Lemma ids_new i ids ps dv inum :
  ids_ok ids ps -> (exists d n, ids !! i = Some (0, d, n)) -> (forall j r, ids !! j = Some (r, dv, inum) -> r <= 0) ->
  ids_ok (<[i := (1, dv, inum)]> ids) (i :: ps).
Proof.
  intros [Hc Hu Hp] (d0 & n0 & Ei) Hno. pose proof (Hc _ _ _ _ Ei) as Hz. pose proof (lookup_lt_Some _ _ _ Ei) as Hl. split.
  - intros j r d n E. rewrite cnt_cons. rewrite list_lookup_insert in E. destruct (decide (i = j)) as [<-|Hne].
    + rewrite decide_True in E by done. simplify_eq. lia.
    + rewrite decide_False in E by tauto. specialize (Hc _ _ _ _ E). lia.
  - intros j k r r' d n Ej Ek Hr Hr'. rewrite list_lookup_insert in Ej, Ek.
    destruct (decide (i = j)) as [<-|Hj], (decide (i = k)) as [<-|Hk]; rewrite ?decide_True in Ej by done; rewrite ?decide_False in Ej by tauto;
      rewrite ?decide_True in Ek by done; rewrite ?decide_False in Ek by tauto; simplify_eq; try done.
    + specialize (Hno _ _ Ek). lia.
    + specialize (Hno _ _ Ej). lia.
    + by eapply Hu.
  - rewrite length_insert. by constructor.
Qed.

Section steps.
Context {L : Layout} {T H : Type} {BO : BlockOps T H}.
Implicit Types (s : fst T).

Lemma iget_ids dv inum (w : world (fst T)) i w' ps :
  ids_ok (idents (itab (st w))) ps -> iget dv inum w = Ok i w' ->
  ids_ok (idents (itab (st w'))) (i :: ps) /\ exists ip, itab (st w') !! i = Some ip /\ ip_dev ip = dv /\ ip_inum ip = inum.
Proof.
  intros Hok E. unfold iget in E. apply bind_Ok in E as (? & w1 & E1 & E). unfold acquire in E1. destruct (decide _); [done|]. injection E1 as _ <-.
  rewrite gets_run in E. pose proof (iget_scan_spec dv inum (itab (st w)) 0 None) as Hs. set (t := itab (st w)) in *.
  assert (forall k ip, t !! k = Some ip -> idents t !! k = Some (ident ip)) as Hid by (intros k ip Hk; unfold idents; by rewrite list_lookup_fmap, Hk).
  destruct (iget_scan dv inum None 0 t) as [j|[j|]]; [| |done].
  - destruct Hs as (k & ip & -> & Hk & Hm). cbn [Nat.add] in *. rewrite modify_run in E. apply bind_Ok in E as (? & w2 & E2 & E). injection E as <- <-.
    unfold release in E2. destruct (decide _); [|done]. injection E2 as _ <-. cbn [st].
    pose proof (lookup_lt_Some _ _ _ Hk) as Hl. split.
    + rewrite (idents_ref k (fun r => r + 1)). apply ids_more; [done| |unfold idents; by rewrite length_fmap].
      rewrite <- (id_count _ _ Hok _ _ _ _ (Hid _ _ Hk)). apply Hm.
    + eexists. split; [unfold updi, upd_itab, geti; cbn [itab]; by rewrite list_lookup_insert_eq by done|]. fold t. rewrite Hk. cbn. by destruct Hm as (_ & ? & ?).
  - destruct Hs as [Hno (k & ip & -> & Hk & Hr)]. cbn [Nat.add] in *. rewrite modify_run in E. apply bind_Ok in E as (? & w2 & E2 & E). injection E as <- <-.
    unfold release in E2. destruct (decide _); [|done]. injection E2 as _ <-. cbn [st]. pose proof (lookup_lt_Some _ _ _ Hk) as Hl. split.
    + unfold updi, upd_itab. cbn [itab]. fold t. unfold idents. rewrite list_fmap_insert. fold (idents t). cbn [ident ip_ref ip_dev ip_inum].
      apply ids_new; [done| |].
      * rewrite (Hid _ _ Hk). unfold ident. rewrite Hr. eauto.
      * intros j r Hj. unfold idents in Hj. rewrite list_lookup_fmap in Hj. destruct (t !! j) as [jp|] eqn:Ej; [|done]. cbn in Hj. injection Hj as <- Hd Hn.
        rewrite Forall_forall in Hno. specialize (Hno jp (list_elem_of_lookup_2 _ _ _ Ej)). unfold matches in Hno. lia.
    + eexists. split; [unfold updi, upd_itab; cbn [itab]; by rewrite list_lookup_insert_eq by done|]. done.
Qed.

(** Calls on the table, in any order and by any threads; [ps] are the pointers
    in use.  Every other routine of the file system leaves counts and
    identities alone. *)
Inductive tstep : fst T * list nat -> fst T * list nat -> Prop :=
| ts_get h h' s s' ps dv inum i : iget dv inum (World h s) = Ok i (World h' s') -> tstep (s, ps) (s', i :: ps)
| ts_dup h h' s s' ps i r : i ∈ ps -> idup i (World h s) = Ok r (World h' s') -> tstep (s, ps) (s', r :: ps)
| ts_put h h' s s' ps1 i ps2 : iput i (World h s) = Ok tt (World h' s') -> tstep (s, ps1 ++ i :: ps2) (s', ps1 ++ ps2)
| ts_other {A} (m : M (fst T) A) h h' s s' r ps : ids_same m -> m (World h s) = Ok r (World h' s') -> tstep (s, ps) (s', ps).

Lemma tstep_ids c c' : ids_ok (idents (itab (Datatypes.fst c))) (snd c) -> tstep c c' -> ids_ok (idents (itab (Datatypes.fst c'))) (snd c').
Proof.
  intros Hok Hs. destruct Hs as [h h' s s' ps dv inum i E|h h' s s' ps i r Hi E|h h' s s' ps1 i ps2 E|A m h h' s s' r ps Hm E]; cbn [Datatypes.fst snd] in *.
  - by apply (iget_ids dv inum (World h s) i (World h' s') ps).
  - apply idup_ids in E as [-> E]. cbn in E. rewrite E. apply ids_more; [done|by apply cnt_in|].
    pose proof (id_ptrs _ _ Hok) as Hp. rewrite Forall_forall in Hp. auto.
  - apply iput_ids in E. cbn in E. rewrite E. by apply ids_less.
  - apply Hm in E. cbn in E. by rewrite E.
Qed.
Lemma treach_ids c c' : ids_ok (idents (itab (Datatypes.fst c))) (snd c) -> rtc tstep c c' -> ids_ok (idents (itab (Datatypes.fst c'))) (snd c').
Proof. intros Hok Hs. induction Hs; [done|]. apply IHHs. by eapply tstep_ids. Qed.
End steps.

(** C19: inode reference counts.  From a table with no references, after any
    sequence of [iget], [idup] (of a pointer in use), [iput] (of a pointer in
    use, with the truncation and freeing it may do) and other routines of the
    file system, every entry's [ref] is the number of pointers in use to it,
    and two entries in use never stand for the same inode. *)
Theorem itable_refcounts {L : Layout} {T H : Type} {BO : BlockOps T H} (s0 s : fst T) (ps : list nat) :
  Forall (fun ip => ip_ref ip = 0) (itab s0) -> rtc (tstep (H := H)) (s0, []) (s, ps) ->
  (forall i ip, itab s !! i = Some ip -> ip_ref ip = Z.of_nat (length (filter (fun j => j = i) ps))) /\
  forall i j ip jp, itab s !! i = Some ip -> itab s !! j = Some jp -> 0 < ip_ref ip -> 0 < ip_ref jp ->
    ip_dev ip = ip_dev jp -> ip_inum ip = ip_inum jp -> i = j.
Proof.
  intros H0 Hs. apply treach_ids in Hs; cbn [Datatypes.fst snd] in *.
  - destruct Hs as [Hc Hu _].
    assert (forall k ip, itab s !! k = Some ip -> idents (itab s) !! k = Some (ip_ref ip, ip_dev ip, ip_inum ip)) as Hid
      by (intros k ip Hk; unfold idents; by rewrite list_lookup_fmap, Hk).
    split; [intros i ip Hi; by apply Hid, Hc in Hi|]. intros i j ip jp Hi Hj Hr Hr' Hd Hn. apply Hid in Hi, Hj. rewrite Hd, Hn in Hi. eauto.
  - split; [|intros i j r r' d n Ei|constructor].
    + intros i r d n Ei. unfold idents in Ei. rewrite list_lookup_fmap in Ei. destruct (itab s0 !! i) as [ip|] eqn:E; [|done]. cbn in Ei. unfold ident in Ei. simplify_eq.
      apply (Forall_lookup_1 _ _ _ _ H0 E).
    + unfold idents in Ei. rewrite list_lookup_fmap in Ei. destruct (itab s0 !! i) as [ip|] eqn:E; [|done]. cbn in Ei. unfold ident in Ei. simplify_eq.
      rewrite (Forall_lookup_1 _ _ _ _ H0 E). lia.
Qed.

Definition demo_itable (t : list inode) : fst bst :=
  Fst (KState ∅ 0) (Lst empty_bst demo_log1) t (Superblock 0 0 0 0 0 0 0 0) 3 0 0 [].
Definition used_inode : inode := Inode 1 1 1 (Sleeplock false 0) false 0 0 0 0 0 (replicate 13 0).
Lemma itable_refcounts_witness :
  (forall i ip, itab (demo_itable [used_inode; inode0]) !! i = Some ip -> ip_ref ip = Z.of_nat (length (filter (fun j => j = i) [0%nat]))) /\
  forall i j ip jp, itab (demo_itable [used_inode; inode0]) !! i = Some ip -> itab (demo_itable [used_inode; inode0]) !! j = Some jp ->
    0 < ip_ref ip -> 0 < ip_ref jp -> ip_dev ip = ip_dev jp -> ip_inum ip = ip_inum jp -> i = j.
Proof.
  apply (itable_refcounts (H := nat) (demo_itable [inode0; inode0]) (demo_itable [used_inode; inode0]) [0%nat]).
  - repeat constructor.
  - apply rtc_once. apply (ts_get [] [] _ _ [] 1 1). reflexivity.
Defined.
