(* ===== verification/File.v ===== *)
(** * kernel/file.c and [pipealloc]: open files

    A [struct file *] is an index of the file table.  Device drivers are
    reached through [devsw], a table of function pointers: the model takes it
    as a parameter.  A call that would sleep ends with [Blocked]. *)

From S2P Require Import Prelude Mem Riscv Kalloc Vm Pipe Sleeplock Bio BioSpec Log Fs.

Definition NFILE : nat := 100.
Definition NDEV : Z := 10.

Inductive fdtype : Type := FD_NONE | FD_PIPE | FD_INODE | FD_DEVICE.
#[export] Instance fdtype_eq_dec : EqDecision fdtype.
Proof. solve_decision. Defined.

Record file : Type := File {
  f_type : fdtype;
  f_ref : Z;
  f_readable : bool;
  f_writable : bool;
  f_pipe : Z;            (* FD_PIPE: address of the pipe *)
  f_ip : nat;            (* FD_INODE and FD_DEVICE *)
  f_off : Z;             (* FD_INODE *)
  f_major : Z            (* FD_DEVICE *)
}.
Definition file0 : file := File FD_NONE 0 false false 0 0 0 0.
Definition set_fref (r : Z) (f : file) : file :=
  File (f_type f) r (f_readable f) (f_writable f) (f_pipe f) (f_ip f) (f_off f) (f_major f).
Definition set_ftype (t : fdtype) (f : file) : file :=
  File t (f_ref f) (f_readable f) (f_writable f) (f_pipe f) (f_ip f) (f_off f) (f_major f).
Definition set_foff (o : Z) (f : file) : file :=
  File (f_type f) (f_ref f) (f_readable f) (f_writable f) (f_pipe f) (f_ip f) o (f_major f).
Definition set_pipe_end (readable writable : bool) (a : Z) (f : file) : file :=
  File FD_PIPE (f_ref f) readable writable a (f_ip f) (f_off f) (f_major f).

(** The file system, the file table, the pipes by address, [myproc()->killed],
    and the channels woken by pipes. *)
Record fsys (T : Type) : Type := Fsys {
  ffs : fst T;
  ftable : list file;
  pipes : gmap Z pipe;
  fkilled : bool;
  fsyswakes : list lockid
}.
Arguments Fsys {T} _ _ _ _ _.
Arguments ffs {T} _.
Arguments ftable {T} _.
Arguments pipes {T} _.
Arguments fkilled {T} _.
Arguments fsyswakes {T} _.

Definition ftable_lock : lockid := ("ftable"%string, 0).

Section file.
Context {L : Layout} {T H : Type} {BO : BlockOps T H}.
Abbreviation FM := (M (fsys T)).
(** [devsw[major].read] and [.write]: from or to a user address. *)
Context (dev_read dev_write : Z -> option (Z -> Z -> FM Z)).

Definition in_fs {A} (m : M (fst T) A) : FM A :=
  zoom ffs (fun x s => Fsys x (ftable s) (pipes s) (fkilled s) (fsyswakes s)) m.
Definition set_fk_fs (k : kstate) (s : fst T) : fst T :=
  Fst k (fl s) (itab s) (fsb s) (fpid s) (fpt s) (fcwd s) (fwakes s).
Definition pipe0 : pipe := pipe_init [].
(** The pipe at address [a]. *)
Definition get_pipe (a : Z) (s : fsys T) : pst := PSt (fk (ffs s)) a (default pipe0 (pipes s !! a)) (fsyswakes s).
Definition put_pipe (a : Z) (p : pst) (s : fsys T) : fsys T :=
  Fsys (set_fk_fs (pk p) (ffs s)) (ftable s) (<[a := pi p]> (pipes s)) (fkilled s) (wakes p).
Definition in_pipe {A} (a : Z) (m : M pst A) : FM A := zoom (get_pipe a) (put_pipe a) m.
Definition in_kmem {A} (m : M kstate A) : FM A := in_fs (in_mem m).
(** [pi] is initialised in the page just allocated. *)
Definition new_pipe (a : Z) (data : list Z) : FM unit :=
  initlock (pi_lock a);;
  modify (fun s => Fsys (ffs s) (ftable s) (<[a := pipe_init data]> (pipes s)) (fkilled s) (fsyswakes s)).

Definition getf (s : fsys T) (f : nat) : file := default file0 (ftable s !! f).
Definition updf (f : nat) (g : file -> file) (s : fsys T) : fsys T :=
  Fsys (ffs s) (<[f := g (getf s f)]> (ftable s)) (pipes s) (fkilled s) (fsyswakes s).
Definition begin_op_ : FM unit := in_fs (in_log (_ ← begin_op []; mret tt)).
Definition end_op_ : FM unit := in_fs (in_log end_op).

Definition fileinit : FM unit := initlock ftable_lock.

(** The first entry whose reference count is 0. *)
Fixpoint free_file (t : list file) (i : nat) : option nat :=
  match t with
  | [] => None
  | f :: t => if f_ref f =? 0 then Some i else free_file t (S i)
  end.
Definition filealloc : FM (option nat) :=
  acquire ftable_lock;;
  t ← gets ftable;
  match free_file t 0 with
  | Some f => modify (updf f (set_fref 1));; release ftable_lock;; mret (Some f)
  | None => release ftable_lock;; mret None
  end.

Definition filedup (f : nat) : FM nat :=
  acquire ftable_lock;;
  x ← gets (fun s => getf s f);
  if f_ref x <? 1 then panic "filedup" else
  modify (updf f (fun x => set_fref (f_ref x + 1) x));;
  release ftable_lock;;
  mret f.

Definition fileclose (f : nat) : FM unit :=
  acquire ftable_lock;;
  x ← gets (fun s => getf s f);
  if f_ref x <? 1 then panic "fileclose" else
  modify (updf f (fun x => set_fref (f_ref x - 1) x));;
  ff ← gets (fun s => getf s f);
  if 0 <? f_ref ff then release ftable_lock else
  modify (updf f (fun x => set_ftype FD_NONE (set_fref 0 x)));;
  release ftable_lock;;
  match f_type ff with
  | FD_PIPE => in_pipe (f_pipe ff) (pipeclose (f_writable ff))
  | FD_INODE | FD_DEVICE => begin_op_;; in_fs (iput (f_ip ff));; end_op_
  | FD_NONE => mret tt
  end.

(** [struct stat]: dev, ino (ints), type, nlink (shorts), four bytes of
    padding, which hold whatever was on the stack, and the 64-bit size. *)
Definition stat_bytes (st : Z * Z * Z * Z * Z) (pad : list Z) : list Z :=
  let '(dv, ino, type, nlink, size) := st in
  Z_to_little_endian 4 8 dv ++ Z_to_little_endian 4 8 ino ++ Z_to_little_endian 2 8 type ++ Z_to_little_endian 2 8 nlink ++
  pad ++ Z_to_little_endian 8 8 size.
Definition filestat (f : nat) (addr : Z) (pad : list Z) : FM Z :=
  x ← gets (fun s => getf s f);
  match f_type x with
  | FD_INODE | FD_DEVICE =>
      in_fs (ilock (f_ip x));;
      st ← in_fs (stati (f_ip x));
      in_fs (iunlock (f_ip x));;
      pt ← gets (fun s => fpt (ffs s));
      r ← in_kmem (copyout pt addr (stat_bytes st pad));
      if r <? 0 then mret (-1) else mret 0
  | _ => mret (-1)
  end.

(** The result of a run of a pipe operation, or its sleep. *)
Definition run_pipe (chan : lockid) (m : FM run) : FM Z :=
  r ← m;
  match r with Done v => mret v | Slept _ => sleep chan end.

Definition fileread (f : nat) (addr n : Z) : FM Z :=
  x ← gets (fun s => getf s f);
  if negb (f_readable x) then mret (-1) else
  pt ← gets (fun s => fpt (ffs s));
  killed ← gets fkilled;
  match f_type x with
  | FD_PIPE => run_pipe (chan_nread (f_pipe x)) (in_pipe (f_pipe x) (piperead killed pt addr n))
  | FD_DEVICE =>
      if (f_major x <? 0) || (NDEV <=? f_major x) then mret (-1) else
      match dev_read (f_major x) with
      | None => mret (-1)
      | Some rd => rd addr n
      end
  | FD_INODE =>
      in_fs (ilock (f_ip x));;
      r ← in_fs (readi (f_ip x) (ToUser addr) (f_off x) (u32 n));
      let r := Datatypes.fst r in
      when (0 <? r) (modify (updf f (fun x => set_foff (u32 (f_off x + r)) x)));;
      in_fs (iunlock (f_ip x));;
      mret r
  | FD_NONE => panic "fileread"
  end.

Definition filewrite_max : Z := ((MAXOPBLOCKS - 1 - 1 - 2) / 2) * BSIZE.
(** Each turn that does not end the loop writes at least one byte. *)
Fixpoint filewrite_loop (fuel : nat) (f : nat) (addr n i : Z) : FM Z :=
  match fuel with
  | O => spin
  | S fuel =>
      if negb (i <? n) then mret i else
      let n1 := if filewrite_max <? n - i then filewrite_max else n - i in
      begin_op_;;
      x ← gets (fun s => getf s f);
      in_fs (ilock (f_ip x));;
      r ← in_fs (writei (f_ip x) (FromUser (u64 (addr + i))) (f_off x) n1);
      when (0 <? r) (modify (updf f (fun x => set_foff (u32 (f_off x + r)) x)));;
      in_fs (iunlock (f_ip x));;
      end_op_;;
      if negb (r =? n1) then mret i else filewrite_loop fuel f addr n (i + r)
  end.
Definition filewrite (f : nat) (addr n : Z) : FM Z :=
  x ← gets (fun s => getf s f);
  if negb (f_writable x) then mret (-1) else
  pt ← gets (fun s => fpt (ffs s));
  killed ← gets fkilled;
  match f_type x with
  | FD_PIPE => run_pipe (chan_nwrite (f_pipe x)) (in_pipe (f_pipe x) (pipewrite (fun _ => killed) pt addr n))
  | FD_DEVICE =>
      if (f_major x <? 0) || (NDEV <=? f_major x) then mret (-1) else
      match dev_write (f_major x) with
      | None => mret (-1)
      | Some wr => wr addr n
      end
  | FD_INODE =>
      i ← filewrite_loop (S (Z.to_nat n)) f addr n 0;
      mret (if i =? n then n else -1)
  | FD_NONE => panic "filewrite"
  end.

(** kernel/pipe.c: [pipealloc].  [None] is the return value -1; [bad] is its
    error path, with the files allocated so far. *)
Definition pipealloc_bad (f0 f1 : option nat) : FM (option (nat * nat)) :=
  (match f0 with Some f => fileclose f | None => mret tt end);;
  (match f1 with Some f => fileclose f | None => mret tt end);;
  mret None.
Definition pipealloc : FM (option (nat * nat)) :=
  r0 ← filealloc;
  match r0 with
  | None => pipealloc_bad None None
  | Some f0 =>
      r1 ← filealloc;
      match r1 with
      | None => pipealloc_bad (Some f0) None
      | Some f1 =>
          pi ← in_kmem kalloc;
          if pi =? 0 then pipealloc_bad (Some f0) (Some f1) else
          (* [data] follows the 24 bytes of the spinlock and is not cleared *)
          data ← gets (fun s => ldn (kmem (fk (ffs s))) (pi + 24) (Z.to_nat PIPESIZE));
          new_pipe pi data;;
          modify (updf f0 (set_pipe_end true false pi));;
          modify (updf f1 (set_pipe_end false true pi));;
          mret (Some (f0, f1))
      end
  end.
End file.
