(* ===== verification/FileProps.v ===== *)
(** * file.c: a turn of [filewrite] fits in its log reservation *)

From S2P Require Import Prelude Mem Riscv Kalloc Vm Sleeplock Bio BioSpec Log LogOps Fs FsTxn FsAlloc FsFile FsInode FsRw FsProps File.

Lemma nblocks_max off n : 0 <= off -> 0 <= n <= filewrite_max -> nblocks off n <= 4.
Proof.
  intros Ho Hn. change filewrite_max with 3072 in Hn. unfold nblocks. change BSIZE with 1024. destruct (n =? 0); [lia|].
  pose proof (Z.mod_pos_bound off 1024 ltac:(lia)). apply Z.lt_succ_r, Z.div_lt_upper_bound; lia.
Qed.

Section turn.
Context {T H : Type} {BO : BlockOps T H} {BC : BlockCache T H}.

(** The bound [filewrite] puts on one [writei] is right.  When the
    operations in progress have logged at most LOGSIZE - MAXOPBLOCKS blocks,
    as [begin_op] sees to, a [writei] of at most that many bytes completes and
    adds at most MAXOPBLOCKS blocks to the log: its data blocks, the bitmap,
    the indirect block and the inode. *)
Theorem filewrite_turn_fits {L : Layout} i (s : fst T) D V src bs off h :
  let n := Z.of_nat (length bs) in
  fpre i s D V -> fs_free h -> delivers s src bs h -> 0 <= off <= ip_size (geti s i) -> off + n <= MAXFILE * BSIZE ->
  n <= filewrite_max -> Z.of_nat (length (lgd s)) + MAXOPBLOCKS <= LOGSIZE -> nfree (fsb s) V (2 * Z.to_nat (nblocks off n)) ->
  exists s' V', writei i src off n (World h s) = Ok n (World h s') /\ fpre i s' D V' /\
    (forall o, 0 <= o < MAXFILE * BSIZE -> fbyte V' (geti s' i) o = overwrite off bs (fbyte V (geti s i)) o) /\
    Z.of_nat (length (lgd s')) <= Z.of_nat (length (lgd s)) + MAXOPBLOCKS.
Proof.
  intros n Hpre Hh Hsrc Ho Hm Hn Hroom Hfree. pose proof (nblocks_max off n ltac:(lia) ltac:(lia)) as Hb.
  change MAXOPBLOCKS with 10 in *. change LOGSIZE with 30 in Hroom.
  destruct (writei_run i s D V src bs off h Hpre Hh Hsrc Ho Hm) as (s' & V' & E & _ & P & _ & Y & _ & _ & _ & Hl); [fold n; lia|exact Hfree|].
  fold n in Hl. exists s', V'. split_and!; [exact E|exact P|exact Y|lia].
Qed.
End turn.

Lemma filewrite_turn_fits_witness :
  exists s' V', writei 0 (FromLocal [7; 8; 9]) 0 3 (World [] (demo_fst T_FILE)) = Ok 3 (World [] s') /\ fpre 0 s' demo_view V'.
Proof.
  destruct (filewrite_turn_fits 0 (demo_fst T_FILE) demo_view demo_view (FromLocal [7; 8; 9]) [7; 8; 9] 0 [] (demo_fpre T_FILE) demo_fs_free
    (delivers_local (demo_fst T_FILE) [7; 8; 9] [])) as (s' & V' & E & P & _).
  - cbn. lia.
  - done.
  - done.
  - done.
  - exact demo_nfree.
  - exists s', V'. split; [exact E|exact P].
Defined.
