(* ===== verification/Hoare.v ===== *)
(** * Partial-correctness triples for kernel routines

    [triple P m Q]: a run of [m] from a state satisfying [P] that returns [a]
    ends in a state satisfying [Q a]; nothing is said of runs that panic or
    sleep.  The rules follow the statements of a routine, as [held_tac] does
    for spinlocks. *)

From S2P Require Import Prelude.

Definition triple {S A} (P : S -> Prop) (m : M S A) (Q : A -> S -> Prop) : Prop :=
  forall h s a w', P s -> m (World h s) = Ok a w' -> Q a (st w').

Create HintDb hoare.

Section rules.
Context {S : Type}.
Implicit Types P : S -> Prop.

Lemma t_bind {A B} P (m : M S A) (k : A -> M S B) R Q :
  triple P m R -> (forall a, triple (R a) (k a) Q) -> triple P (m ≫= k) Q.
Proof. intros Hm Hk h s b w' HP E. apply bind_Ok in E as (a & [h1 s1] & E1 & E2). eapply Hk; [|exact E2]. by apply (Hm _ _ _ _ HP E1). Qed.

Lemma t_conseq {A} P P' (m : M S A) Q Q' :
  triple P' m Q' -> (forall s, P s -> P' s) -> (forall a s, Q' a s -> Q a s) -> triple P m Q.
Proof. intros Hm HP HQ h s a w' Hs E. eapply HQ, Hm, E. auto. Qed.

Lemma t_pre {A} P P' (m : M S A) Q : triple P' m Q -> (forall s, P s -> P' s) -> triple P m Q.
Proof. intros Hm HP h s a w' Hs E. eapply Hm, E. auto. Qed.
Lemma t_post {A} P (m : M S A) Q Q' : triple P m Q' -> (forall a s, Q' a s -> Q a s) -> triple P m Q.
Proof. intros Hm HQ h s a w' Hs E. eapply HQ, Hm, E. auto. Qed.

Lemma t_ret {A} (a : A) P : triple P (mret a) (fun x s => x = a /\ P s).
Proof. intros h s x w' HP E. by injection E as <- <-. Qed.
Lemma t_gets {A} (f : S -> A) P : triple P (gets f) (fun x s => x = f s /\ P s).
Proof. intros h s x w' HP E. by injection E as <- <-. Qed.
Lemma t_modify (f : S -> S) P Q : (forall s, P s -> Q (f s)) -> triple P (modify f) (fun _ => Q).
Proof. intros HQ h s x w' HP E. injection E as _ <-. by apply HQ. Qed.
Lemma t_panic {A} msg P (Q : A -> S -> Prop) : triple P (panic msg) Q.
Proof. done. Qed.
Lemma t_spin {A} P (Q : A -> S -> Prop) : triple P spin Q.
Proof. done. Qed.
Lemma t_acquire lk P : triple P (acquire lk) (fun _ => P).
Proof. intros h s x w' HP E. unfold acquire in E. destruct (decide _); [done|]. by injection E as _ <-. Qed.
Lemma t_release lk P : triple P (release lk) (fun _ => P).
Proof. intros h s x w' HP E. unfold release in E. destruct (decide _); [|done]. by injection E as _ <-. Qed.
Lemma t_initlock lk P : triple P (initlock lk) (fun _ => P).
Proof. intros h s x w' HP E. unfold initlock in E. by injection E as _ <-. Qed.
Lemma t_when b m P : triple P m (fun _ => P) -> triple P (when b m) (fun _ => P).
Proof. intros Hm. destruct b; [exact Hm|]. intros h s x w' HP E. by injection E as _ <-. Qed.
Lemma t_pure {A} (phi : Prop) P (m : M S A) Q : (phi -> triple P m Q) -> triple (fun s => phi /\ P s) m Q.
Proof. intros Hm h s a w' [Hphi HP] E. by apply (Hm Hphi _ _ _ _ HP E). Qed.
Lemma t_ret' {A} (a : A) P (Q : A -> S -> Prop) : (forall s, P s -> Q a s) -> triple P (mret a) Q.
Proof. intros HQ h s x w' HP E. injection E as <- <-. by apply HQ. Qed.

Lemma t_assoc {A B C} P (m : M S A) (f : A -> M S B) (g : B -> M S C) Q :
  triple P ((m ≫= f) ≫= g) Q -> triple P (m ≫= (fun a => f a ≫= g)) Q.
Proof. intros Hm h s c w' HP E. rewrite <- bind_assoc in E. by apply (Hm _ _ _ _ HP E). Qed.

(** A value read from the state is kept as an equation. *)
Lemma t_read {A B} (f : S -> A) P (k : A -> M S B) Q :
  (forall x, triple (fun s => f s = x /\ P s) (k x) Q) -> triple P (gets f ≫= k) Q.
Proof. intros Hk. eapply t_bind; [apply t_gets|]. intros x h s a w' [-> HP] E. by apply (Hk (f s) h s a w'). Qed.
Lemma t_seq {A B} P (m : M S A) (k : A -> M S B) R Q :
  triple P m (fun _ => R) -> (forall a, triple R (k a) Q) -> triple P (m ≫= k) Q.
Proof. intros Hm Hk. eapply t_bind; [exact Hm|exact Hk]. Qed.
End rules.

#[export] Hint Resolve t_panic t_spin t_acquire t_release t_initlock : hoare.

(** Statements that leave the assertion alone. *)
Ltac t_skip := eapply t_seq; [first [apply t_acquire | apply t_release | apply t_initlock | solve [eauto with hoare]]|intros ?; cbv beta].
