(* ===== verification/Proc.v ===== *)
(** * kernel/proc.c: processes and scheduling

    One CPU runs the code; [cur] is its [c->proc].  A context switch passes
    the CPU, with the one spinlock it holds, from a process to the scheduler
    or back, so [sched] ends a run of the process and the code after it is a
    run of its own ([sleep_leave], [yield_leave], [forkret]); the scheduler
    is the run between.  A [struct proc *] is an index of the table. *)

From S2P Require Import Prelude Mem Riscv Kalloc Vm Pipe Sleeplock Bio BioSpec Log Fs File.

Definition NOFILE : nat := 16.
Definition PNPROC : nat := 64.

Inductive procstate : Type := UNUSED | USED | SLEEPING | RUNNABLE | RUNNING | ZOMBIE.
#[export] Instance procstate_eq_dec : EqDecision procstate.
Proof. solve_decision. Defined.

Record proc : Type := Proc {
  p_state : procstate;
  p_chan : option lockid;        (* if non-zero, sleeping on chan *)
  p_killed : bool;
  p_xstate : Z;
  p_pid : Z;
  p_parent : option nat;
  p_kstack : Z;
  p_sz : Z;
  p_pagetable : Z;
  p_trapframe : Z;               (* address of the trapframe page *)
  p_context : Z * Z;             (* ra, sp *)
  p_ofile : list (option nat);
  p_cwd : option nat;
  p_name : list Z                (* 16 bytes *)
}.
Definition proc0 : proc := Proc UNUSED None false 0 0 None 0 0 0 0 (0, 0) (replicate NOFILE None) None (replicate 16 0).

Definition set_state (v : procstate) (p : proc) : proc :=
  Proc v (p_chan p) (p_killed p) (p_xstate p) (p_pid p) (p_parent p) (p_kstack p) (p_sz p) (p_pagetable p) (p_trapframe p) (p_context p) (p_ofile p) (p_cwd p) (p_name p).
Definition set_chan (v : option lockid) (p : proc) : proc :=
  Proc (p_state p) v (p_killed p) (p_xstate p) (p_pid p) (p_parent p) (p_kstack p) (p_sz p) (p_pagetable p) (p_trapframe p) (p_context p) (p_ofile p) (p_cwd p) (p_name p).
Definition set_killed (v : bool) (p : proc) : proc :=
  Proc (p_state p) (p_chan p) v (p_xstate p) (p_pid p) (p_parent p) (p_kstack p) (p_sz p) (p_pagetable p) (p_trapframe p) (p_context p) (p_ofile p) (p_cwd p) (p_name p).
Definition set_xstate (v : Z) (p : proc) : proc :=
  Proc (p_state p) (p_chan p) (p_killed p) v (p_pid p) (p_parent p) (p_kstack p) (p_sz p) (p_pagetable p) (p_trapframe p) (p_context p) (p_ofile p) (p_cwd p) (p_name p).
Definition set_pid (v : Z) (p : proc) : proc :=
  Proc (p_state p) (p_chan p) (p_killed p) (p_xstate p) v (p_parent p) (p_kstack p) (p_sz p) (p_pagetable p) (p_trapframe p) (p_context p) (p_ofile p) (p_cwd p) (p_name p).
Definition set_parent (v : option nat) (p : proc) : proc :=
  Proc (p_state p) (p_chan p) (p_killed p) (p_xstate p) (p_pid p) v (p_kstack p) (p_sz p) (p_pagetable p) (p_trapframe p) (p_context p) (p_ofile p) (p_cwd p) (p_name p).
Definition set_kstack (v : Z) (p : proc) : proc :=
  Proc (p_state p) (p_chan p) (p_killed p) (p_xstate p) (p_pid p) (p_parent p) v (p_sz p) (p_pagetable p) (p_trapframe p) (p_context p) (p_ofile p) (p_cwd p) (p_name p).
Definition set_sz (v : Z) (p : proc) : proc :=
  Proc (p_state p) (p_chan p) (p_killed p) (p_xstate p) (p_pid p) (p_parent p) (p_kstack p) v (p_pagetable p) (p_trapframe p) (p_context p) (p_ofile p) (p_cwd p) (p_name p).
Definition set_pagetable (v : Z) (p : proc) : proc :=
  Proc (p_state p) (p_chan p) (p_killed p) (p_xstate p) (p_pid p) (p_parent p) (p_kstack p) (p_sz p) v (p_trapframe p) (p_context p) (p_ofile p) (p_cwd p) (p_name p).
Definition set_trapframe (v : Z) (p : proc) : proc :=
  Proc (p_state p) (p_chan p) (p_killed p) (p_xstate p) (p_pid p) (p_parent p) (p_kstack p) (p_sz p) (p_pagetable p) v (p_context p) (p_ofile p) (p_cwd p) (p_name p).
Definition set_context (v : Z * Z) (p : proc) : proc :=
  Proc (p_state p) (p_chan p) (p_killed p) (p_xstate p) (p_pid p) (p_parent p) (p_kstack p) (p_sz p) (p_pagetable p) (p_trapframe p) v (p_ofile p) (p_cwd p) (p_name p).
Definition set_ofile (v : list (option nat)) (p : proc) : proc :=
  Proc (p_state p) (p_chan p) (p_killed p) (p_xstate p) (p_pid p) (p_parent p) (p_kstack p) (p_sz p) (p_pagetable p) (p_trapframe p) (p_context p) v (p_cwd p) (p_name p).
Definition set_cwd (v : option nat) (p : proc) : proc :=
  Proc (p_state p) (p_chan p) (p_killed p) (p_xstate p) (p_pid p) (p_parent p) (p_kstack p) (p_sz p) (p_pagetable p) (p_trapframe p) (p_context p) (p_ofile p) v (p_name p).
Definition set_name (v : list Z) (p : proc) : proc :=
  Proc (p_state p) (p_chan p) (p_killed p) (p_xstate p) (p_pid p) (p_parent p) (p_kstack p) (p_sz p) (p_pagetable p) (p_trapframe p) (p_context p) (p_ofile p) (p_cwd p) v.

(** [safestrcpy] of at most [n] bytes on the contents of arrays: the bytes of
    [dst] that are not written stay. *)
Fixpoint safestrcpy_bytes (n : nat) (t : list Z) : list Z :=
  match n with
  | O => []
  | S O => [0]
  | S n => match t with
           | [] => [0]
           | c :: t => if c =? 0 then [0] else c :: safestrcpy_bytes n t
           end
  end.
Definition safestrcpy_list (dst t : list Z) (n : nat) : list Z := splice dst 0 (safestrcpy_bytes n t).

(** Offsets of the fields of [struct trapframe], and its size. *)
Definition TF_kernel_satp : Z := 0.
Definition TF_kernel_sp : Z := 8.
Definition TF_kernel_trap : Z := 16.
Definition TF_epc : Z := 24.
Definition TF_kernel_hartid : Z := 32.
Definition TF_sp : Z := 48.
Definition TF_a0 : Z := 112.
Definition TF_a1 : Z := 120.
Definition TF_a7 : Z := 168.
Definition sizeof_trapframe : Z := 288.

Definition initcode : list Z :=
  [0x17; 0x05; 0x00; 0x00; 0x13; 0x05; 0x45; 0x02;
   0x97; 0x05; 0x00; 0x00; 0x93; 0x85; 0x35; 0x02;
   0x93; 0x08; 0x70; 0x00; 0x73; 0x00; 0x00; 0x00;
   0x93; 0x08; 0x20; 0x00; 0x73; 0x00; 0x00; 0x00;
   0xef; 0xf0; 0x9f; 0xff; 0x2f; 0x69; 0x6e; 0x69;
   0x74; 0x00; 0x00; 0x24; 0x00; 0x00; 0x00; 0x00;
   0x00; 0x00; 0x00; 0x00].

Record kern (T : Type) : Type := Kern {
  kfsys : fsys T;
  procs : list proc;
  cur : option nat;              (* mycpu()->proc *)
  nextpid : Z;
  initproc : option nat;
  ticks : Z;
  first : bool                   (* forkret's static variable *)
}.
Arguments Kern {T} _ _ _ _ _ _ _.
Arguments kfsys {T} _.
Arguments procs {T} _.
Arguments cur {T} _.
Arguments nextpid {T} _.
Arguments initproc {T} _.
Arguments ticks {T} _.
Arguments first {T} _.

Definition pid_lock : lockid := ("nextpid"%string, 0).
Definition wait_lock : lockid := ("wait_lock"%string, 0).
Definition proc_lock (i : nat) : lockid := ("proc"%string, Z.of_nat i).
(** The address of a [struct proc], used as a channel by [wait]. *)
Definition chan_proc (i : nat) : lockid := ("struct proc"%string, Z.of_nat i).

Section proc.
Context {L : Layout} {T H : Type} {BO : BlockOps T H}.
(** Address of [forkret], and of a copy of [initcode] in the kernel image. *)
Context (forkret_pc initcode_pa : Z).
Abbreviation K := (M (kern T)).

Definition getp (s : kern T) (i : nat) : proc := default proc0 (procs s !! i).
Definition updp (i : nat) (f : proc -> proc) (s : kern T) : kern T :=
  Kern (kfsys s) (<[i := f (getp s i)]> (procs s)) (cur s) (nextpid s) (initproc s) (ticks s) (first s).
Definition set_cur (c : option nat) (s : kern T) : kern T :=
  Kern (kfsys s) (procs s) c (nextpid s) (initproc s) (ticks s) (first s).
Definition set_kfsys (x : fsys T) (s : kern T) : kern T :=
  Kern x (procs s) (cur s) (nextpid s) (initproc s) (ticks s) (first s).
(** [myproc()], which the callers below dereference. *)
Definition myproc : K nat :=
  c ← gets cur;
  match c with Some i => mret i | None => undefined end.

(** A process sleeping on [c], other than the caller, becomes runnable;
    [None] is the null channel. *)
Definition wake (c : option lockid) (p : proc) : proc :=
  if decide (p_state p = SLEEPING /\ p_chan p = c) then set_state RUNNABLE p else p.
Fixpoint wakeup_loop (c : option lockid) (is_ : list nat) : K unit :=
  match is_ with
  | [] => mret tt
  | i :: is_ =>
      me ← gets cur;
      (if decide (Some i = me) then mret tt
       else acquire (proc_lock i);; modify (updp i (wake c));; release (proc_lock i));;
      wakeup_loop c is_
  end.
Definition wakeup (c : option lockid) : K unit := wakeup_loop c (seq 0 PNPROC).

(** Code of the file layer run by the current process: it sees its pid, page
    table, directory and kill flag, and the channels it wakes are woken. *)
Definition enter (s : kern T) : fsys T :=
  let p := match cur s with Some i => getp s i | None => proc0 end in
  let x := kfsys s in let f := ffs x in
  let l := Lst (lb (fl f)) (let g := lg (fl f) in Log (start g) (lsize g) (outstanding g) (committing g) (ldev g) (lh_n g) (lh_block g) []) in
  Fsys (Fst (fk f) l (itab f) (fsb f) (p_pid p) (p_pagetable p) (default 0%nat (p_cwd p)) []) (ftable x) (pipes x) (p_killed p) [].
Definition woken (x : fsys T) : list lockid := reverse (fsyswakes x ++ fwakes (ffs x) ++ lwakes (lg (fl (ffs x)))).
Fixpoint wake_all (cs : list lockid) : K unit :=
  match cs with
  | [] => mret tt
  | c :: cs => wakeup (Some c);; wake_all cs
  end.
Definition in_files {A} (m : M (fsys T) A) : K A :=
  a ← zoom enter set_kfsys m;
  cs ← gets (fun s => woken (kfsys s));
  wake_all cs;;
  mret a.
Definition in_kfs {A} (m : M (fst T) A) : K A := in_files (in_fs m).
Definition in_phys {A} (m : M kstate A) : K A := in_files (in_kmem m).
Definition kbegin_op : K unit := in_files begin_op_.
Definition kend_op : K unit := in_files end_op_.
(** Stores to and loads from the trapframe. *)
Definition tf_store (tf off v : Z) : K unit := in_phys (modify (upd_mem (fun m => st64 m (tf + off) v))).
Definition tf_load (tf off : Z) : K Z := in_phys (gets (fun s => ld64 (kmem s) (tf + off))).

Fixpoint procinit_loop (is_ : list nat) : K unit :=
  match is_ with
  | [] => mret tt
  | i :: is_ =>
      initlock (proc_lock i);;
      modify (updp i (set_kstack (KSTACK (Z.of_nat i))));;
      procinit_loop is_
  end.
Definition procinit : K unit :=
  initlock pid_lock;;
  initlock wait_lock;;
  procinit_loop (seq 0 PNPROC).

Definition allocpid : K Z :=
  acquire pid_lock;;
  pid ← gets nextpid;
  modify (fun s => Kern (kfsys s) (procs s) (cur s) (i32 (nextpid s + 1)) (initproc s) (ticks s) (first s));;
  release pid_lock;;
  mret pid.

Definition proc_freepagetable (pagetable sz : Z) : K unit :=
  in_phys (uvmunmap pagetable TRAMPOLINE 1 false);;
  in_phys (uvmunmap pagetable TRAPFRAME 1 false);;
  in_phys (uvmfree pagetable sz).

Definition proc_pagetable (i : nat) : K Z :=
  pagetable ← in_phys uvmcreate;
  if pagetable =? 0 then mret 0 else
  r ← in_phys (mappages pagetable TRAMPOLINE PGSIZE trampoline_pa (Z.lor PTE_R PTE_X));
  if r <? 0 then in_phys (uvmfree pagetable 0);; mret 0 else
  tf ← gets (fun s => p_trapframe (getp s i));
  r ← in_phys (mappages pagetable TRAPFRAME PGSIZE tf (Z.lor PTE_R PTE_W));
  if r <? 0 then
    in_phys (uvmunmap pagetable TRAMPOLINE 1 false);;
    in_phys (uvmfree pagetable 0);;
    mret 0
  else mret pagetable.

Definition freeproc (i : nat) : K unit :=
  p ← gets (fun s => getp s i);
  when (negb (p_trapframe p =? 0)) (in_phys (kfree (p_trapframe p)));;
  modify (updp i (set_trapframe 0));;
  when (negb (p_pagetable p =? 0)) (proc_freepagetable (p_pagetable p) (p_sz p));;
  modify (updp i (fun p => set_state UNUSED (set_xstate 0 (set_killed false (set_chan None (set_name (<[0%nat := 0]> (p_name p))
    (set_parent None (set_pid 0 (set_sz 0 (set_pagetable 0 p)))))))))).

(** The scan of [allocproc]: the first UNUSED process, with its lock held. *)
Fixpoint alloc_scan (is_ : list nat) : K (option nat) :=
  match is_ with
  | [] => mret None
  | i :: is_ =>
      acquire (proc_lock i);;
      p ← gets (fun s => getp s i);
      if decide (p_state p = UNUSED) then mret (Some i)
      else release (proc_lock i);; alloc_scan is_
  end.
Definition allocproc : K (option nat) :=
  r ← alloc_scan (seq 0 PNPROC);
  match r with
  | None => mret None
  | Some i =>
      pid ← allocpid;
      modify (updp i (fun p => set_state USED (set_pid pid p)));;
      tf ← in_phys kalloc;
      modify (updp i (set_trapframe tf));;
      if tf =? 0 then freeproc i;; release (proc_lock i);; mret None else
      pt ← proc_pagetable i;
      modify (updp i (set_pagetable pt));;
      if pt =? 0 then freeproc i;; release (proc_lock i);; mret None else
      modify (updp i (fun p => set_context (forkret_pc, u64 (p_kstack p + PGSIZE)) p));;
      mret (Some i)
  end.

Definition userinit (garbage : list Z) : K unit :=
  r ← allocproc;
  modify (fun s => Kern (kfsys s) (procs s) (cur s) (nextpid s) r (ticks s) (first s));;
  match r with
  | None => undefined
  | Some i =>
      p ← gets (fun s => getp s i);
      in_phys (uvminit (p_pagetable p) initcode_pa (Z.of_nat (length initcode)));;
      modify (updp i (set_sz PGSIZE));;
      tf_store (p_trapframe p) TF_epc 0;;
      tf_store (p_trapframe p) TF_sp PGSIZE;;
      (* "initcode" *)
      modify (updp i (fun p => set_name (safestrcpy_list (p_name p) [105; 110; 105; 116; 99; 111; 100; 101] 16) p));;
      cwd ← in_kfs (namei garbage [slash]);
      modify (updp i (set_cwd cwd));;
      modify (updp i (set_state RUNNABLE));;
      release (proc_lock i)
  end.

(** [sz] is a [uint]: sizes are cut to 32 bits. *)
Definition growproc (n : Z) : K Z :=
  i ← myproc;
  p ← gets (fun s => getp s i);
  let sz := u32 (p_sz p) in
  if 0 <? n then
    r ← in_phys (uvmalloc (p_pagetable p) sz (u32 (sz + n)));
    if u32 r =? 0 then mret (-1) else modify (updp i (set_sz (u32 r)));; mret 0
  else if n <? 0 then
    r ← in_phys (uvmdealloc (p_pagetable p) sz (u32 (sz + n)));
    modify (updp i (set_sz (u32 r)));; mret 0
  else modify (updp i (set_sz sz));; mret 0.

(** [for(i = 0; i < NOFILE; i++) if(p->ofile[i]) np->ofile[i] = filedup(p->ofile[i]);] *)
Fixpoint fork_files (np : nat) (fs : list (option nat)) (fd : nat) : K unit :=
  match fs with
  | [] => mret tt
  | f :: fs =>
      (match f with
       | Some f => f' ← in_files (filedup f); modify (updp np (fun q => set_ofile (<[fd := Some f']> (p_ofile q)) q))
       | None => mret tt
       end);;
      fork_files np fs (S fd)
  end.
Definition fork : K Z :=
  i ← myproc;
  r ← allocproc;
  match r with
  | None => mret (-1)
  | Some np =>
      p ← gets (fun s => getp s i);
      q ← gets (fun s => getp s np);
      r ← in_phys (uvmcopy (p_pagetable p) (p_pagetable q) (p_sz p));
      if r <? 0 then freeproc np;; release (proc_lock np);; mret (-1) else
      modify (updp np (set_sz (p_sz p)));;
      in_phys (modify (upd_mem (fun m => stn m (p_trapframe q) (ldn m (p_trapframe p) (Z.to_nat sizeof_trapframe)))));;
      tf_store (p_trapframe q) TF_a0 0;;
      fork_files np (p_ofile p) 0;;
      cwd ← (match p_cwd p with Some c => in_kfs (idup c) | None => undefined end);
      modify (updp np (set_cwd (Some cwd)));;
      modify (updp np (fun q => set_name (safestrcpy_list (p_name q) (p_name p) 16) q));;
      pid ← gets (fun s => p_pid (getp s np));
      release (proc_lock np);;
      acquire wait_lock;;
      modify (updp np (set_parent (Some i)));;
      release wait_lock;;
      acquire (proc_lock np);;
      modify (updp np (set_state RUNNABLE));;
      release (proc_lock np);;
      mret pid
  end.

Fixpoint reparent_loop (i : nat) (is_ : list nat) : K unit :=
  match is_ with
  | [] => mret tt
  | j :: is_ =>
      pp ← gets (fun s => getp s j);
      ini ← gets initproc;
      when (bool_decide (p_parent pp = Some i))
        (modify (updp j (set_parent ini));;
         wakeup (chan_proc <$> ini));;
      reparent_loop i is_
  end.
Definition reparent (i : nat) : K unit := reparent_loop i (seq 0 PNPROC).

(** The checks of [sched]; then the CPU is the scheduler's.  [mycpu()->noff]
    is the number of spinlocks the CPU holds, and interrupts are off while it
    holds one. *)
Definition sched_checks (i : nat) : K unit := fun w =>
  if negb (bool_decide (proc_lock i ∈ held w)) then Panic "sched p->lock"
  else if negb (Nat.eqb (length (held w)) 1) then Panic "sched locks"
  else if decide (p_state (getp (st w) i) = RUNNING) then Panic "sched running"
  else Ok tt w.
Definition sched : K unit :=
  i ← myproc;
  sched_checks i.

(** The loop of [exit] over the open files. *)
Fixpoint exit_files (i : nat) (fd : nat) (n : nat) : K unit :=
  match n with
  | O => mret tt
  | S n =>
      p ← gets (fun s => getp s i);
      (match p_ofile p !! fd with
       | Some (Some f) =>
           in_files (fileclose f);;
           modify (updp i (fun q => set_ofile (<[fd := None]> (p_ofile q)) q))
       | _ => mret tt
       end);;
      exit_files i (S fd) n
  end.
(** The run of [exit] up to the switch from which it never comes back. *)
Definition exit (status : Z) : K unit :=
  i ← myproc;
  ini ← gets initproc;
  if decide (ini = Some i) then panic "init exiting" else
  exit_files i 0 NOFILE;;
  p ← gets (fun s => getp s i);
  kbegin_op;;
  (match p_cwd p with Some c => in_kfs (iput c) | None => undefined end);;
  kend_op;;
  modify (updp i (set_cwd None));;
  acquire wait_lock;;
  reparent i;;
  q ← gets (fun s => getp s i);
  wakeup (chan_proc <$> p_parent q);;
  acquire (proc_lock i);;
  modify (updp i (fun q => set_state ZOMBIE (set_xstate status q)));;
  release wait_lock;;
  sched.

(** Up to the switch: the lock [lk] is released once [p->lock] is held. *)
Definition sleep_enter (c lk : lockid) : K unit :=
  i ← myproc;
  acquire (proc_lock i);;
  release lk;;
  modify (updp i (fun q => set_state SLEEPING (set_chan (Some c) q)));;
  sched.
(** After the switch back. *)
Definition sleep_leave (lk : lockid) : K unit :=
  i ← myproc;
  modify (updp i (set_chan None));;
  release (proc_lock i);;
  acquire lk.

Definition yield_enter : K unit :=
  i ← myproc;
  acquire (proc_lock i);;
  modify (updp i (set_state RUNNABLE));;
  sched.
Definition yield_leave : K unit :=
  i ← myproc;
  release (proc_lock i).

(** [usertrapret] is a parameter: kernel/trap.c. *)
Definition forkret (usertrapret : K unit) : K unit :=
  i ← myproc;
  release (proc_lock i);;
  fs ← gets first;
  when fs
    (modify (fun s => Kern (kfsys s) (procs s) (cur s) (nextpid s) (initproc s) (ticks s) false);;
     in_kfs (fsinit ROOTDEV));;
  usertrapret.

(** The scan of the scheduler from a position to the end of the table: the
    process it switched to, its lock held, or none. *)
Fixpoint scheduler_scan (is_ : list nat) : K (option nat) :=
  match is_ with
  | [] => mret None
  | i :: is_ =>
      acquire (proc_lock i);;
      p ← gets (fun s => getp s i);
      if decide (p_state p = RUNNABLE) then
        modify (updp i (set_state RUNNING));;
        modify (set_cur (Some i));;
        mret (Some i)
      else release (proc_lock i);; scheduler_scan is_
  end.
(** A process switched back to the scheduler. *)
Definition scheduler_back (i : nat) : K unit :=
  modify (set_cur None);;
  release (proc_lock i).

(** One pass of [wait] over the table. *)
Inductive scan_result : Type := Reaped (pid : Z) | Fault | Scanned (havekids : bool).
Fixpoint wait_scan (i : nat) (pagetable addr : Z) (havekids : bool) (is_ : list nat) : K scan_result :=
  match is_ with
  | [] => mret (Scanned havekids)
  | j :: is_ =>
      np ← gets (fun s => getp s j);
      if negb (bool_decide (p_parent np = Some i)) then wait_scan i pagetable addr havekids is_ else
      acquire (proc_lock j);;
      np ← gets (fun s => getp s j);
      if decide (p_state np = ZOMBIE) then
        r ← (if addr =? 0 then mret 0 else in_phys (copyout pagetable addr (Z_to_little_endian 4 8 (p_xstate np))));
        if r <? 0 then release (proc_lock j);; release wait_lock;; mret Fault
        else
          freeproc j;;
          release (proc_lock j);;
          release wait_lock;;
          mret (Reaped (p_pid np))
      else release (proc_lock j);; wait_scan i pagetable addr true is_
  end.
(** [None]: the caller went to sleep on itself and scans again when woken,
    with [wait_lock] held ([sleep_leave]). *)
Definition wait_run (addr : Z) : K (option Z) :=
  i ← myproc;
  p ← gets (fun s => getp s i);
  r ← wait_scan i (p_pagetable p) addr false (seq 0 PNPROC);
  match r with
  | Reaped pid => mret (Some pid)
  | Fault => mret (Some (-1))
  | Scanned havekids =>
      p ← gets (fun s => getp s i);
      if negb havekids || p_killed p then release wait_lock;; mret (Some (-1))
      else sleep_enter (chan_proc i) wait_lock;; mret None
  end.
Definition wait (addr : Z) : K (option Z) := acquire wait_lock;; wait_run addr.

Fixpoint kill_loop (pid : Z) (is_ : list nat) : K Z :=
  match is_ with
  | [] => mret (-1)
  | i :: is_ =>
      acquire (proc_lock i);;
      p ← gets (fun s => getp s i);
      if p_pid p =? pid then
        modify (updp i (set_killed true));;
        when (bool_decide (p_state p = SLEEPING)) (modify (updp i (set_state RUNNABLE)));;
        release (proc_lock i);;
        mret 0
      else release (proc_lock i);; kill_loop pid is_
  end.
Definition kill (pid : Z) : K Z := kill_loop pid (seq 0 PNPROC).

(** [struct pstat]: pid, state, size (8 bytes), ppid, 16 bytes of name, and
    four bytes of padding that hold whatever was on the stack. *)
Definition state_code (s : procstate) : Z :=
  match s with UNUSED => 0 | USED => 1 | SLEEPING => 2 | RUNNABLE => 3 | RUNNING => 4 | ZOMBIE => 5 end.
Definition pstat_bytes (p : proc) (ppid : Z) (pad : list Z) : list Z :=
  Z_to_little_endian 4 8 (p_pid p) ++ Z_to_little_endian 4 8 (state_code (p_state p)) ++ Z_to_little_endian 8 8 (p_sz p) ++
  Z_to_little_endian 4 8 ppid ++ take 16 (p_name p) ++ pad.
Definition sizeof_pstat : Z := 40.
Fixpoint procinfo_loop (pagetable addr nprocs : Z) (pad : list Z) (is_ : list nat) : K Z :=
  match is_ with
  | [] => mret nprocs
  | i :: is_ =>
      p ← gets (fun s => getp s i);
      if decide (p_state p = UNUSED) then procinfo_loop pagetable addr nprocs pad is_ else
      ppid ← (match p_parent p with Some k => gets (fun s => p_pid (getp s k)) | None => mret 0 end);
      r ← in_phys (copyout pagetable addr (pstat_bytes p ppid pad));
      if r <? 0 then mret (-1)
      else procinfo_loop pagetable (u64 (addr + sizeof_pstat)) (nprocs + 1) pad is_
  end.
Definition procinfo (addr : Z) (pad : list Z) : K Z :=
  i ← myproc;
  p ← gets (fun s => getp s i);
  procinfo_loop (p_pagetable p) addr 0 pad (seq 0 PNPROC).
End proc.
