(* ===== verification/ProcSpec.v ===== *)
(** * The process table: its invariant, and that proc.c keeps it *)

From S2P Require Import Prelude Mem Riscv Kalloc Vm Pipe Sleeplock Bio BioSpec Log Fs File Hoare Proc.

Definition live (p : proc) : Prop := p_state p <> UNUSED.
(** States in which the scheduler and the trap code use the process. *)
Definition schedulable (p : proc) : Prop := p_state p = SLEEPING \/ p_state p = RUNNABLE \/ p_state p = RUNNING.
Definition no_files (p : proc) : Prop := p_ofile p = replicate NOFILE None /\ p_cwd p = None.

Record proc_ok (nx : Z) (c : option nat) (i : nat) (p : proc) : Prop := {
  po_unused : p_state p = UNUSED -> p_pid p = 0 /\ p_trapframe p = 0 /\ p_pagetable p = 0 /\ p_sz p = 0 /\ p_parent p = None /\ p_chan p = None /\ p_xstate p = 0;
  po_files : p_state p = UNUSED \/ p_state p = ZOMBIE -> no_files p;
  po_nofile : length (p_ofile p) = NOFILE;
  po_pid : live p -> 0 < p_pid p < nx;
  po_mem : schedulable p -> p_trapframe p <> 0 /\ p_pagetable p <> 0;
  po_chan : p_state p = SLEEPING -> is_Some (p_chan p);
  po_running : p_state p = RUNNING -> c = Some i
}.

Record ptable_ok (ps : list proc) (nx : Z) (c : option nat) : Prop := {
  pt_len : length ps = PNPROC;
  pt_next : 0 < nx;
  pt_each : forall i p, ps !! i = Some p -> proc_ok nx c i p;
  pt_uniq : forall i j p q, ps !! i = Some p -> ps !! j = Some q -> live p -> live q -> p_pid p = p_pid q -> i = j
}.

Lemma ptable_set ps nx c i p p' :
  ptable_ok ps nx c -> ps !! i = Some p -> proc_ok nx c i p' -> (live p' -> live p /\ p_pid p' = p_pid p) ->
  ptable_ok (<[i := p']> ps) nx c.
Proof.
  intros I Hp Hok Hl. assert (i < length ps)%nat by (apply lookup_lt_Some in Hp; done).
  split; [rewrite length_insert; apply I|apply I| |].
  - intros j q Hq. destruct (decide (j = i)) as [->|Hne].
    + rewrite list_lookup_insert_eq in Hq by done. by injection Hq as <-.
    + rewrite list_lookup_insert_ne in Hq by done. by apply I.
  - intros j k q r Hq Hr Lq Lr E.
    destruct (decide (j = i)) as [->|Hj], (decide (k = i)) as [->|Hk]; [done| | |].
    + rewrite list_lookup_insert_eq in Hq by done. injection Hq as <-. rewrite list_lookup_insert_ne in Hr by done.
      destruct (Hl Lq) as [? ?]. eapply pt_uniq; eauto. congruence.
    + rewrite list_lookup_insert_eq in Hr by done. injection Hr as <-. rewrite list_lookup_insert_ne in Hq by done.
      destruct (Hl Lr) as [? ?]. eapply pt_uniq; eauto. congruence.
    + rewrite list_lookup_insert_ne in Hq, Hr by done. eapply pt_uniq; eauto.
Qed.

(** A process that gets the next pid. *)
Lemma ptable_new ps nx c i p p' :
  ptable_ok ps nx c -> ps !! i = Some p -> proc_ok (nx + 1) c i p' -> p_pid p' = nx ->
  ptable_ok (<[i := p']> ps) (nx + 1) c.
Proof.
  intros I Hp Hok Hn. assert (i < length ps)%nat by (apply lookup_lt_Some in Hp; done).
  assert (forall j q, ps !! j = Some q -> live q -> p_pid q < nx) as Hlt by (intros j q Hq Lq; by apply (pt_each _ _ _ I _ _ Hq)).
  split; [rewrite length_insert; apply I|pose proof (pt_next _ _ _ I); lia| |].
  - intros j q Hq. destruct (decide (j = i)) as [->|Hne].
    + rewrite list_lookup_insert_eq in Hq by done. by injection Hq as <-.
    + rewrite list_lookup_insert_ne in Hq by done. destruct (pt_each _ _ _ I _ _ Hq) as [? ? ? Hpid ? ? ?].
      split; try done. intros Hl. specialize (Hpid Hl). lia.
  - intros j k q r Hq Hr Lq Lr E.
    destruct (decide (j = i)) as [->|Hj], (decide (k = i)) as [->|Hk]; [done| | |].
    + rewrite list_lookup_insert_eq in Hq by done. injection Hq as <-. rewrite list_lookup_insert_ne in Hr by done.
      specialize (Hlt _ _ Hr Lr). lia.
    + rewrite list_lookup_insert_eq in Hr by done. injection Hr as <-. rewrite list_lookup_insert_ne in Hq by done.
      specialize (Hlt _ _ Hq Lq). lia.
    + rewrite list_lookup_insert_ne in Hq, Hr by done. eapply pt_uniq; eauto.
Qed.

Lemma proc_ok_wake nx cu i c p : proc_ok nx cu i p -> proc_ok nx cu i (wake c p).
Proof.
  intros [? ? ? Hpid Hm ? ?]. unfold wake. destruct (decide _) as [[Hs _]|]; [|by split].
  split; cbn; try done; unfold live, schedulable in *; cbn; intros; try naive_solver.
Qed.
Lemma wake_pid c p : p_pid (wake c p) = p_pid p.
Proof. unfold wake. by destruct (decide _). Qed.
Lemma wake_live c p : live (wake c p) -> live p.
Proof. unfold wake, live. destruct (decide _) as [[-> _]|]; done. Qed.
Lemma wake_awake c p : p_state p <> SLEEPING -> wake c p = p.
Proof. unfold wake. intros Hs. rewrite decide_False; naive_solver. Qed.

Section spec.
Context {L : Layout} {T H : Type} {BO : BlockOps T H}.
Context (forkret_pc initcode_pa : Z).
Abbreviation K := (M (kern T)).
Implicit Types s : kern T.

Definition Inv s : Prop := ptable_ok (procs s) (nextpid s) (cur s).
(** The running process, unchanged, or none. *)
Definition runs (me : option (nat * proc)) s : Prop :=
  match me with
  | None => cur s = None
  | Some (i, p) => cur s = Some i /\ procs s !! i = Some p
  end.
Definition is_proc (i : nat) (p : proc) s : Prop := procs s !! i = Some p.

(** Assertions that neither the lower layers nor a wakeup can break. *)
Record stable (R : kern T -> Prop) : Prop := {
  stable_kfsys : forall s x, R s -> R (set_kfsys x s);
  stable_wake : forall s j c, R s -> cur s <> Some j -> R (updp j (wake c) s)
}.

Lemma getp_lookup s i p : procs s !! i = Some p -> getp s i = p.
Proof. intros E. unfold getp. by rewrite E. Qed.

Lemma lookup_upd_ne s i j f : i <> j -> procs (updp j f s) !! i = procs s !! i.
Proof. intros Hne. cbn. by rewrite list_lookup_insert_ne. Qed.
Lemma lookup_upd s i f p : procs s !! i = Some p -> procs (updp i f s) !! i = Some (f p).
Proof. intros E. cbn. rewrite list_lookup_insert_eq by (by eapply lookup_lt_Some). by rewrite (getp_lookup _ _ _ E). Qed.

Lemma Inv_upd s i p f :
  Inv s -> procs s !! i = Some p -> proc_ok (nextpid s) (cur s) i (f p) -> (live (f p) -> live p /\ p_pid (f p) = p_pid p) -> Inv (updp i f s).
Proof. intros I E Hok Hl. unfold Inv. cbn. rewrite (getp_lookup _ _ _ E). by eapply ptable_set. Qed.

Lemma stable_Inv : stable Inv.
Proof.
  split; [done|]. intros s j c I Hj. destruct (procs s !! j) as [p|] eqn:E.
  - eapply Inv_upd; [done|done| |].
    + apply proc_ok_wake. by apply I.
    + intros Hl. split; [by eapply wake_live|apply wake_pid].
  - unfold Inv. cbn. by rewrite list_insert_ge by (by apply lookup_ge_None).
Qed.
Lemma stable_runs me : stable (runs me).
Proof.
  split; [by destruct me as [[]|]|]. intros s j c R Hj. destruct me as [[i p]|]; [|done].
  destruct R as [Hc Hp]. split; [done|]. by rewrite lookup_upd_ne by congruence.
Qed.
Lemma stable_proc i p : p_state p <> SLEEPING -> stable (is_proc i p).
Proof.
  intros Hs. split; [done|]. intros s j c R Hj. unfold is_proc in *. destruct (decide (i = j)) as [->|].
  - rewrite (lookup_upd _ _ _ p) by done. by rewrite wake_awake.
  - by rewrite lookup_upd_ne.
Qed.
Lemma stable_and (R1 R2 : kern T -> Prop) : stable R1 -> stable R2 -> stable (fun s => R1 s /\ R2 s).
Proof. intros [A1 B1] [A2 B2]. split; naive_solver. Qed.
Lemma stable_pure (phi : Prop) : stable (fun _ => phi).
Proof. by split. Qed.
Lemma stable_next (f : Z -> Prop) : stable (fun s => f (nextpid s)).
Proof. by split. Qed.
Hint Resolve stable_Inv stable_runs stable_proc stable_and stable_pure stable_next : hoare.

Lemma t_wakeup_loop (R : kern T -> Prop) c is_ : stable R -> triple R (wakeup_loop c is_) (fun _ => R).
Proof.
  intros HR. induction is_ as [|i is_ IH]; cbn [wakeup_loop]; [by apply t_ret'|].
  apply t_read. intros me. eapply t_seq; [|intros; exact IH].
  destruct (decide (Some i = me)) as [E|Hne]; [apply t_ret'; naive_solver|].
  t_skip. eapply t_seq; [apply (t_modify _ _ R); intros s [Hc Hs]; apply HR; congruence|]. intros _.
  eauto with hoare.
Qed.
Lemma t_wakeup (R : kern T -> Prop) c : stable R -> triple R (wakeup c) (fun _ => R).
Proof. apply t_wakeup_loop. Qed.
Lemma t_wake_all (R : kern T -> Prop) cs : stable R -> triple R (wake_all cs) (fun _ => R).
Proof.
  intros HR. induction cs as [|c cs IH]; cbn [wake_all]; [by apply t_ret'|].
  eapply t_seq; [by apply t_wakeup|]. by intros [].
Qed.
(** The layers below change nothing of the process table but the sleepers
    they wake. *)
Lemma t_in_files (R : kern T -> Prop) {A} (m : M (fsys T) A) : stable R -> triple R (in_files m) (fun _ => R).
Proof.
  intros HR. unfold in_files. eapply t_seq with (R := R).
  - intros h s a w' HP E. unfold zoom in E. destruct (m _) as [b w1| | |]; try done. injection E as <- <-. by apply HR.
  - intros a. apply t_read. intros cs. eapply t_seq; [eapply t_conseq; [by apply t_wake_all|naive_solver|eauto]|].
    intros _. by apply t_ret'.
Qed.
Lemma t_in_phys (R : kern T -> Prop) {A} (m : M kstate A) : stable R -> triple R (in_phys m) (fun _ => R).
Proof. apply t_in_files. Qed.
Lemma t_in_kfs (R : kern T -> Prop) {A} (m : M (fst T) A) : stable R -> triple R (in_kfs m) (fun _ => R).
Proof. apply t_in_files. Qed.
Hint Resolve t_wakeup t_wake_all t_in_files t_in_phys t_in_kfs : hoare.

Lemma t_in_files_val (R : kern T -> Prop) {A} (m : M (fsys T) A) (phi : A -> Prop) :
  stable R -> (forall w a w', m w = Ok a w' -> phi a) -> triple R (in_files m) (fun a s => phi a /\ R s).
Proof.
  intros HR Hm h s a w' HP E. split; [|by eapply (t_in_files R m HR)].
  unfold in_files in E. apply bind_Ok in E as (b & w1 & E1 & E). unfold zoom in E1. destruct (m _) as [b' w2| | |] eqn:Em; try done.
  injection E1 as <- <-. apply Hm in Em. minv E. by injection E as <- <-.
Qed.

(** Pure facts and the contents of entry [np], next to the running process. *)
Definition other (me : option (nat * proc)) (np : nat) : Prop := match me with Some (i, _) => i <> np | None => True end.
Definition idle me s : Prop := Inv s /\ runs me s.
Definition slot me np q s : Prop := idle me s /\ is_proc np q s.

Lemma stable_idle me : stable (idle me).
Proof. apply stable_and; auto with hoare. Qed.
Lemma stable_slot me np q : p_state q <> SLEEPING -> stable (slot me np q).
Proof. intros. apply stable_and; [apply stable_idle|by apply stable_proc]. Qed.

Lemma runs_upd me np f s : other me np -> runs me s -> runs me (updp np f s).
Proof. destruct me as [[i p]|]; cbn; [|done]. intros Hne [Hc Hp]. split; [done|]. by rewrite list_lookup_insert_ne. Qed.

Lemma t_upd me np q f :
  other me np -> (forall nx c, proc_ok nx c np q -> proc_ok nx c np (f q)) -> (live (f q) -> live q /\ p_pid (f q) = p_pid q) ->
  triple (slot me np q) (modify (updp np f)) (fun _ => slot me np (f q)).
Proof.
  intros Ho Hok Hl. apply t_modify. intros s [[I R] Hq]. split; [split|].
  - eapply Inv_upd; [done|exact Hq| |done]. apply Hok. by apply I.
  - by apply runs_upd.
  - by apply lookup_upd.
Qed.
Lemma t_upd_me i p f :
  (forall nx c, proc_ok nx c i p -> proc_ok nx c i (f p)) -> (live (f p) -> live p /\ p_pid (f p) = p_pid p) ->
  triple (idle (Some (i, p))) (modify (updp i f)) (fun _ => idle (Some (i, f p))).
Proof.
  intros Hok Hl. apply t_modify. intros s [I [Hc Hp]]. split; [|split; [done|by apply lookup_upd]].
  eapply Inv_upd; [done|exact Hp| |done]. apply Hok. by apply I.
Qed.
Lemma t_exists {A X} (P : X -> kern T -> Prop) (m : K A) Q : (forall x, triple (P x) m Q) -> triple (fun s => exists x, P x s) m Q.
Proof. intros Hm h s a w' [x HP] E. by apply (Hm x _ _ _ _ HP E). Qed.
Lemma t_getp {A} (P : kern T -> Prop) i q (k : proc -> K A) Q :
  (forall s, P s -> is_proc i q s) -> triple P (k q) Q -> triple P (gets (fun s => getp s i) ≫= k) Q.
Proof.
  intros Hp Hk. apply t_read. intros x. intros h s a w' [<- HP] E. rewrite (getp_lookup s i q) in E by (by apply Hp).
  by apply (Hk _ _ _ _ HP E).
Qed.
Lemma t_myproc {A} (P : kern T -> Prop) i (k : nat -> K A) Q :
  (forall s, P s -> cur s = Some i) -> triple P (k i) Q -> triple P (myproc ≫= k) Q.
Proof.
  intros Hc Hk h s a w' HP E. unfold myproc in E. rewrite bind_assoc, gets_run, (Hc _ HP) in E. by apply (Hk _ _ _ _ HP E).
Qed.
End spec.

#[export] Hint Resolve stable_Inv stable_runs stable_proc stable_and stable_pure stable_next stable_idle stable_slot : hoare.
#[export] Hint Resolve t_wakeup t_wake_all t_in_files t_in_phys t_in_kfs : hoare.

(** The invariant of one entry after a field of it is set. *)
Ltac proc_case :=
  intros;
  repeat match goal with Hd : _ \/ _ |- _ => destruct Hd end;
  first [congruence | solve [auto 6] | solve [split_and?; auto; congruence]
        | match goal with K : _ -> _ < _ < _ |- _ < _ < _ => apply K; congruence end].
Ltac proc_tac :=
  let nx := fresh in let c := fresh in let K := fresh in
  unfold live, schedulable, no_files in *;
  lazymatch goal with
  | |- forall _ _, proc_ok _ _ _ _ -> _ =>
      intros nx c K; destruct K; split; unfold live, schedulable, no_files in *; cbn in *; rewrite ?length_insert; proc_case
  | |- _ => cbn in *; intros; split; repeat match goal with Hd : _ \/ _ |- _ => destruct Hd end; congruence
  end.
