(* ===== verification/ProcInv.v ===== *)
(** * proc.c: every operation keeps the process table well formed *)

From S2P Require Import Prelude Mem Riscv Kalloc Vm Pipe Sleeplock Bio BioSpec Log Fs File Hoare Proc ProcSpec.

Section ops.
Context {L : Layout} {T H : Type} {BO : BlockOps T H}.
Context (forkret_pc initcode_pa : Z).
Abbreviation K := (M (kern T)).
Abbreviation tri := (triple (S := kern T)).
Implicit Types s : kern T.
Implicit Types R : kern T -> Prop.

Definition pid_limit : Z := 2^31 - 1.

(** A fact read in a known state. *)
Lemma t_pure_l {A B} (f : kern T -> B) x s0 R (m : K A) Q :
  (f s0 = x -> tri (fun s => s = s0 /\ R s) m Q) -> tri (fun s => f s = x /\ s = s0 /\ R s) m Q.
Proof. intros Hm h s a w' (E & -> & HR) Er. by apply (Hm E h s0 a w'). Qed.

Lemma t_proc_freepagetable R pt sz : stable R -> tri R (proc_freepagetable pt sz) (fun _ => R).
Proof. intros HR. unfold proc_freepagetable. t_skip. t_skip. auto with hoare. Qed.

Lemma t_proc_pagetable R i : stable R -> tri R (proc_pagetable i) (fun _ => R).
Proof.
  intros HR. unfold proc_pagetable. t_skip. destruct (_ =? 0); [by apply t_ret'|]. t_skip.
  destruct (_ <? 0); [t_skip; by apply t_ret'|]. apply t_read. intros tf.
  eapply t_seq; [eapply t_conseq; [by apply (t_in_phys R)|naive_solver|eauto]|]. intros r.
  destruct (_ <? 0); [|by apply t_ret']. t_skip. t_skip. by apply t_ret'.
Qed.

Definition cleared (q : proc) : proc :=
  set_state UNUSED (set_xstate 0 (set_killed false (set_chan None (set_name (<[0%nat := 0]> (p_name q))
    (set_parent None (set_pid 0 (set_sz 0 (set_pagetable 0 (set_trapframe 0 q))))))))).

Lemma t_freeproc me np q :
  other me np -> p_state q = USED \/ p_state q = ZOMBIE -> no_files q ->
  tri (slot me np q) (freeproc np) (fun _ => slot me np (cleared q)).
Proof.
  intros Ho Hs Hf. assert (p_state q <> SLEEPING) by (destruct Hs; congruence). unfold freeproc. apply (t_getp _ _ q); [by intros s [_ ?]|].
  eapply t_seq; [apply t_when; auto with hoare|]. intros _.
  eapply t_seq; [apply t_upd; [done|proc_tac|proc_tac]|]. intros _.
  eapply t_seq; [apply t_when, t_proc_freepagetable; auto with hoare|]. intros _.
  eapply t_conseq; [apply t_upd|done|done]; [done|proc_tac|proc_tac].
Qed.

Lemma t_alloc_scan R is_ :
  tri R (alloc_scan is_) (fun r s => R s /\ forall i, r = Some i -> i ∈ is_ /\ p_state (getp s i) = UNUSED).
Proof.
  induction is_ as [|i is_ IH]; cbn [alloc_scan]; [apply t_ret'; naive_solver|]. t_skip. apply t_read. intros p.
  destruct (decide _) as [Hu|]; [apply t_ret'; intros s [<- HR]; split; [done|]; intros j [= <-]; split; [set_solver|done]|].
  t_skip. eapply t_conseq; [exact IH|naive_solver|]. intros r s [HR Hr]. split; [done|]. intros j E. destruct (Hr j E). split; [set_solver|done].
Qed.

(** What [allocproc] promises of the entry it returns. *)
Definition fresh (pid : Z) (q : proc) : Prop :=
  p_state q = USED /\ p_pid q = pid /\ p_trapframe q <> 0 /\ p_pagetable q <> 0 /\ p_parent q = None /\ no_files q.
Definition running (me : option (nat * proc)) : Prop := match me with Some (_, p) => p_state p = RUNNING | None => True end.

Lemma t_take_pid me np n q :
  p_state q = UNUSED -> other me np -> n < pid_limit ->
  tri (fun s => nextpid s = n /\ slot me np q s)
    (pid ← allocpid; modify (updp np (fun p => set_state USED (set_pid pid p))))
    (fun _ s => nextpid s = n + 1 /\ slot me np (set_state USED (set_pid n q)) s).
Proof.
  intros Hu Ho Hn h s a w' (<- & [[I R] Hq]) E. apply bind_Ok in E as (pid & w1 & E1 & E).
  assert (pid = nextpid s /\ st w1 = Kern (kfsys s) (procs s) (cur s) (nextpid s + 1) (initproc s) (ticks s) (first s)) as [-> Ew].
  { unfold allocpid in E1. apply bind_Ok in E1 as ([] & w2 & Ea & E1). unfold acquire in Ea. destruct (decide _); [done|].
    injection Ea as <-. rewrite gets_run, modify_run in E1. apply bind_Ok in E1 as ([] & w3 & Er & E1). unfold release in Er.
    destruct (decide _); [|done]. injection Er as <-. injection E1 as <- <-. split; [done|]. cbn. f_equal.
    pose proof (pt_next _ _ _ I). apply signed_small; unfold pid_limit in Hn; lia. }
  injection E as _ <-. cbn [st]. rewrite Ew. split; [done|]. split; [split|].
  - unfold Inv. cbn. unfold getp. cbn. rewrite Hq. cbn. eapply ptable_new; [exact I|exact Hq| |done].
    pose proof (pt_each _ _ _ I _ _ Hq) as [? ? ? ? ? ? ?]. pose proof (pt_next _ _ _ I).
    split; unfold live, schedulable, no_files in *; cbn; intros; try lia; try naive_solver congruence.
  - apply (runs_upd _ _ (fun p => set_state USED (set_pid (nextpid s) p)) (Kern (kfsys s) (procs s) (cur s) (nextpid s + 1) (initproc s) (ticks s) (first s)) Ho).
    by destruct me as [[]|].
  - unfold is_proc. cbn. rewrite list_lookup_insert_eq by (by eapply lookup_lt_Some). unfold getp. cbn. by rewrite Hq.
Qed.

Lemma t_allocproc me n :
  running me -> n < pid_limit ->
  tri (fun s => nextpid s = n /\ idle me s) (allocproc forkret_pc)
    (fun r s => match r with
                | None => idle me s
                | Some np => other me np /\ exists q, fresh n q /\ slot me np q s
                end).
Proof.
  intros Hme Hn. unfold allocproc. eapply t_bind; [apply t_alloc_scan|]. intros [np|]; [|apply t_ret'; naive_solver].
  cbv beta iota. apply (t_pre _ (fun s => exists q, (other me np /\ p_state q = UNUSED /\ p_parent q = None /\ no_files q) /\ (nextpid s = n /\ slot me np q s))).
  2: { intros s ([En [I R]] & Hnp). destruct (Hnp np eq_refl) as [Hin Hu]. apply elem_of_seq in Hin.
       destruct (lookup_lt_is_Some_2 (procs s) np) as [q Hq]; [rewrite (pt_len _ _ _ I); lia|].
       exists q. rewrite (getp_lookup _ _ _ Hq) in Hu. split; [|done].
       pose proof (pt_each _ _ _ I _ _ Hq) as K. split_and!; [|done|by apply (po_unused _ _ _ _ K)|apply (po_files _ _ _ _ K); auto].
       destruct me as [[i p]|]; [|done]. cbn in *. destruct R as [_ Hp]. congruence. }
  apply t_exists. intros q. apply t_pure. intros (Ho & Hu & Hpa & Hf).
  apply t_assoc. eapply t_seq; [by apply t_take_pid|]. intros _.
  apply (t_pre _ (slot me np (set_state USED (set_pid n q)))); [|by intros s [_ ?]].
  set (q1 := set_state USED (set_pid n q)). assert (p_state q1 <> SLEEPING) as Hq1 by done.
  assert (forall x, p_state x = USED -> no_files x -> tri (slot me np x) (freeproc np;; release (proc_lock np);; mret None)
            (fun r s => match r with None => idle me s | Some np => other me np /\ exists q, fresh n q /\ slot me np q s end)) as Hfail.
  { intros x Hx Hfx. eapply t_seq; [apply t_freeproc; auto|]. intros _. t_skip. apply t_ret'. by intros s [? _]. }
  t_skip. eapply t_seq; [apply t_upd; [done|proc_tac|proc_tac]|]. intros _.
  destruct (Z.eqb_spec a 0) as [|Ha]; [by apply Hfail|].
  eapply t_seq; [apply t_proc_pagetable; auto with hoare|]. intros pt.
  eapply t_seq; [apply t_upd; [done|proc_tac|proc_tac]|]. intros _.
  destruct (Z.eqb_spec pt 0) as [|Hpt]; [by apply Hfail|].
  eapply t_seq; [apply t_upd; [done|proc_tac|proc_tac]|]. intros _.
  apply t_ret'. intros s Hs. split; [done|]. eexists. split; [|exact Hs]. done.
Qed.

(** [fork] *)
Lemma filedup_same f w a w' : filedup (T := T) f w = Ok a w' -> a = f.
Proof. unfold filedup. intros E. do 2 minv E. destruct (_ <? 1); [done|]. do 2 minv E. by injection E as <- <-. Qed.
Lemma idup_same i w a w' : idup (T := T) i w = Ok a w' -> a = i.
Proof. unfold idup. intros E. do 3 minv E. by injection E as <- <-. Qed.

Lemma set_ofile_twice a b q : set_ofile a (set_ofile b q) = set_ofile a q.
Proof. done. Qed.
Lemma t_fork_files me np q fs pre :
  other me np -> p_state q = USED -> length (pre ++ fs) = NOFILE ->
  tri (slot me np (set_ofile (pre ++ replicate (length fs) None) q)) (fork_files np fs (length pre))
    (fun _ => slot me np (set_ofile (pre ++ fs) q)).
Proof.
  intros Ho Hq. revert pre. induction fs as [|f fs IH]; intros pre Hlen; cbn [fork_files length replicate]; [by apply t_ret'|].
  specialize (IH (pre ++ [f])). rewrite <- !app_assoc, (length_app pre [f]) in IH. cbn [length] in IH. rewrite Nat.add_1_r in IH. cbn [app] in IH. specialize (IH Hlen).
  eapply t_seq; [|intros; exact IH]. destruct f as [f|]; [|by apply t_ret'].
  eapply t_bind; [apply (t_in_files_val _ (filedup f) (fun a => a = f)); [apply stable_slot; cbn; congruence|apply filedup_same]|].
  intros f'. apply t_pure. intros ->.
  set (q1 := set_ofile (pre ++ None :: _) q).
  assert (set_ofile (<[length pre := Some f]> (p_ofile q1)) q1 = set_ofile (pre ++ Some f :: replicate (length fs) None) q) as <-.
  { subst q1. cbn [p_ofile set_ofile]. rewrite set_ofile_twice. f_equal. by rewrite <- (Nat.add_0_r (length pre)), insert_app_r. }
  apply (t_upd me np q1 (fun q => set_ofile (<[length pre := Some f]> (p_ofile q)) q)); [done|subst q1; proc_tac|subst q1; proc_tac].
Qed.

(** The child: a copy of the parent's files, directory and size. *)
Definition child_of (i : nat) (p : proc) (pid : Z) (q : proc) : Prop :=
  p_state q = RUNNABLE /\ p_pid q = pid /\ p_parent q = Some i /\ p_sz q = p_sz p /\ p_ofile q = p_ofile p /\ p_cwd q = p_cwd p.

Lemma t_fork_child i p np q n :
  p_state p = RUNNING -> i <> np -> fresh n q -> length (p_ofile p) = NOFILE ->
  let me := Some (i, p) in
  tri (slot me np q)
    (modify (updp np (set_sz (p_sz p)));;
     in_phys (modify (upd_mem (fun m => stn m (p_trapframe q) (ldn m (p_trapframe p) (Z.to_nat sizeof_trapframe)))));;
     tf_store (p_trapframe q) TF_a0 0;;
     fork_files np (p_ofile p) 0;;
     cwd ← (match p_cwd p with Some c => in_kfs (idup c) | None => undefined end);
     modify (updp np (set_cwd (Some cwd)));;
     modify (updp np (fun q => set_name (safestrcpy_list (p_name q) (p_name p) 16) q));;
     pid ← gets (fun s => p_pid (getp s np));
     release (proc_lock np);;
     acquire wait_lock;;
     modify (updp np (set_parent (Some i)));;
     release wait_lock;;
     acquire (proc_lock np);;
     modify (updp np (set_state RUNNABLE));;
     release (proc_lock np);;
     mret pid)
    (fun r s => r = n /\ exists q', child_of i p n q' /\ slot me np q' s).
Proof.
  intros Hp Ho (Hu & Hpid & Htf & Hpt & Hpa & Hf) Hlen me. assert (other me np) as Ho' by done.
  eapply t_seq; [apply t_upd; [done|proc_tac|proc_tac]|]. intros _.
  assert (p_state q <> SLEEPING) by congruence. t_skip. unfold tf_store. t_skip.
  eapply t_seq; [eapply t_conseq; [apply (t_fork_files me np (set_sz (p_sz p) q) (p_ofile p) []); [done|done|done]| |intros ? ? X; exact X]|].
  { intros s Hs. cbn. rewrite Hlen. destruct Hf as [Hf _].
    replace (set_ofile _ _) with (set_sz (p_sz p) q); [done|]. destruct q. cbn in *. by subst. }
  intros _. cbn [app]. destruct (p_cwd p) as [c|] eqn:Hcwd; [|done].
  eapply t_bind; [apply (t_in_files_val _ (in_fs (idup c)) (fun a => a = c)); [by apply stable_slot|]|].
  { intros w v w' E. unfold in_fs, zoom in E. destruct (idup c _) as [b w1| | |] eqn:Ei; try done. injection E as <- <-. by apply idup_same in Ei. }
  intros cw. apply t_pure. intros ->.
  eapply t_seq; [apply t_upd; [done|proc_tac|proc_tac]|]. intros _.
  eapply t_seq; [apply t_upd; [done|proc_tac|proc_tac]|]. intros _.
  apply t_read. intros pid.
  set (q1 := set_name _ _). apply (t_pre _ (fun s => pid = n /\ slot me np q1 s)).
  2: { intros s [<- Hs]. split; [|done]. rewrite (getp_lookup s np q1) by apply Hs. exact Hpid. }
  apply t_pure. intros ->. t_skip. t_skip.
  eapply t_seq; [apply t_upd; [done|subst q1; proc_tac|subst q1; proc_tac]|]. intros _. t_skip. t_skip.
  eapply t_seq; [apply t_upd; [done|subst q1; proc_tac|subst q1; proc_tac]|]. intros _. t_skip. apply t_ret'.
  intros s Hs. split; [done|]. eexists. split; [|exact Hs]. unfold child_of. by rewrite Hcwd.
Qed.

Lemma t_fork i p n :
  p_state p = RUNNING -> n < pid_limit ->
  let me := Some (i, p) in
  tri (fun s => nextpid s = n /\ idle me s) (fork forkret_pc)
    (fun r s => (r = -1 /\ idle me s) \/ (r = n /\ exists np q', child_of i p n q' /\ slot me np q' s)).
Proof.
  intros Hp Hn me. unfold fork. apply (t_myproc _ i); [by intros s (_ & _ & ? & _)|].
  eapply t_bind; [by apply t_allocproc|]. intros [np|]; [|apply t_ret'; auto]. apply t_pure. intros Ho. cbn in Ho.
  apply t_exists. intros q. apply t_pure. intros Hq.
  apply (t_getp _ _ p); [by intros s [[_ [_ ?]] _]|]. apply (t_getp _ _ q); [by intros s [_ ?]|].
  assert (p_state q = USED /\ no_files q) as [Hu Hf] by (split; apply Hq). assert (p_state q <> SLEEPING) by congruence.
  t_skip. destruct (_ <? 0).
  - eapply t_seq; [apply t_freeproc; [done|by left|done]|]. intros _. t_skip. apply t_ret'. intros s [? _]. auto.
  - apply (t_pre _ (fun s => length (p_ofile p) = NOFILE /\ slot me np q s)).
    2: { intros s Hs. split; [|done]. destruct Hs as [[I [_ Hip]] _]. apply (po_nofile _ _ _ _ (pt_each _ _ _ I _ _ Hip)). }
    apply t_pure. intros Hlen. eapply t_post; [by apply (t_fork_child i p np q n)|].
    intros r s [-> (q' & Hc & Hs)]. right. eauto.
Qed.

(** [exit] *)
Lemma t_sched R : tri R sched (fun _ => R).
Proof.
  unfold sched. eapply (t_seq _ _ _ R).
  - unfold myproc. apply t_read. intros [i|]; [apply t_ret'; naive_solver|apply t_panic].
  - intros i h s a w' HR E. unfold sched_checks in E. repeat case_match; try done. by injection E as _ <-.
Qed.

Lemma t_exit_files i p k fd :
  p_state p = RUNNING -> (fd + k = NOFILE)%nat ->
  tri (fun s => exists o, length o = NOFILE /\ (forall j, (j < fd)%nat -> o !! j = Some None) /\ idle (Some (i, set_ofile o p)) s)
    (exit_files i fd k)
    (fun _ => idle (Some (i, set_ofile (replicate NOFILE None) p))).
Proof.
  intros Hp. revert fd. induction k as [|k IH]; intros fd Hfd; cbn [exit_files].
  - apply t_ret'. intros s (o & Hlen & Ho & Hs). assert (o = replicate NOFILE None) as ->; [|done].
    symmetry. apply replicate_as_elem_of. split; [done|]. intros x Hx. apply list_elem_of_lookup in Hx as [j Hj].
    pose proof (lookup_lt_Some _ _ _ Hj). rewrite Ho in Hj by lia. by injection Hj.
  - apply t_exists. intros o. apply t_pure. intros Hlen. apply t_pure. intros Ho.
    apply (t_getp _ _ (set_ofile o p)); [by intros s [_ [_ ?]]|]. cbn [p_ofile set_ofile].
    eapply t_seq; [|intros; apply IH; lia].
    assert (forall s, fd < length o -> idle (Some (i, set_ofile (<[fd := None]> o) p)) s ->
              exists o', length o' = NOFILE /\ (forall j, (j < S fd)%nat -> o' !! j = Some None) /\ idle (Some (i, set_ofile o' p)) s)%nat as Hend.
    { intros s Hlt Hs. exists (<[fd := None]> o). rewrite length_insert. split_and!; [done| |done].
      intros j Hj. destruct (decide (j = fd)) as [->|]; [by apply list_lookup_insert_eq|]. rewrite list_lookup_insert_ne by done. apply Ho. lia. }
    destruct (o !! fd) as [[f|]|] eqn:Ef.
    + t_skip. eapply t_post; [apply (t_upd_me i (set_ofile o p)); proc_tac|]. intros ? s Hs. apply Hend; [by eapply lookup_lt_Some|done].
    + apply t_ret'. intros s Hs. apply Hend; [by eapply lookup_lt_Some|]. by rewrite list_insert_id.
    + apply lookup_ge_None in Ef. lia.
Qed.

Lemma t_reparent_loop i p is_ :
  p_state p = RUNNING ->
  tri (fun s => exists pa, idle (Some (i, set_parent pa p)) s) (reparent_loop i is_)
    (fun _ s => exists pa, idle (Some (i, set_parent pa p)) s).
Proof.
  intros Hp. induction is_ as [|j is_ IH]; cbn [reparent_loop]; [by apply t_ret'|].
  apply t_read. intros pp. apply t_read. intros ini. eapply t_seq; [|intros; exact IH].
  destruct (bool_decide_reflect (p_parent pp = Some i)) as [Hpp|]; [|apply t_ret'; naive_solver]. cbn [when].
  apply (t_pre _ (fun s => exists pa, getp s j = pp /\ idle (Some (i, set_parent pa p)) s)); [|naive_solver].
  apply t_exists. intros pa. eapply (t_seq _ _ _ (fun s => exists pa, idle (Some (i, set_parent pa p)) s)).
  - apply t_modify. intros s [Hj [I [Hc Hi]]]. unfold getp in Hj. destruct (procs s !! j) as [q|] eqn:Ej; cbn in Hj; subst; [|done].
    assert (Inv (updp j (set_parent ini) s)) as I'.
    { eapply Inv_upd; [done|exact Ej| |done]. pose proof (pt_each _ _ _ I _ _ Ej) as [? ? ? ? ? ? ?].
      split; try done. cbn. intros E. destruct (po_unused E) as (_ & _ & _ & _ & ? & _). congruence. }
    destruct (decide (i = j)) as [->|Hne].
    + exists ini. split; [done|]. split; [done|]. rewrite (lookup_upd _ _ _ _ Hi). done.
    + exists pa. split; [done|]. split; [done|]. by rewrite lookup_upd_ne.
  - intros _. apply t_exists. intros pa'. eapply t_post; [apply t_wakeup, stable_idle|]. intros ? s Hs. by exists pa'.
Qed.

(** After [exit] the process is a zombie without files. *)
Lemma t_exit i p status :
  p_state p = RUNNING ->
  tri (idle (Some (i, p))) (exit status)
    (fun _ s => exists q, p_state q = ZOMBIE /\ p_xstate q = status /\ no_files q /\ p_pid q = p_pid p /\ idle (Some (i, q)) s).
Proof.
  intros Hp. unfold exit. apply (t_myproc _ i); [by intros s (_ & ? & _)|]. apply t_read. intros ini.
  destruct (decide _); [apply t_panic|]. eapply t_seq.
  { eapply t_pre; [by apply (t_exit_files i p NOFILE 0)|]. intros s [_ Hs]. exists (p_ofile p). split_and!; [|lia|by destruct p].
    destruct Hs as [I [_ Hip]]. apply (po_nofile _ _ _ _ (pt_each _ _ _ I _ _ Hip)). }
  intros _. set (p1 := set_ofile _ p). apply (t_getp _ _ p1); [by intros s [_ [_ ?]]|]. unfold kbegin_op, kend_op. t_skip.
  eapply t_seq; [destruct (p_cwd p1); [apply t_in_kfs, stable_idle|apply t_panic]|]. intros _. t_skip.
  eapply t_seq; [apply t_upd_me; subst p1; proc_tac|]. intros _. set (p2 := set_cwd None p1). t_skip.
  eapply t_seq; [eapply t_pre; [apply (t_reparent_loop i p2); done|]|].
  { intros s Hs. exists (p_parent p2). by destruct p2. }
  intros _. apply t_exists. intros pa. apply (t_getp _ _ (set_parent pa p2)); [by intros s [_ [_ ?]]|]. t_skip. t_skip.
  eapply t_seq; [apply t_upd_me; subst p1 p2; proc_tac|]. intros _. t_skip. eapply t_post; [apply t_sched|].
  intros ? s Hs. eexists. split_and!; [| | | |exact Hs]; done.
Qed.

(** [wait]: what a scan of the table reports to process [i]. *)
Definition child (i j : nat) s : Prop := p_parent (getp s j) = Some i.
Definition scan_post i addr me s0 (havekids : bool) (is_ : list nat) (r : scan_result) s : Prop :=
  match r with
  | Reaped pid => exists j q, procs s0 !! j = Some q /\ p_parent q = Some i /\ p_state q = ZOMBIE /\ p_pid q = pid /\ slot me j (cleared q) s
  | Fault => addr <> 0 /\ exists j q, procs s0 !! j = Some q /\ p_parent q = Some i /\ p_state q = ZOMBIE /\ slot me j q s
  | Scanned b => (s = s0 /\ idle me s) /\ (forall j, j ∈ is_ -> child i j s -> p_state (getp s j) <> ZOMBIE) /\
                 (b = false -> havekids = false /\ forall j, j ∈ is_ -> ~ child i j s) /\
                 (b = true -> havekids = true \/ exists j, child i j s)
  end.

Lemma t_reap i p pt addr j q s0 havekids is_ :
  p_state p = RUNNING -> procs s0 !! j = Some q -> p_parent q = Some i -> p_state q = ZOMBIE -> let me := Some (i, p) in
  tri (slot me j q)
    (r ← (if addr =? 0 then mret 0 else in_phys (copyout pt addr (Z_to_little_endian 4 8 (p_xstate q))));
     if r <? 0 then release (proc_lock j);; release wait_lock;; mret Fault
     else freeproc j;; release (proc_lock j);; release wait_lock;; mret (Reaped (p_pid q)))
    (scan_post i addr me s0 havekids is_).
Proof.
  intros Hp Hj0 Hch Hz me. assert (p_state q <> SLEEPING) by congruence.
  apply (t_pre _ (fun s => (i <> j /\ no_files q) /\ slot me j q s)).
  2: { intros s Hs. split; [|done]. destruct Hs as [[I [_ Hi]] Hj]. unfold is_proc in Hj. split; [intros ->; congruence|].
       apply (po_files _ _ _ _ (pt_each _ _ _ I _ _ Hj)). auto. }
  apply t_pure. intros [Hne Hf]. eapply (t_bind _ _ _ (fun r s => ((r <? 0) = true -> addr <> 0) /\ slot me j q s)).
  { destruct (Z.eqb_spec addr 0); [by apply t_ret'|]. eapply t_post; [apply t_in_phys; auto with hoare|]. auto. }
  intros r. apply t_pure. intros Ha. destruct (r <? 0).
  - t_skip. t_skip. apply t_ret'. intros s Hs. split; [auto|]. exists j, q. done.
  - eapply t_seq; [apply t_freeproc; [done|by right|done]|]. intros _. t_skip. t_skip. apply t_ret'. intros s Hs. exists j, q. done.
Qed.

Lemma t_wait_scan i p pt addr s0 havekids is_ :
  p_state p = RUNNING -> let me := Some (i, p) in
  tri (fun s => s = s0 /\ idle me s) (wait_scan i pt addr havekids is_) (scan_post i addr me s0 havekids is_).
Proof.
  intros Hp me. revert havekids. induction is_ as [|j is_ IH]; intros havekids; cbn [wait_scan].
  { apply t_ret'. intros s Hs. split; [done|]. split; [set_solver|split; [intros ->; split; [done|set_solver]|auto]]. }
  apply t_read. intros np0. apply t_pure_l. intros Hnp.
  destruct (bool_decide_reflect (p_parent np0 = Some i)) as [Hch|Hch]; cbn [negb].
  2: { eapply t_post; [apply IH|]. intros [pid| |b] s; [done|done|]. intros (Hs & Hz & Hb & Hkids). split; [done|].
       destruct Hs as [-> _]. split; [|split; [intros E; destruct (Hb E); split; [done|]|done]].
       - intros k. rewrite elem_of_cons. intros [->|Hk]; [intros Hc; unfold child in Hc; congruence|auto].
       - intros k. rewrite elem_of_cons. intros [->|Hk]; [intros Hc; unfold child in Hc; congruence|auto]. }
  t_skip. apply t_read. intros np1. apply t_pure_l. intros Hnp1. assert (np1 = np0) as -> by congruence.
  destruct (decide _) as [Hz|Hz].
  - assert (procs s0 !! j = Some np0) as Hj by (unfold getp in Hnp; destruct (procs s0 !! j); cbn in Hnp; [congruence|by subst]).
    eapply t_pre; [by apply t_reap|]. by intros s [-> Hs].
  - t_skip. eapply t_post; [apply IH|]. intros [pid| |b] s; [done|done|]. intros (Hs & Hzs & Hb & Hkids). split; [done|].
    destruct Hs as [-> _]. split; [|split; [intros E; by destruct (Hb E)|intros _; right; exists j; unfold child; congruence]].
    intros k. rewrite elem_of_cons. intros [->|Hk]; [congruence|auto].
Qed.

(** [sleep], [yield] and the scheduler *)
Lemma t_sleep_enter i p c lk :
  p_state p = RUNNING ->
  tri (idle (Some (i, p))) (sleep_enter c lk) (fun _ => idle (Some (i, set_state SLEEPING (set_chan (Some c) p)))).
Proof.
  intros Hp. unfold sleep_enter. apply (t_myproc _ i); [by intros s (_ & ? & _)|]. t_skip. t_skip.
  eapply t_seq; [apply t_upd_me|intros; apply t_sched]; [|proc_tac].
  intros nx cu Hok. destruct Hok. split; cbn; try done; try proc_tac; unfold live, schedulable in *; cbn; intros; try naive_solver congruence.
Qed.
Lemma t_sleep_leave i p lk :
  p_state p = RUNNING -> tri (idle (Some (i, p))) (sleep_leave lk) (fun _ => idle (Some (i, set_chan None p))).
Proof.
  intros Hp. unfold sleep_leave. apply (t_myproc _ i); [by intros s (_ & ? & _)|].
  eapply t_seq; [apply t_upd_me; proc_tac|]. intros _. t_skip. apply t_acquire.
Qed.
Lemma t_yield_enter i p :
  p_state p = RUNNING -> tri (idle (Some (i, p))) yield_enter (fun _ => idle (Some (i, set_state RUNNABLE p))).
Proof.
  intros Hp. unfold yield_enter. apply (t_myproc _ i); [by intros s (_ & ? & _)|]. t_skip.
  eapply t_seq; [apply t_upd_me; proc_tac|]. intros _. apply t_sched.
Qed.
Lemma t_yield_leave R : tri R yield_leave (fun _ => R).
Proof.
  unfold yield_leave. eapply (t_seq _ _ _ R); [|intros; apply t_release].
  unfold myproc. apply t_read. intros [i|]; [apply t_ret'; naive_solver|apply t_panic].
Qed.

Definition stopped s : Prop := Inv s /\ cur s = None.
Definition at_work s : Prop := exists i p, p_state p = RUNNING /\ idle (Some (i, p)) s.

Lemma t_scheduler_back i p :
  p_state p <> RUNNING -> tri (idle (Some (i, p))) (scheduler_back i) (fun _ => stopped).
Proof.
  intros Hp. unfold scheduler_back. eapply (t_seq _ _ _ stopped); [|intros; apply t_release].
  apply t_modify. intros s [I [Hc Hi]]. split; [|done]. destruct I as [Il In Ie Iu]. split; cbn; [done|done| |done].
  intros j q Hq. destruct (Ie _ _ Hq) as [? ? ? ? ? ? Hr]. split; try done. intros E. exfalso.
  specialize (Hr E). rewrite Hc in Hr. injection Hr as <-. congruence.
Qed.

Lemma t_scheduler_scan is_ :
  tri (fun s => stopped s /\ is_ ⊆ seq 0 PNPROC) (scheduler_scan is_)
    (fun r s => match r with Some i => exists p, p_state p = RUNNING /\ idle (Some (i, p)) s | None => stopped s end).
Proof.
  induction is_ as [|i is_ IH]; cbn [scheduler_scan]; [apply t_ret'; naive_solver|]. t_skip. apply t_read. intros p.
  destruct (decide _) as [Hr|].
  2: { t_skip. eapply t_pre; [exact IH|]. intros s (_ & Hs & Hsub). split; [done|set_solver]. }
  eapply (t_seq _ _ _ (fun s => exists p, p_state p = RUNNING /\ procs s !! i = Some p /\ ptable_ok (procs s) (nextpid s) (Some i))).
  - apply t_modify. intros s (Hp & [I Hc] & Hsub).
    destruct (lookup_lt_is_Some_2 (procs s) i) as [q Hq].
    { rewrite (pt_len _ _ _ I). assert (i ∈ seq 0 PNPROC) as Hin by set_solver. apply elem_of_seq in Hin. lia. }
    rewrite (getp_lookup _ _ _ Hq) in Hp. subst q. exists (set_state RUNNING p). split; [done|]. split; [by apply lookup_upd|].
    cbn. rewrite (getp_lookup _ _ _ Hq).
    assert (ptable_ok (procs s) (nextpid s) (Some i)) as I'.
    { destruct I as [Il In Ie Iu]. split; try done. intros j q Hj. destruct (Ie _ _ Hj) as [? ? ? ? ? ? Hrun]. split; try done.
      intros E. specialize (Hrun E). congruence. }
    eapply ptable_set; [exact I'|exact Hq| |].
    + pose proof (pt_each _ _ _ I' _ _ Hq) as K. destruct K. split; unfold live, schedulable, no_files in *; cbn in *; proc_case.
    + unfold live. cbn. split; congruence.
  - intros _. eapply (t_seq _ _ _ (fun s => exists p, p_state p = RUNNING /\ idle (Some (i, p)) s)); [|intros; by apply t_ret'].
    apply t_modify. intros s (q & Hq & Hi & I). exists q. split; [done|]. split; [exact I|]. done.
Qed.

(** [wait] as one run, from the scan on; [s0] is the state it scans. *)
Definition wait_post i p addr s0 (r : option Z) s : Prop :=
  match r with
  | Some v =>
      idle (Some (i, p)) s /\
      ((exists j q, procs s0 !! j = Some q /\ p_parent q = Some i /\ p_state q = ZOMBIE /\ v = p_pid q /\ procs s !! j = Some (cleared q)) \/
       (v = -1 /\ ((forall j, ~ child i j s0) \/ p_killed p = true \/
                   (addr <> 0 /\ exists j q, procs s0 !! j = Some q /\ p_parent q = Some i /\ p_state q = ZOMBIE /\ procs s !! j = Some q))))
  | None =>
      idle (Some (i, set_state SLEEPING (set_chan (Some (chan_proc i)) p))) s /\
      (exists j, child i j s0) /\ (forall j, child i j s0 -> p_state (getp s0 j) <> ZOMBIE) /\ p_killed p = false
  end.

Lemma child_in_table i j s : Inv s -> child i j s -> j ∈ seq 0 PNPROC.
Proof.
  intros I Hc. apply elem_of_seq. unfold child, getp in Hc. destruct (procs s !! j) eqn:E; [|done].
  apply lookup_lt_Some in E. rewrite (pt_len _ _ _ I) in E. lia.
Qed.

Lemma t_wait_run i p addr s0 :
  p_state p = RUNNING -> tri (fun s => s = s0 /\ idle (Some (i, p)) s) (wait_run addr) (wait_post i p addr s0).
Proof.
  intros Hp. unfold wait_run. apply (t_myproc _ i); [by intros s (_ & _ & ? & _)|].
  apply (t_getp _ _ p); [by intros s (_ & _ & _ & ?)|].
  eapply t_bind; [by apply (t_wait_scan i p _ _ s0)|]. intros [pid| |b]; cbn [scan_post].
  - apply t_ret'. intros s (j & q & Hj & Hch & Hz & <- & Hs & Hq). split; [done|]. left. by exists j, q.
  - apply t_ret'. intros s (Ha & j & q & Hj & Hch & Hz & Hs & Hq). split; [done|]. right. split; [done|]. right. right. split; [done|]. by exists j, q.
  - apply (t_getp _ _ p); [by intros s ((_ & _ & _ & ?) & _)|]. destruct (negb b || p_killed p) eqn:Eb.
    + t_skip. apply t_ret'. intros s ((-> & Hs) & Hz & Hb & _). split; [done|]. right. split; [done|].
      apply orb_true_iff in Eb as [Eb|Ek]; [left|by right; left]. intros j Hc. destruct b; [done|].
      destruct (Hb eq_refl) as [_ Hn]. apply (Hn j); [|done]. by eapply child_in_table; [apply Hs|].
    + apply orb_false_iff in Eb as [Eb Ek]. destruct b; [|done].
      apply (t_pre _ (fun s => ((exists j, child i j s0) /\ (forall j, child i j s0 -> p_state (getp s0 j) <> ZOMBIE)) /\ idle (Some (i, p)) s)).
      2: { intros s ((-> & Hs) & Hz & _ & Hk). split; [split; [by destruct (Hk eq_refl)|]|done].
           intros j Hc. apply Hz; [|done]. by eapply child_in_table; [apply Hs|]. }
      apply t_pure. intros [Hk Hz]. eapply t_seq; [by apply t_sleep_enter|]. intros _. by apply t_ret'.
Qed.

(** Between runs: nobody runs, or the running process is RUNNING. *)
Definition quiet s : Prop := Inv s /\ (at_work s \/ cur s = None).

Lemma quiet_upd s i f :
  quiet s ->
  (forall q nx c, procs s !! i = Some q -> proc_ok nx c i q -> proc_ok nx c i (f q)) ->
  (forall q, procs s !! i = Some q -> (live (f q) -> live q) /\ p_pid (f q) = p_pid q /\ (p_state q = RUNNING -> p_state (f q) = RUNNING)) ->
  quiet (updp i f s).
Proof.
  intros [I W] Hok Hf. destruct (procs s !! i) as [q|] eqn:Hq.
  2: { assert (procs (updp i f s) = procs s) as E by (cbn; apply list_insert_ge; by apply lookup_ge_None).
       split; [unfold Inv; by rewrite E|]. destruct W as [(j & p & Hp & _ & Hc & Hj)|]; [left|by right].
       exists j, p. split; [done|]. split; [unfold Inv; by rewrite E|]. split; [done|]. by rewrite E. }
  destruct (Hf q eq_refl) as (Hl & Hpid & Hrun).
  assert (Inv (updp i f s)) as I' by (eapply Inv_upd; [done|exact Hq|apply Hok; [done|by apply I]|auto]).
  split; [done|]. destruct W as [(j & p & Hp & _ & Hc & Hj)|]; [left|by right].
  destruct (decide (j = i)) as [->|Hne].
  - exists i, (f q). assert (p = q) as -> by congruence. split; [auto|]. split; [done|]. split; [done|by apply lookup_upd].
  - exists j, p. split; [done|]. split; [done|]. split; [done|]. by rewrite lookup_upd_ne.
Qed.

Lemma idle_quiet me s : running me -> idle me s -> quiet s.
Proof. intros Hme Hs. split; [apply Hs|]. destruct me as [[i p]|]; [left; by exists i, p|right; apply Hs]. Qed.

Lemma stable_quiet : stable quiet.
Proof.
  split; [done|]. intros s j c Hs Hj. apply quiet_upd; [done| |].
  - intros q nx cu _. apply proc_ok_wake.
  - intros q Hq. split_and!; [apply wake_live|apply wake_pid|]. intros E. by rewrite wake_awake by congruence.
Qed.

Lemma t_kill_loop pid is_ : tri quiet (kill_loop pid is_) (fun _ => quiet).
Proof.
  induction is_ as [|i is_ IH]; cbn [kill_loop]; [by apply t_ret'|]. t_skip. apply t_read. intros p.
  destruct (_ =? _); [|t_skip; eapply t_pre; [exact IH|naive_solver]].
  eapply (t_seq _ _ _ (fun s => p_state (getp s i) = p_state p /\ quiet s)).
  { apply t_modify. intros s [<- Hs]. split.
    - unfold getp at 1. cbn. destruct (decide (i < length (procs s))%nat); [by rewrite list_lookup_insert_eq by done|].
      rewrite list_insert_ge by lia. unfold getp. by rewrite lookup_ge_None_2 by lia.
    - apply quiet_upd; [done| |done]. intros q nx c _ []. by split. }
  intros _. eapply (t_seq _ _ _ quiet).
  - destruct (bool_decide_reflect (p_state p = SLEEPING)) as [Hsl|]; cbn [when]; [|apply t_ret'; naive_solver].
    apply t_modify. intros s [Hp Hs]. rewrite Hsl in Hp.
    assert (forall q, procs s !! i = Some q -> p_state q = SLEEPING) as Hq by (intros q E; by rewrite <- Hp, (getp_lookup _ _ _ E)).
    apply quiet_upd; [done| |].
    + intros q nx c E K. apply Hq in E. destruct K. split; unfold live, schedulable, no_files in *; cbn in *; proc_case.
    + intros q E. apply Hq in E. unfold live. cbn. split_and!; [|done|]; congruence.
  - intros _. t_skip. by apply t_ret'.
Qed.

Lemma t_growproc i p n :
  p_state p = RUNNING -> tri (idle (Some (i, p))) (growproc n) (fun _ => quiet).
Proof.
  intros Hp. unfold growproc. apply (t_myproc _ i); [by intros s (_ & ? & _)|]. apply (t_getp _ _ p); [by intros s [_ [_ ?]]|].
  assert (forall sz, tri (idle (Some (i, p))) (modify (updp i (set_sz sz));; mret 0) (fun _ => quiet)) as Hset.
  { intros sz. eapply t_seq; [apply t_upd_me; proc_tac|]. intros _. apply t_ret'. intros s Hs. by eapply (idle_quiet (Some (i, _))); [|exact Hs]. }
  destruct (0 <? n); [t_skip; destruct (_ =? 0); [|apply Hset]|destruct (n <? 0); [t_skip; apply Hset|apply Hset]].
  apply t_ret'. intros s Hs. by apply (idle_quiet (Some (i, p))).
Qed.

(** Boot: a table of unused entries. *)
Definition boot_table (ps : list proc) : Prop := ps = replicate PNPROC proc0.

Lemma t_procinit_loop is_ :
  tri (fun s => nextpid s = 1 /\ stopped s) (procinit_loop is_) (fun _ s => nextpid s = 1 /\ stopped s).
Proof.
  induction is_ as [|i is_ IH]; cbn [procinit_loop]; [by apply t_ret'|]. t_skip.
  eapply t_seq; [|intros; exact IH]. apply t_modify. intros s [Hn [I Hc]]. split; [done|]. split; [|done].
  destruct (quiet_upd s i (set_kstack (KSTACK (Z.of_nat i)))) as [I' _]; [by split; [|right]| |done|exact I'].
  intros q nx c _ []. by split.
Qed.

Lemma boot_inv s : boot_table (procs s) -> nextpid s = 1 -> cur s = None -> stopped s.
Proof.
  intros Hb Hn Hc. split; [|done]. unfold Inv. rewrite Hb, Hn, Hc. split; [by rewrite length_replicate|lia| |].
  - intros i p E. apply lookup_replicate in E as [-> _]. split; unfold schedulable, live; cbn; try done; naive_solver.
  - intros i j p q E. apply lookup_replicate in E as [-> _]. done.
Qed.

Lemma t_userinit n garbage :
  n < pid_limit -> tri (fun s => nextpid s = n /\ stopped s) (userinit forkret_pc initcode_pa garbage) (fun _ => quiet).
Proof.
  intros Hn. unfold userinit. eapply t_bind; [eapply (t_pre _ (fun s => nextpid s = n /\ idle None s)); [by apply (t_allocproc None n)|done]|].
  intros [np|]; [|eapply t_seq; [by apply (t_modify _ _ (fun _ => True))|intros; apply t_panic]].
  apply t_pure. intros Ho. apply t_exists. intros q. apply t_pure. intros (Hu & Hpid & Htf & Hpt & Hpa & Hf).
  assert (p_state q <> SLEEPING) by congruence.
  eapply (t_seq _ _ _ (slot None np q)); [by apply t_modify|]. intros _.
  apply (t_getp _ _ q); [by intros s [_ ?]|]. t_skip.
  eapply t_seq; [apply t_upd; [done|proc_tac|proc_tac]|]. intros _. unfold tf_store. t_skip. t_skip.
  eapply t_seq; [apply t_upd; [done|proc_tac|proc_tac]|]. intros _.
  eapply t_seq; [apply t_in_kfs; by apply stable_slot|]. intros cwd.
  eapply t_seq; [apply t_upd; [done|proc_tac|proc_tac]|]. intros _.
  eapply t_seq; [apply t_upd; [done|proc_tac|proc_tac]|]. intros _.
  eapply t_post; [apply t_release|]. intros ? s [Hs _]. by apply (idle_quiet None).
Qed.

(** Runs of [procinfo] read the table only. *)
Lemma t_procinfo_loop pt addr nprocs pad is_ : tri quiet (procinfo_loop pt addr nprocs pad is_) (fun _ => quiet).
Proof.
  revert addr nprocs. induction is_ as [|i is_ IH]; intros addr nprocs; cbn [procinfo_loop]; [by apply t_ret'|].
  apply t_read. intros p. destruct (decide _); [eapply t_pre; [apply IH|naive_solver]|].
  eapply (t_seq _ _ _ quiet).
  { destruct (p_parent p); [eapply t_conseq; [apply (t_gets _ quiet)|naive_solver|naive_solver]|apply t_ret'; naive_solver]. }
  intros ppid. eapply t_seq; [apply t_in_phys, stable_quiet|]. intros r. destruct (r <? 0); [by apply t_ret'|apply IH].
Qed.
End ops.
