(* ===== verification/ProcProps.v ===== *)
(** * proc.c: theorems

    [kstep] is proc.c as the rest of the kernel drives it on one CPU: each step
    is one run of a routine of a process or of the scheduler, from the point
    where it gets the CPU to the point where it gives it up.  [SyscallProps]
    adds the traps, with every system call, to these steps. *)

From S2P Require Import Prelude Mem Riscv Kalloc Vm Pipe Sleeplock Bio BioSpec Log LogOps Fs File Hoare Proc ProcSpec ProcInv.

Section reach.
Context {L : Layout} {T H : Type} {BO : BlockOps T H}.
Context (forkret_pc initcode_pa : Z).
Abbreviation K := (M (kern T)).
Implicit Types s : kern T.

(** The switch back to the scheduler at the end of a run of process [i]. *)
Definition switch_back (i : nat) (m : K unit) : K unit := m;; scheduler_back i.
(** The scheduler goes on from position [k] of the table; the process it
    finds continues with [m]. *)
Definition dispatch (k : nat) (m : nat -> K unit) : K unit :=
  r ← scheduler_scan (seq k (PNPROC - k));
  match r with Some i => m i | None => mret tt end.
Definition wait_end (i : nat) (m : K (option Z)) : K unit :=
  r ← m;
  match r with Some _ => mret tt | None => scheduler_back i end.

Inductive kstep : world (kern T) -> world (kern T) -> Prop :=
| ks_boot garbage w w' : cur (st w) = None -> nextpid (st w) < pid_limit -> userinit forkret_pc initcode_pa garbage w = Ok tt w' -> kstep w w'
| ks_fork w r w' : nextpid (st w) < pid_limit -> fork forkret_pc w = Ok r w' -> kstep w w'
| ks_exit i status w w' : cur (st w) = Some i -> switch_back i (exit status) w = Ok tt w' -> kstep w w'
| ks_wait i addr w w' : cur (st w) = Some i -> wait_end i (wait addr) w = Ok tt w' -> kstep w w'
| ks_kill pid w r w' : kill pid w = Ok r w' -> kstep w w'
| ks_sbrk n w r w' : growproc n w = Ok r w' -> kstep w w'
| ks_files A (m : M (fsys T) A) w r w' : in_files m w = Ok r w' -> kstep w w'
| ks_procinfo addr pad w r w' : procinfo addr pad w = Ok r w' -> kstep w w'
| ks_sleep i c lk w w' : cur (st w) = Some i -> switch_back i (sleep_enter c lk) w = Ok tt w' -> kstep w w'
| ks_yield i w w' : cur (st w) = Some i -> switch_back i yield_enter w = Ok tt w' -> kstep w w'
| ks_interrupt c w w' : wakeup c w = Ok tt w' -> kstep w w'
| ks_resume k w w' : cur (st w) = None -> dispatch k (fun _ => yield_leave) w = Ok tt w' -> kstep w w'
| ks_forkret k w w' : cur (st w) = None -> dispatch k (fun _ => forkret (mret tt)) w = Ok tt w' -> kstep w w'
| ks_awake k lk w w' : cur (st w) = None -> dispatch k (fun _ => sleep_leave lk) w = Ok tt w' -> kstep w w'
| ks_wait_on k addr w w' : cur (st w) = None -> dispatch k (fun i => wait_end i (sleep_leave wait_lock;; wait_run addr)) w = Ok tt w' -> kstep w w'.

Lemma t_dispatch k (m : nat -> K unit) :
  (forall i p, p_state p = RUNNING -> triple (S := kern T) (idle (Some (i, p))) (m i) (fun _ => quiet)) ->
  triple (fun s => stopped s) (dispatch k m) (fun _ => quiet).
Proof.
  intros Hm. unfold dispatch. eapply t_bind.
  - eapply t_pre; [apply t_scheduler_scan|]. intros s Hs. split; [exact Hs|]. intros i. rewrite !elem_of_seq. unfold PNPROC. lia.
  - intros [i|]; [|apply t_ret'; intros s [I Hc]; split; auto]. apply t_exists. intros p. apply t_pure. apply Hm.
Qed.

Lemma t_wait_end i p (m : K (option Z)) :
  p_state p = RUNNING ->
  triple (idle (Some (i, p))) m (fun r s => match r with
    | Some _ => exists p', p_state p' = RUNNING /\ idle (Some (i, p')) s
    | None => exists p', p_state p' = SLEEPING /\ idle (Some (i, p')) s end) ->
  triple (idle (Some (i, p))) (wait_end i m) (fun _ => quiet).
Proof.
  intros Hp Hm. unfold wait_end. eapply t_bind; [exact Hm|]. intros [v|].
  - apply t_ret'. intros s (p' & Hr & Hs). by apply (idle_quiet (Some (i, p'))).
  - apply t_exists. intros p'. apply t_pure. intros Hr. eapply t_post; [apply (t_scheduler_back i p'); congruence|].
    intros ? s [I Hc]. split; auto.
Qed.

Lemma quiet_idle s : quiet s -> exists me, running me /\ idle me s.
Proof.
  intros [I [(i & p & Hp & Hs)|Hc]]; [exists (Some (i, p)); by split|exists None; by split].
Qed.
Lemma quiet_cur s i : quiet s -> cur s = Some i -> exists p, p_state p = RUNNING /\ idle (Some (i, p)) s.
Proof. intros [I [(j & p & Hp & Hs)|Hc]] E; [|congruence]. exists p. split; [done|]. destruct Hs as [_ [Hc Hj]]. split; [done|]. split; [done|]. congruence. Qed.

Lemma no_myproc {A} (k : nat -> K A) h s a w' : (myproc ≫= k) (World h s) = Ok a w' -> exists i, cur s = Some i.
Proof. intros E. unfold myproc in E. rewrite bind_assoc, gets_run in E. destruct (cur s); [eauto|done]. Qed.

Lemma step_fork h s r w' : quiet s -> nextpid s < pid_limit -> fork forkret_pc (World h s) = Ok r w' -> quiet (st w').
Proof.
  intros Hq Hn E. destruct (no_myproc _ _ _ _ _ E) as [i Hc]. destruct (quiet_cur s i Hq Hc) as (p & Hp & Hi).
  destruct (t_fork _ i p (nextpid s) Hp Hn _ _ _ _ (conj eq_refl Hi) E) as [[_ Hs]|(_ & np & q & _ & Hs & _)];
    by apply (idle_quiet (Some (i, p))).
Qed.

Lemma t_wait_runs i p addr :
  p_state p = RUNNING ->
  triple (S := kern T) (idle (Some (i, p))) (wait_run addr) (fun r s => match r with
    | Some _ => exists p', p_state p' = RUNNING /\ idle (Some (i, p')) s
    | None => exists p', p_state p' = SLEEPING /\ idle (Some (i, p')) s end).
Proof.
  intros Hp h s r w' Hs E. pose proof (t_wait_run i p addr s Hp h s r w' (conj eq_refl Hs) E) as Hw.
  destruct r; destruct Hw as [Hi _]; eexists; (split; [|exact Hi]); done.
Qed.
Lemma t_wait_quiet i p addr :
  p_state p = RUNNING -> triple (S := kern T) (idle (Some (i, p))) (wait_end i (wait addr)) (fun _ => quiet).
Proof. intros Hp. apply t_wait_end; [done|]. unfold wait. t_skip. by apply t_wait_runs. Qed.
Lemma t_wait_on i p addr :
  p_state p = RUNNING -> triple (S := kern T) (idle (Some (i, p))) (wait_end i (sleep_leave wait_lock;; wait_run addr)) (fun _ => quiet).
Proof.
  intros Hp. apply t_wait_end; [done|]. eapply t_seq; [by apply t_sleep_leave|]. intros _. by apply (t_wait_runs i (set_chan None p)).
Qed.

Lemma t_procinfo_quiet addr pad : triple (S := kern T) quiet (procinfo addr pad) (fun _ => quiet).
Proof.
  intros h s r w' Hq E. destruct (no_myproc _ _ _ _ _ E) as [i Hc].
  assert (triple (fun s => cur s = Some i /\ quiet s) (procinfo addr pad) (fun _ => quiet)) as Ht.
  { unfold procinfo. apply (t_myproc _ i); [by intros s' [? _]|]. apply t_read. intros p. eapply t_pre; [apply t_procinfo_loop|]. by intros s' (_ & _ & ?). }
  by apply (Ht _ _ _ _ (conj Hc Hq) E).
Qed.

Lemma switch_stops i p q (m : K unit) h s w' :
  p_state q <> RUNNING -> idle (Some (i, p)) s ->
  triple (idle (Some (i, p))) m (fun _ => idle (Some (i, q))) -> switch_back i m (World h s) = Ok tt w' -> quiet (st w').
Proof.
  intros Hq Hs Hm E. assert (triple (idle (Some (i, p))) (m;; scheduler_back i) (fun _ => stopped)) as Ht.
  { eapply t_seq; [exact Hm|]. intros _. by apply (t_scheduler_back i q). }
  destruct (Ht _ _ _ _ Hs E) as [I Hc]. split; [done|by right].
Qed.
Lemma step_exit i status h s w' : quiet s -> cur s = Some i -> switch_back i (exit status) (World h s) = Ok tt w' -> quiet (st w').
Proof.
  intros Hq Hc E. destruct (quiet_cur s i Hq Hc) as (p & Hp & Hi).
  assert (triple (idle (Some (i, p))) (exit status;; scheduler_back i) (fun _ => stopped)) as Ht.
  { eapply t_seq; [by apply t_exit|]. intros _. apply t_exists. intros q. apply t_pure. intros Hz. apply t_pure. intros _. apply t_pure. intros _.
    apply t_pure. intros _. apply (t_scheduler_back i q). congruence. }
  destruct (Ht _ _ _ _ Hi E) as [I Hn]. split; [done|by right].
Qed.

Lemma t_forkret i p : triple (S := kern T) (idle (Some (i, p))) (forkret (mret tt)) (fun _ => idle (Some (i, p))).
Proof.
  unfold forkret. apply (t_myproc _ i); [by intros s (_ & ? & _)|]. t_skip. apply t_read. intros b.
  eapply (t_seq _ _ _ (idle (Some (i, p)))); [|intros _; by apply t_ret'].
  eapply t_pre; [|intros s [_ Hs]; exact Hs]. apply t_when.
  eapply (t_seq _ _ _ (idle (Some (i, p)))); [by apply t_modify|]. intros _. apply t_in_kfs, stable_idle.
Qed.

Lemma kstep_quiet w w' : kstep w w' -> quiet (st w) -> quiet (st w').
Proof.
  intros Hk Hq. destruct Hk as [garbage w w' Hc Hn E|w r w' Hn E|i status w w' Hc E|i addr w w' Hc E|pid w r w' E|n w r w' E|A m w r w' E|addr pad w r w' E
    |i c lk w w' Hc E|i w w' Hc E|c w w' E|k w w' Hc E|k w w' Hc E|k lk w w' Hc E|k addr w w' Hc E]; destruct w as [h s]; cbn [st] in *.
  - eapply (t_userinit _ _ (nextpid s)); [exact Hn|split; [done|split; [apply Hq|exact Hc]]|exact E].
  - by eapply step_fork.
  - by eapply step_exit.
  - destruct (quiet_cur s i Hq Hc) as (p & Hp & Hi). by eapply t_wait_quiet.
  - by eapply t_kill_loop.
  - destruct (no_myproc _ _ _ _ _ E) as [i Hc]. destruct (quiet_cur s i Hq Hc) as (p & Hp & Hi). by eapply t_growproc.
  - by eapply (t_in_files quiet); [apply stable_quiet| |exact E].
  - by eapply t_procinfo_quiet.
  - destruct (quiet_cur s i Hq Hc) as (p & Hp & Hi). eapply switch_stops; [|exact Hi|by apply t_sleep_enter|exact E]. done.
  - destruct (quiet_cur s i Hq Hc) as (p & Hp & Hi). eapply switch_stops; [|exact Hi|by apply t_yield_enter|exact E]. done.
  - by eapply (t_wakeup quiet); [apply stable_quiet| |exact E].
  - eapply t_dispatch; [|split; [apply Hq|exact Hc]|exact E]. intros i p Hp. eapply t_post; [apply t_yield_leave|].
    intros ? s' Hs. by apply (idle_quiet (Some (i, p))).
  - eapply t_dispatch; [|split; [apply Hq|exact Hc]|exact E]. intros i p Hp. eapply t_post; [apply t_forkret|].
    intros ? s' Hs. by apply (idle_quiet (Some (i, p))).
  - eapply t_dispatch; [|split; [apply Hq|exact Hc]|exact E]. intros i p Hp. eapply t_post; [by apply t_sleep_leave|].
    intros ? s' Hs. by apply (idle_quiet (Some (i, set_chan None p))).
  - eapply t_dispatch; [|split; [apply Hq|exact Hc]|exact E]. intros i p Hp. by apply t_wait_on.
Qed.

Lemma quiet_running s i p : quiet s -> procs s !! i = Some p -> p_state p = RUNNING <-> cur s = Some i.
Proof.
  intros Hq Hp. split.
  - apply (po_running _ _ _ _ (pt_each _ _ _ (proj1 Hq) _ _ Hp)).
  - intros Hc. destruct (quiet_cur s i Hq Hc) as (q & Hr & _ & _ & Hi). congruence.
Qed.

Lemma t_procinit : triple (S := kern T) (fun s => boot_table (procs s) /\ nextpid s = 1 /\ cur s = None) procinit (fun _ => quiet).
Proof.
  eapply (t_conseq _ (fun s => nextpid s = 1 /\ stopped s) _ _ (fun _ s => nextpid s = 1 /\ stopped s)).
  - unfold procinit. t_skip. t_skip. apply t_procinit_loop.
  - intros s (Hb & Hn & Hc). split; [done|by apply boot_inv].
  - intros _ s (_ & I & Hc). split; auto.
Qed.

(** *** The scans as searches of the table *)
Lemma updp_twice i f g s : (i < length (procs s))%nat -> updp i g (updp i f s) = updp i (fun p => g (f p)) s.
Proof.
  intros Hi. unfold updp. cbn. rewrite list_insert_insert_eq. unfold getp. cbn. by rewrite list_lookup_insert_eq.
Qed.

Definition no_proc_lock (h : list lockid) : Prop := forall i, proc_lock i ∉ h.
Lemma drop_cons {A} (l : list A) k x l' : drop k l = x :: l' -> l !! k = Some x /\ drop (S k) l = l'.
Proof.
  intros E. split; [by rewrite <- (Nat.add_0_r k), <- lookup_drop, E|]. by rewrite <- Nat.add_1_r, <- drop_drop, E.
Qed.

Lemma ret_run {A B} (a : A) (k : A -> K B) w : (mret a ≫= k) w = k a w.
Proof. done. Qed.

(** [kill] marks the first process with the pid, and wakes it. *)
Definition mark_killed (p : proc) : proc :=
  if decide (p_state p = SLEEPING) then set_state RUNNABLE (set_killed true p) else set_killed true p.

Lemma kill_loop_run pid h s l k :
  no_proc_lock h -> drop k (procs s) = l ->
  kill_loop pid (seq k (length l)) (World h s) =
    match list_find (fun p => p_pid p = pid) l with
    | Some (d, _) => Ok 0 (World h (updp (k + d) mark_killed s))
    | None => Ok (-1) (World h s)
    end.
Proof.
  intros Hh. revert k. induction l as [|p l IH]; intros k Hd; cbn [length seq kill_loop]; [done|].
  apply drop_cons in Hd as [Hk Hd]. rewrite acquire_run by apply Hh. rewrite gets_run, (getp_lookup _ _ _ Hk). cbn [list_find].
  destruct (Z.eqb_spec (p_pid p) pid) as [E|Hne].
  - rewrite decide_True by done. rewrite modify_run, Nat.add_0_r. pose proof (lookup_lt_Some _ _ _ Hk) as Hlt.
    assert (forall f g, f p = g p -> updp k f s = updp k g s) as Hext by (intros f g Hfg; unfold updp; by rewrite (getp_lookup _ _ _ Hk), Hfg).
    destruct (bool_decide_reflect (p_state p = SLEEPING)) as [Hs|Hs]; cbn [when].
    + rewrite modify_run, release_run by apply Hh. rewrite updp_twice by done. unfold mret, M_ret. do 2 f_equal. apply Hext. unfold mark_killed. by rewrite decide_True.
    + rewrite ret_run, release_run by apply Hh. unfold mret, M_ret. do 2 f_equal. apply Hext. unfold mark_killed. by rewrite decide_False.
  - rewrite decide_False by done. rewrite release_run by apply Hh. rewrite (IH _ Hd).
    destruct (list_find _ l) as [[d q]|]; [|done]. cbn. do 3 f_equal. lia.
Qed.

(** The scheduler takes the first RUNNABLE process from its position on. *)
Lemma scheduler_scan_run h s l k :
  no_proc_lock h -> drop k (procs s) = l ->
  scheduler_scan (seq k (length l)) (World h s) =
    match list_find (fun p => p_state p = RUNNABLE) l with
    | Some (d, _) => Ok (Some (k + d)%nat) (World (proc_lock (k + d) :: h) (set_cur (Some (k + d)%nat) (updp (k + d) (set_state RUNNING) s)))
    | None => Ok None (World h s)
    end.
Proof.
  intros Hh. revert k. induction l as [|p l IH]; intros k Hd; cbn [length seq scheduler_scan]; [done|].
  apply drop_cons in Hd as [Hk Hd]. rewrite acquire_run by apply Hh. rewrite gets_run, (getp_lookup _ _ _ Hk). cbn [list_find].
  destruct (decide (p_state p = RUNNABLE)) as [E|Hne].
  - rewrite !modify_run, Nat.add_0_r. done.
  - rewrite release_run by apply Hh. rewrite (IH _ Hd). destruct (list_find _ l) as [[d q]|]; [|done]. cbn.
    replace (k + S d)%nat with (S (k + d)) by lia. done.
Qed.

Lemma alloc_scan_run h s l k :
  no_proc_lock h -> drop k (procs s) = l ->
  alloc_scan (seq k (length l)) (World h s) =
    match list_find (fun p => p_state p = UNUSED) l with
    | Some (d, _) => Ok (Some (k + d)%nat) (World (proc_lock (k + d) :: h) s)
    | None => Ok None (World h s)
    end.
Proof.
  intros Hh. revert k. induction l as [|p l IH]; intros k Hd; cbn [length seq alloc_scan]; [done|].
  apply drop_cons in Hd as [Hk Hd]. rewrite acquire_run by apply Hh. rewrite gets_run, (getp_lookup _ _ _ Hk). cbn [list_find].
  destruct (decide (p_state p = UNUSED)) as [E|Hne]; [by rewrite Nat.add_0_r|].
  rewrite release_run by apply Hh. rewrite (IH _ Hd). destruct (list_find _ l) as [[d q]|]; [|done]. cbn.
  replace (k + S d)%nat with (S (k + d)) by lia. done.
Qed.

Lemma kill_run pid h s :
  no_proc_lock h -> length (procs s) = PNPROC ->
  kill pid (World h s) =
    match list_find (fun p => p_pid p = pid) (procs s) with
    | Some (i, _) => Ok 0 (World h (updp i mark_killed s))
    | None => Ok (-1) (World h s)
    end.
Proof. intros Hh Hl. unfold kill. rewrite <- Hl. by rewrite (kill_loop_run pid h s (procs s) 0). Qed.

Lemma find_pid s i p : Inv s -> procs s !! i = Some p -> live p -> list_find (fun q => p_pid q = p_pid p) (procs s) = Some (i, p).
Proof.
  intros I Hi Hl. apply list_find_Some. split_and!; [done|done|]. intros j q Hj Hlt E.
  pose proof (po_pid _ _ _ _ (pt_each _ _ _ I _ _ Hi) Hl) as Hp.
  assert (live q) as Hq.
  { intros Hu. destruct (po_unused _ _ _ _ (pt_each _ _ _ I _ _ Hj) Hu) as [Hz _]. lia. }
  pose proof (pt_uniq _ _ _ I j i q p Hj Hi Hq Hl E). lia.
Qed.

(** *** Round robin *)
Definition next_pos (r : option nat) : nat := match r with Some i => S i | None => 0 end.
(** One turn of the scheduler's loop: it stands at [k] in state [s], picks [r]. *)
Definition turn (k : nat) s (r : option nat) : Prop :=
  exists h w, no_proc_lock h /\ scheduler_scan (seq k (PNPROC - k)) (World h s) = Ok r w.

Lemma turn_spec k s r :
  length (procs s) = PNPROC -> turn k s r ->
  match r with
  | Some i => (k <= i < PNPROC)%nat /\ forall j, (k <= j < i)%nat -> p_state (getp s j) <> RUNNABLE
  | None => forall j, (k <= j < PNPROC)%nat -> p_state (getp s j) <> RUNNABLE
  end.
Proof.
  intros Hl (h & w & Hh & E). rewrite <- Hl, <- length_drop, (scheduler_scan_run _ _ _ _ Hh eq_refl) in E.
  destruct (list_find _ _) as [[d p]|] eqn:F; injection E as <- _.
  - apply list_find_Some in F as (Hd & Hp & Hbefore). rewrite lookup_drop in Hd. pose proof (lookup_lt_Some _ _ _ Hd). split; [lia|].
    intros j Hj Hr. assert (is_Some (procs s !! j)) as [q Hq] by (apply lookup_lt_is_Some; lia).
    rewrite (getp_lookup _ _ _ Hq) in Hr. eapply (Hbefore (j - k)%nat q); [|lia|done].
    rewrite lookup_drop. by replace (k + (j - k))%nat with j by lia.
  - apply list_find_None in F. intros j Hj Hr. assert (is_Some (procs s !! j)) as [q Hq] by (apply lookup_lt_is_Some; lia).
    rewrite (getp_lookup _ _ _ Hq) in Hr. rewrite Forall_forall in F. apply (F q); [|done].
    apply list_elem_of_lookup. exists (j - k)%nat. rewrite lookup_drop. by replace (k + (j - k))%nat with j by lia.
Qed.

(** Turns left before [j] is reached from position [k]. *)
Definition distance (j k : nat) : nat := if decide (k <= j)%nat then j - k else S (PNPROC - k) + j.
Lemma turn_closer j k s r :
  length (procs s) = PNPROC -> (j < PNPROC)%nat -> (k <= PNPROC)%nat -> p_state (getp s j) = RUNNABLE -> turn k s r -> r <> Some j ->
  (distance j (next_pos r) < distance j k)%nat /\ (next_pos r <= PNPROC)%nat.
Proof.
  intros Hl Hj Hk Hr Ht Hne. pose proof (turn_spec _ _ _ Hl Ht) as Hs. unfold distance. destruct r as [i|]; cbn [next_pos].
  - destruct Hs as [Hi Hb]. assert (i <> j) by congruence. repeat case_decide; try lia.
    destruct (decide (j < i)%nat); [|lia]. by destruct (Hb j ltac:(lia)).
  - repeat case_decide; try lia. by destruct (Hs j ltac:(lia)).
Qed.

Lemma distance_bound j k : (j < PNPROC)%nat -> (distance j k <= PNPROC)%nat.
Proof. intros. unfold distance. case_decide; lia. Qed.

Lemma fair_within (pos : nat -> nat) (state : nat -> kern T) (pick : nat -> option nat) j d t0 :
  (forall t, length (procs (state t)) = PNPROC) -> (j < PNPROC)%nat ->
  (forall t, turn (pos t) (state t) (pick t) /\ pos (S t) = next_pos (pick t)) ->
  (forall t, (forall u, (u < t)%nat -> pick u <> Some j) -> p_state (getp (state t) j) = RUNNABLE) ->
  (forall u, (u < t0)%nat -> pick u <> Some j) -> (pos t0 <= PNPROC)%nat -> (distance j (pos t0) <= d)%nat ->
  exists t, (t <= t0 + d)%nat /\ pick t = Some j.
Proof.
  intros Hlen Hj Hturn Hrun. revert t0. induction d as [|d IH]; intros t0 Hno Hpos Hd.
  - destruct (decide (pick t0 = Some j)) as [E|E]; [exists t0; split; [lia|done]|].
    destruct (Hturn t0) as [Ht Hnext]. destruct (turn_closer j _ _ _ (Hlen t0) Hj Hpos (Hrun t0 Hno) Ht E) as [Hlt _]. lia.
  - destruct (decide (pick t0 = Some j)) as [E|E]; [exists t0; split; [lia|done]|].
    destruct (Hturn t0) as [Ht Hnext]. destruct (turn_closer j _ _ _ (Hlen t0) Hj Hpos (Hrun t0 Hno) Ht E) as [Hlt Hle].
    destruct (IH (S t0)) as (t & Hle' & Et).
    + intros u Hu. destruct (decide (u = t0)) as [->|]; [done|]. apply Hno. lia.
    + by rewrite Hnext.
    + rewrite Hnext. lia.
    + exists t. split; [lia|done].
Qed.

(** C21: [fork] returns the next pid and leaves a RUNNABLE child whose parent
    is the caller and which shares its size, open files and directory; or it
    returns -1.  Either way the table is well formed and the caller's entry
    is unchanged. *)
Theorem fork_copies i p h (s : kern T) r w' :
  p_state p = RUNNING -> idle (Some (i, p)) s -> nextpid s < pid_limit -> fork forkret_pc (World h s) = Ok r w' ->
  idle (Some (i, p)) (st w') /\
  (r = -1 \/
   r = nextpid s /\ 0 < r /\
   exists np q, procs (st w') !! np = Some q /\ np <> i /\ p_state q = RUNNABLE /\ p_pid q = r /\ p_parent q = Some i /\
     p_sz q = p_sz p /\ p_ofile q = p_ofile p /\ p_cwd q = p_cwd p).
Proof.
  intros Hp Hs Hn E. destruct (t_fork forkret_pc i p (nextpid s) Hp Hn _ _ _ _ (conj eq_refl Hs) E) as [[-> Hi]|(-> & np & q & Hc & Hi & Hq)].
  - auto.
  - split; [done|]. right. split; [done|]. split; [apply (pt_next _ _ _ (proj1 Hs))|]. exists np, q. destruct Hc as (? & ? & ? & ? & ? & ?).
    split_and!; try done. intros ->. destruct Hi as [_ [_ Hi]]. unfold is_proc in Hq. congruence.
Qed.

(** C22: a run of [wait] either frees a zombie child and returns its pid, or
    returns -1 because there is no child, the caller was killed, or the exit
    status of a zombie could not be stored, or puts the caller to sleep on
    its own address, and then it has a child, none of its children is a
    zombie, and it was not killed. *)
Theorem wait_reaps i p addr h (s : kern T) r w' :
  p_state p = RUNNING -> idle (Some (i, p)) s -> wait addr (World h s) = Ok r w' -> wait_post i p addr s r (st w').
Proof.
  intros Hp Hs E. assert (triple (fun x => x = s /\ idle (Some (i, p)) x) (wait addr) (wait_post i p addr s)) as Ht.
  { unfold wait. t_skip. by apply t_wait_run. }
  by apply (Ht _ _ _ _ (conj eq_refl Hs) E).
Qed.

(** [kill] of a live process marks that process, wakes it if it sleeps,
    changes no other entry and returns 0; when no entry has the pid it
    returns -1 and changes nothing. *)
Theorem kill_marks (s : kern T) h :
  ptable_ok (procs s) (nextpid s) (cur s) -> no_proc_lock h ->
  (forall i p, procs s !! i = Some p -> live p -> kill (p_pid p) (World h s) = Ok 0 (World h (updp i mark_killed s))) /\
  (forall pid, (forall i p, procs s !! i = Some p -> p_pid p <> pid) -> kill pid (World h s) = Ok (-1) (World h s)).
Proof.
  intros I Hh. split.
  - intros i p Hp Hl. rewrite kill_run by (done || apply I). by rewrite (find_pid s i p).
  - intros pid Hno. rewrite kill_run by (done || apply I). destruct (list_find _ _) as [[i p]|] eqn:F; [|done].
    apply list_find_Some in F as (Hi & Hp & _). by destruct (Hno i p Hi).
Qed.

(** Pid 0 is the pid of every unused entry: [kill(0)] returns 0 and marks
    the first unused entry as killed, and that is the entry the next
    [allocproc] takes. *)
Theorem kill_zero_hits_unused (s : kern T) h i p :
  ptable_ok (procs s) (nextpid s) (cur s) -> no_proc_lock h ->
  list_find (fun q => p_state q = UNUSED) (procs s) = Some (i, p) ->
  exists s', kill 0 (World h s) = Ok 0 (World h s') /\ p_killed (getp s' i) = true /\
    alloc_scan (seq 0 PNPROC) (World h s') = Ok (Some i) (World (proc_lock i :: h) s').
Proof.
  intros I Hh F. apply list_find_Some in F as (Hi & Hu & Hb).
  assert (list_find (fun q => p_pid q = 0) (procs s) = Some (i, p)) as F0.
  { apply list_find_Some. split_and!; [done|by apply (po_unused _ _ _ _ (pt_each _ _ _ I _ _ Hi))|].
    intros j q Hj Hlt E. pose proof (po_pid _ _ _ _ (pt_each _ _ _ I _ _ Hj) (Hb j q Hj Hlt)). lia. }
  assert (mark_killed p = set_killed true p) as Em by (unfold mark_killed; rewrite decide_False; congruence).
  exists (updp i mark_killed s). split; [by rewrite kill_run, F0 by (done || apply I)|]. pose proof (lookup_upd s i mark_killed p Hi) as Hi'.
  split; [by rewrite (getp_lookup _ _ _ Hi'), Em|].
  assert (length (procs (updp i mark_killed s)) = PNPROC) as Hl by (cbn; rewrite length_insert; apply I).
  rewrite <- Hl, (alloc_scan_run h (updp i mark_killed s) (procs (updp i mark_killed s)) 0 Hh eq_refl).
  assert (list_find (fun q => p_state q = UNUSED) (procs (updp i mark_killed s)) = Some (i, mark_killed p)) as ->; [|done].
  apply list_find_Some. split_and!; [done|by rewrite Em|]. intros j q Hj Hlt. rewrite lookup_upd_ne in Hj by lia. eauto.
Qed.

(** C23: no starvation: a process that stays RUNNABLE until the scheduler
    picks it is picked within [NPROC] turns of the scheduler's loop, wherever
    the loop stands and whatever the other processes do between turns. *)
Theorem scheduler_fair (pos : nat -> nat) (state : nat -> kern T) (pick : nat -> option nat) j :
  (forall t, length (procs (state t)) = PNPROC) -> (j < PNPROC)%nat -> (pos 0%nat <= PNPROC)%nat ->
  (forall t, turn (pos t) (state t) (pick t) /\ pos (S t) = next_pos (pick t)) ->
  (forall t, (forall u, (u < t)%nat -> pick u <> Some j) -> p_state (getp (state t) j) = RUNNABLE) ->
  exists t, (t <= PNPROC)%nat /\ pick t = Some j.
Proof.
  intros Hlen Hj Hpos Hturn Hrun.
  apply (fair_within pos state pick j PNPROC 0 Hlen Hj Hturn Hrun); [lia|done|by apply distance_bound].
Qed.
End reach.

(** ** Witnesses *)
Definition demo_fsys : fsys bst :=
  Fsys (Fst (KState ∅ 0) (Lst empty_bst demo_log1) [] (Superblock 0 0 0 0 0 0 0 0) 0 0 0 []) (replicate NFILE file0) ∅ false [].
Definition demo_kern (ps : list proc) (c : option nat) (n : Z) : kern bst := Kern demo_fsys ps c n None 0 true.
Definition demo_boot : world (kern bst) := World [] (demo_kern (replicate PNPROC proc0) None 1).
Definition after {S A} (m : M S A) (w : world S) : world S := match m w with Ok _ w' => w' | _ => w end.

Lemma no_locks : no_proc_lock [].
Proof. intros i. apply not_elem_of_nil. Qed.

Definition is_ok {S A} (x : outcome S A) : bool := match x with Ok _ _ => true | _ => false end.
Lemma after_ok {S A} (m : M S A) w : is_ok (m w) = true -> exists a, m w = Ok a (after m w).
Proof. unfold after. destruct (m w); [eauto|done|done|done]. Qed.

(** Process 3 runs; process 5 is its zombie child, process 7 waits for
    console input. *)
Definition demo_run : proc := Proc RUNNING None false 0 4 None 0 4096 0x80021000 0x80022000 (0, 0) (replicate NOFILE None) (Some 0%nat) (replicate 16 0).
Definition demo_zombie : proc := Proc ZOMBIE None false 9 5 (Some 3%nat) 0 0 0 0 (0, 0) (replicate NOFILE None) None (replicate 16 0).
Definition demo_sleeper : proc := Proc SLEEPING (Some ("cons.r"%string, 0)) false 0 6 (Some 3%nat) 0 4096 0x80023000 0x80024000 (0, 0) (replicate NOFILE None) (Some 0%nat) (replicate 16 0).
Definition demo_table : list proc := <[7%nat := demo_sleeper]> (<[5%nat := demo_zombie]> (<[3%nat := demo_run]> (replicate PNPROC proc0))).
Definition demo_state : kern bst := demo_kern demo_table (Some 3%nat) 7.

Lemma demo_base : ptable_ok (replicate PNPROC proc0) 4 (Some 3%nat).
Proof.
  split; [by rewrite length_replicate|lia| |].
  - intros i p E. apply lookup_replicate in E as [-> _]. split; unfold schedulable, live; cbn; try done; naive_solver.
  - intros i j p q E. apply lookup_replicate in E as [-> _]. done.
Qed.
Ltac demo_proc := split; unfold schedulable, live, no_files; cbn; intros; try done; try lia; try (by eexists); naive_solver.
Lemma demo_ok : ptable_ok demo_table 7 (Some 3%nat).
Proof.
  apply (ptable_new _ 6 _ 7 proc0); [|reflexivity|demo_proc|done].
  apply (ptable_new _ 5 _ 5 proc0); [|reflexivity|demo_proc|done].
  apply (ptable_new _ 4 _ 3 proc0); [exact demo_base|reflexivity|demo_proc|done].
Qed.
Lemma demo_idle : idle (Some (3%nat, demo_run)) demo_state.
Proof. split; [exact demo_ok|]. split; reflexivity. Qed.

Lemma fork_copies_witness :
  exists r w', fork 0 (World [] demo_state) = Ok r w' /\ idle (Some (3%nat, demo_run)) (st w').
Proof.
  destruct (after_ok (fork 0) (World [] demo_state)) as [r E]; [vm_compute; reflexivity|].
  exists r, (after (fork 0) (World [] demo_state)). split; [exact E|].
  exact (proj1 (fork_copies 0 3 demo_run [] demo_state r _ eq_refl demo_idle eq_refl E)).
Defined.

Lemma wait_reaps_witness :
  exists r w', wait 0 (World [] demo_state) = Ok r w' /\ wait_post 3 demo_run 0 demo_state r (st w').
Proof.
  destruct (after_ok (wait 0) (World [] demo_state)) as [r E]; [vm_compute; reflexivity|].
  exists r, (after (wait 0) (World [] demo_state)). split; [exact E|].
  exact (wait_reaps 3 demo_run 0 [] demo_state r _ eq_refl demo_idle E).
Defined.

Lemma kill_marks_witness : kill 6 (World [] demo_state) = Ok 0 (World [] (updp 7 mark_killed demo_state)).
Proof.
  destruct (kill_marks demo_state [] demo_ok no_locks) as [Hk _].
  apply (Hk 7%nat demo_sleeper); [reflexivity|discriminate].
Defined.

Lemma kill_zero_hits_unused_witness :
  exists s', kill 0 (World [] demo_state) = Ok 0 (World [] s') /\ p_killed (getp s' 0) = true.
Proof.
  destruct (kill_zero_hits_unused demo_state [] 0 proc0 demo_ok no_locks) as (s' & E & Hk & _); [reflexivity|].
  exists s'. split; [exact E|exact Hk].
Defined.

(** Processes 2 and 9 stay RUNNABLE; the loop stands behind 2. *)
Definition demo_runnable : proc := set_state RUNNABLE demo_run.
Definition demo_two : kern bst := demo_kern (<[9%nat := demo_runnable]> (<[2%nat := demo_runnable]> (replicate PNPROC proc0))) None 7.
Inductive phase : Type := At3 | At10 | At0.
Fixpoint demo_phase (t : nat) : phase := match t with O => At3 | S t => match demo_phase t with At3 => At10 | At10 => At0 | At0 => At3 end end.
Definition demo_pick (t : nat) : option nat := match demo_phase t with At3 => Some 9%nat | At10 => None | At0 => Some 2%nat end.
Definition demo_pos (t : nat) : nat := match demo_phase t with At3 => 3 | At10 => 10 | At0 => 0 end.
Lemma demo_turn t : turn (demo_pos t) demo_two (demo_pick t).
Proof.
  exists [], (after (scheduler_scan (seq (demo_pos t) (PNPROC - demo_pos t))) (World [] demo_two)). split; [exact no_locks|].
  destruct (after_ok (scheduler_scan (seq (demo_pos t) (PNPROC - demo_pos t))) (World [] demo_two)) as [r E].
  - unfold demo_pos. by destruct (demo_phase t); vm_compute.
  - rewrite E. f_equal. revert E. unfold demo_pos, demo_pick. destruct (demo_phase t).
    all: match goal with |- ?m ?w = _ -> _ => intros E; assert (match m w with Ok a _ => Some a | _ => None end = Some r) as Er by (rewrite E; reflexivity); vm_compute in Er; congruence end.
Qed.

Lemma scheduler_fair_witness : exists t, (t <= PNPROC)%nat /\ demo_pick t = Some 2%nat.
Proof.
  apply (scheduler_fair demo_pos (fun _ => demo_two) demo_pick 2).
  - intros _. reflexivity.
  - unfold PNPROC. lia.
  - vm_compute. lia.
  - intros t. split; [exact (demo_turn t)|]. unfold demo_pos, demo_pick. simpl. destruct (demo_phase t); reflexivity.
  - intros t _. reflexivity.
Defined.
