(* ===== verification/Wakeup.v ===== *)
(** * kernel/proc.c: sleep and wakeup as interleaved steps

    Any number of processes share a condition protected by a spinlock [lk]:
    a sleeper tests the condition with [lk] held and calls [sleep(chan, lk)]
    while it is false; a waker sets it with [lk] held and calls
    [wakeup(chan)] before it releases [lk], as pipes, the console, the log
    and sleeplocks do.  A step is one access to the shared state between two
    lock operations of some process; processes interleave in any order. *)

From S2P Require Import Prelude Proc.
From stdpp Require Import functions.

(** Where a process is.  The names after "at" are the next operation. *)
Inductive pc : Type :=
| Out                 (* neither sleeps nor wakes *)
| Test                (* holds lk; at the test of the condition *)
| S_acquire           (* sleep: holds lk; at acquire(&p->lock) *)
| S_release           (* holds lk and p->lock; at release(lk) *)
| S_set               (* holds p->lock; at p->chan = chan, p->state = SLEEPING *)
| S_sched             (* holds p->lock; at the switch to the scheduler, which releases it *)
| Asleep              (* SLEEPING on chan *)
| Awake               (* RUNNABLE; at the scheduler's acquire and the switch back *)
| S_tidy              (* holds p->lock; at p->chan = 0, release(&p->lock) *)
| S_again             (* at acquire(lk) *)
| Have                (* holds lk, the condition was true *)
| W_set               (* holds lk; at setting the condition *)
| W_next (n : nat)    (* wakeup: holds lk; at process n of the loop *)
| W_in (n : nat)      (* holds lk and the lock of process n *)
| W_end.              (* holds lk; at release(lk) *)

Record wst : Type := Wst {
  lk : option nat;               (* holder of the condition's lock *)
  plock : nat -> option nat;     (* holder of p->lock *)
  cond : bool;
  at_ : nat -> pc
}.

(** A process found SLEEPING on the channel is made RUNNABLE. *)
Definition woken_pc (p : pc) : pc := match p with Asleep => Awake | p => p end.

Inductive wstep (i : nat) : wst -> wst -> Prop :=
| w_begin_wait l c f : f i = Out -> wstep i (Wst None l c f) (Wst (Some i) l c (<[i := Test]> f))
| w_test_true l f : f i = Test -> wstep i (Wst (Some i) l true f) (Wst (Some i) l true (<[i := Have]> f))
| w_test_false l f : f i = Test -> wstep i (Wst (Some i) l false f) (Wst (Some i) l false (<[i := S_acquire]> f))
| w_s_acquire k l c f : f i = S_acquire -> l i = None -> wstep i (Wst k l c f) (Wst k (<[i := Some i]> l) c (<[i := S_release]> f))
| w_s_release l c f : f i = S_release -> wstep i (Wst (Some i) l c f) (Wst None l c (<[i := S_set]> f))
| w_s_set k l c f : f i = S_set -> wstep i (Wst k l c f) (Wst k l c (<[i := S_sched]> f))
| w_s_sched k l c f : f i = S_sched -> wstep i (Wst k l c f) (Wst k (<[i := None]> l) c (<[i := Asleep]> f))
| w_switch k l c f : f i = Awake -> l i = None -> wstep i (Wst k l c f) (Wst k (<[i := Some i]> l) c (<[i := S_tidy]> f))
| w_s_tidy k l c f : f i = S_tidy -> wstep i (Wst k l c f) (Wst k (<[i := None]> l) c (<[i := S_again]> f))
| w_s_again l c f : f i = S_again -> wstep i (Wst None l c f) (Wst (Some i) l c (<[i := Test]> f))
(* the condition may be consumed before lk is released *)
| w_leave l c c' f : f i = Have -> wstep i (Wst (Some i) l c f) (Wst None l (c && c') (<[i := Out]> f))
| w_begin_wake l c f : f i = Out -> wstep i (Wst None l c f) (Wst (Some i) l c (<[i := W_set]> f))
| w_set l c f : f i = W_set -> wstep i (Wst (Some i) l c f) (Wst (Some i) l true (<[i := W_next 0]> f))
| w_skip n k l c f : f i = W_next n -> n = i -> wstep i (Wst k l c f) (Wst k l c (<[i := W_next (S n)]> f))
| w_acquire n k l c f : f i = W_next n -> n <> i -> (n < PNPROC)%nat -> l n = None ->
    wstep i (Wst k l c f) (Wst k (<[n := Some i]> l) c (<[i := W_in n]> f))
| w_wake n k l c f : f i = W_in n ->
    wstep i (Wst k l c f) (Wst k (<[n := None]> l) c (<[i := W_next (S n)]> (<[n := woken_pc (f n)]> f)))
| w_done n k l c f : f i = W_next n -> (PNPROC <= n)%nat -> wstep i (Wst k l c f) (Wst k l c (<[i := W_end]> f))
| w_release l c f : f i = W_end -> wstep i (Wst (Some i) l c f) (Wst None l c (<[i := Out]> f)).

Definition wsteps (s s' : wst) : Prop := exists i, (i < PNPROC)%nat /\ wstep i s s'.

Definition holds_lk (p : pc) : bool :=
  match p with Test | S_acquire | S_release | Have | W_set | W_next _ | W_in _ | W_end => true | _ => false end.
(** Of its own lock. *)
Definition holds_own (p : pc) : bool := match p with S_release | S_set | S_sched | S_tidy => true | _ => false end.
(** On the way to sleep, having seen the condition false, with [lk] released. *)
Definition dozing (p : pc) : bool := match p with S_set | S_sched | Asleep => true | _ => false end.
(** The waker [p] will still look at process [i]. *)
Definition will_wake (p : pc) (i : nat) : Prop := match p with W_next n | W_in n => (n <= i)%nat | _ => False end.

Record winv (s : wst) : Prop := {
  wi_lk : forall i, lk s = Some i <-> holds_lk (at_ s i) = true;
  wi_own : forall i, holds_own (at_ s i) = true -> plock s i = Some i;
  wi_in : forall i n, at_ s i = W_in n -> plock s n = Some i /\ n <> i;
  wi_false : forall i, at_ s i = S_acquire \/ at_ s i = S_release -> cond s = false;
  wi_range : forall i, (PNPROC <= i)%nat -> at_ s i = Out;
  wi_wake : forall i, dozing (at_ s i) = true -> cond s = true -> exists j, will_wake (at_ s j) i
}.

(** Case analysis on which process an updated function is applied to. *)
Ltac wcases :=
  cbn [lk plock cond at_] in *;
  repeat match goal with
         | H : context [(<[?a := ?v]> ?f) ?b] |- _ =>
             destruct (decide (a = b)); [subst; rewrite fn_lookup_insert in H|rewrite (fn_lookup_insert_ne f) in H by done]
         | |- context [(<[?a := ?v]> ?f) ?b] =>
             destruct (decide (a = b)); [subst; rewrite fn_lookup_insert|rewrite (fn_lookup_insert_ne f) by done]
         end.

Lemma woken_lk p : holds_lk (woken_pc p) = holds_lk p.
Proof. by destruct p. Qed.
Lemma woken_own p : holds_own (woken_pc p) = holds_own p.
Proof. by destruct p. Qed.
Lemma woken_in p n : woken_pc p = W_in n -> p = W_in n.
Proof. by destruct p. Qed.
Lemma woken_before p : woken_pc p = S_acquire \/ woken_pc p = S_release -> p = S_acquire \/ p = S_release.
Proof. destruct p; naive_solver. Qed.

Section keep.
Context (i : nat) (s s' : wst).
Hypothesis Hi : (i < PNPROC)%nat.
Hypothesis Hstep : wstep i s s'.
Hypothesis I : winv s.

Lemma keep_lk : forall j, lk s' = Some j <-> holds_lk (at_ s' j) = true.
Proof.
  intros j. pose proof (wi_lk _ I j) as Hj. pose proof (wi_lk _ I i) as Hii. pose proof (wi_in _ I i) as Hin.
  destruct Hstep; wcases; rewrite ?woken_lk in *; repeat match goal with E : _ = _ |- _ => rewrite E in * end; cbn in *;
    try naive_solver congruence.
Qed.

Lemma keep_own : forall j, holds_own (at_ s' j) = true -> plock s' j = Some j.
Proof.
  intros j. pose proof (wi_own _ I j) as Hj. pose proof (wi_in _ I i) as Hin.
  destruct Hstep; wcases; rewrite ?woken_own in *; repeat match goal with E : _ = _ |- _ => rewrite E in * end; cbn in *;
    try naive_solver congruence.
Qed.
Lemma keep_in : forall j n, at_ s' j = W_in n -> plock s' n = Some j /\ n <> j.
Proof.
  intros j m. pose proof (wi_in _ I j m) as Hj. pose proof (wi_in _ I i) as Hin. pose proof (wi_own _ I i) as Ho.
  destruct Hstep; wcases; repeat match goal with E : at_ _ _ = _ |- _ => rewrite E in * | E : ?f ?x = _ |- _ => is_var f; rewrite E in * end; cbn in *;
    intros E; try apply woken_in in E;
    first [congruence | by apply Hj | by destruct (Hj E); split; congruence
          | by destruct (Hj E); rewrite Ho in *; congruence | by destruct (Hin _ eq_refl); destruct (Hj E); congruence
          | injection E as <-; done | done].
Qed.
Lemma keep_false : forall j, at_ s' j = S_acquire \/ at_ s' j = S_release -> cond s' = false.
Proof.
  intros j. pose proof (wi_false _ I j) as Hj. pose proof (wi_lk _ I j) as Hlj. pose proof (wi_lk _ I i) as Hli.
  destruct Hstep; wcases; intros E; try (apply woken_before in E); try (by destruct E); try (by apply Hj); try (apply Hj; by left).
  - by rewrite (Hj E).
  - assert (Some i = Some j) as [= ->] by (apply Hlj; by destruct E as [-> | ->]). done.
Qed.
Lemma keep_range : forall j, (PNPROC <= j)%nat -> at_ s' j = Out.
Proof.
  intros j Hj. pose proof (wi_range _ I j Hj) as Ho. destruct Hstep; wcases; try lia; try done. by rewrite Ho.
Qed.

(** A waker other than [i] stays a waker. *)
Lemma waker_stays j k : j <> i -> will_wake (at_ s j) k -> will_wake (at_ s' j) k.
Proof.
  intros Hne Hw. destruct Hstep; wcases; try done. by destruct (f j).
Qed.
(** When the waker [i] is past process [k], then [k] does not doze. *)
Lemma waker_steps k : will_wake (at_ s i) k -> dozing (at_ s' k) = true -> will_wake (at_ s' i) k.
Proof.
  intros Hw Hd. pose proof (wi_own _ I k) as Ho. pose proof (wi_in _ I i) as Hin. pose proof (wi_range _ I k) as Hr.
  destruct Hstep as [| | | | | | | | | | | | |n kk l c f E Hn|n kk l c f E Hn Hlt Hl|n kk l c f E|n kk l c f E Hn|]; cbn [at_ plock] in *;
    try (rewrite H in Hw; done); rewrite E in Hw; cbn in Hw; rewrite fn_lookup_insert; cbn.
  - subst n. destruct (decide (i = k)) as [->|]; [by rewrite fn_lookup_insert in Hd|lia].
  - done.
  - destruct (decide (n = k)) as [->|]; [|lia]. destruct (Hin _ E) as [Hl Hne].
    rewrite fn_lookup_insert_ne, fn_lookup_insert in Hd by done. destruct (f k); try done; specialize (Ho eq_refl); congruence.
  - destruct (decide (i = k)) as [->|]; [by rewrite fn_lookup_insert in Hd|]. rewrite fn_lookup_insert_ne in Hd by done.
    rewrite Hr in Hd by lia. done.
Qed.
(** Only a process that saw the condition false starts to doze. *)
Lemma dozing_before j : dozing (at_ s' j) = true -> cond s' = true -> dozing (at_ s j) = true.
Proof.
  intros Hd Hc. pose proof (wi_false _ I i) as Hf. destruct Hstep; wcases; try done; try (by rewrite H in * ).
  all: try (by rewrite H). { by discriminate Hf; right. } by destruct (f j).
Qed.
(** The condition is set by a process that then looks at every process. *)
Lemma cond_before : cond s' = true -> cond s = true \/ at_ s' i = W_next 0.
Proof.
  destruct Hstep; cbn; auto; try (intros ->; auto). { intros E. apply andb_true_iff in E. naive_solver. }
  intros _. right. apply fn_lookup_insert.
Qed.
Lemma keep_wake : forall j, dozing (at_ s' j) = true -> cond s' = true -> exists k, will_wake (at_ s' k) j.
Proof.
  intros j Hd Hc. destruct (cond_before Hc) as [Hc0|E]; [|exists i; rewrite E; cbn; lia].
  destruct (wi_wake _ I j (dozing_before _ Hd Hc) Hc0) as [k Hk]. exists k.
  destruct (decide (k = i)) as [->|]; [by apply waker_steps|by apply waker_stays].
Qed.
End keep.

Lemma winv_step s s' : wsteps s s' -> winv s -> winv s'.
Proof.
  intros (i & Hi & Hs) I.
  split; eauto using keep_lk, keep_own, keep_in, keep_false, keep_range, keep_wake.
Qed.
Definition all_out : wst := Wst None (fun _ => None) false (fun _ => Out).
Lemma winv_init : winv all_out.
Proof. split; cbn; try done; naive_solver. Qed.
Lemma winv_reach s : rtc wsteps all_out s -> winv s.
Proof.
  assert (forall x y, rtc wsteps x y -> winv x -> winv y) as Hr by (induction 1; eauto using winv_step).
  intros R. apply (Hr _ _ R winv_init).
Qed.

(** C24: no wakeup is lost: in any interleaving of sleepers and wakers, when
    the condition holds and no process is inside [wakeup], no process is
    asleep on the channel or on its way to sleep; and while some process is
    asleep with the condition true, a waker has still to look at it. *)
Theorem no_lost_wakeup (s : wst) :
  rtc wsteps all_out s -> cond s = true ->
  (forall i, dozing (at_ s i) = true -> exists j, will_wake (at_ s j) i) /\
  ((forall j n, at_ s j <> W_next n /\ at_ s j <> W_in n) -> forall i, dozing (at_ s i) = false).
Proof.
  intros R Hc. pose proof (winv_reach s R) as I. split; [intros i Hd; by apply (wi_wake _ I)|].
  intros Hno i. apply not_true_is_false. intros Hd. destruct (wi_wake _ I i Hd Hc) as [j Hj].
  destruct (at_ s j) as [| | | | | | | | | | | |n|n|] eqn:E; try done; by destruct (Hno j n).
Qed.

(** Process 0 goes to sleep; process 1 sets the condition and wakes it. *)
Definition demo_asleep : wst := Wst None (<[0%nat := None]> (<[0%nat := Some 0%nat]> (fun _ => None))) false
  (<[0%nat := Asleep]> (<[0%nat := S_sched]> (<[0%nat := S_set]> (<[0%nat := S_release]> (<[0%nat := S_acquire]> (<[0%nat := Test]> (fun _ => Out))))))).
Lemma no_lost_wakeup_witness :
  exists s, rtc wsteps all_out s /\ cond s = true /\ dozing (at_ s 0%nat) = true /\ exists j, will_wake (at_ s j) 0.
Proof.
  assert (rtc wsteps all_out demo_asleep) as R0.
  { eapply rtc_l; [exists 0%nat; split; [unfold PNPROC; lia|apply w_begin_wait; reflexivity]|].
    eapply rtc_l; [exists 0%nat; split; [unfold PNPROC; lia|apply w_test_false; reflexivity]|].
    eapply rtc_l; [exists 0%nat; split; [unfold PNPROC; lia|apply w_s_acquire; reflexivity]|].
    eapply rtc_l; [exists 0%nat; split; [unfold PNPROC; lia|apply w_s_release; reflexivity]|].
    eapply rtc_l; [exists 0%nat; split; [unfold PNPROC; lia|apply w_s_set; reflexivity]|].
    eapply rtc_l; [exists 0%nat; split; [unfold PNPROC; lia|apply w_s_sched; reflexivity]|]. apply rtc_refl. }
  set (s := Wst (Some 1%nat) (plock demo_asleep) true (<[1%nat := W_next 0]> (<[1%nat := W_set]> (at_ demo_asleep)))).
  assert (rtc wsteps all_out s) as R.
  { etrans; [exact R0|].
    eapply rtc_l; [exists 1%nat; split; [unfold PNPROC; lia|apply w_begin_wake; reflexivity]|].
    eapply rtc_l; [exists 1%nat; split; [unfold PNPROC; lia|apply w_set; reflexivity]|]. apply rtc_refl. }
  exists s. split; [exact R|]. split; [reflexivity|]. split; [reflexivity|].
  apply (proj1 (no_lost_wakeup s R eq_refl)). reflexivity.
Defined.
