(* ===== verification/Virtio.v ===== *)
(** * kernel/virtio_disk.c: the disk driver

    [vdisk] is the static [struct disk] together with the [disk] flags of the
    buffers and the device registers.  The address of a static object or of
    the data of a buffer, which the driver only hands to the device, is its
    name ([dma]).  Every routine runs with [vdisk_lock] held; a run of
    [virtio_disk_rw] ends where it sleeps, and the code after the [sleep] is a
    run of its own.  *)

From S2P Require Import Prelude Ring Riscv Bio.

Definition NUM : nat := 8.
Definition VRING_DESC_F_NEXT : Z := 1.
Definition VRING_DESC_F_WRITE : Z := 2.
Definition VIRTIO_BLK_T_IN : Z := 0.
Definition VIRTIO_BLK_T_OUT : Z := 1.
Definition VIRTIO_MMIO_MAGIC_VALUE : Z := 0x000.
Definition VIRTIO_MMIO_VERSION : Z := 0x004.
Definition VIRTIO_MMIO_DEVICE_ID : Z := 0x008.
Definition VIRTIO_MMIO_VENDOR_ID : Z := 0x00c.
Definition VIRTIO_MMIO_DEVICE_FEATURES : Z := 0x010.
Definition VIRTIO_MMIO_DRIVER_FEATURES : Z := 0x020.
Definition VIRTIO_MMIO_GUEST_PAGE_SIZE : Z := 0x028.
Definition VIRTIO_MMIO_QUEUE_SEL : Z := 0x030.
Definition VIRTIO_MMIO_QUEUE_NUM_MAX : Z := 0x034.
Definition VIRTIO_MMIO_QUEUE_NUM : Z := 0x038.
Definition VIRTIO_MMIO_QUEUE_PFN : Z := 0x040.
Definition VIRTIO_MMIO_QUEUE_NOTIFY : Z := 0x050.
Definition VIRTIO_MMIO_INTERRUPT_STATUS : Z := 0x060.
Definition VIRTIO_MMIO_INTERRUPT_ACK : Z := 0x064.
Definition VIRTIO_MMIO_STATUS : Z := 0x070.
Definition VIRTIO_CONFIG_S_ACKNOWLEDGE : Z := 1.
Definition VIRTIO_CONFIG_S_DRIVER : Z := 2.
Definition VIRTIO_CONFIG_S_DRIVER_OK : Z := 4.
Definition VIRTIO_CONFIG_S_FEATURES_OK : Z := 8.
Definition VIRTIO_BLK_F_RO : Z := 5.
Definition VIRTIO_BLK_F_SCSI : Z := 7.
Definition VIRTIO_BLK_F_CONFIG_WCE : Z := 11.
Definition VIRTIO_BLK_F_MQ : Z := 12.
Definition VIRTIO_F_ANY_LAYOUT : Z := 27.
Definition VIRTIO_RING_F_INDIRECT_DESC : Z := 28.
Definition VIRTIO_RING_F_EVENT_IDX : Z := 29.

(** What a descriptor points to. *)
Inductive dma : Type := ANull | AOps (i : nat) | AData (b : nat) | AStatus (i : nat).
Record virtq_desc : Type := Desc { d_addr : dma; d_len : Z; d_flags : Z; d_next : Z }.
Record virtio_blk_req : Type := BlkReq { r_type : Z; r_reserved : Z; r_sector : Z }.
Definition desc0 : virtq_desc := Desc ANull 0 0 0.
Definition blk0 : virtio_blk_req := BlkReq 0 0 0.

Record vdisk : Type := VDisk {
  desc : list virtq_desc;
  avail_idx : Z;                    (* disk.avail->idx *)
  avail_ring : list Z;
  dev_idx : Z;                      (* disk.used->idx, written by the device *)
  used_ring : list Z;               (* the id of each disk.used->ring[] *)
  vfree : list bool;
  used_idx : Z;                     (* disk.used_idx, how far the driver has looked *)
  info_b : list (option nat);
  info_status : list Z;
  vops : list virtio_blk_req;
  busy : gset nat;                  (* the buffers with b->disk == 1 *)
  vreg : Z -> Z;                    (* what a read of a device register returns *)
  vwrites : list (Z * Z);           (* register writes, latest first *)
  vwakes : list lockid
}.

Definition vdisk_lock : lockid := ("virtio_disk"%string, 0).
Definition chan_free : lockid := ("disk.free"%string, 0).
Definition chan_buf (b : nat) : lockid := ("buf"%string, Z.of_nat b).

Definition set_desc (x : list virtq_desc) (s : vdisk) : vdisk :=
  VDisk x (avail_idx s) (avail_ring s) (dev_idx s) (used_ring s) (vfree s) (used_idx s) (info_b s) (info_status s) (vops s) (busy s) (vreg s) (vwrites s) (vwakes s).
Definition set_avail (i : Z) (x : list Z) (s : vdisk) : vdisk :=
  VDisk (desc s) i x (dev_idx s) (used_ring s) (vfree s) (used_idx s) (info_b s) (info_status s) (vops s) (busy s) (vreg s) (vwrites s) (vwakes s).
Definition set_used (i : Z) (x : list Z) (s : vdisk) : vdisk :=
  VDisk (desc s) (avail_idx s) (avail_ring s) i x (vfree s) (used_idx s) (info_b s) (info_status s) (vops s) (busy s) (vreg s) (vwrites s) (vwakes s).
Definition set_free (x : list bool) (s : vdisk) : vdisk :=
  VDisk (desc s) (avail_idx s) (avail_ring s) (dev_idx s) (used_ring s) x (used_idx s) (info_b s) (info_status s) (vops s) (busy s) (vreg s) (vwrites s) (vwakes s).
Definition set_used_idx (x : Z) (s : vdisk) : vdisk :=
  VDisk (desc s) (avail_idx s) (avail_ring s) (dev_idx s) (used_ring s) (vfree s) x (info_b s) (info_status s) (vops s) (busy s) (vreg s) (vwrites s) (vwakes s).
Definition set_info (x : list (option nat)) (y : list Z) (s : vdisk) : vdisk :=
  VDisk (desc s) (avail_idx s) (avail_ring s) (dev_idx s) (used_ring s) (vfree s) (used_idx s) x y (vops s) (busy s) (vreg s) (vwrites s) (vwakes s).
Definition set_ops (x : list virtio_blk_req) (s : vdisk) : vdisk :=
  VDisk (desc s) (avail_idx s) (avail_ring s) (dev_idx s) (used_ring s) (vfree s) (used_idx s) (info_b s) (info_status s) x (busy s) (vreg s) (vwrites s) (vwakes s).
Definition set_busy (x : gset nat) (s : vdisk) : vdisk :=
  VDisk (desc s) (avail_idx s) (avail_ring s) (dev_idx s) (used_ring s) (vfree s) (used_idx s) (info_b s) (info_status s) (vops s) x (vreg s) (vwrites s) (vwakes s).

(** [*R(r) = x] and [*R(r)]. *)
Definition W (r x : Z) : M vdisk unit :=
  modify (fun s => VDisk (desc s) (avail_idx s) (avail_ring s) (dev_idx s) (used_ring s) (vfree s) (used_idx s) (info_b s) (info_status s) (vops s) (busy s) (vreg s) ((r, u32 x) :: vwrites s) (vwakes s)).
Definition R (r : Z) : M vdisk Z := gets (fun s => vreg s r).
Definition set_wakes (x : list lockid) (s : vdisk) : vdisk :=
  VDisk (desc s) (avail_idx s) (avail_ring s) (dev_idx s) (used_ring s) (vfree s) (used_idx s) (info_b s) (info_status s) (vops s) (busy s) (vreg s) (vwrites s) x.
Definition vwakeup (c : lockid) : M vdisk unit := modify (fun s => set_wakes (c :: vwakes s) s).
Definition getd (s : vdisk) (i : nat) : virtq_desc := default desc0 (desc s !! i).

(** [features &= ~(1 << bit)] *)
Definition clear_feature (bit f : Z) : Z := Z.land f (Z.lnot (Z.shiftl 1 bit)).
Definition driver_features (f : Z) : Z :=
  clear_feature VIRTIO_RING_F_INDIRECT_DESC (clear_feature VIRTIO_RING_F_EVENT_IDX (clear_feature VIRTIO_F_ANY_LAYOUT
    (clear_feature VIRTIO_BLK_F_MQ (clear_feature VIRTIO_BLK_F_CONFIG_WCE (clear_feature VIRTIO_BLK_F_SCSI (clear_feature VIRTIO_BLK_F_RO f)))))).

(** [memset(disk.pages, 0, ...)]: the descriptors and both rings. *)
Definition zero_pages (s : vdisk) : vdisk :=
  set_used 0 (replicate NUM 0) (set_avail 0 (replicate NUM 0) (set_desc (replicate NUM desc0) s)).

(** [pages] is the address of [disk.pages]. *)
Definition virtio_disk_init (pages : Z) : M vdisk unit :=
  initlock vdisk_lock;;
  magic ← R VIRTIO_MMIO_MAGIC_VALUE; version ← R VIRTIO_MMIO_VERSION; device ← R VIRTIO_MMIO_DEVICE_ID; vendor ← R VIRTIO_MMIO_VENDOR_ID;
  if negb (magic =? 0x74726976) || negb (version =? 1) || negb (device =? 2) || negb (vendor =? 0x554d4551)
  then panic "could not find virtio disk" else
  let status := VIRTIO_CONFIG_S_ACKNOWLEDGE in W VIRTIO_MMIO_STATUS status;;
  let status := Z.lor status VIRTIO_CONFIG_S_DRIVER in W VIRTIO_MMIO_STATUS status;;
  features ← R VIRTIO_MMIO_DEVICE_FEATURES;
  W VIRTIO_MMIO_DRIVER_FEATURES (driver_features features);;
  let status := Z.lor status VIRTIO_CONFIG_S_FEATURES_OK in W VIRTIO_MMIO_STATUS status;;
  let status := Z.lor status VIRTIO_CONFIG_S_DRIVER_OK in W VIRTIO_MMIO_STATUS status;;
  W VIRTIO_MMIO_GUEST_PAGE_SIZE PGSIZE;;
  W VIRTIO_MMIO_QUEUE_SEL 0;;
  max ← R VIRTIO_MMIO_QUEUE_NUM_MAX;
  if max =? 0 then panic "virtio disk has no queue 0" else
  if max <? Z.of_nat NUM then panic "virtio disk max queue too short" else
  W VIRTIO_MMIO_QUEUE_NUM (Z.of_nat NUM);;
  modify zero_pages;;
  W VIRTIO_MMIO_QUEUE_PFN (Z.shiftr pages PGSHIFT);;
  modify (set_free (replicate NUM true)).

(** The first free descriptor from index [i] on. *)
Fixpoint first_free (fr : list bool) (i : nat) : option nat :=
  match fr with [] => None | b :: fr => if b then Some i else first_free fr (S i) end.
Definition alloc_desc : M vdisk Z :=
  fr ← gets vfree;
  match first_free fr 0 with
  | Some i => modify (fun s => set_free (<[i := false]> (vfree s)) s);; mret (Z.of_nat i)
  | None => mret (-1)
  end.

Definition free_desc (i : Z) : M vdisk unit :=
  if Z.of_nat NUM <=? i then panic "free_desc 1" else
  fr ← gets (fun s => default false (vfree s !! Z.to_nat i));
  if (fr : bool) then panic "free_desc 2" else
  modify (fun s => set_desc (<[Z.to_nat i := desc0]> (desc s)) s);;
  modify (fun s => set_free (<[Z.to_nat i := true]> (vfree s)) s);;
  vwakeup chan_free.

(** A chain cannot be longer than the descriptors: freeing one twice panics. *)
Fixpoint free_chain_loop (fuel : nat) (i : Z) : M vdisk unit :=
  match fuel with
  | O => spin
  | S fuel =>
      d ← gets (fun s => getd s (Z.to_nat i));
      free_desc i;;
      if negb (Z.land (d_flags d) VRING_DESC_F_NEXT =? 0) then free_chain_loop fuel (d_next d) else mret tt
  end.
Definition free_chain (i : Z) : M vdisk unit := free_chain_loop (S NUM) i.

Fixpoint free_all (idx : list Z) : M vdisk unit :=
  match idx with [] => mret tt | i :: idx => free_desc i;; free_all idx end.
(** [n] descriptors are still to be allocated, [idx] are. *)
Fixpoint alloc3_loop (n : nat) (idx : list Z) : M vdisk (option (list Z)) :=
  match n with
  | O => mret (Some idx)
  | S n => i ← alloc_desc; if i <? 0 then free_all idx;; mret None else alloc3_loop n (idx ++ [i])
  end.
Definition alloc3_desc : M vdisk (option (list Z)) := alloc3_loop 3 [].

Definition put_desc (i : Z) (d : virtq_desc) : M vdisk unit := modify (fun s => set_desc (<[Z.to_nat i := d]> (desc s)) s).

(** Formats the chain [i0], [i1], [i2] and hands it to the device. *)
Definition submit (b : nat) (write : bool) (sector i0 i1 i2 : Z) : M vdisk unit :=
  let k := Z.to_nat i0 in
  modify (fun s => set_ops (<[k := BlkReq (if write then VIRTIO_BLK_T_OUT else VIRTIO_BLK_T_IN) 0 sector]> (vops s)) s);;
  put_desc i0 (Desc (AOps k) 16 VRING_DESC_F_NEXT (u16 i1));;
  put_desc i1 (Desc (AData b) BSIZE (Z.lor (if write then 0 else VRING_DESC_F_WRITE) VRING_DESC_F_NEXT) (u16 i2));;
  modify (fun s => set_info (info_b s) (<[k := 0xff]> (info_status s)) s);;
  put_desc i2 (Desc (AStatus k) 1 VRING_DESC_F_WRITE 0);;
  modify (fun s => set_busy ({[b]} ∪ busy s) s);;
  modify (fun s => set_info (<[k := Some b]> (info_b s)) (info_status s) s);;
  modify (fun s => set_avail (avail_idx s) (poke (Z.of_nat NUM) (avail_ring s) (avail_idx s) (u16 i0)) s);;
  modify (fun s => set_avail (u16 (avail_idx s + 1)) (avail_ring s) s);;
  W VIRTIO_MMIO_QUEUE_NOTIFY 0.

(** How a run of [virtio_disk_rw] ends: asleep on [disk.free], asleep on the
    buffer with the chain that starts at [idx0], or returned. *)
Inductive rw_end : Type := NoDesc | Waiting (idx0 : Z) | Finished.

(** The loop [while(b->disk == 1)] and what follows it; the lock is held. *)
Definition rw_wait (b : nat) (idx0 : Z) : M vdisk rw_end :=
  d ← gets (fun s => bool_decide (b ∈ busy s));
  if (d : bool) then release vdisk_lock;; mret (Waiting idx0) else
  modify (fun s => set_info (<[Z.to_nat idx0 := None]> (info_b s)) (info_status s) s);;
  free_chain idx0;;
  release vdisk_lock;;
  mret Finished.

(** [blockno] is [b->blockno]. *)
Definition virtio_disk_rw (b : nat) (blockno : Z) (write : bool) : M vdisk rw_end :=
  let sector := u32 (blockno * (BSIZE / 512)) in
  acquire vdisk_lock;;
  idx ← alloc3_desc;
  match idx with
  | Some [i0; i1; i2] => submit b write sector i0 i1 i2;; rw_wait b i0
  | _ => release vdisk_lock;; mret NoDesc
  end.
(** After the [sleep] on the buffer. *)
Definition rw_resume (b : nat) (idx0 : Z) : M vdisk rw_end := acquire vdisk_lock;; rw_wait b idx0.

(** [fuel] bounds the entries of the used ring one interrupt handles. *)
Fixpoint virtio_disk_intr_loop (fuel : nat) : M vdisk unit :=
  match fuel with
  | O => spin
  | S fuel =>
      more ← gets (fun s => negb (used_idx s =? dev_idx s));
      if (more : bool) then
        id ← gets (fun s => Z.to_nat (peek (Z.of_nat NUM) (used_ring s) (used_idx s)));
        ok ← gets (fun s => default 0 (info_status s !! id) =? 0);
        if negb ok then panic "virtio_disk_intr status" else
        b ← gets (fun s => default None (info_b s !! id));
        match b with
        | Some b => modify (fun s => set_busy (busy s ∖ {[b]}) s);; vwakeup (chan_buf b)
        | None => panic "kerneltrap"                       (* a store through a null pointer faults *)
        end;;
        modify (fun s => set_used_idx (u16 (used_idx s + 1)) s);;
        virtio_disk_intr_loop fuel
      else mret tt
  end.
Definition virtio_disk_intr : M vdisk unit :=
  acquire vdisk_lock;;
  x ← R VIRTIO_MMIO_INTERRUPT_STATUS;
  W VIRTIO_MMIO_INTERRUPT_ACK (Z.land x 3);;
  virtio_disk_intr_loop (Z.to_nat (2^16));;
  release vdisk_lock.

(** ** The driver and the device together

    The device is not part of the kernel.  What the driver relies on is the
    split virtqueue of the virtio specification (2.6): the device takes chain
    heads from the available ring in order ([fetches]), attempts the transfer
    a chain describes, in any order, stores its status, which is 0 exactly
    when the transfer was carried out, and then adds the head to the used ring
    ([completes]).  Which requests fail is up to the device. *)

Record transfer : Type := Transfer { t_write : bool; t_sector : Z; t_buf : nat }.
Record device : Type := Device {
  last_avail : Z;              (* how far it has read the available ring *)
  working : list nat;          (* heads it has taken and not completed *)
  served : list transfer;      (* the transfers it has carried out *)
  failed : list transfer       (* those it has reported as failed *)
}.

(** The request a chain describes, and where its status goes. *)
Definition decode (s : vdisk) (id : nat) : option (transfer * nat) :=
  let d0 := getd s id in
  let d1 := getd s (Z.to_nat (d_next d0)) in
  let d2 := getd s (Z.to_nat (d_next d1)) in
  match d_addr d0, d_addr d1, d_addr d2 with
  | AOps k, AData b, AStatus j =>
      let r := default blk0 (vops s !! k) in
      let write := r_type r =? VIRTIO_BLK_T_OUT in
      if (d_flags d0 =? VRING_DESC_F_NEXT) && (d_len d0 =? 16) &&
         (d_flags d1 =? Z.lor (if write then 0 else VRING_DESC_F_WRITE) VRING_DESC_F_NEXT) && (d_len d1 =? BSIZE) &&
         (d_flags d2 =? VRING_DESC_F_WRITE) && (d_len d2 =? 1)
      then Some (Transfer write (r_sector r) b, j) else None
  | _, _, _ => None
  end.

Abbreviation contents8 := (contents 16 (Z.of_nat NUM)).
Definition next_avail (d : device) (s : vdisk) : nat := Z.to_nat (peek (Z.of_nat NUM) (avail_ring s) (last_avail d)).
Definition post (id j : nat) (status : Z) (s : vdisk) : vdisk :=
  set_used (u16 (dev_idx s + 1)) (poke (Z.of_nat NUM) (used_ring s) (dev_idx s) (Z.of_nat id)) (set_info (info_b s) (<[j := status]> (info_status s)) s).
(** What the device has done once it reports [status] for the transfer [t]. *)
Definition reported (t : transfer) (status : Z) (rest : list nat) (d : device) : device :=
  if status =? 0 then Device (last_avail d) rest (t :: served d) (failed d) else Device (last_avail d) rest (served d) (t :: failed d).

Inductive fetches : device -> vdisk -> device -> vdisk -> Prop :=
| fetches_one d s : last_avail d <> avail_idx s ->
    fetches d s (Device (u16 (last_avail d + 1)) (next_avail d s :: working d) (served d) (failed d)) s.
Inductive completes : device -> vdisk -> device -> vdisk -> Prop :=
| completes_one d s id rest t j status : working d ≡ₚ id :: rest -> decode s id = Some (t, j) -> 0 <= status < 256 ->
    completes d s (reported t status rest d) (post id j status s).

(** A request in flight: a process inside [virtio_disk_rw], past the point
    where it handed its chain to the device. *)
Record req : Type := Req { q_t : transfer; q_i0 : nat; q_i1 : nat; q_i2 : nat }.
Definition req_at (s : vdisk) (t : transfer) (i0 : Z) : req :=
  let i1 := d_next (getd s (Z.to_nat i0)) in
  Req t (Z.to_nat i0) (Z.to_nat i1) (Z.to_nat (d_next (getd s (Z.to_nat i1)))).
Definition q_buf (r : req) : nat := t_buf (q_t r).
Definition ids (r : req) : list nat := [q_i0 r; q_i1 r; q_i2 r].

Record sys : Type := Sys {
  sv : vdisk;
  sd : device;
  sq : list req;                 (* requests in flight *)
  sfin : list transfer           (* requests whose virtio_disk_rw has returned *)
}.

Section system.
Context (dev_step : device -> vdisk -> device -> vdisk -> Prop).

(** Processes, interrupts and the device interleave; a buffer handed to
    [virtio_disk_rw] is not in flight, as its sleeplock is held. *)
Inductive vstep : sys -> sys -> Prop :=
| v_start b bn wr i0 v v' d q f :
    b ∉ q_buf <$> q -> virtio_disk_rw b bn wr (World [] v) = Ok (Waiting i0) (World [] v') ->
    vstep (Sys v d q f) (Sys v' d (req_at v' (Transfer wr (u32 (bn * (BSIZE / 512))) b) i0 :: q) f)
| v_full b bn wr v v' d q f :
    b ∉ q_buf <$> q -> virtio_disk_rw b bn wr (World [] v) = Ok NoDesc (World [] v') -> vstep (Sys v d q f) (Sys v' d q f)
| v_again r i0 v v' d q f :
    r ∈ q -> rw_resume (q_buf r) (Z.of_nat (q_i0 r)) (World [] v) = Ok (Waiting i0) (World [] v') -> vstep (Sys v d q f) (Sys v' d q f)
| v_done r v v' d q q' f :
    q ≡ₚ r :: q' -> rw_resume (q_buf r) (Z.of_nat (q_i0 r)) (World [] v) = Ok Finished (World [] v') ->
    vstep (Sys v d q f) (Sys v' d q' (q_t r :: f))
| v_intr v v' d q f : virtio_disk_intr (World [] v) = Ok tt (World [] v') -> vstep (Sys v d q f) (Sys v' d q f)
| v_dev v v' d d' q f : dev_step d v d' v' -> vstep (Sys v d q f) (Sys v' d' q f).

(** After [virtio_disk_init]. *)
Definition boot (s : sys) : Prop :=
  exists pages v0, length (info_b v0) = NUM /\ length (info_status v0) = NUM /\ length (vops v0) = NUM /\ used_idx v0 = 0 /\ busy v0 = ∅ /\
    virtio_disk_init pages (World [] v0) = Ok tt (World [] (sv s)) /\ sd s = Device 0 [] [] [] /\ sq s = [] /\ sfin s = [].
Definition vreach (s : sys) : Prop := exists s0, boot s0 /\ rtc vstep s0 s.
End system.
