(* ===== verification/VirtioProps.v ===== *)
(** * Theorems on the disk driver

    Descriptors are shared by at most the requests in flight, every request
    handed to the device is carried out exactly once before its
    [virtio_disk_rw] returns, and the only panic of the driver that an
    interleaving of processes, interrupts and the device can reach is the one
    on a request that the device reports as failed. *)

From S2P Require Import Prelude Ring Riscv Bio Hoare Virtio.

(** ** Termination of [free_chain]

    Each turn frees a descriptor that was in use, or panics. *)
Definition in_use (fr : list bool) : nat := length (filter (fun b => b = false) fr).

Lemma in_use_free fr i : fr !! i = Some false -> in_use fr = S (in_use (<[i := true]> fr)).
Proof.
  unfold in_use. revert i. induction fr as [|b fr IH]; intros [|i] E; [done..| |].
  - injection E as ->. change (<[0%nat := true]> (false :: fr)) with (true :: fr). by rewrite filter_cons_True, filter_cons_False.
  - change (<[S i := true]> (b :: fr)) with (b :: <[i := true]> fr).
    destruct b; [rewrite !filter_cons_False by done|rewrite !filter_cons_True by done; cbn [length]; f_equal]; by apply IH.
Qed.

Lemma free_desc_case i h s :
  (exists msg, free_desc i (World h s) = Panic msg) \/
  exists s', free_desc i (World h s) = Ok tt (World h s') /\ vfree s' = <[Z.to_nat i := true]> (vfree s) /\
    default false (vfree s !! Z.to_nat i) = false /\ i < Z.of_nat NUM.
Proof.
  unfold free_desc. destruct (Z.leb_spec (Z.of_nat NUM) i); [by left; eexists|]. cbn -[NUM].
  unfold mbind, M_bind, gets. cbn -[NUM]. destruct (default false (vfree s !! Z.to_nat i)) eqn:E; [by left; eexists|]. right. by eexists.
Qed.

Lemma free_chain_loop_ends fuel i h s :
  length (vfree s) = NUM -> (in_use (vfree s) < fuel)%nat -> free_chain_loop fuel i (World h s) <> Spin.
Proof.
  revert i s. induction fuel as [|fuel IH]; intros i s Hl Hf; [lia|]. cbn [free_chain_loop]. rewrite gets_run.
  destruct (free_desc_case i h s) as [[msg E]|(s' & E & Hs & Hi & Hlt)]; [by rewrite (bind_panic _ _ _ _ E)|].
  rewrite (bind_run _ _ _ _ _ E). destruct (negb _); [|done].
  assert (vfree s !! Z.to_nat i = Some false) as Hi'.
  { destruct (vfree s !! Z.to_nat i) eqn:E'; [by cbn in Hi; subst|]. apply lookup_ge_None in E'. change NUM with 8%nat in *. lia. }
  apply IH; rewrite Hs; [by rewrite length_insert|]. rewrite (in_use_free _ _ Hi') in Hf. lia.
Qed.

Lemma in_use_le fr : (in_use fr <= length fr)%nat.
Proof. apply length_filter. Qed.

(** [free_chain] terminates, however the chain is linked, cyclic ones
    included: the loop, which the code leaves only at a descriptor without a
    successor, makes at most one turn for each of the [NUM] descriptors. *)
Theorem free_chain_terminates i h s : length (vfree s) = NUM -> free_chain i (World h s) <> Spin.
Proof. intros Hl. apply free_chain_loop_ends; [done|]. pose proof (in_use_le (vfree s)). lia. Qed.

(** ** The invariant *)

Record formatted (v : vdisk) (r : req) : Prop := {
  fm_lt : Forall (fun i => (i < NUM)%nat) (ids r);
  fm_0 : desc v !! q_i0 r = Some (Desc (AOps (q_i0 r)) 16 VRING_DESC_F_NEXT (Z.of_nat (q_i1 r)));
  fm_1 : desc v !! q_i1 r = Some (Desc (AData (q_buf r)) BSIZE (Z.lor (if t_write (q_t r) then 0 else VRING_DESC_F_WRITE) VRING_DESC_F_NEXT) (Z.of_nat (q_i2 r)));
  fm_2 : desc v !! q_i2 r = Some (Desc (AStatus (q_i0 r)) 1 VRING_DESC_F_WRITE 0);
  fm_op : vops v !! q_i0 r = Some (BlkReq (if t_write (q_t r) then VIRTIO_BLK_T_OUT else VIRTIO_BLK_T_IN) 0 (t_sector (q_t r)));
  fm_info : info_b v !! q_i0 r = Some (Some (q_buf r))
}.

Record sized (v : vdisk) : Prop := {
  sz_desc : length (desc v) = NUM;
  sz_avail : length (avail_ring v) = NUM;
  sz_used : length (used_ring v) = NUM;
  sz_free : length (vfree v) = NUM;
  sz_infob : length (info_b v) = NUM;
  sz_status : length (info_status v) = NUM;
  sz_ops : length (vops v) = NUM
}.

Definition in16 (z : Z) : Prop := 0 <= z < 2^16.
Definition heads (q : list req) : list Z := (fun r => Z.of_nat (q_i0 r)) <$> q.

(** The requests in flight are those still in the available ring ([qa]), in
    the device ([qw]), in the used ring ([qu]) and those whose buffer the
    interrupt handler has released ([qd]). *)
Record vinv (s : sys) (qa qw qu qd : list req) : Prop := {
  vi_sized : sized (sv s);
  vi_perm : sq s ≡ₚ qa ++ qw ++ qu ++ qd;
  vi_nodup : NoDup (concat (ids <$> sq s));
  vi_free : forall i, (i < NUM)%nat -> vfree (sv s) !! i = Some (bool_decide (i ∉ concat (ids <$> sq s)));
  vi_zero : forall i, vfree (sv s) !! i = Some true -> desc (sv s) !! i = Some desc0;
  vi_req : Forall (formatted (sv s)) (sq s);
  vi_bufs : NoDup (q_buf <$> sq s);
  vi_busy : busy (sv s) = list_to_set (q_buf <$> qa ++ qw ++ qu);
  vi_range : Forall in16 [avail_idx (sv s); dev_idx (sv s); used_idx (sv s); last_avail (sd s)];
  vi_avail : contents8 (avail_ring (sv s)) (last_avail (sd s)) (avail_idx (sv s)) = heads qa;
  vi_work : working (sd s) ≡ₚ q_i0 <$> qw;
  vi_used : contents8 (used_ring (sv s)) (used_idx (sv s)) (dev_idx (sv s)) = heads qu;
  vi_stat : exists qok qbad, qu ≡ₚ qok ++ qbad /\
    Forall (fun r => info_status (sv s) !! q_i0 r = Some 0) qok /\
    Forall (fun r => exists st, info_status (sv s) !! q_i0 r = Some st /\ st <> 0) qbad /\
    served (sd s) ≡ₚ sfin s ++ (q_t <$> qok ++ qd) /\ failed (sd s) ≡ₚ q_t <$> qbad
}.

Lemma getd_eq v i d : desc v !! i = Some d -> getd v i = d.
Proof. unfold getd. by intros ->. Qed.

Lemma formatted_decode v r : formatted v r -> decode v (q_i0 r) = Some (q_t r, q_i0 r).
Proof.
  intros F. unfold decode. rewrite (getd_eq _ _ _ (fm_0 _ _ F)). cbn [d_next d_addr d_flags d_len]. rewrite Nat2Z.id, (getd_eq _ _ _ (fm_1 _ _ F)).
  cbn [d_next d_addr d_flags d_len]. rewrite Nat2Z.id, (getd_eq _ _ _ (fm_2 _ _ F)). cbn [d_next d_addr d_flags d_len].
  rewrite (fm_op _ _ F). unfold q_buf. by destruct r as [[[] ? ?] ? ? ?].
Qed.

Lemma length_concat_ids q : length (concat (ids <$> q)) = (3 * length q)%nat.
Proof. induction q as [|r q IH]; [done|]. cbn [fmap list_fmap concat]. rewrite length_app, IH. cbn. lia. Qed.

Lemma elem_ids i q : i ∈ concat (ids <$> q) <-> exists r, r ∈ q /\ i ∈ ids r.
Proof.
  induction q as [|r q IH]; cbn [fmap list_fmap concat]; [split; [by intros ?%elem_of_nil|by intros (? & ?%elem_of_nil & _)]|].
  rewrite elem_of_app, IH. split.
  - intros [Hi|(r' & ? & ?)]; [exists r|exists r']; rewrite elem_of_cons; auto.
  - intros (r' & [-> | Hr]%elem_of_cons & Hi); [by left|right; eauto].
Qed.

Lemma ids_i0 r : q_i0 r ∈ ids r.
Proof. unfold ids. set_solver. Qed.

(** At most two requests are in flight: three descriptors each, of eight. *)
Lemma in_flight_two s qa qw qu qd : vinv s qa qw qu qd -> (length (sq s) <= 2)%nat.
Proof.
  intros I. assert (length (concat (ids <$> sq s)) <= length (seq 0 NUM))%nat as Hle.
  { apply submseteq_length, NoDup_submseteq; [apply (vi_nodup _ _ _ _ _ I)|]. intros i (r & Hr & Hi)%elem_ids. apply elem_of_seq.
    pose proof (vi_req _ _ _ _ _ I) as HF. rewrite Forall_forall in HF. pose proof (fm_lt _ _ (HF r Hr)) as Hlt. rewrite Forall_forall in Hlt. specialize (Hlt i Hi). lia. }
  rewrite length_concat_ids, length_seq in Hle. change NUM with 8%nat in Hle. lia.
Qed.

(** ** Runs of the operations *)

Lemma first_free_spec fr i k : first_free fr i = Some k -> (i <= k)%nat /\ fr !! (k - i)%nat = Some true.
Proof.
  revert i. induction fr as [|b fr IH]; intros i E; [done|]. cbn [first_free] in E. destruct b.
  - injection E as <-. split; [lia|]. by rewrite Nat.sub_diag.
  - apply IH in E as [Hle Hk]. split; [lia|]. replace (k - i)%nat with (S (k - S i)) by lia. done.
Qed.

Lemma alloc_desc_cases h v :
  (exists i, vfree v !! i = Some true /\ alloc_desc (World h v) = Ok (Z.of_nat i) (World h (set_free (<[i := false]> (vfree v)) v))) \/
  alloc_desc (World h v) = Ok (-1) (World h v).
Proof.
  unfold alloc_desc. rewrite gets_run. destruct (first_free (vfree v) 0) as [i|] eqn:E; [left|by right].
  apply first_free_spec in E as [_ Hi]. rewrite Nat.sub_0_r in Hi. by exists i.
Qed.

Lemma set_free_same v : set_free (vfree v) v = v.
Proof. by destruct v. Qed.

(** Freeing a descriptor that was just allocated undoes the allocation. *)
Lemma free_desc_undo h v i :
  length (vfree v) = NUM -> vfree v !! i = Some true -> desc v !! i = Some desc0 ->
  free_desc (Z.of_nat i) (World h (set_free (<[i := false]> (vfree v)) v)) = Ok tt (World h (set_wakes (chan_free :: vwakes v) v)).
Proof.
  intros Hl Hf Hd. pose proof (lookup_lt_Some _ _ _ Hf) as Hi. unfold free_desc. destruct (Z.leb_spec (Z.of_nat NUM) (Z.of_nat i)); [lia|].
  rewrite gets_run. cbn [vfree set_free]. rewrite Nat2Z.id, list_lookup_insert_eq by done. cbn [default from_option id].
  rewrite !modify_run. unfold vwakeup, modify. cbn. rewrite list_insert_insert_eq, (list_insert_id _ _ _ Hf), (list_insert_id _ _ _ Hd). by destruct v.
Qed.

Lemma alloc3_cases h v :
  sized v -> (forall i, vfree v !! i = Some true -> desc v !! i = Some desc0) ->
  (exists i0 i1 i2, NoDup [i0; i1; i2] /\ Forall (fun i => vfree v !! i = Some true) [i0; i1; i2] /\
     alloc3_desc (World h v) = Ok (Some [Z.of_nat i0; Z.of_nat i1; Z.of_nat i2]) (World h (set_free (<[i2 := false]> (<[i1 := false]> (<[i0 := false]> (vfree v)))) v))) \/
  (exists ws, alloc3_desc (World h v) = Ok None (World h (set_wakes ws v))).
Proof.
  intros Hs Hz. pose proof (sz_free _ Hs) as Hl. unfold alloc3_desc. cbn [alloc3_loop].
  destruct (alloc_desc_cases h v) as [(i0 & H0 & E0)|E0]; rewrite (bind_run _ _ _ _ _ E0); [|right; exists (vwakes v); by destruct v].
  destruct (Z.ltb_spec (Z.of_nat i0) 0) as [?|_]; [lia|]. pose proof (lookup_lt_Some _ _ _ H0) as L0.
  destruct (alloc_desc_cases h (set_free (<[i0 := false]> (vfree v)) v)) as [(i1 & H1 & E1)|E1]; rewrite (bind_run _ _ _ _ _ E1).
  2:{ right. eexists. cbn [app free_all Z.ltb Z.compare]. rewrite bind_assoc. rewrite (bind_run _ _ _ _ _ (free_desc_undo h v i0 Hl H0 (Hz _ H0))). done. }
  cbn [vfree set_free] in H1, E1 |- *. destruct (Z.ltb_spec (Z.of_nat i1) 0) as [?|_]; [lia|].
  assert (i0 <> i1) as N01 by (intros ->; rewrite list_lookup_insert_eq in H1; done). rewrite list_lookup_insert_ne in H1 by done.
  destruct (alloc_desc_cases h (set_free (<[i1 := false]> (<[i0 := false]> (vfree v))) (set_free (<[i0 := false]> (vfree v)) v))) as [(i2 & H2 & E2)|E2];
    rewrite (bind_run _ _ _ _ _ E2).
  2:{ right. eexists. cbn [app free_all Z.ltb Z.compare]. rewrite bind_assoc. rewrite list_insert_insert_ne by done.
      rewrite (bind_run _ _ _ _ _ (free_desc_undo h (set_free (<[i1 := false]> (vfree v)) v) i0 ltac:(by cbn; rewrite length_insert) ltac:(by cbn; rewrite list_lookup_insert_ne) (Hz _ H0))).
      rewrite bind_assoc.
      rewrite (bind_run _ _ _ _ _ (free_desc_undo h (set_wakes (chan_free :: vwakes v) v) i1 Hl H1 (Hz _ H1))). done. }
  cbn [vfree set_free] in H2, E2 |- *. destruct (Z.ltb_spec (Z.of_nat i2) 0) as [?|_]; [lia|]. left. exists i0, i1, i2.
  assert (i1 <> i2) as N12 by (intros ->; rewrite list_lookup_insert_eq in H2; [done|rewrite length_insert; apply (lookup_lt_Some _ _ _ H1)]).
  rewrite list_lookup_insert_ne in H2 by done.
  assert (i0 <> i2) as N02 by (intros ->; rewrite list_lookup_insert_eq in H2; done). rewrite list_lookup_insert_ne in H2 by done.
  split_and!; [|by repeat constructor|done].
  repeat constructor; rewrite ?elem_of_cons, ?elem_of_nil; naive_solver.
Qed.

Definition chain_desc (b : nat) (wr : bool) (i0 i1 i2 : nat) (ds : list virtq_desc) : list virtq_desc :=
  <[i2 := Desc (AStatus i0) 1 VRING_DESC_F_WRITE 0]>
    (<[i1 := Desc (AData b) BSIZE (Z.lor (if wr then 0 else VRING_DESC_F_WRITE) VRING_DESC_F_NEXT) (Z.of_nat i2)]>
      (<[i0 := Desc (AOps i0) 16 VRING_DESC_F_NEXT (Z.of_nat i1)]> ds)).
Definition submitted (b : nat) (wr : bool) (sector : Z) (i0 i1 i2 : nat) (v : vdisk) : vdisk :=
  VDisk (chain_desc b wr i0 i1 i2 (desc v)) (u16 (avail_idx v + 1)) (poke (Z.of_nat NUM) (avail_ring v) (avail_idx v) (Z.of_nat i0))
    (dev_idx v) (used_ring v) (<[i2 := false]> (<[i1 := false]> (<[i0 := false]> (vfree v)))) (used_idx v)
    (<[i0 := Some b]> (info_b v)) (<[i0 := 0xff]> (info_status v))
    (<[i0 := BlkReq (if wr then VIRTIO_BLK_T_OUT else VIRTIO_BLK_T_IN) 0 sector]> (vops v)) ({[b]} ∪ busy v) (vreg v)
    ((VIRTIO_MMIO_QUEUE_NOTIFY, 0) :: vwrites v) (vwakes v).

Lemma u16_nat i : (i < NUM)%nat -> u16 (Z.of_nat i) = Z.of_nat i.
Proof. intros Hi. unfold u16. apply Z.mod_small. change NUM with 8%nat in Hi. lia. Qed.

Lemma submit_run h v b wr sector i0 i1 i2 :
  Forall (fun i => (i < NUM)%nat) [i0; i1; i2] ->
  submit b wr sector (Z.of_nat i0) (Z.of_nat i1) (Z.of_nat i2) (World h (set_free (<[i2 := false]> (<[i1 := false]> (<[i0 := false]> (vfree v)))) v)) =
  Ok tt (World h (submitted b wr sector i0 i1 i2 v)).
Proof.
  intros HF. inversion_clear HF as [|? ? L0 HF']. inversion_clear HF' as [|? ? L1 HF]. inversion_clear HF as [|? ? L2 _].
  unfold submit, put_desc. rewrite !Nat2Z.id, !u16_nat by done. reflexivity.
Qed.

Lemma rw_cases h v b bn wr :
  vdisk_lock ∉ h -> sized v -> (forall i, vfree v !! i = Some true -> desc v !! i = Some desc0) ->
  (exists i0 i1 i2, NoDup [i0; i1; i2] /\ Forall (fun i => vfree v !! i = Some true) [i0; i1; i2] /\
     virtio_disk_rw b bn wr (World h v) = Ok (Waiting (Z.of_nat i0)) (World h (submitted b wr (u32 (bn * (BSIZE / 512))) i0 i1 i2 v))) \/
  (exists ws, virtio_disk_rw b bn wr (World h v) = Ok NoDesc (World h (set_wakes ws v))).
Proof.
  intros Hh Hs Hz. unfold virtio_disk_rw. rewrite acquire_run by done.
  destruct (alloc3_cases (vdisk_lock :: h) v Hs Hz) as [(i0 & i1 & i2 & Hn & HF & E)|(ws & E)]; rewrite (bind_run _ _ _ _ _ E).
  - left. exists i0, i1, i2. split_and!; [done..|].
    assert (Forall (fun i => (i < NUM)%nat) [i0; i1; i2]) as HL.
    { eapply Forall_impl; [exact HF|]. intros i Hi. rewrite <- (sz_free _ Hs). exact (lookup_lt_Some _ _ _ Hi). }
    rewrite (bind_run _ _ _ _ _ (submit_run _ _ b wr _ _ _ _ HL)). unfold rw_wait. rewrite gets_run. cbn [busy submitted].
    rewrite bool_decide_true by set_solver. by rewrite release_run.
  - right. exists ws. by rewrite release_run.
Qed.

(** What a request relies on in the driver's memory. *)
Lemma formatted_ext v v' r :
  (forall i, i ∈ ids r -> desc v' !! i = desc v !! i) -> vops v' !! q_i0 r = vops v !! q_i0 r -> info_b v' !! q_i0 r = info_b v !! q_i0 r ->
  formatted v r -> formatted v' r.
Proof.
  intros Hd Ho Hi [? F0 F1 F2 ? ?]. unfold ids in Hd.
  split; [done|rewrite <- F0|rewrite <- F1|rewrite <- F2|congruence|congruence]; apply Hd; set_solver.
Qed.

Lemma chain_desc_other b wr i0 i1 i2 ds i : (i ∉ [i0; i1; i2]) -> chain_desc b wr i0 i1 i2 ds !! i = ds !! i.
Proof. rewrite !not_elem_of_cons. intros (? & ? & ? & _). unfold chain_desc. by rewrite !list_lookup_insert_ne. Qed.

Lemma submitted_formatted v b wr sector i0 i1 i2 :
  sized v -> NoDup [i0; i1; i2] -> Forall (fun i => (i < NUM)%nat) [i0; i1; i2] ->
  formatted (submitted b wr sector i0 i1 i2 v) (Req (Transfer wr sector b) i0 i1 i2).
Proof.
  intros Hs Hn HF. pose proof (sz_desc _ Hs) as Hd. pose proof (sz_ops _ Hs) as Ho. pose proof (sz_infob _ Hs) as Hb.
  inversion_clear HF as [|? ? L0 HF']. inversion_clear HF' as [|? ? L1 HF]. inversion_clear HF as [|? ? L2 _].
  rewrite !NoDup_cons, !not_elem_of_cons in Hn. destruct Hn as ((N01 & N02 & _) & (N12 & _) & _).
  split; cbn [submitted desc vops info_b q_t q_i0 q_i1 q_i2 q_buf t_buf t_write t_sector ids]; unfold chain_desc.
  - unfold ids; rewrite !Forall_cons; auto.
  - by rewrite !list_lookup_insert_ne, list_lookup_insert_eq by (congruence || lia).
  - by rewrite list_lookup_insert_ne, list_lookup_insert_eq by (rewrite ?length_insert; congruence || lia).
  - by rewrite list_lookup_insert_eq by (rewrite !length_insert; lia).
  - by rewrite list_lookup_insert_eq by lia.
  - by rewrite list_lookup_insert_eq by lia.
Qed.

(** ** Every step keeps the invariant *)

Section keep_start.
Context (v : vdisk) (d : device) (q : list req) (f : list transfer) (qa qw qu qd : list req).
Hypothesis I : vinv (Sys v d q f) qa qw qu qd.
Context (b : nat) (wr : bool) (sector : Z) (i0 i1 i2 : nat).
Hypothesis Hb : b ∉ q_buf <$> q.
Hypothesis Hn : NoDup [i0; i1; i2].
Hypothesis HF : Forall (fun i => vfree v !! i = Some true) [i0; i1; i2].

Lemma new_lt : Forall (fun i => (i < NUM)%nat) [i0; i1; i2].
Proof using I HF.
  eapply Forall_impl; [exact HF|]. intros i Hi. rewrite <- (sz_free _ (vi_sized _ _ _ _ _ I)). exact (lookup_lt_Some _ _ _ Hi).
Qed.
Lemma new_fresh i : i ∈ [i0; i1; i2] -> i ∉ concat (ids <$> q).
Proof using I HF.
  intros Hi. pose proof HF as HF'. pose proof new_lt as HL. rewrite Forall_forall in HF', HL.
  pose proof (vi_free _ _ _ _ _ I i (HL i Hi)) as Hf. cbn [sv sq] in Hf. rewrite (HF' i Hi) in Hf. injection Hf as Hf.
  by symmetry in Hf; apply bool_decide_eq_true in Hf.
Qed.
Lemma new_other r i : r ∈ q -> i ∈ ids r -> i ∉ [i0; i1; i2].
Proof using I HF. intros Hr Hi Hin. apply (new_fresh i Hin), elem_ids. eauto. Qed.
Lemma new_other_head r : r ∈ q -> i0 <> q_i0 r.
Proof using I HF. clear Hb Hn. intros Hr E. apply (new_other r (q_i0 r) Hr (ids_i0 r)). rewrite <- E. set_solver. Qed.

Lemma start_free i :
  (i < NUM)%nat -> <[i2 := false]> (<[i1 := false]> (<[i0 := false]> (vfree v))) !! i = Some (bool_decide (i ∉ [i0; i1; i2] ++ concat (ids <$> q))).
Proof using I HF.
  clear Hb Hn. intros Hi. pose proof (vi_free _ _ _ _ _ I i Hi) as Hf. cbn [sv sq] in Hf. pose proof (sz_free _ (vi_sized _ _ _ _ _ I)) as Hl. cbn [sv] in Hl.
  destruct (decide (i = i2)) as [->|N2]; [rewrite list_lookup_insert_eq by (rewrite !length_insert; lia); f_equal; symmetry; apply bool_decide_eq_false; set_solver|].
  rewrite list_lookup_insert_ne by done.
  destruct (decide (i = i1)) as [->|N1]; [rewrite list_lookup_insert_eq by (rewrite !length_insert; lia); f_equal; symmetry; apply bool_decide_eq_false; set_solver|].
  rewrite list_lookup_insert_ne by done.
  destruct (decide (i = i0)) as [->|N0]; [rewrite list_lookup_insert_eq by lia; f_equal; symmetry; apply bool_decide_eq_false; set_solver|].
  rewrite list_lookup_insert_ne by done. rewrite Hf. f_equal. apply bool_decide_ext. set_solver.
Qed.

Lemma start_sized : sized (submitted b wr sector i0 i1 i2 v).
Proof using I.
  destruct (vi_sized _ _ _ _ _ I). cbn [sv] in *. split; cbn [submitted desc avail_ring used_ring vfree info_b info_status vops]; unfold chain_desc, poke; rewrite ?length_insert; done.
Qed.

Lemma start_avail :
  contents8 (poke (Z.of_nat NUM) (avail_ring v) (avail_idx v) (Z.of_nat i0)) (last_avail d) (u16 (avail_idx v + 1)) = heads qa ++ [Z.of_nat i0].
Proof using I.
  pose proof (in_flight_two _ _ _ _ _ I) as H2. pose proof (f_equal length (vi_avail _ _ _ _ _ I)) as Hl. cbn [sv sd sq] in *.
  rewrite length_contents in Hl. unfold heads in Hl. rewrite length_fmap in Hl.
  pose proof (Permutation_length (vi_perm _ _ _ _ _ I)) as Hp. cbn [sq] in Hp. rewrite length_app in Hp.
  change (u16 (avail_idx v + 1)) with (wrap 16 (avail_idx v + 1)). rewrite contents_push; [|done|done|by exists 8192|apply (sz_avail _ (vi_sized _ _ _ _ _ I))|].
  - f_equal. apply (vi_avail _ _ _ _ _ I).
  - change (Z.of_nat NUM) with 8. lia.
Qed.

Lemma keep_start : vinv (Sys (submitted b wr sector i0 i1 i2 v) d (Req (Transfer wr sector b) i0 i1 i2 :: q) f) (qa ++ [Req (Transfer wr sector b) i0 i1 i2]) qw qu qd.
Proof using I Hb Hn HF.
  pose proof I as J. destruct J as [Hs Hp Hnd Hf Hz Hr Hbs Hbu Hra Ha Hw Hu Hst]. cbn [sv sd sq sfin] in *.
  assert (Hsub : forall r, r ∈ qu -> r ∈ q) by (intros r Hin; rewrite Hp; set_solver).
  split; cbn [sv sd sq sfin]; try done.
  - apply start_sized.
  - rewrite Hp, <- app_assoc. cbn. apply Permutation_middle.
  - cbn [fmap list_fmap concat]. apply NoDup_app. split_and!; [exact Hn|intros i Hi; by apply new_fresh|done].
  - apply start_free.
  - intros i Hi. cbn [vfree submitted] in Hi. assert ((i < NUM)%nat) as Hlt by (rewrite <- (sz_free _ start_sized); exact (lookup_lt_Some _ _ _ Hi)).
    rewrite start_free in Hi by done. assert (i ∉ [i0; i1; i2] ++ concat (ids <$> q)) as [Hi1 Hi2]%not_elem_of_app by (injection Hi as Hi%bool_decide_eq_true; exact Hi).
    cbn [desc submitted]. rewrite chain_desc_other by done. apply Hz. rewrite Hf by done. f_equal. by apply bool_decide_eq_true_2.
  - apply Forall_cons. split; [apply submitted_formatted; [done..|apply new_lt]|]. rewrite Forall_forall in Hr |- *. intros r Hin.
    apply (formatted_ext v); [|cbn; by rewrite list_lookup_insert_ne by (by apply new_other_head)..|by apply Hr].
    intros i Hi. cbn. apply chain_desc_other. by apply (new_other r).
  - rewrite fmap_cons. by apply NoDup_cons.
  - cbn [busy submitted]. rewrite Hbu. clear. rewrite !fmap_app, !list_to_set_app_L. cbn [fmap list_fmap list_to_set q_buf q_t t_buf]. set_solver.
  - cbn [avail_idx dev_idx used_idx submitted]. rewrite !Forall_cons in Hra |- *. split; [apply Z.mod_pos_bound; lia|]. naive_solver.
  - cbn [avail_ring avail_idx submitted]. rewrite start_avail. unfold heads. by rewrite fmap_app.
  - destruct Hst as (qok & qbad & Hq & Hok & Hbad & Hse & Hfa). exists qok, qbad. rewrite Forall_forall in Hok, Hbad.
    assert (forall r, r ∈ qok ++ qbad -> i0 <> q_i0 r) as Hne by (intros r Hin; apply new_other_head, Hsub; by rewrite Hq).
    split_and!; [done| | |done|done]; apply Forall_forall; intros r Hin; cbn; rewrite list_lookup_insert_ne by (apply Hne, elem_of_app; auto); auto.
Qed.
End keep_start.

(** A state that differs in nothing the invariant reads. *)
Lemma vinv_wakes v ws d q f qa qw qu qd : vinv (Sys v d q f) qa qw qu qd -> vinv (Sys (set_wakes ws v) d q f) qa qw qu qd.
Proof.
  intros [[] ? ? ? ? Hr ? ? ? ? ? ? ?]. split; try done. eapply Forall_impl; [exact Hr|]. intros r. by apply formatted_ext.
Qed.
Lemma vinv_perm v d q q' f qa qw qu qd : q ≡ₚ q' -> vinv (Sys v d q f) qa qw qu qd -> vinv (Sys v d q' f) qa qw qu qd.
Proof.
  intros Hq [? Hp Hnd Hf ? Hr Hb ? ? ? ? ? ?]. cbn [sv sd sq sfin] in *. split; cbn [sv sd sq sfin]; try done.
  - by rewrite <- Hq.
  - by rewrite <- Hq.
  - intros i Hi. rewrite Hf by done. f_equal. apply bool_decide_ext. by rewrite Hq.
  - by rewrite <- Hq.
  - by rewrite <- Hq.
Qed.

Lemma ring16 : 0 < Z.of_nat NUM /\ Z.of_nat NUM < 2^16 /\ (Z.of_nat NUM | 2^16).
Proof. split_and!; [done..|by exists 8192]. Qed.

Lemma head_cons l q z rest : l = heads q -> l = z :: rest -> exists r q', q = r :: q' /\ z = Z.of_nat (q_i0 r) /\ rest = heads q'.
Proof. intros -> E. destruct q as [|r q']; [done|]. injection E as <- <-. eauto. Qed.

Lemma keep_fetch v d q f qa qw qu qd :
  vinv (Sys v d q f) qa qw qu qd -> last_avail d <> avail_idx v ->
  exists qa' qw', vinv (Sys v (Device (u16 (last_avail d + 1)) (next_avail d v :: working d) (served d) (failed d)) q f) qa' qw' qu qd.
Proof.
  intros I Hne. pose proof ring16 as (R1 & R2 & R3). destruct I as [Hs Hp Hnd Hf Hz Hr Hbs Hbu Hra Ha Hw Hu Hst]. cbn [sv sd sq sfin] in *.
  pose proof Hra as Hra'. rewrite !Forall_cons in Hra'. destruct Hra' as (Ra & _ & _ & Rl & _). unfold in16 in *.
  assert (0 < count 16 (last_avail d) (avail_idx v)) as Hc.
  { pose proof (count_range 16 (Z.of_nat NUM) R1 R2 (last_avail d) (avail_idx v)). pose proof (empty_test 16 (Z.of_nat NUM) R1 R2 _ _ Rl Ra) as Et. lia. }
  rewrite (contents_pop 16 (Z.of_nat NUM) R1 R2 R3) in Ha by exact Hc.
  destruct (head_cons _ _ _ _ Ha eq_refl) as (r & qa' & -> & Hi & Hrest). exists qa', (r :: qw).
  split; cbn [sv sd sq sfin last_avail working served]; try done.
  - rewrite Hp. cbn. apply Permutation_middle.
  - rewrite Hbu. clear. rewrite !fmap_app, !list_to_set_app_L. cbn [fmap list_fmap list_to_set]. set_solver.
  - rewrite !Forall_cons in Hra |- *. unfold in16 in *. split_and!; try apply Hra. all: apply Z.mod_pos_bound; lia.
  - unfold next_avail. rewrite Hi, Nat2Z.id. cbn. by constructor.
Qed.

Lemma reported_eq t status rest d : last_avail (reported t status rest d) = last_avail d /\ working (reported t status rest d) = rest.
Proof. unfold reported. by destruct (status =? 0). Qed.
(** A descriptor heads one request only. *)
Lemma heads_distinct r r' q1 q2 : NoDup (concat (ids <$> r :: q1 ++ q2)) -> r' ∈ q2 -> q_i0 r' <> q_i0 r.
Proof.
  cbn [fmap list_fmap concat]. rewrite fmap_app, concat_app. intros (_ & Hd & _)%NoDup_app Hr' E. apply (Hd (q_i0 r) (ids_i0 r)).
  apply elem_of_app. right. apply elem_ids. exists r'. split; [done|]. rewrite <- E. apply ids_i0.
Qed.
(** The requests in the used ring after one more is reported. *)
Lemma stat_reported v d r status rest f qu qd :
  (q_i0 r < length (info_status v))%nat -> (forall r', r' ∈ qu -> q_i0 r' <> q_i0 r) ->
  (exists qok qbad, qu ≡ₚ qok ++ qbad /\ Forall (fun r => info_status v !! q_i0 r = Some 0) qok /\
     Forall (fun r => exists st, info_status v !! q_i0 r = Some st /\ st <> 0) qbad /\
     served d ≡ₚ f ++ (q_t <$> qok ++ qd) /\ failed d ≡ₚ q_t <$> qbad) ->
  exists qok qbad, qu ++ [r] ≡ₚ qok ++ qbad /\ Forall (fun r0 => info_status (post (q_i0 r) (q_i0 r) status v) !! q_i0 r0 = Some 0) qok /\
     Forall (fun r0 => exists st, info_status (post (q_i0 r) (q_i0 r) status v) !! q_i0 r0 = Some st /\ st <> 0) qbad /\
     served (reported (q_t r) status rest d) ≡ₚ f ++ (q_t <$> qok ++ qd) /\ failed (reported (q_t r) status rest d) ≡ₚ q_t <$> qbad.
Proof.
  intros Hlt Hdist (qok & qbad & Hq & Hok & Hbad & Hse & Hfa). rewrite Forall_forall in Hok, Hbad.
  assert (forall r', r' ∈ qok ++ qbad -> info_status (post (q_i0 r) (q_i0 r) status v) !! q_i0 r' = info_status v !! q_i0 r') as Hsame.
  { intros r' Hr'. cbn. apply list_lookup_insert_ne. intros E. apply (Hdist r'); [by rewrite Hq|done]. }
  assert (info_status (post (q_i0 r) (q_i0 r) status v) !! q_i0 r = Some status) as Hr by (cbn; by apply list_lookup_insert_eq).
  assert (Forall (fun r0 => info_status (post (q_i0 r) (q_i0 r) status v) !! q_i0 r0 = Some 0) qok) as Hok'
    by (apply Forall_forall; intros r' Hr'; rewrite Hsame by (apply elem_of_app; auto); auto).
  assert (Forall (fun r0 => exists st, info_status (post (q_i0 r) (q_i0 r) status v) !! q_i0 r0 = Some st /\ st <> 0) qbad) as Hbad'
    by (apply Forall_forall; intros r' Hr'; rewrite Hsame by (apply elem_of_app; auto); auto).
  unfold reported. destruct (Z.eqb_spec status 0) as [->|Hne]; cbn [served failed].
  - exists (r :: qok), qbad. split_and!; [by rewrite Hq, <- Permutation_cons_append|by constructor|done| |done].
    rewrite Hse. cbn. by rewrite Permutation_middle.
  - exists qok, (r :: qbad). split_and!; [by rewrite Hq, <- Permutation_cons_append, Permutation_middle|done|constructor; eauto|done|].
    rewrite Hfa. done.
Qed.

Lemma keep_complete v d q f qa qw qu qd id rest t j status :
  vinv (Sys v d q f) qa qw qu qd -> working d ≡ₚ id :: rest -> decode v id = Some (t, j) ->
  exists qw' qu', vinv (Sys (post id j status v) (reported t status rest d) q f) qa qw' qu' qd.
Proof.
  intros I Hid Hdec. pose proof ring16 as (R1 & R2 & R3). pose proof (in_flight_two _ _ _ _ _ I) as H2.
  destruct I as [Hs Hp Hnd Hf Hz Hr Hbs Hbu Hra Ha Hw Hu Hst]. cbn [sv sd sq sfin] in *.
  assert (id ∈ q_i0 <$> qw) as (r & -> & Hin)%list_elem_of_fmap by (rewrite <- Hw, Hid; set_solver).
  apply elem_of_Permutation in Hin as [qw' Hqw].
  assert (r ∈ q) as Hrq by (rewrite Hp, Hqw; set_solver). pose proof Hr as Hr'. rewrite Forall_forall in Hr'.
  rewrite (formatted_decode _ _ (Hr' r Hrq)) in Hdec. injection Hdec as <- <-. exists qw', (qu ++ [r]).
  assert (sq_len : (length qu <= 2)%nat) by (apply Permutation_length in Hp; rewrite !length_app in Hp; lia).
  pose proof (sz_status _ Hs) as Hls. assert ((q_i0 r < NUM)%nat) as Hlt.
  { pose proof (fm_lt _ _ (Hr' r Hrq)) as HL. unfold ids in HL. rewrite Forall_cons in HL. apply HL. }
  assert (forall r', r' ∈ qu -> q_i0 r' <> q_i0 r) as Hdist.
  { intros r' Hr'' E. rewrite Hp, Hqw in Hnd. apply (heads_distinct r r' (qa ++ qw') (qu ++ qd)); [|set_solver|done].
    by rewrite <- app_assoc, Permutation_middle. }
  destruct (reported_eq (q_t r) status rest d) as (Er1 & Er2).
  split; cbn [sv sd sq sfin]; rewrite ?Er1, ?Er2; try done.
  - destruct Hs. split; cbn; unfold poke; by rewrite ?length_insert.
  - rewrite Hp, Hqw. clear. rewrite <- !app_assoc. cbn. apply Permutation_app_head. rewrite app_assoc, Permutation_middle, <- app_assoc. done.
  - eapply Forall_impl; [exact Hr|]. intros r'. by apply formatted_ext.
  - cbn. rewrite Hbu. rewrite Hqw. clear. rewrite !fmap_app, !list_to_set_app_L. cbn [fmap list_fmap list_to_set]. set_solver.
  - cbn. rewrite !Forall_cons in Hra |- *. split_and!; try apply Hra. all: apply Z.mod_pos_bound; lia.
  - apply (Permutation_cons_inv (a := q_i0 r)). by rewrite <- Hid, Hw, Hqw.
  - cbn. change (u16 (dev_idx v + 1)) with (wrap 16 (dev_idx v + 1)).
    rewrite (contents_push 16 (Z.of_nat NUM) R1 R2 R3); [rewrite Hu; unfold heads; by rewrite fmap_app|apply (sz_used _ Hs)|].
    apply (f_equal length) in Hu. rewrite length_contents in Hu. unfold heads in Hu. rewrite length_fmap in Hu. change (Z.of_nat NUM) with 8. lia.
  - apply (stat_reported v d r status rest f qu qd); [lia|done|done].
Qed.

Definition released (qu : list req) (v : vdisk) : vdisk := set_busy (busy v ∖ list_to_set (q_buf <$> qu)) (set_used_idx (dev_idx v) v).

(** One turn of the handler's loop. *)
Definition turned (r : req) (v : vdisk) : vdisk :=
  set_used_idx (u16 (used_idx v + 1)) (set_wakes (chan_buf (q_buf r) :: vwakes v) (set_busy (busy v ∖ {[q_buf r]}) v)).
Lemma intr_turn fuel h v r :
  (used_idx v =? dev_idx v) = false -> peek (Z.of_nat NUM) (used_ring v) (used_idx v) = Z.of_nat (q_i0 r) ->
  info_status v !! q_i0 r = Some 0 -> info_b v !! q_i0 r = Some (Some (q_buf r)) ->
  virtio_disk_intr_loop (S fuel) (World h v) = virtio_disk_intr_loop fuel (World h (turned r v)).
Proof.
  intros Hne Hp Es Eb. cbn [virtio_disk_intr_loop]. rewrite gets_run, Hne. cbn [negb]. rewrite gets_run, Hp, Nat2Z.id, gets_run, Es.
  cbn [default from_option id Z.eqb negb]. rewrite gets_run, Eb. cbn [default from_option id]. unfold vwakeup.
  rewrite bind_assoc, modify_run. cbv beta. by rewrite !modify_run.
Qed.
Lemma vdisk_ext v v' :
  desc v = desc v' -> avail_idx v = avail_idx v' -> avail_ring v = avail_ring v' -> dev_idx v = dev_idx v' -> used_ring v = used_ring v' ->
  vfree v = vfree v' -> used_idx v = used_idx v' -> info_b v = info_b v' -> info_status v = info_status v' -> vops v = vops v' ->
  busy v = busy v' -> vreg v = vreg v' -> vwrites v = vwrites v' -> vwakes v = vwakes v' -> v = v'.
Proof. destruct v, v'. cbn. by intros -> -> -> -> -> -> -> -> -> -> -> -> -> ->. Qed.
Lemma released_turned ws r qu v : set_wakes ws (released qu (turned r v)) = set_wakes ws (released (r :: qu) v).
Proof. apply vdisk_ext; try reflexivity. change (busy v ∖ {[q_buf r]} ∖ list_to_set (q_buf <$> qu) = busy v ∖ ({[q_buf r]} ∪ list_to_set (q_buf <$> qu))). apply difference_difference_l_L. Qed.
Lemma released_nil v : used_idx v = dev_idx v -> released [] v = v.
Proof. intros E. apply vdisk_ext; try reflexivity; [by symmetry|]. apply difference_empty_L. Qed.

Lemma intr_loop_run fuel qu v h :
  contents8 (used_ring v) (used_idx v) (dev_idx v) = heads qu -> in16 (used_idx v) -> in16 (dev_idx v) ->
  Forall (fun r => info_status v !! q_i0 r = Some 0 /\ info_b v !! q_i0 r = Some (Some (q_buf r))) qu -> (length qu < fuel)%nat ->
  exists ws, virtio_disk_intr_loop fuel (World h v) = Ok tt (World h (set_wakes ws (released qu v))).
Proof.
  pose proof ring16 as (R1 & R2 & R3). revert qu v. induction fuel as [|fuel IH]; intros qu v Hc Hu Hd HF Hfu; [lia|].
  pose proof (f_equal length Hc) as Hl. rewrite length_contents in Hl. unfold heads in Hl. rewrite length_fmap in Hl.
  pose proof (count_range 16 (Z.of_nat NUM) R1 R2 (used_idx v) (dev_idx v)) as Hcr.
  pose proof (empty_test 16 (Z.of_nat NUM) R1 R2 _ _ Hu Hd) as Et. destruct qu as [|r qu]; cbn [length] in Hl, Hfu.
  - assert (used_idx v = dev_idx v) as E0 by lia. exists (vwakes v). cbn [virtio_disk_intr_loop]. rewrite gets_run, E0, Z.eqb_refl, released_nil by done. by destruct v.
  - assert ((used_idx v =? dev_idx v) = false) as Hne by lia.
    rewrite (contents_pop 16 (Z.of_nat NUM) R1 R2 R3) in Hc by lia. injection Hc as Hp Hc. apply Forall_cons in HF as [[Es Eb] HF].
    rewrite (intr_turn _ _ _ _ Hne Hp Es Eb). destruct (IH qu (turned r v)) as [ws E]; [exact Hc|apply Z.mod_pos_bound; lia|exact Hd|exact HF|lia|].
    exists ws. by rewrite E, released_turned.
Qed.

(** A failed request in the used ring stops the handler. *)
Lemma intr_loop_panics fuel qu v h :
  contents8 (used_ring v) (used_idx v) (dev_idx v) = heads qu -> in16 (used_idx v) -> in16 (dev_idx v) ->
  Forall (fun r => is_Some (info_status v !! q_i0 r) /\ info_b v !! q_i0 r = Some (Some (q_buf r))) qu -> (length qu < fuel)%nat ->
  Exists (fun r => exists st, info_status v !! q_i0 r = Some st /\ st <> 0) qu ->
  virtio_disk_intr_loop fuel (World h v) = Panic "virtio_disk_intr status".
Proof.
  pose proof ring16 as (R1 & R2 & R3). revert qu v. induction fuel as [|fuel IH]; intros qu v Hc Hu Hd HF Hfu Hex; [lia|].
  pose proof (f_equal length Hc) as Hl. rewrite length_contents in Hl. unfold heads in Hl. rewrite length_fmap in Hl.
  pose proof (count_range 16 (Z.of_nat NUM) R1 R2 (used_idx v) (dev_idx v)) as Hcr.
  pose proof (empty_test 16 (Z.of_nat NUM) R1 R2 _ _ Hu Hd) as Et. destruct qu as [|r qu]; [by inversion Hex|]. cbn [length] in Hl, Hfu.
  assert ((used_idx v =? dev_idx v) = false) as Hne by lia.
  rewrite (contents_pop 16 (Z.of_nat NUM) R1 R2 R3) in Hc by lia. injection Hc as Hp Hc. apply Forall_cons in HF as [[[st Es] Eb] HF].
  destruct (decide (st = 0)) as [->|Hst].
  - rewrite (intr_turn _ _ _ _ Hne Hp Es Eb). apply (IH qu (turned r v)); [exact Hc|apply Z.mod_pos_bound; lia|exact Hd|exact HF|lia|].
    apply Exists_cons in Hex as [(st & Es' & ?)|Hex]; [congruence|exact Hex].
  - cbn [virtio_disk_intr_loop]. rewrite gets_run, Hne. cbn [negb]. rewrite gets_run, Hp, Nat2Z.id, gets_run, Es. cbn [default from_option id].
    by destruct (Z.eqb_spec st 0).
Qed.

Lemma not_busy_done v d q f qa qw qu qd r : vinv (Sys v d q f) qa qw qu qd -> r ∈ q -> q_buf r ∉ busy v -> r ∈ qd.
Proof.
  intros I Hr Hb. pose proof (vi_busy _ _ _ _ _ I) as Eb. pose proof (vi_perm _ _ _ _ _ I) as Hp. cbn [sv sq] in Eb, Hp. rewrite Eb in Hb. rewrite Hp in Hr.
  rewrite elem_of_list_to_set, list_elem_of_fmap in Hb. rewrite !elem_of_app in Hr. destruct Hr as [Hr|[Hr|[Hr|Hr]]]; [exfalso; apply Hb; exists r..|done].
  all: split; [done|set_solver].
Qed.

Lemma intr_busy (qa qw qu qd : list req) :
  NoDup (q_buf <$> qa ++ qw ++ qu ++ qd) ->
  list_to_set (C := gset nat) (q_buf <$> qa ++ qw ++ qu) ∖ list_to_set (q_buf <$> qu) = list_to_set (q_buf <$> qa ++ qw ++ []).
Proof.
  rewrite !fmap_app, app_nil_r, !list_to_set_app_L. intros Hn.
  assert (forall x, (x ∈ q_buf <$> qa) \/ (x ∈ q_buf <$> qw) -> (x ∉ q_buf <$> qu)) as Hd.
  { intros x Hx Hu. rewrite app_assoc in Hn. apply NoDup_app in Hn as (_ & Hd & _). apply (Hd x); rewrite elem_of_app; tauto. }
  apply set_eq. intros x. rewrite !elem_of_difference, !elem_of_union, !elem_of_list_to_set. specialize (Hd x). tauto.
Qed.

Lemma intr_panics v d q f qa qw qu qd h :
  vdisk_lock ∉ h -> vinv (Sys v d q f) qa qw qu qd -> failed d <> [] -> virtio_disk_intr (World h v) = Panic "virtio_disk_intr status".
Proof.
  intros Hh I Hfail. pose proof (in_flight_two _ _ _ _ _ I) as H2. destruct I as [Hs Hp Hnd Hf Hz Hr Hbs Hbu Hra Ha Hw Hu Hst]. cbn [sv sd sq sfin] in *.
  rewrite !Forall_cons in Hra. destruct Hra as (_ & Rd & Ru & _ & _).
  assert (length qu <= 2)%nat as Hl by (apply Permutation_length in Hp; rewrite !length_app in Hp; lia).
  destruct Hst as (qok & qbad & Hq & Hok & Hbad & _ & Hfa). rewrite Forall_forall in Hok, Hbad, Hr.
  unfold virtio_disk_intr, R, W. rewrite acquire_run, gets_run, modify_run by done. apply bind_panic, (intr_loop_panics _ qu); [exact Hu|exact Ru|exact Rd| |lia|].
  - apply Forall_forall. intros r Hin. cbn [info_status info_b]. split; [|apply fm_info, Hr; rewrite Hp; set_solver]. rewrite Hq in Hin.
    apply elem_of_app in Hin as [Hin|Hin]; [eexists; by apply Hok|destruct (Hbad r Hin) as (st & ? & _); eauto].
  - destruct qbad as [|r qbad]; [by apply Permutation_nil_r in Hfa|]. apply Exists_exists. exists r. split; [rewrite Hq; set_solver|]. apply Hbad. left.
Qed.

Lemma keep_intr v d q f qa qw qu qd h :
  vdisk_lock ∉ h -> vinv (Sys v d q f) qa qw qu qd -> failed d = [] ->
  exists v', virtio_disk_intr (World h v) = Ok tt (World h v') /\ vinv (Sys v' d q f) qa qw [] (qu ++ qd).
Proof.
  intros Hh I Hnof. pose proof (in_flight_two _ _ _ _ _ I) as H2. destruct I as [Hs Hp Hnd Hf Hz Hr Hbs Hbu Hra Ha Hw Hu Hst]. cbn [sv sd sq sfin] in *.
  pose proof Hra as Hra'. rewrite !Forall_cons in Hra'. destruct Hra' as (_ & Rd & Ru & _ & _).
  destruct Hst as (qok & qbad & Hq & Hok & _ & Hse & Hfa). rewrite Hnof in Hfa. symmetry in Hfa. apply Permutation_nil_r, fmap_nil_inv in Hfa as ->. rewrite app_nil_r in Hq.
  assert (length qu <= 2)%nat as Hl by (apply Permutation_length in Hp; rewrite !length_app in Hp; lia).
  unfold virtio_disk_intr, R, W. rewrite acquire_run, gets_run, modify_run by done.
  match goal with |- context [World (vdisk_lock :: h) ?x] => destruct (intr_loop_run (Z.to_nat (2^16)) qu x (vdisk_lock :: h)) as [ws E]; [exact Hu|exact Ru|exact Rd| |lia|] end.
  { cbn [info_status info_b]. apply Forall_and. split; [by rewrite Hq|]. rewrite Forall_forall in Hr |- *. intros r Hin. apply fm_info, Hr. rewrite Hp. set_solver. }
  rewrite (bind_run _ _ _ _ _ E), release_last by done. eexists. split; [done|]. apply vinv_wakes.
  split; cbn [sv sd sq sfin released set_busy set_used_idx desc avail_ring used_ring vfree info_b info_status vops busy avail_idx dev_idx used_idx]; try done.
  - by destruct Hs.
  - eapply Forall_impl; [exact Hr|]. intros r. by apply formatted_ext.
  - rewrite Hbu. apply (intr_busy _ _ _ qd). by rewrite <- Hp.
  - rewrite !Forall_cons in Hra |- *. split_and!; apply Hra.
  - by rewrite contents_same.
  - exists [], []. rewrite Hnof, Hse, Hq. by split_and!.
Qed.

(** ** The end of a request *)

Definition zero_desc (i : nat) (v : vdisk) : vdisk :=
  set_wakes (chan_free :: vwakes v) (set_free (<[i := true]> (vfree v)) (set_desc (<[i := desc0]> (desc v)) v)).
Lemma free_desc_run h v i :
  (i < NUM)%nat -> vfree v !! i = Some false -> free_desc (Z.of_nat i) (World h v) = Ok tt (World h (zero_desc i v)).
Proof.
  intros Hi Hf. unfold free_desc. destruct (Z.leb_spec (Z.of_nat NUM) (Z.of_nat i)); [lia|]. by rewrite gets_run, Nat2Z.id, Hf.
Qed.

(** One turn of [free_chain] at a descriptor with a successor. *)
Lemma free_chain_next fuel h v i a n fl j :
  (i < NUM)%nat -> vfree v !! i = Some false -> desc v !! i = Some (Desc a n fl (Z.of_nat j)) -> Z.land fl VRING_DESC_F_NEXT <> 0 ->
  free_chain_loop (S fuel) (Z.of_nat i) (World h v) = free_chain_loop fuel (Z.of_nat j) (World h (zero_desc i v)).
Proof.
  intros Hi Hf Hd Hfl. cbn [free_chain_loop]. rewrite gets_run, Nat2Z.id, (getd_eq _ _ _ Hd), (bind_run _ _ _ _ _ (free_desc_run h v i Hi Hf)).
  cbn [d_flags d_next]. by destruct (Z.eqb_spec (Z.land fl VRING_DESC_F_NEXT) 0).
Qed.

Definition ended (r : req) (v : vdisk) : vdisk :=
  zero_desc (q_i2 r) (zero_desc (q_i1 r) (zero_desc (q_i0 r) (set_info (<[q_i0 r := None]> (info_b v)) (info_status v) v))).

Lemma resume_done h v r :
  vdisk_lock ∉ h -> formatted v r -> NoDup (ids r) -> Forall (fun i => vfree v !! i = Some false) (ids r) -> q_buf r ∉ busy v ->
  rw_resume (q_buf r) (Z.of_nat (q_i0 r)) (World h v) = Ok Finished (World h (ended r v)).
Proof.
  intros Hh [HL F0 F1 F2 Fo Fi] Hn HF Hb. unfold ids in *. rewrite !Forall_cons in HF, HL. destruct HL as (L0 & L1 & L2 & _), HF as (H0 & H1 & H2 & _).
  rewrite !NoDup_cons, !not_elem_of_cons in Hn. destruct Hn as ((N01 & N02 & _) & (N12 & _) & _).
  unfold rw_resume, rw_wait. rewrite acquire_run, gets_run, bool_decide_false by done. rewrite modify_run, Nat2Z.id. unfold free_chain.
  erewrite (bind_run (free_chain_loop _ _)); [by rewrite release_run|].
  change (S NUM) with 9%nat. erewrite free_chain_next; [|exact L0|exact H0|exact F0|done].
  erewrite free_chain_next; [|exact L1|by cbn; rewrite list_lookup_insert_ne|cbn; rewrite list_lookup_insert_ne by done; exact F1|by destruct (t_write (q_t r))].
  cbn [free_chain_loop]. rewrite gets_run, Nat2Z.id. erewrite getd_eq; [|cbn; rewrite !list_lookup_insert_ne by done; exact F2].
  erewrite (bind_run (free_desc _)); [|apply free_desc_run; [exact L2|cbn; rewrite !list_lookup_insert_ne by done; exact H2]]. done.
Qed.

Lemma insert3_lookup {A} (l : list A) (x : A) a b c i :
  (i < length l)%nat -> <[a := x]> (<[b := x]> (<[c := x]> l)) !! i = if decide (i ∈ [c; b; a]) then Some x else l !! i.
Proof.
  intros Hi. destruct (decide (i = a)) as [->|Na]; [|destruct (decide (i = b)) as [->|Nb]; [|destruct (decide (i = c)) as [->|Nc]]];
    rewrite ?list_lookup_insert_ne by done; rewrite ?list_lookup_insert_eq by (by rewrite ?length_insert).
  all: try (rewrite decide_True by (rewrite !elem_of_cons; auto); done).
  rewrite decide_False; [done|]. rewrite !elem_of_cons. by intros [?|[?|[?|?%elem_of_nil]]].
Qed.

Section keep_done.
Context (v : vdisk) (d : device) (r : req) (q : list req) (f : list transfer) (qa qw qu qd : list req).
Hypothesis I : vinv (Sys v d (r :: q) f) qa qw qu qd.

Lemma done_split : NoDup (ids r) /\ (forall i, i ∈ ids r -> i ∉ concat (ids <$> q)) /\ NoDup (concat (ids <$> q)).
Proof using I. pose proof (vi_nodup _ _ _ _ _ I) as Hn. cbn [sq fmap list_fmap concat] in Hn. by apply NoDup_app in Hn. Qed.

Lemma done_in_use : Forall (fun i => vfree v !! i = Some false) (ids r).
Proof using I.
  apply Forall_forall. intros i Hi. pose proof (vi_req _ _ _ _ _ I) as Hr. cbn [sq sv] in Hr. apply Forall_cons in Hr as [Hr _].
  pose proof (fm_lt _ _ Hr) as HL. rewrite Forall_forall in HL. pose proof (vi_free _ _ _ _ _ I i (HL i Hi)) as E. cbn [sv sq] in E. rewrite E. f_equal.
  apply bool_decide_eq_false. intros Hni. apply Hni, elem_ids. exists r. split; [by left|done].
Qed.

Lemma keep_done qd' : qd ≡ₚ r :: qd' -> vinv (Sys (ended r v) d q (q_t r :: f)) qa qw qu qd'.
Proof using I.
  intros Hqd. pose proof done_split as (Hn & Hdis & Hnq). destruct I as [Hs Hp Hnd Hf Hz Hr Hbs Hbu Hra Ha Hw Hu Hst]. cbn [sv sd sq sfin] in *.
  pose proof (sz_desc _ Hs) as Ld. pose proof (sz_free _ Hs) as Lf. apply Forall_cons in Hr as [_ Hr]. rewrite fmap_cons in Hbs.
  assert (Ef : forall i, (i < NUM)%nat -> vfree (ended r v) !! i = Some (bool_decide (i ∉ concat (ids <$> q)))).
  { intros i Hi. cbn. rewrite insert3_lookup by lia. destruct (decide _) as [Hin|Hin]; [f_equal; symmetry; apply bool_decide_eq_true_2; by apply Hdis|].
    rewrite Hf by done. f_equal. apply bool_decide_ext. cbn [fmap list_fmap concat]. rewrite elem_of_app. fold (ids r) in Hin. tauto. }
  split; cbn [sv sd sq sfin]; try done.
  - destruct Hs. split; cbn; by rewrite ?length_insert.
  - apply (Permutation_cons_inv (a := r)). rewrite Hp, Hqd. by rewrite !app_assoc, <- Permutation_middle.
  - intros i Hi. assert ((i < NUM)%nat) as Hlt by (apply lookup_lt_Some in Hi; cbn in Hi; rewrite !length_insert in Hi; lia).
    cbn. rewrite insert3_lookup by lia. destruct (decide _) as [Hin|Hin]; [done|]. apply Hz. cbn in Hi. rewrite insert3_lookup in Hi by lia. by rewrite decide_False in Hi.
  - rewrite Forall_forall in Hr |- *. intros r' Hin. assert (forall i, i ∈ ids r' -> i ∉ ids r) as Hne.
    { intros i Hi' Hi. apply (Hdis i Hi), elem_ids. eauto. }
    apply (formatted_ext v); [|done| |by apply Hr].
    + intros i Hi. pose proof (fm_lt _ _ (Hr r' Hin)) as HL. rewrite Forall_forall in HL. specialize (HL i Hi). cbn. rewrite insert3_lookup by lia.
      by rewrite decide_False by (by apply Hne).
    + cbn. apply list_lookup_insert_ne. intros E. apply (Hne (q_i0 r') (ids_i0 r')). rewrite <- E. apply ids_i0.
  - by apply NoDup_cons in Hbs as [_ ?].
  - destruct Hst as (qok & qbad & Hq & Hok & Hbad & Hse & Hfa). exists qok, qbad. split_and!; [done|done|done| |done].
    rewrite Hse, Hqd. clear. rewrite !fmap_app, !fmap_cons. rewrite app_assoc, <- Permutation_middle. cbn. by rewrite <- app_assoc.
Qed.
End keep_done.

(** ** Reachable states *)

Definition pre_init (v : vdisk) : Prop :=
  length (info_b v) = NUM /\ length (info_status v) = NUM /\ length (vops v) = NUM /\ used_idx v = 0 /\ busy v = ∅.
Definition zeroed (v : vdisk) : Prop :=
  pre_init v /\ desc v = replicate NUM desc0 /\ avail_idx v = 0 /\ avail_ring v = replicate NUM 0 /\ dev_idx v = 0 /\ used_ring v = replicate NUM 0.

Lemma t_W r x : triple pre_init (W r x) (fun _ => pre_init).
Proof. by apply t_modify. Qed.
Lemma t_W' r x : triple zeroed (W r x) (fun _ => zeroed).
Proof. by apply t_modify. Qed.
Lemma t_zero_pages : triple pre_init (modify zero_pages) (fun _ => zeroed).
Proof. apply t_modify. intros s Hs. by repeat split; try apply Hs. Qed.
Lemma t_R {B} P r (k : Z -> M vdisk B) Q : (forall x, triple P (k x) Q) -> triple P (R r ≫= k) Q.
Proof. intros Hk. apply t_read. intros x. eapply t_pre; [apply Hk|]. by intros s [_ ?]. Qed.
#[local] Hint Resolve t_W t_W' t_zero_pages : hoare.

Lemma t_virtio_disk_init pages : triple pre_init (virtio_disk_init pages) (fun _ v => zeroed v /\ vfree v = replicate NUM true).
Proof.
  unfold virtio_disk_init. t_skip. do 4 (apply t_R; intros ?). destruct (_ || _); [apply t_panic|]. do 2 t_skip. apply t_R. intros ?. do 5 t_skip.
  apply t_R. intros ?. destruct (_ =? 0); [apply t_panic|]. destruct (_ <? _); [apply t_panic|]. do 3 t_skip. by apply t_modify.
Qed.

Lemma vboot_inv s : boot s -> vinv s [] [] [] [].
Proof.
  intros (pages & v0 & Hb & Hst & Ho & Hu & Hbu & E & Ed & Eq & Ef). destruct s as [v d q f]. cbn [sv sd sq sfin] in *. subst.
  apply (t_virtio_disk_init pages [] v0) in E as [((Hb' & Hs' & Ho' & Hu' & Hbu') & Ed & Ea & Er & Ei & Eu) Ef]; [|by repeat split]. cbn [st] in *.
  split; cbn [sv sd sq sfin last_avail working served]; try done; rewrite ?Ef, ?Ed, ?Ea, ?Er, ?Ei, ?Eu, ?Hu'.
  - split; by rewrite ?Ed, ?Er, ?Eu, ?Ef.
  - apply NoDup_nil_2.
  - intros i Hi. by apply lookup_replicate.
  - intros i [_ Hi]%lookup_replicate. by apply lookup_replicate.
  - apply NoDup_nil_2.
  - unfold in16. rewrite !Forall_cons. split_and!; (done || lia || constructor).
  - done.
  - done.
  - by exists [], [].
Qed.

Section reach.
Context (dev_step : device -> vdisk -> device -> vdisk -> Prop).
Hypothesis dev_ok : forall d v d' v', dev_step d v d' v' -> fetches d v d' v' \/ completes d v d' v'.

Definition good (s : sys) : Prop := exists qa qw qu qd, vinv s qa qw qu qd.

Lemma req_at_submitted v wr sector b i0 i1 i2 :
  sized v -> NoDup [i0; i1; i2] -> Forall (fun i => (i < NUM)%nat) [i0; i1; i2] ->
  req_at (submitted b wr sector i0 i1 i2 v) (Transfer wr sector b) (Z.of_nat i0) = Req (Transfer wr sector b) i0 i1 i2.
Proof.
  intros Hs Hn HL. pose proof (submitted_formatted v b wr sector i0 i1 i2 Hs Hn HL) as [_ F0 F1 _ _ _]. cbn [q_i0 q_i1] in F0, F1.
  unfold req_at. rewrite !Nat2Z.id, (getd_eq _ _ _ F0). cbn [d_next]. rewrite Nat2Z.id, (getd_eq _ _ _ F1). cbn [d_next]. by rewrite Nat2Z.id.
Qed.

Lemma resume_waits h v b i0 : vdisk_lock ∉ h -> b ∈ busy v -> rw_resume b i0 (World h v) = Ok (Waiting i0) (World h v).
Proof. intros Hh Hb. unfold rw_resume, rw_wait. rewrite acquire_run, gets_run, bool_decide_true by done. by rewrite release_run. Qed.

Lemma resume_finishes h v d r q f qa qw qu qd :
  vdisk_lock ∉ h -> vinv (Sys v d (r :: q) f) qa qw qu qd -> q_buf r ∉ busy v ->
  rw_resume (q_buf r) (Z.of_nat (q_i0 r)) (World h v) = Ok Finished (World h (ended r v)).
Proof.
  intros Hh I Hb. pose proof (vi_req _ _ _ _ _ I) as Hr. cbn [sv sq] in Hr. apply Forall_cons in Hr as [Hr _].
  apply resume_done; [done|done|apply (done_split _ _ _ _ _ _ _ _ _ I)|apply (done_in_use _ _ _ _ _ _ _ _ _ I)|done].
Qed.

Lemma step_good s s' : vstep dev_step s s' -> good s -> good s'.
Proof using dev_ok.
  assert (Hh : vdisk_lock ∉ []) by apply not_elem_of_nil.
  intros Hstep (qa & qw & qu & qd & I). destruct Hstep as [b bn wr i0 v v' d q f Hb E|b bn wr v v' d q f Hb E|r i0 v v' d q f Hr E|r v v' d q q' f Hq E|v v' d q f E|v v' d d' q f E].
  - destruct (rw_cases [] v b bn wr Hh (vi_sized _ _ _ _ _ I) (vi_zero _ _ _ _ _ I)) as [(j0 & j1 & j2 & Hn & HF & E')|[ws E']]; rewrite E' in E; [|done].
    injection E as <- <-. rewrite req_at_submitted; [|apply (vi_sized _ _ _ _ _ I)|done|by eapply new_lt]. do 4 eexists. by apply keep_start.
  - destruct (rw_cases [] v b bn wr Hh (vi_sized _ _ _ _ _ I) (vi_zero _ _ _ _ _ I)) as [(j0 & j1 & j2 & Hn & HF & E')|[ws E']]; rewrite E' in E; [done|].
    injection E as <-. exists qa, qw, qu, qd. by apply vinv_wakes.
  - destruct (decide (q_buf r ∈ busy v)) as [Hin|Hout]; [rewrite resume_waits in E by done; injection E as _ <-; by exists qa, qw, qu, qd|].
    apply elem_of_Permutation in Hr as [q' Hq]. by rewrite (resume_finishes _ _ _ _ _ _ _ _ _ _ Hh (vinv_perm _ _ _ _ _ _ _ _ _ Hq I) Hout) in E.
  - pose proof (vinv_perm _ _ _ _ _ _ _ _ _ Hq I) as I'. destruct (decide (q_buf r ∈ busy v)) as [Hin|Hout]; [by rewrite resume_waits in E|].
    rewrite (resume_finishes _ _ _ _ _ _ _ _ _ _ Hh I' Hout) in E. injection E as <-.
    pose proof (not_busy_done _ _ _ _ _ _ _ _ r I' ltac:(by left) Hout) as [qd' Hqd]%elem_of_Permutation. exists qa, qw, qu, qd'. by apply (keep_done _ _ _ _ _ _ _ _ _ I').
  - destruct (decide (failed d = [])) as [Hnof|Hfail]; [|by rewrite (intr_panics _ _ _ _ _ _ _ _ [] Hh I Hfail) in E].
    destruct (keep_intr _ _ _ _ _ _ _ _ [] Hh I Hnof) as (v1 & E' & I'). rewrite E' in E. injection E as <-. by exists qa, qw, [], (qu ++ qd).
  - destruct (dev_ok _ _ _ _ E) as [F|F]; clear E.
    + destruct F as [d v Hne]. destruct (keep_fetch _ _ _ _ _ _ _ _ I Hne) as (? & ? & I'). by do 4 eexists.
    + destruct F as [d v id rest t j status Hw Hdec _]. destruct (keep_complete _ _ _ _ _ _ _ _ _ _ _ _ status I Hw Hdec) as (? & ? & I'). by do 4 eexists.
Qed.

Lemma reach_good s : vreach dev_step s -> good s.
Proof using dev_ok.
  intros (s0 & Hb & Hs). assert (good s0) as Hg by (do 4 eexists; by apply vboot_inv). clear Hb.
  induction Hs as [|s0 s1 s2 H01 _ IH]; [done|]. apply IH. by apply (step_good s0).
Qed.


End reach.

(** ** A run: a write is requested, fetched, completed, acknowledged *)

Definition demo_reg (r : Z) : Z :=
  if r =? VIRTIO_MMIO_MAGIC_VALUE then 0x74726976 else if r =? VIRTIO_MMIO_VERSION then 1 else if r =? VIRTIO_MMIO_DEVICE_ID then 2
  else if r =? VIRTIO_MMIO_VENDOR_ID then 0x554d4551 else if r =? VIRTIO_MMIO_QUEUE_NUM_MAX then 1024 else 1.
Definition demo_v0 : vdisk :=
  VDisk [] 0 [] 0 [] [] 0 (replicate NUM None) (replicate NUM 0) (replicate NUM blk0) ∅ demo_reg [] [].
Definition run_v {A} (m : M vdisk A) (v : vdisk) : vdisk := match m (World [] v) with Ok _ w => st w | _ => v end.
Definition demo_dev (d : device) (v : vdisk) (d' : device) (v' : vdisk) : Prop := fetches d v d' v' \/ completes d v d' v'.
Definition demo_v1 : vdisk := Eval vm_compute in run_v (virtio_disk_init 0x80010000) demo_v0.
Definition demo_v2 : vdisk := Eval vm_compute in run_v (virtio_disk_rw 5 33 true) demo_v1.
Definition demo_v3 : vdisk := Eval vm_compute in post 0 0 0 demo_v2.
Definition demo_v4 : vdisk := Eval vm_compute in run_v virtio_disk_intr demo_v3.
Definition demo_q : req := Eval vm_compute in req_at demo_v2 (Transfer true 66 5) 0.

Lemma demo_reach : vreach demo_dev (Sys demo_v4 (Device 1 [] [Transfer true 66 5] []) [demo_q] []).
Proof.
  exists (Sys demo_v1 (Device 0 [] [] []) [] []). split.
  - exists 0x80010000, demo_v0. split_and!; vm_compute; reflexivity.
  - eapply rtc_l; [apply (v_start _ 5 33 true 0); [apply not_elem_of_nil|vm_compute; reflexivity]|].
    eapply rtc_l; [apply v_dev; left; constructor; by vm_compute|].
    eapply rtc_l; [apply v_dev; right; apply (completes_one _ _ 0%nat [] (Transfer true 66 5) 0 0); [by vm_compute|vm_compute; reflexivity|lia]|].
    eapply rtc_l; [apply v_intr; vm_compute; reflexivity|]. apply rtc_refl.
Qed.

Lemma free_chain_terminates_witness :
  let cyclic := set_free (replicate NUM false) (set_desc (replicate NUM (Desc ANull 0 VRING_DESC_F_NEXT 0)) demo_v0) in
  free_chain 0 (World [] cyclic) <> Spin.
Proof. intros cyclic. apply (free_chain_terminates 0 [] cyclic). reflexivity. Defined.

(** The same request when the device reports an I/O error. *)
Lemma demo_reach_fails : vreach demo_dev (Sys (post 0 0 1 demo_v2) (Device 1 [] [] [Transfer true 66 5]) [demo_q] []).
Proof.
  exists (Sys demo_v1 (Device 0 [] [] []) [] []). split.
  - exists 0x80010000, demo_v0. split_and!; vm_compute; reflexivity.
  - eapply rtc_l; [apply (v_start _ 5 33 true 0); [apply not_elem_of_nil|vm_compute; reflexivity]|].
    eapply rtc_l; [apply v_dev; left; constructor; by vm_compute|].
    eapply rtc_l; [apply v_dev; right; apply (completes_one _ _ 0%nat [] (Transfer true 66 5) 0 1); [by vm_compute|vm_compute; reflexivity|lia]|].
    apply rtc_refl.
Qed.

