(* ===== verification/Syscall.v ===== *)
(** * kernel/syscall.c, kernel/sysproc.c, kernel/sysfile.c: system calls

    Arguments come from the trapframe of the running process; a string
    argument is the list of its bytes before the NUL.  Local arrays of a
    handler that it does not clear ([name[DIRSIZ]]) start with whatever the
    stack holds, an argument of the definition.  The part of a handler between
    [begin_op] and [end_op] runs inside the file system. *)

From S2P Require Import Prelude Mem CString Riscv Kalloc Vm Pipe Sleeplock Bio BioSpec Log Fs File Proc.

Definition MAXPATH : Z := 128.
Definition MAXARG : nat := 32.
Definition O_RDONLY : Z := 0.
Definition O_WRONLY : Z := 1.
Definition O_RDWR : Z := 2.
Definition O_CREATE : Z := 0x200.
Definition O_TRUNC : Z := 0x400.

(** The string at the start of an array. *)
Fixpoint str_of (bs : list Z) : list Z :=
  match bs with
  | c :: bs => if c =? 0 then [] else c :: str_of bs
  | [] => []
  end.
Definition dot : list Z := [46].
Definition dotdot : list Z := [46; 46].

(** ** Operations of sysfile.c inside the file system *)
Section sysfile_fs.
Context {L : Layout} {T H : Type} {BO : BlockOps T H}.
Abbreviation F := (M (fst T)).

Definition fbegin_op : F unit := in_log (_ ← begin_op []; mret tt).
Definition fend_op : F unit := in_log end_op.
Definition set_nlink (n : Z) (ip : inode) : inode := set_meta (ip_major ip) (ip_minor ip) n ip.
Definition add_nlink (i : nat) (d : Z) : F unit :=
  modify (updi i (fun ip => set_nlink (i16 (ip_nlink ip + d)) ip)).

(** The error path of [sys_link] once the link count was raised. *)
Definition link_bad (ip : nat) : F Z :=
  ilock ip;;
  add_nlink ip (-1);;
  iupdate ip;;
  iunlockput ip;;
  fend_op;;
  mret (-1).
(** [sys_link] on its two path names. *)
Definition link_paths (garbage old new : list Z) : F Z :=
  fbegin_op;;
  r ← namei garbage old;
  match r with
  | None => fend_op;; mret (-1)
  | Some ip =>
      ilock ip;;
      x ← gets (fun s => geti s ip);
      if ip_type x =? T_DIR then iunlockput ip;; fend_op;; mret (-1) else
      add_nlink ip 1;;
      iupdate ip;;
      iunlock ip;;
      r ← nameiparent new garbage;
      match r with
      | (None, _) => link_bad ip
      | (Some dp, name) =>
          ilock dp;;
          x ← gets (fun s => geti s ip);
          d ← gets (fun s => geti s dp);
          r ← (if negb (ip_dev d =? ip_dev x) then mret (-1) else dirlink dp name (ip_inum x));
          if r <? 0 then iunlockput dp;; link_bad ip else
          iunlockput dp;;
          iput ip;;
          fend_op;;
          mret 0
      end
  end.

Fixpoint isdirempty_loop (fuel : nat) (dp : nat) (off : Z) : F bool :=
  match fuel with
  | O => spin
  | S fuel =>
      ip ← gets (fun s => geti s dp);
      if negb (off <? ip_size ip) then mret true else
      r ← readi dp ToLocal off sizeof_dirent;
      if negb (Datatypes.fst r =? sizeof_dirent) then panic "isdirempty: readi" else
      if negb (de_inum (snd r) =? 0) then mret false else isdirempty_loop fuel dp (off + sizeof_dirent)
  end.
Definition isdirempty (dp : nat) : F bool :=
  ip ← gets (fun s => geti s dp);
  isdirempty_loop (S (Z.to_nat (ip_size ip))) dp (2 * sizeof_dirent).

Definition unlink_bad (dp : nat) : F Z :=
  iunlockput dp;;
  fend_op;;
  mret (-1).
(** [sys_unlink] on its path name. *)
Definition unlink_path (garbage path : list Z) : F Z :=
  fbegin_op;;
  r ← nameiparent path garbage;
  match r with
  | (None, _) => fend_op;; mret (-1)
  | (Some dp, name) =>
      ilock dp;;
      if (namecmp name dot =? 0) || (namecmp name dotdot =? 0) then unlink_bad dp else
      r ← dirlookup dp name;
      match r with
      | None => unlink_bad dp
      | Some (ip, off) =>
          ilock ip;;
          x ← gets (fun s => geti s ip);
          if ip_nlink x <? 1 then panic "unlink: nlink < 1" else
          empty ← (if ip_type x =? T_DIR then isdirempty ip else mret true);
          if negb empty then iunlockput ip;; unlink_bad dp else
          n ← writei dp (FromLocal (zeroes sizeof_dirent)) off sizeof_dirent;
          if negb (n =? sizeof_dirent) then panic "unlink: writei" else
          x ← gets (fun s => geti s ip);
          when (ip_type x =? T_DIR) (add_nlink dp (-1);; iupdate dp);;
          iunlockput dp;;
          add_nlink ip (-1);;
          iupdate ip;;
          iunlockput ip;;
          fend_op;;
          mret 0
      end
  end.

(** [None] is the null pointer; the inode returned is locked. *)
Definition create (garbage path : list Z) (type major minor : Z) : F (option nat) :=
  r ← nameiparent path garbage;
  match r with
  | (None, _) => mret None
  | (Some dp, name) =>
      ilock dp;;
      r ← dirlookup dp name;
      match r with
      | Some (ip, _) =>
          iunlockput dp;;
          ilock ip;;
          x ← gets (fun s => geti s ip);
          if (type =? T_FILE) && ((ip_type x =? T_FILE) || (ip_type x =? T_DEVICE)) then mret (Some ip) else
          iunlockput ip;;
          mret None
      | None =>
          d ← gets (fun s => geti s dp);
          ip ← ialloc (ip_dev d) type;
          ilock ip;;
          modify (updi ip (set_meta major minor 1));;
          iupdate ip;;
          when (type =? T_DIR)
            (add_nlink dp 1;;
             iupdate dp;;
             x ← gets (fun s => geti s ip);
             r ← dirlink ip dot (ip_inum x);
             if r <? 0 then panic "create dots" else
             d ← gets (fun s => geti s dp);
             r ← dirlink ip dotdot (ip_inum d);
             if r <? 0 then panic "create dots" else mret tt);;
          x ← gets (fun s => geti s ip);
          r ← dirlink dp name (ip_inum x);
          if r <? 0 then panic "create: dirlink" else
          iunlockput dp;;
          mret (Some ip)
      end
  end.

(** The first part of [sys_open]: the locked inode. *)
Definition open_inode (garbage path : list Z) (omode : Z) : F (option nat) :=
  if flag omode O_CREATE then create garbage path T_FILE 0 0 else
  r ← namei garbage path;
  match r with
  | None => mret None
  | Some ip =>
      ilock ip;;
      x ← gets (fun s => geti s ip);
      if (ip_type x =? T_DIR) && negb (omode =? O_RDONLY) then iunlockput ip;; mret None else mret (Some ip)
  end.
End sysfile_fs.

Section syscall.
Context {L : Layout} {T H : Type} {BO : BlockOps T H}.
Context (forkret_pc : Z).
(** The device switch, and what uninitialised locals hold. *)
Context (dev_read dev_write : Z -> option (Z -> Z -> M (fsys T) Z)).
Context (garbage : list Z).
Abbreviation K := (M (kern T)).

Definition curproc : K proc := i ← myproc; gets (fun s => getp s i).

(** ** kernel/syscall.c: arguments *)
Definition fetchaddr (addr : Z) : K (option Z) :=
  p ← curproc;
  if (p_sz p <=? addr) || (p_sz p <? u64 (addr + 8)) then mret None else
  r ← in_phys (copyin (p_pagetable p) addr 8);
  if negb (Datatypes.fst r =? 0) then mret None else mret (Some (little_endian_to_Z 8 (snd r))).

(** [copyinstr] stores a NUL when it succeeds; [buf] is a local array. *)
Definition fetchstr (addr max : Z) : K (option (list Z)) :=
  p ← curproc;
  r ← in_phys (copyinstr (p_pagetable p) addr max);
  if Datatypes.fst r <? 0 then mret None else mret (Some (str_of (snd r))).

Definition argraw (n : Z) : K Z :=
  p ← curproc;
  if (0 <=? n) && (n <=? 5) then tf_load (p_trapframe p) (TF_a0 + 8 * n) else panic "argraw".
Definition argint (n : Z) : K Z := v ← argraw n; mret (i32 v).
Definition argaddr (n : Z) : K Z := argraw n.
Definition argstr (n max : Z) : K (option (list Z)) := addr ← argaddr n; fetchstr addr max.

(** ** kernel/sysproc.c *)
Definition sys_exit : K unit := n ← argint 0; exit n.
Definition sys_getpid : K Z := p ← curproc; mret (u64 (p_pid p)).
Definition sys_fork : K Z := r ← fork forkret_pc; mret (u64 r).
Definition sys_wait : K (option Z) := a ← argaddr 0; wait a.
Definition sys_sbrk : K Z :=
  n ← argint 0;
  p ← curproc;
  let addr := i32 (p_sz p) in
  r ← growproc n;
  if r <? 0 then mret (u64 (-1)) else mret (u64 addr).
Definition tickslock : lockid := ("time"%string, 0).
Definition chan_ticks : lockid := ("ticks"%string, 0).
(** From the test of the loop of [sys_sleep] on, with [tickslock] held;
    [None]: the caller sleeps, and tests again when it is woken. *)
Definition sys_sleep_run (n ticks0 : Z) : K (option Z) :=
  t ← gets ticks;
  if u32 (t - ticks0) <? u32 n then
    p ← curproc;
    if p_killed p then release tickslock;; mret (Some (u64 (-1)))
    else sleep_enter chan_ticks tickslock;; mret None
  else release tickslock;; mret (Some 0).
Definition sys_sleep : K (option Z) :=
  n ← argint 0;
  acquire tickslock;;
  ticks0 ← gets ticks;
  sys_sleep_run n ticks0.
Definition sys_kill : K Z := pid ← argint 0; r ← kill pid; mret (u64 r).
Definition sys_uptime : K Z :=
  acquire tickslock;;
  t ← gets ticks;
  release tickslock;;
  mret t.
Definition sys_getprocs (pad : list Z) : K Z := a ← argaddr 0; r ← procinfo a pad; mret (u64 r).

(** ** kernel/sysfile.c *)
(** The descriptor and its open file; [None] is the return value -1. *)
Definition argfd (n : Z) : K (option (Z * nat)) :=
  fd ← argint n;
  p ← curproc;
  if (fd <? 0) || (Z.of_nat NOFILE <=? fd) then mret None else
  match p_ofile p !! Z.to_nat fd with
  | Some (Some f) => mret (Some (fd, f))
  | _ => mret None
  end.

Fixpoint free_fd (o : list (option nat)) (fd : nat) : option nat :=
  match o with
  | None :: _ => Some fd
  | Some _ :: o => free_fd o (S fd)
  | [] => None
  end.
Definition set_fd (i fd : nat) (f : option nat) : K unit :=
  modify (updp i (fun q => set_ofile (<[fd := f]> (p_ofile q)) q)).
Definition fdalloc (f : nat) : K Z :=
  i ← myproc;
  p ← gets (fun s => getp s i);
  match free_fd (p_ofile p) 0 with
  | Some fd => set_fd i fd (Some f);; mret (Z.of_nat fd)
  | None => mret (-1)
  end.

Definition ERR : Z := u64 (-1).

Definition sys_dup : K Z :=
  r ← argfd 0;
  match r with
  | None => mret ERR
  | Some (_, f) =>
      fd ← fdalloc f;
      if fd <? 0 then mret ERR else
      in_files (filedup f);;
      mret (u64 fd)
  end.
Definition sys_read : K Z :=
  r ← argfd 0;
  match r with
  | None => mret ERR
  | Some (_, f) => n ← argint 2; p ← argaddr 1; r ← in_files (fileread dev_read f p n); mret (u64 r)
  end.
Definition sys_write : K Z :=
  r ← argfd 0;
  match r with
  | None => mret ERR
  | Some (_, f) => n ← argint 2; p ← argaddr 1; r ← in_files (filewrite dev_write f p n); mret (u64 r)
  end.
Definition sys_close : K Z :=
  r ← argfd 0;
  match r with
  | None => mret ERR
  | Some (fd, f) =>
      i ← myproc;
      set_fd i (Z.to_nat fd) None;;
      in_files (fileclose f);;
      mret 0
  end.
Definition sys_fstat (pad : list Z) : K Z :=
  r ← argfd 0;
  match r with
  | None => mret ERR
  | Some (_, f) => a ← argaddr 1; r ← in_files (filestat f a pad); mret (u64 r)
  end.

Definition sys_link : K Z :=
  old ← argstr 0 MAXPATH;
  match old with
  | None => mret ERR
  | Some old =>
      new ← argstr 1 MAXPATH;
      match new with
      | None => mret ERR
      | Some new => r ← in_kfs (link_paths garbage old new); mret (u64 r)
      end
  end.
Definition sys_unlink : K Z :=
  path ← argstr 0 MAXPATH;
  match path with
  | None => mret ERR
  | Some path => r ← in_kfs (unlink_path garbage path); mret (u64 r)
  end.

(** The fields of the file that [sys_open] sets. *)
Definition opened (x : inode) (ip : nat) (omode : Z) (f : file) : file :=
  File (if ip_type x =? T_DEVICE then FD_DEVICE else FD_INODE) (f_ref f)
    (negb (flag omode O_WRONLY)) (flag omode O_WRONLY || flag omode O_RDWR) (f_pipe f) ip
    (if ip_type x =? T_DEVICE then f_off f else 0) (if ip_type x =? T_DEVICE then ip_major x else f_major f).
Definition open_bad (ip : nat) : K Z := in_kfs (iunlockput ip);; kend_op;; mret ERR.
Definition sys_open : K Z :=
  path ← argstr 0 MAXPATH;
  match path with
  | None => mret ERR
  | Some path =>
      omode ← argint 1;
      kbegin_op;;
      r ← in_kfs (open_inode garbage path omode);
      match r with
      | None => kend_op;; mret ERR
      | Some ip =>
          x ← gets (fun s => geti (ffs (kfsys s)) ip);
          if (ip_type x =? T_DEVICE) && ((ip_major x <? 0) || (NDEV <=? ip_major x)) then open_bad ip else
          f ← in_files filealloc;
          match f with
          | None => open_bad ip
          | Some f =>
              fd ← fdalloc f;
              if fd <? 0 then in_files (fileclose f);; open_bad ip else
              in_files (modify (updf f (opened x ip omode)));;
              when (flag omode O_TRUNC && (ip_type x =? T_FILE)) (in_kfs (itrunc ip));;
              in_kfs (iunlock ip);;
              kend_op;;
              mret (u64 fd)
          end
      end
  end.

(** [sys_mkdir] and [sys_mknod] after their arguments are read. *)
Definition make_node (path : option (list Z)) (type major minor : Z) : K Z :=
  match path with
  | None => kend_op;; mret ERR
  | Some path =>
      r ← in_kfs (create garbage path type major minor);
      match r with
      | None => kend_op;; mret ERR
      | Some ip => in_kfs (iunlockput ip);; kend_op;; mret 0
      end
  end.
Definition sys_mkdir : K Z :=
  kbegin_op;;
  path ← argstr 0 MAXPATH;
  make_node path T_DIR 0 0.
Definition sys_mknod : K Z :=
  kbegin_op;;
  path ← argstr 0 MAXPATH;
  major ← argint 1;
  minor ← argint 2;
  make_node path T_DEVICE (i16 major) (i16 minor).

Definition sys_chdir : K Z :=
  i ← myproc;
  kbegin_op;;
  path ← argstr 0 MAXPATH;
  match path with
  | None => kend_op;; mret ERR
  | Some path =>
      r ← in_kfs (namei garbage path);
      match r with
      | None => kend_op;; mret ERR
      | Some ip =>
          in_kfs (ilock ip);;
          x ← gets (fun s => geti (ffs (kfsys s)) ip);
          if negb (ip_type x =? T_DIR) then in_kfs (iunlockput ip);; kend_op;; mret ERR else
          in_kfs (iunlock ip);;
          p ← gets (fun s => getp s i);
          (match p_cwd p with Some c => in_kfs (iput c) | None => undefined end);;
          kend_op;;
          modify (updp i (set_cwd (Some ip)));;
          mret 0
      end
  end.

Definition close_both (i : nat) (fds : list nat) (rf wf : nat) : K Z :=
  modify (updp i (fun q => set_ofile (foldl (fun o fd => <[fd := None]> o) (p_ofile q) fds) q));;
  in_files (fileclose rf);;
  in_files (fileclose wf);;
  mret ERR.
Definition sys_pipe : K Z :=
  i ← myproc;
  fdarray ← argaddr 0;
  r ← in_files pipealloc;
  match r with
  | None => mret ERR
  | Some (rf, wf) =>
      fd0 ← fdalloc rf;
      if fd0 <? 0 then close_both i [] rf wf else
      fd1 ← fdalloc wf;
      if fd1 <? 0 then close_both i [Z.to_nat fd0] rf wf else
      p ← gets (fun s => getp s i);
      r ← in_phys (copyout (p_pagetable p) fdarray (Z_to_little_endian 4 8 fd0));
      if r <? 0 then close_both i [Z.to_nat fd0; Z.to_nat fd1] rf wf else
      r ← in_phys (copyout (p_pagetable p) (u64 (fdarray + 4)) (Z_to_little_endian 4 8 fd1));
      if r <? 0 then close_both i [Z.to_nat fd0; Z.to_nat fd1] rf wf else
      mret 0
  end.
End syscall.
