(* ===== verification/Printf.v ===== *)
(** * kernel/printf.c and [procdump]: formatted console output

    Strings are lists of bytes without the NUL.  The arguments of [printf]
    are given with the type the format asks for; a mismatch is undefined. *)

From S2P Require Import Prelude Mem Kalloc Uart Console Sleeplock Bio Log Fs File Proc Syscall.

Inductive vararg : Type :=
| AInt (x : Z)                    (* int *)
| APtr (x : Z)                    (* uint64 *)
| AStr (s : option (list Z)).     (* char*, None is null *)

Definition str (s : string) : list Z := (fun a => Z.of_N (Ascii.N_of_ascii a)) <$> String.list_ascii_of_string s.
Definition digits : list Z := str "0123456789abcdef".
Definition digit (ds : list Z) (x : Z) : Z := default 0 (ds !! Z.to_nat x).

(** [do buf[i++] = digits[x % base]; while((x /= base) != 0);] - the lowest
    digit first.  A 32-bit number has at most 32 digits in any base. *)
Fixpoint digits_of (fuel : nat) (ds : list Z) (base x : Z) : list Z :=
  match fuel with
  | O => []
  | S fuel =>
      let d := digit ds (x mod base) in
      let x := x / base in
      if x =? 0 then [d] else d :: digits_of fuel ds base x
  end.
(** The buffer of [printint]: the magnitude of a negative number wraps. *)
Definition int_buf (ds : list Z) (xx base : Z) (sign : bool) : list Z :=
  let neg := sign && (xx <? 0) in
  let x := u32 (if neg then - xx else xx) in
  digits_of 32 ds base x ++ (if neg then [45] else []).

(** The console, and [pr]. *)
Record prst : Type := PrSt { pcons : cst; locking : bool }.
Definition pr_lock : lockid := ("pr"%string, 0).
Definition putc (c : Z) : M prst unit := zoom pcons (fun x s => PrSt x (locking s)) (consputc c).
Fixpoint puts (cs : list Z) : M prst unit :=
  match cs with
  | [] => mret tt
  | c :: cs => putc c;; puts cs
  end.

Definition printint (xx base : Z) (sign : bool) : M prst unit := puts (reverse (int_buf digits xx base sign)).

Fixpoint printptr_loop (n : nat) (x : Z) : M prst unit :=
  match n with
  | O => mret tt
  | S n => putc (digit digits (Z.shiftr x 60));; printptr_loop n (u64 (Z.shiftl x 4))
  end.
Definition printptr (x : Z) : M prst unit :=
  putc 48;;
  putc 120;;
  printptr_loop 16 x.

Definition null_str : list Z := str "(null)".

(** The loop over the format, from one character on. *)
Fixpoint printf_loop (fmt : list Z) (ap : list vararg) : M prst unit :=
  match fmt with
  | [] => mret tt
  | c :: fmt =>
      if negb (c =? 37) then putc c;; printf_loop fmt ap else
      match fmt with
      | [] => mret tt
      | c :: fmt =>
          if c =? 100 then                                     (* 'd' *)
            match ap with AInt x :: ap => printint x 10 true;; printf_loop fmt ap | _ => undefined end
          else if c =? 120 then                                (* 'x' *)
            match ap with AInt x :: ap => printint x 16 true;; printf_loop fmt ap | _ => undefined end
          else if c =? 112 then                                (* 'p' *)
            match ap with APtr x :: ap => printptr x;; printf_loop fmt ap | _ => undefined end
          else if c =? 115 then                                (* 's' *)
            match ap with AStr s :: ap => puts (default null_str s);; printf_loop fmt ap | _ => undefined end
          else if c =? 37 then putc 37;; printf_loop fmt ap
          else putc 37;; putc c;; printf_loop fmt ap
      end
  end.
Definition printf (fmt : list Z) (ap : list vararg) : M prst unit :=
  l ← gets locking;
  when l (acquire pr_lock);;
  printf_loop fmt ap;;
  when l (release pr_lock).

Definition set_panicked (s : prst) : prst :=
  let u := cuart (pcons s) in
  PrSt (set_cuart (Uart (tx_buf u) (tx_w u) (tx_r u) true (lsr u) (rhr u) (wlog u) (uwakes u)) (pcons s)) (locking s).
(** [panic] prints, then spins with the UART frozen: the state it spins in. *)
Definition panic_prints (msg : list Z) : M prst unit :=
  modify (fun s => PrSt (pcons s) false);;
  printf (str "panic: ") [];;
  printf msg [];;
  printf [10] [];;
  modify set_panicked.

Definition printfinit : M prst unit :=
  initlock pr_lock;;
  modify (fun s => PrSt (pcons s) true).

(** kernel/proc.c: [procdump].  The table of names has none for USED. *)
Definition state_name (s : procstate) : list Z :=
  match s with
  | UNUSED => str "unused"
  | USED => str "???"
  | SLEEPING => str "sleep "
  | RUNNABLE => str "runble"
  | RUNNING => str "run   "
  | ZOMBIE => str "zombie"
  end.
Fixpoint procdump_loop (ps : list proc) : M prst unit :=
  match ps with
  | [] => mret tt
  | p :: ps =>
      (if decide (p_state p = UNUSED) then mret tt
       else
         printf (str "%d %s %s") [AInt (p_pid p); AStr (Some (state_name (p_state p))); AStr (Some (str_of (p_name p)))];;
         printf [10] []);;
      procdump_loop ps
  end.
Definition procdump (ps : list proc) : M prst unit :=
  printf [10] [];;
  procdump_loop ps.

(** ** What is printed

    [format] is the text a format and its arguments stand for. *)
Definition int_text (ds : list Z) (xx base : Z) (sign : bool) : list Z := reverse (int_buf ds xx base sign).
Definition hex16 (x : Z) : list Z := (fun i => digit digits (Z.shiftr x (60 - 4 * Z.of_nat i) mod 16)) <$> seq 0 16.
Definition ptr_text (x : Z) : list Z := [48; 120] ++ hex16 x.

Fixpoint format (fmt : list Z) (ap : list vararg) : option (list Z) :=
  match fmt with
  | [] => Some []
  | c :: fmt =>
      if negb (c =? 37) then (fun t => c :: t) <$> format fmt ap else
      match fmt with
      | [] => Some []
      | c :: fmt =>
          if c =? 100 then match ap with AInt x :: ap => app (int_text digits x 10 true) <$> format fmt ap | _ => None end
          else if c =? 120 then match ap with AInt x :: ap => app (int_text digits x 16 true) <$> format fmt ap | _ => None end
          else if c =? 112 then match ap with APtr x :: ap => app (ptr_text x) <$> format fmt ap | _ => None end
          else if c =? 115 then match ap with AStr s :: ap => app (default null_str s) <$> format fmt ap | _ => None end
          else if c =? 37 then app [37] <$> format fmt ap
          else app [37; c] <$> format fmt ap
      end
  end.
