(* ===== verification/Exec.v ===== *)
(** * kernel/exec.c and [sys_exec]

    The argument strings of [exec] are pages of kernel memory, given by their
    addresses; the ELF headers are read into local variables of the layouts
    of kernel/elf.h. *)

From S2P Require Import Prelude Mem CString Riscv Kalloc Vm Pipe Sleeplock Bio BioSpec Log Fs File Proc Syscall.

Definition ELF_MAGIC : Z := 0x464C457F.
Definition ELF_PROG_LOAD : Z := 1.
Definition sizeof_elfhdr : Z := 64.
Definition sizeof_proghdr : Z := 56.
Definition get64 (d : list Z) (off : nat) : Z := little_endian_to_Z 8 (take 8 (drop off d)).

Record elfhdr : Type := Elfhdr { e_magic : Z; e_entry : Z; e_phoff : Z; e_phnum : Z }.
Definition load_elf (d : list Z) : elfhdr := Elfhdr (get32 d 0) (get64 d 24) (get64 d 32) (get16 d 56).
Record proghdr : Type := Proghdr { ph_type : Z; ph_off : Z; ph_vaddr : Z; ph_filesz : Z; ph_memsz : Z }.
Definition load_ph (d : list Z) : proghdr := Proghdr (get32 d 0) (get64 d 8) (get64 d 16) (get64 d 32) (get64 d 40).

(** The stack pointer after [n] bytes are pushed, aligned to 16 bytes. *)
Definition push_sp (sp n : Z) : Z := let sp := u64 (sp - n) in u64 (sp - sp mod 16).

(** The part of the path after its last slash. *)
Fixpoint last_elem (last s : list Z) : list Z :=
  match s with
  | [] => last
  | c :: s => if c =? slash then last_elem s s else last_elem last s
  end.

Section exec.
Context {L : Layout} {T H : Type} {BO : BlockOps T H}.
Context (garbage : list Z).
Abbreviation K := (M (kern T)).

(** [offset] and [sz] are [uint]. *)
Fixpoint loadseg_loop (fuel : nat) (pagetable va : Z) (ip : nat) (offset sz i : Z) : M (fst T) Z :=
  match fuel with
  | O => spin
  | S fuel =>
      if negb (i <? sz) then mret 0 else
      pa ← in_mem (walkaddr pagetable (u64 (va + i)));
      if pa =? 0 then panic "loadseg: address should exist" else
      let n := if sz - i <? PGSIZE then sz - i else PGSIZE in
      r ← readi ip (ToKernel pa) (u32 (offset + i)) n;
      if negb (Datatypes.fst r =? n) then mret (-1) else
      loadseg_loop fuel pagetable va ip offset sz (u32 (i + PGSIZE))
  end.
Definition loadseg (pagetable va : Z) (ip : nat) (offset sz : Z) : M (fst T) Z :=
  loadseg_loop (S (Z.to_nat (sz / PGSIZE + 1))) pagetable va ip offset sz 0.

(** The program headers: [inl sz] when a header is bad, with the size of the
    image so far; [inr sz] at the end. *)
Fixpoint load_segments (n : nat) (pagetable : Z) (ip : nat) (off sz : Z) : K (Z + Z) :=
  match n with
  | O => mret (inr sz)
  | S n =>
      r ← in_kfs (readi ip ToLocal (u32 off) sizeof_proghdr);
      if negb (Datatypes.fst r =? sizeof_proghdr) then mret (inl sz) else
      let ph := load_ph (snd r) in
      let next := i32 (off + sizeof_proghdr) in
      if negb (ph_type ph =? ELF_PROG_LOAD) then load_segments n pagetable ip next sz else
      if ph_memsz ph <? ph_filesz ph then mret (inl sz) else
      let top := u64 (ph_vaddr ph + ph_memsz ph) in
      if top <? ph_vaddr ph then mret (inl sz) else
      sz1 ← in_phys (uvmalloc pagetable sz top);
      if sz1 =? 0 then mret (inl sz) else
      if negb (ph_vaddr ph mod PGSIZE =? 0) then mret (inl sz1) else
      r ← in_kfs (loadseg pagetable (ph_vaddr ph) ip (u32 (ph_off ph)) (u32 (ph_filesz ph)));
      if r <? 0 then mret (inl sz1) else
      load_segments n pagetable ip next sz1
  end.

(** The argument strings, then [ustack]; [None] is [goto bad].  A page holds
    a string of less than [PGSIZE] bytes. *)
Fixpoint push_args (pagetable stackbase : Z) (argv : list Z) (sp : Z) (ustack : list Z) : K (option (Z * list Z)) :=
  match argv with
  | [] => mret (Some (sp, ustack))
  | a :: argv =>
      if (MAXARG <=? length ustack)%nat then mret None else
      m ← in_phys (gets kmem);
      match strlen m a (Z.to_nat PGSIZE) with
      | None => undefined
      | Some len =>
          let sp := push_sp sp (len + 1) in
          if sp <? stackbase then mret None else
          r ← in_phys (copyout pagetable sp (ldn m a (Z.to_nat (len + 1))));
          if r <? 0 then mret None else
          push_args pagetable stackbase argv sp (ustack ++ [sp])
      end
  end.
Definition words_le (ws : list Z) : list Z := concat (Z_to_little_endian 8 8 <$> ws).

Definition exec_bad (pagetable sz : Z) (ip : option nat) : K Z :=
  when (negb (pagetable =? 0)) (proc_freepagetable pagetable sz);;
  (match ip with Some ip => in_kfs (iunlockput ip);; kend_op | None => mret tt end);;
  mret (-1).

(** From "Commit to the user image" on. *)
Definition exec_commit (i : nat) (path : list Z) (pagetable sz entry sp argc : Z) : K Z :=
  p ← gets (fun s => getp s i);
  tf_store (p_trapframe p) TF_a1 sp;;
  modify (updp i (fun q => set_name (safestrcpy_list (p_name q) (last_elem path path) 16) q));;
  modify (updp i (fun q => set_sz sz (set_pagetable pagetable q)));;
  tf_store (p_trapframe p) TF_epc entry;;
  tf_store (p_trapframe p) TF_sp sp;;
  proc_freepagetable (p_pagetable p) (p_sz p);;
  mret argc.

(** The user stack of the new image. *)
Definition exec_stack (i : nat) (path argv : list Z) (pagetable sz entry : Z) : K Z :=
  let sz := PGROUNDUP sz in
  sz1 ← in_phys (uvmalloc pagetable sz (u64 (sz + 2 * PGSIZE)));
  if sz1 =? 0 then exec_bad pagetable sz None else
  in_phys (uvmclear pagetable (u64 (sz1 - 2 * PGSIZE)));;
  let stackbase := u64 (sz1 - PGSIZE) in
  r ← push_args pagetable stackbase argv sz1 [];
  match r with
  | None => exec_bad pagetable sz1 None
  | Some (sp, ustack) =>
      let argc := Z.of_nat (length ustack) in
      let sp := push_sp sp ((argc + 1) * 8) in
      if sp <? stackbase then exec_bad pagetable sz1 None else
      r ← in_phys (copyout pagetable sp (words_le (ustack ++ [0])));
      if r <? 0 then exec_bad pagetable sz1 None else
      exec_commit i path pagetable sz1 entry sp argc
  end.

Definition exec (path argv : list Z) : K Z :=
  i ← myproc;
  kbegin_op;;
  r ← in_kfs (namei garbage path);
  match r with
  | None => kend_op;; mret (-1)
  | Some ip =>
      in_kfs (ilock ip);;
      r ← in_kfs (readi ip ToLocal 0 sizeof_elfhdr);
      if negb (Datatypes.fst r =? sizeof_elfhdr) then exec_bad 0 0 (Some ip) else
      let elf := load_elf (snd r) in
      if negb (e_magic elf =? ELF_MAGIC) then exec_bad 0 0 (Some ip) else
      pagetable ← proc_pagetable i;
      if pagetable =? 0 then exec_bad 0 0 (Some ip) else
      r ← load_segments (Z.to_nat (e_phnum elf)) pagetable ip (i32 (e_phoff elf)) 0;
      match r with
      | inl sz => exec_bad pagetable sz (Some ip)
      | inr sz =>
          in_kfs (iunlockput ip);;
          kend_op;;
          exec_stack i path argv pagetable sz (e_entry elf)
      end
  end.

(** ** [sys_exec] *)
Fixpoint free_args (argv : list Z) : K unit :=
  match argv with
  | [] => mret tt
  | a :: argv => in_phys (kfree a);; free_args argv
  end.
(** Copies the strings of the user's argv to pages: [inl] on failure, with
    the pages allocated so far, [inr] at its null pointer. *)
Fixpoint fetch_args (n : nat) (uargv : Z) (argv : list Z) : K (list Z + list Z) :=
  match n with
  | O => mret (inl argv)
  | S n =>
      r ← fetchaddr (u64 (uargv + 8 * Z.of_nat (length argv)));
      match r with
      | None => mret (inl argv)
      | Some uarg =>
          if uarg =? 0 then mret (inr argv) else
          page ← in_phys kalloc;
          if page =? 0 then mret (inl argv) else
          p ← curproc;
          r ← in_phys (copyinstr (p_pagetable p) uarg PGSIZE);
          in_phys (modify (upd_mem (fun m => stn m page (snd r))));;
          if Datatypes.fst r <? 0 then mret (inl (argv ++ [page])) else
          fetch_args n uargv (argv ++ [page])
      end
  end.
Definition sys_exec : K Z :=
  path ← argstr 0 MAXPATH;
  match path with
  | None => mret ERR
  | Some path =>
      uargv ← argaddr 1;
      r ← fetch_args MAXARG uargv [];
      match r with
      | inl argv => free_args argv;; mret ERR
      | inr argv => ret ← exec path argv; free_args argv;; mret (u64 ret)
      end
  end.
End exec.
