(* ===== verification/Trap.v ===== *)
(** * kernel/trap.c and the dispatch of kernel/syscall.c

    The control and status registers are a record; their accessors in
    kernel/riscv.h are single instructions.  [plic_claim] reads a device
    register: the model lists the values it will return.  The state holds the
    console (with the UART) and the disk's driver beside the kernel proper:
    the interrupt handlers are those of [Console], [Uart] and [Virtio], and
    the channels they wake are woken as they return.  A handler that sleeps,
    exits or yields ends its run there. *)

From S2P Require Import Prelude Mem Riscv Kalloc Vm Pipe Uart Console Sleeplock Bio BioSpec Log Fs File Proc Virtio Syscall Printf Exec.

Definition SSTATUS_SPP : Z := Z.shiftl 1 8.
Definition SSTATUS_SPIE : Z := Z.shiftl 1 5.
Definition SSTATUS_SIE : Z := Z.shiftl 1 1.
Definition UART0_IRQ : Z := 10.
Definition VIRTIO0_IRQ : Z := 1.

Record csr : Type := Csr {
  sstatus : Z;
  sepc : Z;
  scause : Z;
  stval : Z;
  stvec : Z;
  satp : Z;
  tp : Z;
  sip : Z
}.

Record tst (T : Type) : Type := TSt {
  tk : kern T;
  regs : csr;
  claims : list Z;                    (* what plic_claim will return *)
  completes : list Z;                 (* the arguments of plic_complete *)
  tprst : prst;                       (* console, UART, printf.c's pr *)
  tdisk : vdisk                       (* virtio_disk.c's disk *)
}.
Arguments TSt {T} _ _ _ _ _ _.
Arguments tk {T} _.
Arguments regs {T} _.
Arguments claims {T} _.
Arguments completes {T} _.
Arguments tprst {T} _.
Arguments tdisk {T} _.

Section trap.
Context {L : Layout} {T H : Type} {BO : BlockOps T H}.
Context (forkret_pc kernelvec_pc usertrap_pc uservec_off userret_off : Z).
Context (dev_read dev_write : Z -> option (Z -> Z -> M (fsys T) Z)).
Context (garbage pad : list Z).
Abbreviation K := (M (kern T)).
Abbreviation TM := (M (tst T)).

Definition in_kern {A} (m : K A) : TM A := zoom tk (fun x s => TSt x (regs s) (claims s) (completes s) (tprst s) (tdisk s)) m.
Definition set_regs (f : csr -> csr) : TM unit := modify (fun s => TSt (tk s) (f (regs s)) (claims s) (completes s) (tprst s) (tdisk s)).
Definition w_sstatus (x : Z) : TM unit := set_regs (fun r => Csr x (sepc r) (scause r) (stval r) (stvec r) (satp r) (tp r) (sip r)).
Definition w_sepc (x : Z) : TM unit := set_regs (fun r => Csr (sstatus r) x (scause r) (stval r) (stvec r) (satp r) (tp r) (sip r)).
Definition w_stvec (x : Z) : TM unit := set_regs (fun r => Csr (sstatus r) (sepc r) (scause r) (stval r) x (satp r) (tp r) (sip r)).
Definition w_sip (x : Z) : TM unit := set_regs (fun r => Csr (sstatus r) (sepc r) (scause r) (stval r) (stvec r) (satp r) (tp r) x).
Definition intr_on : TM unit := r ← gets regs; w_sstatus (Z.lor (sstatus r) SSTATUS_SIE).
Definition intr_off : TM unit := r ← gets regs; w_sstatus (Z.land (sstatus r) (Z.lnot SSTATUS_SIE)).
(** [printf] of a line. *)
Definition kprintf (fmt : string) (ap : list vararg) : TM unit :=
  zoom tprst (fun x s => TSt (tk s) (regs s) (claims s) (completes s) x (tdisk s)) (printf (str fmt ++ [10]) ap).
Definition plic_claim : TM Z :=
  c ← gets claims;
  match c with
  | [] => mret 0
  | irq :: c => modify (fun s => TSt (tk s) (regs s) c (completes s) (tprst s) (tdisk s));; mret irq
  end.
Definition plic_complete (irq : Z) : TM unit :=
  modify (fun s => TSt (tk s) (regs s) (claims s) (completes s ++ [irq]) (tprst s) (tdisk s)).

(** A routine of the console, run on the kernel's memory; then the channels it
    woke are woken. *)
Definition enter_cons (s : tst T) : cst :=
  let c := pcons (tprst s) in let u := cuart c in
  Cons (fk (ffs (kfsys (tk s)))) (Uart (tx_buf u) (tx_w u) (tx_r u) (panicked u) (lsr u) (rhr u) (wlog u) []) (cbuf c) (cr c) (cw c) (ce c) [].
Definition set_phys (k : kstate) (s : kern T) : kern T :=
  let x := kfsys s in let f := ffs x in
  set_kfsys (Fsys (Fst k (fl f) (itab f) (fsb f) (fpid f) (fpt f) (fcwd f) (fwakes f)) (ftable x) (pipes x) (fkilled x) (fsyswakes x)) s.
Definition leave_cons (c : cst) (s : tst T) : tst T :=
  TSt (set_phys (ck c) (tk s)) (regs s) (claims s) (completes s) (PrSt c (locking (tprst s))) (tdisk s).
Definition in_cons {A} (m : M cst A) : TM A :=
  a ← zoom enter_cons leave_cons m;
  c ← gets (fun s => pcons (tprst s));
  in_kern (wake_all (reverse (cwakes c ++ uwakes (cuart c))));;
  mret a.

(** kernel/uart.c: [uartintr].  [consoleintr] wakes no one when it calls
    [procdump], which prints the table as it is. *)
Definition cons_procdump (lk : bool) (ps : list proc) : M cst unit :=
  zoom (fun c => PrSt c lk) (fun p _ => pcons p) (procdump ps).
Fixpoint uartintr_input (fuel : nat) : TM unit :=
  match fuel with
  | O => spin
  | S fuel =>
      c ← in_cons (zoom cuart set_cuart uartgetc);
      if c =? -1 then mret tt else
      lk ← gets (fun s => locking (tprst s));
      ps ← in_kern (gets procs);
      in_cons (consoleintr (cons_procdump lk ps) c);;
      uartintr_input fuel
  end.
(** Each turn uses at least one value of LSR, and LSR reads 0 at the end. *)
Definition uartintr : TM unit :=
  n ← gets (fun s => length (lsr (cuart (pcons (tprst s)))));
  uartintr_input (S n);;
  acquire uart_tx_lock;;
  in_cons (zoom cuart set_cuart uartstart);;
  release uart_tx_lock.

(** [virtio_disk_intr] of [Virtio], and the processes it wakes. *)
Definition disk_intr : TM unit :=
  zoom (fun s => set_wakes [] (tdisk s)) (fun d s => TSt (tk s) (regs s) (claims s) (completes s) (tprst s) d) virtio_disk_intr;;
  cs ← gets (fun s => vwakes (tdisk s));
  in_kern (wake_all (reverse cs)).

(** ** kernel/syscall.c: dispatch

    The run of a handler ends with the value it returns, or with [None] when
    the process exited or sleeps. *)
Definition returns (m : K Z) : K (option Z) := r ← m; mret (Some r).
Definition gone (m : K unit) : K (option Z) := m;; mret None.
Definition u64_opt (m : K (option Z)) : K (option Z) := r ← m; mret (u64 <$> r).
Definition syscalls (num : Z) : option (K (option Z)) :=
  match num with
  | 1 => Some (returns (sys_fork forkret_pc))
  | 2 => Some (gone sys_exit)
  | 3 => Some (u64_opt sys_wait)
  | 4 => Some (returns sys_pipe)
  | 5 => Some (returns (sys_read dev_read))
  | 6 => Some (returns sys_kill)
  | 7 => Some (returns (sys_exec garbage))
  | 8 => Some (returns (sys_fstat pad))
  | 9 => Some (returns (sys_chdir garbage))
  | 10 => Some (returns sys_dup)
  | 11 => Some (returns sys_getpid)
  | 12 => Some (returns sys_sbrk)
  | 13 => Some sys_sleep
  | 14 => Some (returns sys_uptime)
  | 15 => Some (returns (sys_open garbage))
  | 16 => Some (returns (sys_write dev_write))
  | 17 => Some (returns (sys_mknod garbage))
  | 18 => Some (returns (sys_unlink garbage))
  | 19 => Some (returns (sys_link garbage))
  | 20 => Some (returns (sys_mkdir garbage))
  | 21 => Some (returns sys_close)
  | 22 => Some (returns (sys_getprocs pad))
  | _ => None
  end.
(** [p->trapframe->a0 = ...]; whether the process goes on. *)
Definition syscall : TM bool :=
  p ← in_kern curproc;
  v ← in_kern (tf_load (p_trapframe p) TF_a7);
  let num := i32 v in
  match syscalls num with
  | Some handler =>
      r ← in_kern handler;
      match r with
      | Some v => in_kern (tf_store (p_trapframe p) TF_a0 v);; mret true
      | None => mret false
      end
  | None =>
      kprintf "%d %s: unknown sys call %d" [AInt (p_pid p); AStr (Some (str_of (p_name p))); AInt num];;
      in_kern (tf_store (p_trapframe p) TF_a0 (u64 (-1)));;
      mret true
  end.

(** ** kernel/trap.c *)
Definition trapinit : TM unit := initlock tickslock.
Definition trapinithart : TM unit := w_stvec kernelvec_pc.

Definition clockintr : TM unit :=
  acquire tickslock;;
  in_kern (modify (fun s => Kern (kfsys s) (procs s) (cur s) (nextpid s) (initproc s) (u32 (ticks s + 1)) (first s)));;
  in_kern (wakeup (Some chan_ticks));;
  release tickslock.

Definition devintr : TM Z :=
  r ← gets regs;
  if flag (scause r) (2^63) && (Z.land (scause r) 0xff =? 9) then
    irq ← plic_claim;
    (if irq =? UART0_IRQ then uartintr
     else if irq =? VIRTIO0_IRQ then disk_intr
     else if negb (irq =? 0) then kprintf "unexpected interrupt irq=%d" [AInt irq]
     else mret tt);;
    when (negb (irq =? 0)) (plic_complete irq);;
    mret 1
  else if scause r =? 2^63 + 1 then
    when (tp r =? 0) clockintr;;
    r ← gets regs;
    w_sip (Z.land (sip r) (Z.lnot 2));;
    mret 2
  else mret 0.

(** Returns the argument of [userret]: the user page table, as a satp. *)
Definition usertrapret : TM Z :=
  p ← in_kern curproc;
  intr_off;;
  w_stvec (u64 (TRAMPOLINE + uservec_off));;
  r ← gets regs;
  in_kern (tf_store (p_trapframe p) TF_kernel_satp (satp r));;
  in_kern (tf_store (p_trapframe p) TF_kernel_sp (u64 (p_kstack p + PGSIZE)));;
  in_kern (tf_store (p_trapframe p) TF_kernel_trap usertrap_pc);;
  in_kern (tf_store (p_trapframe p) TF_kernel_hartid (tp r));;
  w_sstatus (Z.lor (Z.land (sstatus r) (Z.lnot SSTATUS_SPP)) SSTATUS_SPIE);;
  epc ← in_kern (tf_load (p_trapframe p) TF_epc);
  w_sepc epc;;
  mret (MAKE_SATP (p_pagetable p)).

(** How a trap from user space ends: back in user space, or with the CPU
    given up, for good or until the process is scheduled again. *)
Inductive trap_end : Type := Resumed (satp : Z) | Exited | Sleeping | Yielded.

Definition usertrap_leave (which_dev : Z) : TM trap_end :=
  p ← in_kern curproc;
  if p_killed p then in_kern (exit (-1));; mret Exited else
  if which_dev =? 2 then in_kern yield_enter;; mret Yielded else
  s ← usertrapret;
  mret (Resumed s).
Definition usertrap : TM trap_end :=
  r ← gets regs;
  if flag (sstatus r) SSTATUS_SPP then panic "usertrap: not from user mode" else
  w_stvec kernelvec_pc;;
  p ← in_kern curproc;
  in_kern (tf_store (p_trapframe p) TF_epc (sepc r));;
  if scause r =? 8 then
    if p_killed p then in_kern (exit (-1));; mret Exited else
    epc ← in_kern (tf_load (p_trapframe p) TF_epc);
    in_kern (tf_store (p_trapframe p) TF_epc (u64 (epc + 4)));;
    intr_on;;
    go ← syscall;
    if negb go then mret Sleeping else usertrap_leave 0
  else
    which_dev ← devintr;
    when (which_dev =? 0)
      (kprintf "usertrap(): unexpected scause %p pid=%d" [APtr (scause r); AInt (p_pid p)];;
       r ← gets regs;
       kprintf "            sepc=%p stval=%p" [APtr (sepc r); APtr (stval r)];;
       i ← in_kern myproc;
       in_kern (modify (updp i (set_killed true))));;
    usertrap_leave which_dev.
(** The process is scheduled again after [yield]. *)
Definition usertrap_yielded : TM Z := in_kern yield_leave;; usertrapret.

(** [Some (sepc, sstatus)]: the interrupted code yields; [kerneltrap_back]
    runs when it is scheduled again. *)
Definition kerneltrap : TM (option (Z * Z)) :=
  r ← gets regs;
  if negb (flag (sstatus r) SSTATUS_SPP) then panic "kerneltrap: not from supervisor mode" else
  if flag (sstatus r) SSTATUS_SIE then panic "kerneltrap: interrupts enabled" else
  which_dev ← devintr;
  if which_dev =? 0 then
    kprintf "scause %p" [APtr (scause r)];;
    r ← gets regs;
    kprintf "sepc=%p stval=%p" [APtr (sepc r); APtr (stval r)];;
    panic "kerneltrap"
  else
    c ← in_kern (gets cur);
    running ← (match c with
               | Some i => in_kern (gets (fun s => bool_decide (p_state (getp s i) = RUNNING)))
               | None => mret false
               end);
    if (which_dev =? 2) && running then
      in_kern yield_enter;;
      mret (Some (sepc r, sstatus r))
    else
      w_sepc (sepc r);;
      w_sstatus (sstatus r);;
      mret None.
Definition kerneltrap_back (sepc sstatus : Z) : TM unit :=
  in_kern yield_leave;;
  w_sepc sepc;;
  w_sstatus sstatus.
End trap.
