(* ===== verification/SyscallProps.v ===== *)
(** * System calls and traps keep the process table well formed

    The running process of [works i] may change its own entry; it stays
    RUNNING until its handler returns.  [parked i] is the state in which a
    run of the process has ended: the scheduler takes over.  [sysstep] is the
    kernel on one CPU, with traps, system calls, interrupts and scheduling. *)

From S2P Require Import Prelude Mem CString Riscv Kalloc Vm Pipe Uart Console Sleeplock Bio BioSpec Log LogOps Fs File Hoare Virtio Proc ProcSpec ProcInv ProcProps Syscall Printf Exec Trap.

Section works.
Context {L : Layout} {T H : Type} {BO : BlockOps T H}.
Context (forkret_pc : Z) (dev_read dev_write : Z -> option (Z -> Z -> M (fsys T) Z)) (garbage pad : list Z).
Abbreviation K := (M (kern T)).
Abbreviation tri := (triple (S := kern T)).
Implicit Types s : kern T.

Definition works (i : nat) s : Prop := exists p, p_state p = RUNNING /\ idle (Some (i, p)) s.
Definition parked (i : nat) s : Prop := exists p, p_state p <> RUNNING /\ idle (Some (i, p)) s.

Lemma stable_works i : stable (works i).
Proof.
  split; [done|]. intros s j c (p & Hp & Hs) Hj. exists p. split; [done|]. by apply stable_idle.
Qed.
Hint Resolve stable_works : hoare.

Lemma works_cur i s : works i s -> cur s = Some i.
Proof. by intros (p & _ & _ & ? & _). Qed.
Lemma parked_cur i s : parked i s -> cur s = Some i.
Proof. by intros (p & _ & _ & ? & _). Qed.
Lemma works_quiet i s : works i s -> quiet s.
Proof. intros (p & Hp & Hs). by apply (idle_quiet (Some (i, p))). Qed.

(** The process changes its own entry. *)
Lemma t_own i f :
  (forall q nx c, p_state q = RUNNING -> proc_ok nx c i q -> proc_ok nx c i (f q)) ->
  (forall q, p_state q = RUNNING -> p_state (f q) = RUNNING /\ p_pid (f q) = p_pid q) ->
  tri (works i) (modify (updp i f)) (fun _ => works i).
Proof.
  intros Hok Hf. apply t_exists. intros p. apply t_pure. intros Hp. destruct (Hf p Hp) as [Hs Hpid].
  eapply t_post; [apply t_upd_me|].
  - intros nx c. by apply Hok.
  - intros _. unfold live. split; [congruence|done].
  - intros ? s Hi. by exists (f p).
Qed.

Lemma t_curproc {A} i (k : proc -> K A) Q :
  (forall p, p_state p = RUNNING -> tri (works i) (k p) Q) -> tri (works i) (curproc ≫= k) Q.
Proof.
  intros Hk h s a w' Hw E. unfold curproc in E. rewrite bind_assoc in E. revert E.
  assert (tri (works i) (myproc ≫= (fun i => gets (fun s => getp s i) ≫= k)) Q) as Ht; [|apply Ht; exact Hw].
  apply (t_myproc _ i); [apply works_cur|]. intros h1 s1 a1 w1 Hw1 E1. rewrite gets_run in E1.
  destruct Hw1 as (p & Hp & Hi). rewrite (getp_lookup s1 i p) in E1 by apply Hi. eapply Hk; [exact Hp| |exact E1]. by exists p.
Qed.

(** Handlers made of file-system calls, argument reads and updates of the
    process's own entry. *)
Definition own (i : nat) (f : proc -> proc) : Prop :=
  (forall q nx c, p_state q = RUNNING -> proc_ok nx c i q -> proc_ok nx c i (f q)) /\
  (forall q, p_state q = RUNNING -> p_state (f q) = RUNNING /\ p_pid (f q) = p_pid q).
Lemma own_ofile i g : (forall o, length o = NOFILE -> length (g o) = NOFILE) -> own i (fun q => set_ofile (g (p_ofile q)) q).
Proof.
  intros Hg. split; [|done]. intros q nx c Hq [Hu Hf Hn ? ? ? ?]. split; cbn; try done; first [by apply Hg|intros [|]; congruence].
Qed.
Lemma own_cwd i c : own i (set_cwd c).
Proof. split; [|done]. intros q nx cu Hq [Hu Hf Hn ? ? ? ?]. split; cbn; try done; intros [|]; congruence. Qed.
Lemma own_name i g : own i (fun q => set_name (g q) q).
Proof. split; [|done]. intros q nx cu Hq [Hu Hf Hn ? ? ? ?]. by split. Qed.
Lemma own_killed i b : own i (set_killed b).
Proof. split; [|done]. intros q nx cu Hq [Hu Hf Hn ? ? ? ?]. by split. Qed.
Lemma own_image i sz pt : pt <> 0 -> own i (fun q => set_sz sz (set_pagetable pt q)).
Proof.
  intros Hpt. split; [|done]. intros q nx cu Hq [Hu Hf Hn ? Hm ? ?]. split; cbn; try done; try congruence.
  intros Hs. split; [|done]. apply Hm. by right; right.
Qed.

(** [keeps i m]: the handler [m] of process [i] keeps the table. *)
Definition keeps {A} (i : nat) (m : K A) : Prop := tri (works i) m (fun _ => works i).

Lemma k_bind {A B} i (m : K A) (k : A -> K B) : keeps i m -> (forall a, keeps i (k a)) -> keeps i (m ≫= k).
Proof. intros Hm Hk. eapply t_seq; [exact Hm|exact Hk]. Qed.
Lemma k_ret {A} i (a : A) : keeps i (mret a).
Proof. by apply t_ret'. Qed.
Lemma k_panic {A} i msg : keeps i (panic (A := A) msg).
Proof. apply t_panic. Qed.
Lemma k_gets {A} i (f : kern T -> A) : keeps i (gets f).
Proof. eapply t_post; [apply t_gets|]. naive_solver. Qed.
Lemma k_when i b (m : K unit) : keeps i m -> keeps i (when b m).
Proof. apply t_when. Qed.
Lemma k_files {A} i (m : M (fsys T) A) : keeps i (in_files m).
Proof. apply t_in_files, stable_works. Qed.
Lemma k_kfs {A} i (m : M (fst T) A) : keeps i (in_kfs m).
Proof. apply k_files. Qed.
Lemma k_phys {A} i (m : M kstate A) : keeps i (in_phys m).
Proof. apply k_files. Qed.
Lemma k_own i f : own i f -> keeps i (modify (updp i f)).
Proof. intros [Hok Hs]. by apply t_own. Qed.
Lemma k_me {A} i (k : nat -> K A) : keeps i (k i) -> keeps i (myproc ≫= k).
Proof. intros Hk. apply (t_myproc _ i); [apply works_cur|exact Hk]. Qed.
Lemma k_acquire i lk : keeps i (acquire lk).
Proof. apply t_acquire. Qed.
Lemma k_release i lk : keeps i (release lk).
Proof. apply t_release. Qed.
Lemma k_wakeup i c : keeps i (wakeup c).
Proof. apply t_wakeup, stable_works. Qed.
Lemma k_curproc i : keeps i curproc.
Proof. unfold curproc. apply k_me, k_gets. Qed.
Lemma k_proc_pagetable i j : keeps i (proc_pagetable j).
Proof. apply t_proc_pagetable, stable_works. Qed.
Lemma k_freepagetable i pt sz : keeps i (proc_freepagetable pt sz).
Proof. apply t_proc_freepagetable, stable_works. Qed.
Lemma k_kill i pid : keeps i (kill pid).
Proof.
  intros h s a w' Hw E. pose proof (t_kill_loop pid _ _ _ _ _ (works_quiet i s Hw) E) as Hq.
  assert (cur (st w') = cur s) as Hc.
  { revert E. unfold kill. assert (tri (fun s' => cur s' = cur s) (kill_loop pid (seq 0 PNPROC)) (fun _ s' => cur s' = cur s)) as Ht; [|intros E; by apply (Ht _ _ _ _ eq_refl E)].
    generalize (seq 0 PNPROC). intros is_. induction is_ as [|j is_ IH]; cbn [kill_loop]; [by apply t_ret'|]. t_skip. apply t_read. intros p.
    destruct (_ =? _); [|t_skip; eapply t_pre; [exact IH|naive_solver]].
    eapply (t_seq _ _ _ (fun s' => cur s' = cur s)); [apply t_modify; naive_solver|]. intros _.
    eapply t_seq; [apply t_when, t_modify; naive_solver|]. intros _. t_skip. by apply t_ret'. }
  rewrite (works_cur _ _ Hw) in Hc. by apply quiet_cur.
Qed.
End works.

#[export] Hint Resolve k_ret k_panic k_gets k_files k_kfs k_phys k_acquire k_release k_wakeup k_curproc k_proc_pagetable k_freepagetable k_kill : hoare.
#[export] Hint Resolve own_cwd own_name own_killed : hoare.

(** Follows the statements of a handler. *)
Ltac k_step :=
  lazymatch goal with
  | |- keeps _ (myproc ≫= _) => apply k_me
  | |- keeps _ (_ ≫= _) => apply k_bind; [|intros ?]
  | |- keeps _ (when _ _) => apply k_when
  | |- keeps _ (modify (updp _ _)) => apply k_own
  | |- keeps _ (match ?x with _ => _ end) => destruct x
  | |- keeps _ undefined => apply k_panic
  end.
Ltac k_tac := repeat k_step; eauto with hoare.

Section handlers.
Context {L : Layout} {T H : Type} {BO : BlockOps T H}.
Context (forkret_pc : Z) (dev_read dev_write : Z -> option (Z -> Z -> M (fsys T) Z)) (garbage pad : list Z).
Abbreviation K := (M (kern T)).
Abbreviation tri := (triple (S := kern T)).
Implicit Types s : kern T.
Variable i : nat.

Abbreviation keep := (keeps (T := T) i).

Lemma own_sz sz : own i (set_sz sz).
Proof. split; [|done]. intros q nx cu Hq [Hu Hf Hn ? ? ? ?]. split; cbn; try done; congruence. Qed.
Lemma own_fd fd f : own i (fun q => set_ofile (<[fd := f]> (p_ofile q)) q).
Proof. apply (own_ofile i (fun o => <[fd := f]> o)). intros o. by rewrite length_insert. Qed.
Lemma own_fds fds : own i (fun q => set_ofile (foldl (fun o fd => <[fd := None]> o) (p_ofile q) fds) q).
Proof.
  apply (own_ofile i (fun o => foldl (fun o fd => <[fd := None]> o) o fds)).
  induction fds as [|fd fds IH]; intros o Ho; [done|]. cbn. apply IH. by rewrite length_insert.
Qed.
Hint Resolve own_sz own_fd own_fds : hoare.

Lemma k_argraw n : keep (argraw n).
Proof. unfold argraw, tf_load. k_tac. Qed.
Hint Resolve k_argraw : hoare.
Lemma k_argint n : keep (argint n).
Proof. unfold argint. k_tac. Qed.
Lemma k_argaddr n : keep (argaddr n).
Proof. unfold argaddr. k_tac. Qed.
Hint Resolve k_argint k_argaddr : hoare.
Lemma k_fetchaddr a : keep (fetchaddr a).
Proof. unfold fetchaddr. k_tac. Qed.
Lemma k_argstr n max : keep (argstr n max).
Proof. unfold argstr, fetchstr. k_tac. Qed.
Lemma k_argfd n : keep (argfd n).
Proof. unfold argfd. k_tac. Qed.
Lemma k_fdalloc f : keep (fdalloc f).
Proof. unfold fdalloc, set_fd. k_tac. Qed.
Hint Resolve k_fetchaddr k_argstr k_argfd k_fdalloc : hoare.

Lemma k_growproc n : keep (growproc n).
Proof. unfold growproc. k_tac. Qed.
Hint Resolve k_growproc : hoare.
Lemma k_procinfo a : keep (procinfo a pad).
Proof.
  unfold procinfo. apply k_me. apply k_bind; [k_tac|]. intros p. generalize 0. revert a. generalize (seq 0 PNPROC). intros is_.
  induction is_ as [|j is_ IH]; intros a n; cbn [procinfo_loop]; k_tac.
Qed.
Hint Resolve k_procinfo : hoare.

Lemma k_sys_pipe : keep sys_pipe.
Proof. unfold sys_pipe, close_both. k_tac. Qed.
Lemma k_sys_open : keep (sys_open garbage).
Proof. unfold sys_open, open_bad, kbegin_op, kend_op. k_tac. Qed.
Lemma k_make_node p ty ma mi : keep (make_node garbage p ty ma mi).
Proof. unfold make_node, kend_op. k_tac. Qed.
Hint Resolve k_make_node : hoare.
Lemma k_sys_chdir : keep (sys_chdir garbage).
Proof. unfold sys_chdir, kbegin_op, kend_op. k_tac. Qed.

Lemma k_exec_bad pt sz ip : keep (exec_bad pt sz ip).
Proof. unfold exec_bad, kend_op. k_tac. Qed.
Hint Resolve k_exec_bad : hoare.
Lemma k_load_segments n pt ip off sz : keep (load_segments n pt ip off sz).
Proof. revert off sz. induction n as [|n IH]; intros off sz; cbn [load_segments]; k_tac. Qed.
Lemma k_push_args pt base argv sp us : keep (push_args pt base argv sp us).
Proof. revert sp us. induction argv as [|a argv IH]; intros sp us; cbn [push_args]; k_tac. Qed.
Hint Resolve k_load_segments k_push_args : hoare.
Lemma k_exec_commit path pt sz entry sp argc : pt <> 0 -> keep (exec_commit i path pt sz entry sp argc).
Proof. intros Hpt. pose proof (own_image i sz pt Hpt). unfold exec_commit, tf_store. k_tac. Qed.
Lemma k_exec path argv : keep (exec garbage path argv).
Proof.
  unfold exec, kbegin_op, kend_op. apply k_me. do 2 (apply k_bind; [k_tac|intros ?]). destruct a0 as [ip|]; [|k_tac].
  do 2 (apply k_bind; [k_tac|intros ?]). destruct (negb _); [k_tac|]. destruct (negb _); [k_tac|].
  apply k_bind; [k_tac|]. intros pt. destruct (Z.eqb_spec pt 0) as [|Hpt]; [k_tac|]. pose proof k_exec_commit as Hc. unfold exec_stack. k_tac.
Qed.
Hint Resolve k_exec : hoare.
Lemma k_free_args argv : keep (free_args argv).
Proof. induction argv as [|a argv IH]; cbn [free_args]; k_tac. Qed.
Lemma k_fetch_args n u argv : keep (fetch_args n u argv).
Proof. revert argv. induction n as [|n IH]; intros argv; cbn [fetch_args]; k_tac. Qed.
Hint Resolve k_free_args k_fetch_args : hoare.
Lemma k_sys_exec : keep (sys_exec garbage).
Proof. unfold sys_exec. k_tac. Qed.

(** A handler that may end the run of the process. *)
Definition ended (m : K (option Z)) : Prop :=
  tri (fun s => nextpid s < pid_limit /\ works i s) m (fun r s => match r with Some _ => works i s | None => parked i s end).
Lemma e_returns (m : K Z) : keep m -> ended (returns m).
Proof. intros Hm. unfold ended, returns. eapply t_seq; [eapply t_pre; [exact Hm|naive_solver]|]. intros v. by apply t_ret'. Qed.

Lemma e_fork : ended (returns (sys_fork forkret_pc)).
Proof.
  unfold ended, returns, sys_fork. eapply (t_seq _ _ _ (works i)); [|intros; by apply t_ret'].
  eapply (t_seq _ _ _ (works i)); [|intros; by apply t_ret'].
  intros h s r w' [Hn (p & Hp & Hs)] E.
  destruct (t_fork forkret_pc i p (nextpid s) Hp Hn _ _ _ _ (conj eq_refl Hs) E) as [[_ Hi]|(_ & np & q & _ & Hi & _)]; by exists p.
Qed.
Lemma e_exit n : tri (works i) (exit n) (fun _ => parked i).
Proof.
  apply t_exists. intros p. apply t_pure. intros Hp. eapply t_post; [by apply t_exit|].
  intros _ s (q & Hz & _ & _ & _ & Hs). exists q. split; [congruence|done].
Qed.
Lemma e_sys_exit : ended (gone sys_exit).
Proof.
  unfold ended, gone, sys_exit. eapply (t_seq _ _ _ (parked i)); [|intros; by apply t_ret'].
  eapply t_seq; [eapply t_pre; [apply k_argint|naive_solver]|]. intros n. apply e_exit.
Qed.
Lemma e_wait : ended (u64_opt sys_wait).
Proof.
  unfold ended, u64_opt, sys_wait. eapply (t_bind _ _ _ (fun r s => match r with Some _ => works i s | None => parked i s end)).
  - eapply t_seq; [eapply t_pre; [apply k_argaddr|naive_solver]|]. intros a. unfold wait. t_skip.
    apply t_exists. intros p. apply t_pure. intros Hp. eapply t_post; [by apply (t_wait_runs i p)|].
    intros [v|] s (q & Hq & Hs); exists q; (split; [|done]); congruence.
  - intros [v|]; by apply t_ret'.
Qed.
Lemma e_sleep_enter c lk : tri (works i) (sleep_enter c lk) (fun _ => parked i).
Proof.
  apply t_exists. intros p. apply t_pure. intros Hp. eapply t_post; [by apply t_sleep_enter|]. intros ? s Hs. eexists. split; [|exact Hs]. done.
Qed.
Lemma e_yield_enter : tri (works i) yield_enter (fun _ => parked i).
Proof.
  apply t_exists. intros p. apply t_pure. intros Hp. eapply t_post; [by apply t_yield_enter|]. intros ? s Hs. eexists. split; [|exact Hs]. done.
Qed.
Lemma e_sleep : ended sys_sleep.
Proof.
  unfold ended, sys_sleep, sys_sleep_run. eapply t_seq; [eapply t_pre; [apply k_argint|naive_solver]|]. intros n. t_skip.
  eapply t_seq; [apply (k_gets i)|]. intros t0. eapply t_seq; [apply (k_gets i)|]. intros t. destruct (_ <? _).
  - eapply t_seq; [apply (k_curproc i)|]. intros p. destruct (p_killed p).
    + t_skip. by apply t_ret'.
    + eapply t_seq; [apply e_sleep_enter|]. intros _. by apply t_ret'.
  - t_skip. by apply t_ret'.
Qed.

Lemma e_syscalls num m : syscalls forkret_pc dev_read dev_write garbage pad num = Some m -> ended m.
Proof.
  unfold syscalls. intros E.
  repeat match type of E with context [match ?x with _ => _ end] => destruct x; try discriminate E end; injection E as <-;
    first [apply e_fork | apply e_sys_exit | apply e_wait | apply e_sleep | apply e_returns].
  all: unfold sys_uptime, sys_getprocs, sys_kill, sys_sbrk, sys_getpid, sys_dup, sys_read, sys_write, sys_close, sys_fstat, sys_link, sys_unlink, sys_mkdir, sys_mknod, set_fd, kbegin_op, kend_op;
    eauto using k_sys_pipe, k_sys_open, k_sys_chdir, k_sys_exec with hoare; k_tac.
Qed.
End handlers.

Section traps.
Context {L : Layout} {T H : Type} {BO : BlockOps T H}.
Context (forkret_pc kernelvec_pc usertrap_pc uservec_off userret_off : Z).
Context (dev_read dev_write : Z -> option (Z -> Z -> M (fsys T) Z)) (garbage pad : list Z).
Variable i : nat.

Definition on (P : kern T -> Prop) (s : tst T) : Prop := P (tk s).
Abbreviation tri := (triple (S := tst T)).
Abbreviation usertrap := (usertrap forkret_pc kernelvec_pc usertrap_pc uservec_off dev_read dev_write garbage pad).
Lemma t_in_kern {A} P (m : M (kern T) A) Q : triple P m Q -> tri (on P) (in_kern m) (fun a => on (Q a)).
Proof.
  intros Hm h s a w' HP E. unfold in_kern, zoom in E. destruct (m _) as [b w1| | |] eqn:Em; try done. injection E as <- <-.
  apply (Hm _ _ _ _ HP Em).
Qed.
Lemma t_kern {A} P (m : M (kern T) A) Q : triple P m (fun _ => Q) -> tri (on P) (in_kern m) (fun _ => on Q).
Proof. apply t_in_kern. Qed.
Lemma t_regs P (f : csr -> csr) : tri (on P) (set_regs f) (fun _ => on P).
Proof. apply t_modify. by intros s. Qed.
(** A step on a part of the state that is not the kernel's. *)
Lemma t_aside {S A} P (get : tst T -> S) put (m : M S A) :
  (forall x s, P (tk s) -> P (tk (put x s))) -> tri (on P) (zoom get put m) (fun _ => on P).
Proof. intros Hp h s a w' HP E. unfold zoom in E. destruct (m _) as [b w1| | |]; try done. injection E as <- <-. by apply Hp. Qed.
Lemma t_print P fmt ap : tri (on P) (kprintf fmt ap) (fun _ => on P).
Proof. by apply t_aside. Qed.
Lemma t_get_regs P : tri (on P) (gets regs) (fun _ => on P).
Proof. eapply t_post; [apply t_gets|]. naive_solver. Qed.
Lemma t_keeps {A} (m : M (kern T) A) : keeps i m -> tri (on (works i)) (in_kern m) (fun _ => on (works i)).
Proof. apply t_in_kern. Qed.

Ltac r_step := eapply t_seq; [first [apply t_regs | apply t_print | apply t_get_regs | apply t_keeps; solve [unfold tf_store, tf_load; eauto with hoare]]|intros ?; cbv beta].

Lemma t_syscall :
  tri (on (fun s => nextpid s < pid_limit /\ works i s)) (syscall forkret_pc dev_read dev_write garbage pad)
    (fun go => on (if go : bool then works i else parked i)).
Proof.
  unfold syscall. assert (stable (T := T) (fun s => nextpid s < pid_limit /\ works i s)) as Hst by (apply stable_and; [apply (stable_next (fun n => n < pid_limit))|apply stable_works]).
  eapply t_bind.
  { apply (t_in_kern _ curproc (fun _ s => nextpid s < pid_limit /\ works i s)). intros h s a w' [Hn Hw] E. split; [|by apply (k_curproc i _ _ _ _ Hw E)].
    unfold curproc, myproc in E. rewrite !bind_assoc, gets_run in E. destruct (cur s); [|done]. by injection E as _ <-. }
  intros p. eapply t_bind; [apply t_kern, t_in_phys, Hst|]. intros v. cbv beta.
  destruct (syscalls _ _ _ _ _ _) as [m|] eqn:Em.
  - eapply t_bind; [apply t_in_kern; by eapply e_syscalls|]. intros [r|]; [|by apply t_ret'].
    eapply t_seq; [apply t_keeps; apply k_phys|]. intros _. by apply t_ret'.
  - eapply t_pre; [|intros s [_ Hw]; exact Hw]. r_step. eapply t_seq; [apply t_keeps, k_phys|]. intros _. by apply t_ret'.
Qed.

(** The interrupt handlers change nothing of the process table but the
    sleepers they wake. *)
Record calm (P : kern T -> Prop) : Prop := {
  calm_stable : stable P;
  calm_ticks : forall s t, P s -> P (Kern (kfsys s) (procs s) (cur s) (nextpid s) (initproc s) t (first s))
}.
Lemma t_in_cons {A} P (m : M cst A) : stable P -> tri (on P) (in_cons m) (fun _ => on P).
Proof.
  intros HP. unfold in_cons. eapply t_seq; [apply t_aside; intros c s; apply HP|]. intros a. eapply t_seq; [eapply t_post; [apply t_gets|]; naive_solver|].
  intros c. eapply t_seq; [by apply t_kern, t_wake_all|]. intros _. by apply t_ret'.
Qed.
Lemma t_uartintr P : stable P -> tri (on P) uartintr (fun _ => on P).
Proof.
  intros HP. unfold uartintr. eapply t_seq; [eapply t_post; [apply t_gets|]; naive_solver|]. intros n.
  eapply (t_seq _ _ _ (on P)).
  { generalize (Datatypes.S n). intros fuel. induction fuel as [|fuel IH]; cbn [uartintr_input]; [apply t_spin|].
    eapply t_seq; [by apply t_in_cons|]. intros c. destruct (_ =? _); [by apply t_ret'|].
    eapply t_seq; [eapply t_post; [apply t_gets|]; naive_solver|]. intros lk.
    eapply t_seq; [apply t_kern; eapply t_post; [apply t_gets|]; naive_solver|]. intros ps.
    eapply t_seq; [by apply t_in_cons|]. by intros _. }
  intros _. t_skip. eapply t_seq; [by apply t_in_cons|]. intros _. apply t_release.
Qed.
Lemma t_disk_intr P : stable P -> tri (on P) disk_intr (fun _ => on P).
Proof.
  intros HP. unfold disk_intr. eapply t_seq; [by apply t_aside|]. intros _. eapply t_seq; [eapply t_post; [apply t_gets|]; naive_solver|].
  intros cs. by apply t_kern, t_wake_all.
Qed.
Lemma t_clockintr P : calm P -> tri (on P) clockintr (fun _ => on P).
Proof.
  intros [HP Ht]. unfold clockintr. t_skip. eapply t_seq; [apply t_kern; apply (t_modify _ _ P); intros s; apply Ht|]. intros _.
  eapply t_seq; [by apply t_kern, t_wakeup|]. intros _. apply t_release.
Qed.

Lemma t_devintr P : calm P -> tri (on P) devintr (fun _ => on P).
Proof.
  intros HP. pose proof (calm_stable P HP) as Hst. unfold devintr. r_step. destruct (_ && _).
  - eapply (t_seq _ _ _ (on P)).
    { unfold plic_claim. apply t_read. intros [|irq c]; [apply t_ret'; naive_solver|].
      eapply (t_seq _ _ _ (on P)); [apply t_modify; by intros s [_ ?]|]. intros _. by apply t_ret'. }
    intros irq. eapply (t_seq _ _ _ (on P)).
    { destruct (_ =? _); [by apply t_uartintr|]. destruct (_ =? _); [by apply t_disk_intr|]. destruct (negb _); [apply t_print|by apply t_ret']. }
    intros _. eapply t_seq; [apply t_when, t_modify; by intros s|]. intros _. by apply t_ret'.
  - destruct (_ =? _); [|by apply t_ret']. eapply t_seq; [by apply t_when, t_clockintr|]. intros _. r_step. unfold w_sip. r_step. by apply t_ret'.
Qed.
Lemma calm_works : calm (works i).
Proof. split; [apply stable_works|]. by intros s t. Qed.

Lemma t_usertrapret : tri (on (works i)) (usertrapret usertrap_pc uservec_off) (fun _ => on (works i)).
Proof.
  unfold usertrapret, intr_off, w_sstatus, w_stvec, w_sepc. r_step. eapply t_seq; [r_step; apply t_regs|]. intros ?.
  do 9 r_step. by apply t_ret'.
Qed.

Definition trap_post (r : trap_end) : tst T -> Prop := on (match r with Resumed _ => works i | _ => parked i end).

Lemma t_leave d : tri (on (works i)) (usertrap_leave usertrap_pc uservec_off d) trap_post.
Proof.
  unfold usertrap_leave. r_step. destruct (p_killed a).
  - eapply t_seq; [apply t_kern, e_exit|]. intros _. by apply t_ret'.
  - destruct (d =? 2).
    + eapply t_seq; [apply t_kern, e_yield_enter|]. intros _. by apply t_ret'.
    + eapply t_seq; [apply t_usertrapret|]. intros r. by apply t_ret'.
Qed.

Lemma t_usertrap : tri (on (fun s => nextpid s < pid_limit /\ works i s)) usertrap trap_post.
Proof.
  unfold Trap.usertrap. assert (stable (T := T) (fun s => nextpid s < pid_limit /\ works i s)) as Hst by (apply stable_and; [apply (stable_next (fun n => n < pid_limit))|apply stable_works]).
  r_step. destruct (flag _ _); [apply t_panic|]. unfold w_stvec. r_step.
  eapply t_bind.
  { apply (t_in_kern _ curproc (fun _ s => nextpid s < pid_limit /\ works i s)). intros h s p w' [Hn Hw] E. split; [|by apply (k_curproc i _ _ _ _ Hw E)].
    unfold curproc, myproc in E. rewrite !bind_assoc, gets_run in E. destruct (cur s); [|done]. by injection E as _ <-. }
  intros p. unfold tf_store, tf_load. eapply t_bind; [apply t_kern, t_in_phys, Hst|]. intros ?. cbv beta. destruct (_ =? 8).
  - destruct (p_killed p).
    { eapply t_pre; [eapply t_seq; [apply t_kern, e_exit|]; intros _; by apply t_ret'|]. by intros s [_ ?]. }
    eapply t_bind; [apply t_kern, t_in_phys, Hst|]. intros epc. cbv beta. eapply t_bind; [apply t_kern, t_in_phys, Hst|]. intros ?. cbv beta.
    unfold intr_on, w_sstatus. eapply t_bind; [r_step; apply t_regs|]. intros ?. cbv beta.
    eapply t_bind; [apply t_syscall|]. intros [|]; cbn [negb]; [apply t_leave|by apply t_ret'].
  - eapply t_pre; [|intros s [_ Hw]; exact Hw]. eapply t_seq; [apply t_devintr, calm_works|]. intros d. eapply t_seq; [|intros ?; apply t_leave].
    apply t_when. r_step. r_step. r_step.
    eapply (t_bind _ _ _ (fun j => on (fun s => j = i /\ works i s))).
    { apply t_in_kern. intros h s j w' Hw E. unfold myproc in E. rewrite gets_run, (works_cur _ _ Hw) in E. by injection E as <- <-. }
    intros j. apply t_pure. intros ->. apply t_keeps, k_own, own_killed.
Qed.

(** ** Traps from the kernel *)
Lemma stable_stopped : stable (T := T) stopped.
Proof. apply stable_and; [apply stable_Inv|by split]. Qed.
Lemma calm_stopped : calm stopped.
Proof. split; [apply stable_stopped|by intros s t]. Qed.

Lemma t_kerneltrap (P : kern T -> Prop) (Q : bool -> kern T -> Prop) :
  calm P -> (forall s, P s -> Q false s) -> triple (fun s => (exists j, cur s = Some j) /\ P s) yield_enter (fun _ => Q true) ->
  tri (on P) (kerneltrap (T := T)) (fun r => on (Q (bool_decide (is_Some r)))).
Proof.
  intros HP Hno Hy. unfold kerneltrap. r_step. destruct (negb _); [apply t_panic|]. destruct (flag _ _); [apply t_panic|].
  eapply t_seq; [by apply t_devintr|]. intros d. destruct (d =? 0).
  { r_step. r_step. r_step. apply t_panic. }
  eapply (t_bind _ _ _ (fun c => on (fun s => cur s = c /\ P s))).
  { apply t_in_kern. eapply t_post; [apply t_gets|]. intros c s [-> Hs]. done. }
  intros c. eapply (t_bind _ _ _ (fun b => on (fun s => (b = true -> exists j, cur s = Some j) /\ P s))).
  { destruct c as [j|]; [|apply t_ret'; intros s [_ Hs]; by split].
    apply t_in_kern. eapply t_post; [apply t_gets|]. intros b s (_ & Hc & Hs). split; [by exists j|done]. }
  intros b. destruct ((d =? 2) && b) eqn:Eb.
  - apply andb_true_iff in Eb as [_ ->]. eapply t_seq.
    + apply t_kern. eapply t_pre; [exact Hy|]. intros s [Hc Hs]. split; [by apply Hc|done].
    + intros _. by apply t_ret'.
  - eapply t_pre; [|intros s [_ Hs]; exact Hs]. unfold w_sepc, w_sstatus. r_step. r_step. apply t_ret'. intros s Hs. apply Hno, Hs.
Qed.
Lemma t_kerneltrap_on : tri (on (works i)) (kerneltrap (T := T)) (fun r => on (if bool_decide (is_Some r) then parked i else works i)).
Proof.
  apply (t_kerneltrap (works i) (fun b => if b : bool then parked i else works i)); [apply calm_works|done|].
  eapply t_pre; [apply e_yield_enter|]. naive_solver.
Qed.
Lemma t_kerneltrap_off : tri (on stopped) (kerneltrap (T := T)) (fun r => on (fun s => r = None /\ stopped s)).
Proof.
  eapply t_post; [apply (t_kerneltrap stopped (fun b s => b = false /\ stopped s)); [apply calm_stopped|done|]|].
  - intros h s a w' [[j Hj] [_ Hc]]. congruence.
  - intros [x|] s [Hb Hs]; [done|by split].
Qed.

Lemma t_parked_back : triple (S := kern T) (parked i) (scheduler_back i) (fun _ => stopped).
Proof. apply t_exists. intros p. apply t_pure. apply t_scheduler_back. Qed.
Lemma stopped_quiet (k : kern T) : stopped k -> quiet k.
Proof. intros [I Hc]. split; [done|by right]. Qed.

(** C25: a trap from user space - a system call, an interrupt or a fault -
    keeps the process table well formed.  When it returns to user space the
    process is still the one RUNNING on the CPU; when the process exits,
    sleeps or yields, the scheduler finds a well-formed table with nobody
    running.  The handlers of the clock, the UART and the disk run with the
    trap.  [nextpid] is an [int]: the theorem covers the first 2^31 - 2
    processes.  A run that goes to sleep inside the file layer (outcome
    [Blocked]) is not covered here; [sysstep] takes such a call in pieces. *)
Theorem traps_keep_table h (s : tst T) r w' :
  nextpid (tk s) < pid_limit -> works i (tk s) -> usertrap (World h s) = Ok r w' ->
  let k := tk (st w') in
  match r with
  | Resumed _ => ptable_ok (procs k) (nextpid k) (cur k) /\ exists p, procs k !! i = Some p /\ p_state p = RUNNING /\ cur k = Some i
  | _ => forall h' w2, scheduler_back i (World h' k) = Ok tt w2 -> ptable_ok (procs (st w2)) (nextpid (st w2)) None /\ cur (st w2) = None
  end.
Proof.
  intros Hn Hw E k. pose proof (t_usertrap _ _ _ _ (conj Hn Hw) E) as Hp. unfold trap_post, on in Hp. fold k in Hp.
  assert (parked i k -> forall h' w2, scheduler_back i (World h' k) = Ok tt w2 -> ptable_ok (procs (st w2)) (nextpid (st w2)) None /\ cur (st w2) = None) as Hpark.
  { intros (p & Hs & Hi) h' w2 E2. destruct (t_scheduler_back i p Hs _ _ _ _ Hi E2) as [I Hc]. unfold Inv in I. by rewrite Hc in I. }
  destruct r; [|exact (Hpark Hp)..]. destruct Hp as (p & Hr & I & Hc & Hi). split; [done|]. by exists p.
Qed.
End traps.

Section machine.
Context {L : Layout} {T H : Type} {BO : BlockOps T H}.
Context (forkret_pc initcode_pa kernelvec_pc usertrap_pc uservec_off : Z).
Context (dev_read dev_write : Z -> option (Z -> Z -> M (fsys T) Z)) (garbage pad : list Z).
Abbreviation usertrap := (usertrap forkret_pc kernelvec_pc usertrap_pc uservec_off dev_read dev_write garbage pad).

(** ** The kernel on one CPU

    A step is a run of the CPU from the point where code gets it to the point
    where the code gives it up, with the switch to the scheduler:
    - a routine of proc.c or of the scheduler, or a call of the file layer
      ([kstep]);
    - a trap from user space with whatever system call it makes, a trap from
      the kernel or from the idle scheduler, a return to user space;
    - a change the running process makes to its own entry.  A system call that
      sleeps inside the file layer is no single run of [usertrap]: it is a
      [ks_sleep], a [ks_awake], further steps of the file layer, and then one
      of these changes;
    - anything the devices and the hart do outside the kernel's tables.
    No step allocates a process once [nextpid] has reached the largest int. *)
Definition set_tk (k : kern T) (s : tst T) : tst T := TSt k (regs s) (claims s) (completes s) (tprst s) (tdisk s).
Definition trap_back (j : nat) (r : trap_end) : M (tst T) unit :=
  match r with Resumed _ => mret tt | _ => in_kern (scheduler_back j) end.
Definition kerneltrap_switch : M (tst T) unit :=
  r ← kerneltrap;
  match r with Some _ => j ← in_kern myproc; in_kern (scheduler_back j) | None => mret tt end.
(** The fields of its entry a process sets in its system calls: the statements
    of [fdalloc], [sys_close], [sys_chdir], [exec] and [growproc]. *)
Inductive own_change : (proc -> proc) -> Prop :=
| oc_fd fd f : own_change (fun q => set_ofile (<[fd := f]> (p_ofile q)) q)
| oc_cwd c : own_change (set_cwd c)
| oc_image sz pt : pt <> 0 -> own_change (fun q => set_sz sz (set_pagetable pt q))
| oc_sz sz : own_change (set_sz sz)
| oc_name n : own_change (set_name n)
| oc_killed : own_change (set_killed true).

Inductive sysstep : world (tst T) -> world (tst T) -> Prop :=
| ss_kern w h k : kstep forkret_pc initcode_pa (World (held w) (tk (st w))) (World h k) -> sysstep w (World h (set_tk k (st w)))
| ss_trap j w r w1 w' : cur (tk (st w)) = Some j -> nextpid (tk (st w)) < pid_limit ->
    usertrap w = Ok r w1 -> trap_back j r w1 = Ok tt w' -> sysstep w w'
| ss_kerneltrap w w' : kerneltrap_switch w = Ok tt w' -> sysstep w w'
| ss_return j w r w' : cur (tk (st w)) = Some j -> usertrapret usertrap_pc uservec_off w = Ok r w' -> sysstep w w'
| ss_own j f w : cur (tk (st w)) = Some j -> own_change f -> sysstep w (World (held w) (set_tk (updp j f (tk (st w))) (st w)))
| ss_env w s' : tk s' = tk (st w) -> sysstep w (World (held w) s').

Lemma own_change_own i f : own_change f -> own i f.
Proof. intros [fd x|c|sz pt Hpt|sz|n|]; eauto using own_fd, own_cwd, own_image, own_sz, own_killed. apply (own_name i (fun _ => n)). Qed.

(** A process is on the CPU, or the scheduler is. *)
Lemma quiet_cases (k : kern T) : quiet k -> (exists j, works j k) \/ stopped k.
Proof. intros [I [(j & p & Hp & Hi)|Hc]]; [left; by exists j, p|by right]. Qed.

Lemma trap_back_quiet j r w1 w' : trap_post j r (st w1) -> trap_back j r w1 = Ok tt w' -> quiet (tk (st w')).
Proof.
  destruct w1 as [h s]. unfold trap_post, trap_back. destruct r; [intros Hw E; injection E as <-; by apply (works_quiet j)|..];
    intros Hp E; apply stopped_quiet, (t_in_kern _ _ _ (t_parked_back j) _ _ _ _ Hp E).
Qed.

Lemma kerneltrap_quiet w w' : kerneltrap_switch w = Ok tt w' -> quiet (tk (st w)) -> quiet (tk (st w')).
Proof.
  destruct w as [h s]. intros E Hq. unfold kerneltrap_switch in E. apply bind_Ok in E as (r & [h1 s1] & E1 & E2).
  destruct (quiet_cases _ Hq) as [[j Hw]|Hs].
  - pose proof (t_kerneltrap_on j _ _ _ _ Hw E1) as H1. destruct r as [x|].
    + apply bind_Ok in E2 as (k & [h2 s2] & E2 & E3). apply stopped_quiet. pose proof (parked_cur _ _ H1) as Hc. cbn [st] in Hc.
      assert (k = j /\ tk s2 = tk s1) as [-> Hk] by (unfold in_kern, zoom, myproc in E2; cbn [held st] in E2; rewrite gets_run in E2; cbn [st] in E2; rewrite Hc in E2; by injection E2 as <- _ <-).
      apply (t_in_kern _ _ _ (t_parked_back j) h2 s2 tt w'); [|exact E3]. unfold on. by rewrite Hk.
    + injection E2 as <-. by apply (works_quiet j).
  - destruct (t_kerneltrap_off _ _ _ _ Hs E1) as [-> H1]. injection E2 as <-. by apply stopped_quiet.
Qed.

Lemma sysstep_quiet w w' : sysstep w w' -> quiet (tk (st w)) -> quiet (tk (st w')).
Proof.
  intros Hs Hq. destruct Hs as [w h k Hk|j w r w1 w' Hc Hn E1 E2|w w' E|j w r w' Hc E|j f w Hc Hf|w s' Ht].
  - exact (kstep_quiet _ _ _ _ Hk Hq).
  - destruct w as [h s]. eapply trap_back_quiet; [|exact E2]. eapply t_usertrap; [|exact E1]. by split; [|apply quiet_cur].
  - by eapply kerneltrap_quiet.
  - destruct w as [h s]. apply (works_quiet j). eapply t_usertrapret; [|exact E]. by apply quiet_cur.
  - destruct w as [h s]. apply (works_quiet j). destruct (own_change_own j f Hf) as [Hok Hst].
    apply (t_own j f Hok Hst h (tk s) tt (World h (updp j f (tk s)))); [by apply quiet_cur|done].
  - change (quiet (tk s')). by rewrite Ht.
Qed.

Lemma reach_quiet w w' : rtc sysstep w w' -> quiet (tk (st w)) -> quiet (tk (st w')).
Proof. induction 1; eauto using sysstep_quiet. Qed.

(** C20: from the table [procinit] sets up, whatever traps, system calls,
    interrupts and scheduling decisions follow on the CPU ([sysstep]), the
    process table stays well formed: unused entries are cleared, processes
    that can run have a trapframe and a page table, sleepers have a channel,
    zombies and unused entries keep no file or directory, live processes have
    distinct positive pids, and a process is RUNNING exactly when it is the
    one on the CPU. *)
Theorem proc_table_invariant (w0 w1 w : world (tst T)) :
  boot_table (procs (tk (st w0))) -> nextpid (tk (st w0)) = 1 -> cur (tk (st w0)) = None ->
  in_kern procinit w0 = Ok tt w1 -> rtc sysstep w1 w ->
  let k := tk (st w) in
  ptable_ok (procs k) (nextpid k) (cur k) /\ forall i p, procs k !! i = Some p -> p_state p = RUNNING <-> cur k = Some i.
Proof.
  intros Hb Hn Hc E Hr k. assert (quiet k) as Hq.
  { destruct w0 as [h s]. assert (quiet (tk (st w1))) as H1 by exact (t_in_kern _ _ _ t_procinit h s tt w1 (conj Hb (conj Hn Hc)) E).
    exact (reach_quiet w1 w Hr H1). }
  split; [apply Hq|]. intros i p Hp. by apply quiet_running.
Qed.
End machine.

Definition demo_prst : prst :=
  PrSt (Cons (KState ∅ 0) (Uart (replicate 32 0) 0 0 false [1; 32] [13] [] []) (replicate 128 0) 0 0 0 []) true.
Definition demo_vdisk : vdisk := VDisk [] 0 [] 0 [] [] 0 [] [] [] ∅ (fun _ => 0) [] [].
(** Process 3 calls getpid: its trapframe holds 11 in a7. *)
Definition demo_kmem : kstate := KState (st64 ∅ (0x80022000 + TF_a7) 11) 0.
Definition demo_call : tst bst :=
  let f := Fsys (Fst demo_kmem (Lst empty_bst demo_log1) [] (Superblock 0 0 0 0 0 0 0 0) 0 0 0 []) (replicate NFILE file0) ∅ false [] in
  TSt (Kern f demo_table (Some 3%nat) 7 None 0 true) (Csr 0 0x1000 8 0 0 0 0 0) [] [] demo_prst demo_vdisk.
Lemma demo_works : works 3 (tk demo_call).
Proof. exists demo_run. split; [done|]. split; [exact demo_ok|]. split; reflexivity. Qed.
(** The same process is interrupted by the UART: a carriage return was typed,
    and process 7 waits for a line. *)
Definition demo_typed : tst bst :=
  TSt (tk demo_call) (Csr 0 0x1000 (2^63 + 9) 0 0 0 0 0) [UART0_IRQ] [] demo_prst demo_vdisk.
Abbreviation demo_usertrap := (usertrap (T := bst) 0 0 0 0 (fun _ => None) (fun _ => None) [] []).

Lemma traps_keep_table_witness :
  (exists r w', demo_usertrap (World [] demo_call) = Ok r w' /\
    match r with Resumed _ => ptable_ok (procs (tk (st w'))) (nextpid (tk (st w'))) (cur (tk (st w'))) | _ => True end) /\
  (exists r w', demo_usertrap (World [] demo_typed) = Ok r w' /\ p_state (getp (tk (st w')) 7) = RUNNABLE /\
    match r with Resumed _ => ptable_ok (procs (tk (st w'))) (nextpid (tk (st w'))) (cur (tk (st w'))) | _ => True end).
Proof.
  pose proof (fun s => traps_keep_table 0 0 0 0 (fun _ => None) (fun _ => None) [] [] 3 [] s) as Ht.
  assert (nextpid (tk demo_call) < pid_limit) as Hn by reflexivity. split.
  - destruct (after_ok demo_usertrap (World [] demo_call)) as [r E]; [vm_compute; reflexivity|].
    exists r, (after demo_usertrap (World [] demo_call)). split; [exact E|].
    specialize (Ht demo_call r _ Hn demo_works E). destruct r; [exact (proj1 Ht)|exact I|exact I|exact I].
  - destruct (after_ok demo_usertrap (World [] demo_typed)) as [r E]; [vm_compute; reflexivity|].
    exists r, (after demo_usertrap (World [] demo_typed)). split; [exact E|]. split; [vm_compute; reflexivity|].
    specialize (Ht demo_typed r _ Hn demo_works E). destruct r; [exact (proj1 Ht)|exact I|exact I|exact I].
Defined.

(** Boot, then an interrupt from the UART while the scheduler idles. *)
Definition demo_boot0 : world (tst bst) :=
  World [] (TSt (st demo_boot) (Csr SSTATUS_SPP 0x80001000 (2^63 + 9) 0 0 0 0 0) [UART0_IRQ] [] demo_prst demo_vdisk).
Lemma proc_table_invariant_witness :
  exists w, rtc (sysstep 0 0 0 0 0 (fun _ => None) (fun _ => None) [] []) (after (in_kern procinit) demo_boot0) w /\
    ptable_ok (procs (tk (st w))) (nextpid (tk (st w))) (cur (tk (st w))) /\ completes (st w) = [UART0_IRQ].
Proof.
  destruct (after_ok (in_kern procinit) demo_boot0) as [[] E1]; [vm_compute; reflexivity|].
  destruct (after_ok kerneltrap_switch (after (in_kern procinit) demo_boot0)) as [[] E2]; [vm_compute; reflexivity|].
  set (w1 := after (in_kern procinit) demo_boot0) in *. set (w2 := after kerneltrap_switch w1) in *.
  assert (rtc (sysstep 0 0 0 0 0 (fun _ => None) (fun _ => None) [] []) w1 w2) as R by (apply rtc_once, ss_kerneltrap; exact E2).
  exists w2. split; [exact R|]. split; [|vm_compute; reflexivity].
  exact (proj1 (proc_table_invariant 0 0 0 0 0 (fun _ => None) (fun _ => None) [] [] demo_boot0 w1 w2 eq_refl eq_refl eq_refl E1 R)).
Defined.
