(* ===== verification/ExecProps.v ===== *)
(** * exec.c: the argument strings stay inside the stack page *)

From S2P Require Import Prelude Mem CString Riscv Kalloc Vm Pipe Sleeplock Bio BioSpec Log LogOps Fs File Proc ProcSpec ProcProps Syscall Exec.

Lemma strlen_bound m a n fuel r : strlen_loop m a n fuel = Some r -> n <= r < n + Z.of_nat fuel.
Proof.
  revert n. induction fuel as [|fuel IH]; intros n; cbn [strlen_loop]; [done|].
  destruct (_ =? 0); [intros [= <-]; lia|]. intros E. apply IH in E. lia.
Qed.

Lemma push_sp_spec sp n : 0 <= n <= sp -> sp < 2^64 -> push_sp sp n mod 16 = 0 /\ 0 <= push_sp sp n <= sp - n /\ sp - n < push_sp sp n + 16.
Proof.
  intros Hn Hsp. unfold push_sp. rewrite (u64_small (sp - n)) by lia. pose proof (Z.mod_pos_bound (sp - n) 16 ltac:(lia)).
  pose proof (Z.mod_le (sp - n) 16 ltac:(lia) ltac:(lia)). rewrite u64_small by lia. split; [|lia].
  rewrite Zminus_mod_idemp_r, Z.sub_diag. done.
Qed.

(** Items of [n] bytes each, pushed one below the other: aligned, disjoint,
    and not below [base]. *)
Inductive stacked (base : Z) : Z -> list (Z * Z) -> Z -> Prop :=
| stacked_nil sp : stacked base sp [] sp
| stacked_cons sp a n l sp' :
    base <= a -> a mod 16 = 0 -> 0 < n -> a + n <= sp -> stacked base a l sp' -> stacked base sp ((a, n) :: l) sp'.

Lemma stacked_snoc base sp l sp' a n :
  stacked base sp l sp' -> base <= a -> a mod 16 = 0 -> 0 < n -> a + n <= sp' -> stacked base sp (l ++ [(a, n)]) a.
Proof. induction 1; intros; cbn; [constructor; auto; constructor|constructor; auto]. Qed.
Lemma stacked_below base sp l sp' : stacked base sp l sp' -> sp' <= sp.
Proof. induction 1; lia. Qed.
Lemma stacked_top base sp l sp' : stacked base sp l sp' -> base <= sp -> base <= sp'.
Proof. induction 1; auto. Qed.
Lemma stacked_in base sp l sp' a n : stacked base sp l sp' -> (a, n) ∈ l -> base <= a /\ a + n <= sp /\ sp' <= a.
Proof.
  induction 1 as [|sp b m l sp' Hb Ha Hm Hle Hl IH]; [by intros ?%elem_of_nil|]. rewrite elem_of_cons. intros [[= -> ->]|Hin].
  - pose proof (stacked_below _ _ _ _ Hl). lia.
  - specialize (IH Hin). lia.
Qed.

Section exec.
Context {L : Layout} {T H : Type} {BO : BlockOps T H}.

(** The strings [argv] copied out one after the other: string [a], with its
    NUL, to the [n] bytes at user address [va]. *)
Inductive pushed (pt : Z) : list Z -> list (Z * Z) -> world (kern T) -> world (kern T) -> Prop :=
| pushed_nil w : pushed pt [] [] w w
| pushed_cons a argv va n items m w w0 w1 w2 :
    in_phys (gets kmem) w = Ok m w0 -> strlen m a (Z.to_nat PGSIZE) = Some (n - 1) ->
    in_phys (copyout pt va (ldn m a (Z.to_nat n))) w0 = Ok 0 w1 ->
    pushed pt argv items w1 w2 -> pushed pt (a :: argv) ((va, n) :: items) w w2.

Lemma in_phys_Ok {A} (m : M kstate A) (w : world (kern T)) a w' :
  in_phys m w = Ok a w' -> exists k k', m (World (held w) k) = Ok a k'.
Proof.
  intros E. unfold in_phys, in_files in E. apply bind_Ok in E as (b & w1 & E1 & E). apply bind_Ok in E as (cs & w2 & _ & E). apply bind_Ok in E as (u & w3 & _ & E).
  injection E as <- _. unfold in_kmem, in_fs, in_mem, zoom in E1. cbn [held st] in E1. destruct (m _) eqn:Em; try discriminate. injection E1 as -> _. eauto.
Qed.
Lemma copyout_status pt va bs k r k' : copyout pt va bs k = Ok r k' -> r = 0 \/ r = -1.
Proof.
  unfold copyout. generalize (S (length bs)) as fuel. intros fuel. revert va bs k. induction fuel as [|fuel IH]; intros va bs k; cbn [copyout_loop]; [done|].
  destruct (0 <? _); cbn [negb]; [|intros [= <- _]; auto]. intros E. apply bind_Ok in E as (pa & w1 & _ & E). destruct (pa =? 0); [injection E as <- _; auto|].
  apply bind_Ok in E as (? & w2 & _ & E). by apply IH in E.
Qed.
Lemma uvmalloc_size pt old new k r k' : 0 <= old -> old mod PGSIZE = 0 -> old <= new -> new + PGSIZE < 2^64 -> uvmalloc pt old new k = Ok r k' -> r = 0 \/ r = new.
Proof.
  intros _ _ Hle _. unfold uvmalloc. destruct (Z.ltb_spec new old); [lia|]. generalize (S (Z.to_nat ((new - PGROUNDUP old) / PGSIZE + 1))) as fuel.
  generalize (PGROUNDUP old) at 2 as old'. generalize (PGROUNDUP old) as a. intros a old' fuel. revert a k.
  induction fuel as [|fuel IH]; intros a k; cbn [uvmalloc_loop]; [done|]. destruct (a <? new); cbn [negb]; [|intros [= <- _]; auto].
  intros E. apply bind_Ok in E as (page & w1 & _ & E). destruct (page =? 0).
  { apply bind_Ok in E as (? & w2 & _ & E). injection E as <- _. auto. }
  apply bind_Ok in E as (? & w2 & _ & E). apply bind_Ok in E as (q & w3 & _ & E). destruct (q =? 0); cbn [negb] in E; [by apply IH in E|].
  apply bind_Ok in E as (? & w4 & _ & E). apply bind_Ok in E as (? & w5 & _ & E). injection E as <- _. auto.
Qed.

(** What holds of a run from [w] that returns. *)
Definition runs {A} (m : M (kern T) A) (w : world (kern T)) (Q : A -> world (kern T) -> Prop) : Prop := forall r w', m w = Ok r w' -> Q r w'.
Lemma runs_bind {A B} (m : M (kern T) A) (k : A -> M (kern T) B) w Q :
  (forall a w1, m w = Ok a w1 -> runs (k a) w1 Q) -> runs (m ≫= k) w Q.
Proof. intros Hk r w' E. apply bind_Ok in E as (x & w1 & E1 & E). by eapply Hk. Qed.
Lemma runs_ret {A} (a : A) w Q : Q a w -> runs (mret a) w Q.
Proof. intros HQ r w' [= <- <-]. done. Qed.
Lemma runs_impl {A} (m : M (kern T) A) w (Q Q' : A -> world (kern T) -> Prop) : runs m w Q -> (forall r w', m w = Ok r w' -> Q r w' -> Q' r w') -> runs m w Q'.
Proof. intros HQ Hi r w' E. auto. Qed.
Lemma exec_commit_returns i path pt sz entry sp argc w : runs (exec_commit i path pt sz entry sp argc) w (fun r _ => r = argc).
Proof. unfold exec_commit. repeat (apply runs_bind; intros ? ? _). by apply runs_ret. Qed.
Lemma exec_bad_returns pt sz ip w : runs (exec_bad pt sz ip) w (fun r _ => r = -1).
Proof. unfold exec_bad. repeat (apply runs_bind; intros ? ? _). by apply runs_ret. Qed.
Lemma copyout_returns pt va bs (w : world (kern T)) : runs (in_phys (copyout pt va bs)) w (fun r _ => r = 0 \/ r = -1).
Proof. intros r w' E. destruct (in_phys_Ok _ _ _ _ E) as (k & k' & Ek). by apply copyout_status in Ek. Qed.

Lemma push_args_stacked pt base argv sp us (w : world (kern T)) sp' us' w' :
  PGSIZE <= base -> base <= sp < 2^64 -> (length us <= MAXARG)%nat ->
  push_args pt base argv sp us w = Ok (Some (sp', us')) w' ->
  exists items, us' = us ++ (Datatypes.fst <$> items) /\ length items = length argv /\ stacked base sp items sp' /\ pushed pt argv items w w' /\ (length us' <= MAXARG)%nat.
Proof.
  intros Hbase. revert sp us w. induction argv as [|a argv IH]; intros sp us w Hsp Hus E; cbn [push_args] in E.
  { injection E as <- <- <-. exists []. split_and!; [by rewrite app_nil_r|done|constructor|constructor|done]. }
  destruct (Nat.leb_spec MAXARG (length us)) as [|Hlt]; [done|]. apply bind_Ok in E as (m & w1 & Em & E).
  destruct (strlen m a _) as [len|] eqn:El; [|done].
  pose proof El as Hlen. apply strlen_bound in Hlen. change (Z.of_nat (Z.to_nat PGSIZE)) with PGSIZE in Hlen.
  destruct (push_sp_spec sp (len + 1)) as (Hal & Hr & _); [lia|lia|]. cbv zeta in E.
  destruct (Z.ltb_spec (push_sp sp (len + 1)) base) as [|Hb]; [done|]. apply bind_Ok in E as (r & w2 & Ec & E).
  destruct (copyout_returns _ _ _ _ _ _ Ec) as [->| ->]; [|done]. cbn [Z.ltb Z.compare] in E.
  apply IH in E as (items & -> & Hl & Hst & Hp & Hm); [|lia|rewrite length_app; cbn; lia].
  exists ((push_sp sp (len + 1), len + 1) :: items). split_and!; [by rewrite <- app_assoc|cbn; lia|constructor; auto; lia| |done].
  econstructor; [done|rewrite El; f_equal; lia|done|done].
Qed.

(** What [exec_stack] has done when it commits to the new image with [argc]
    arguments. *)
Definition args_stacked (i : nat) (path argv : list Z) (pt stackbase top entry argc : Z) (w' : world (kern T)) : Prop :=
  exists items sp arr w0 w1 w2,
    length items = length argv /\ (length argv <= MAXARG)%nat /\ pushed pt argv items w0 w1 /\
    stacked stackbase top items sp /\ (forall va n, (va, n) ∈ items -> stackbase <= va /\ va + n <= top) /\
    stackbase <= arr /\ arr mod 16 = 0 /\ arr + 8 * (Z.of_nat (length argv) + 1) <= sp /\
    in_phys (copyout pt arr (words_le ((Datatypes.fst <$> items) ++ [0]))) w1 = Ok 0 w2 /\
    exec_commit i path pt top entry arr (Z.of_nat (length argv)) w2 = Ok (Z.of_nat (length argv)) w' /\ argc = Z.of_nat (length argv).
End exec.

(** One argument, "hi", at 0x80020000.  The new page table, at 0x80010000, maps
    nothing yet but has the tables of the low addresses; the old one, at
    0x80014000, maps the trampoline and the trapframe; two pages are free. *)
Definition valid (pa : Z) : Z := Z.lor (PA2PTE pa) PTE_V.
Definition demo_argwords : list (Z * Z) :=
  [(0x80010000, valid 0x80011000); (0x80011000, valid 0x80012000);
   (0x80014000 + 8 * 255, valid 0x80015000); (0x80015000 + 8 * 511, valid 0x80016000);
   (0x80016000 + 8 * 511, Z.lor (valid 0x80007000) (Z.lor PTE_R PTE_X)); (0x80016000 + 8 * 510, Z.lor (valid 0x80022000) (Z.lor PTE_R PTE_W));
   (0x80017000, 0x80018000)].
Definition demo_argmem : mem := stn (foldr (fun '(a, v) m => st64 m a v) ∅ demo_argwords) 0x80020000 [104; 105; 0].
Definition demo_args : kern bst :=
  Kern (Fsys (Fst (KState demo_argmem 0x80017000) (Lst empty_bst demo_log1) [] (Superblock 0 0 0 0 0 0 0 0) 0 0 0 []) (replicate NFILE file0) ∅ false [])
    (<[3%nat := set_sz 0 (set_pagetable 0x80014000 demo_run)]> demo_table) (Some 3%nat) 7 None 0 true.
#[local] Instance wide_layout : Layout := {| kend := 0x80010000; etext := 0x80008000; trampoline_pa := 0x80007000 |}.
