(* ===== verification/Ulib.v ===== *)
(** * user/ulib.c and user/printf.c: the C library of user programs

    User memory is byte-addressed like the kernel's.  [char] is unsigned on
    RISC-V.  A loop that runs until a NUL has a bound: [None] when it meets
    none.  [read(0, &c, 1)] takes the next byte of the input; [putc] appends
    to the output. *)

From S2P Require Import Prelude Mem CString Printf.

(** [while(( *s++ = *t++ ) != 0);] *)
Fixpoint strcpy (fuel : nat) (m : mem) (s t : Z) : option mem :=
  match fuel with
  | O => None
  | S fuel => let c := ld m t in let m := st8 m s c in if c =? 0 then Some m else strcpy fuel m (s + 1) (t + 1)
  end.
Fixpoint strcmp (fuel : nat) (m : mem) (p q : Z) : option Z :=
  match fuel with
  | O => None
  | S fuel =>
      if negb (ld m p =? 0) && (ld m p =? ld m q) then strcmp fuel m (p + 1) (q + 1)
      else Some (ld m p - ld m q)
  end.
Definition ustrlen (fuel : nat) (m : mem) (s : Z) : option Z := strlen m s fuel.
Fixpoint umemset_loop (m : mem) (dst c i : Z) (k : nat) : mem :=
  match k with
  | O => m
  | S k => umemset_loop (st8 m (dst + i) c) dst c (i + 1) k
  end.
Definition umemset (m : mem) (dst c n : Z) : mem := umemset_loop m dst c 0 (Z.to_nat n).
(** The address found, 0 when there is none. *)
Fixpoint strchr (fuel : nat) (m : mem) (s c : Z) : option Z :=
  match fuel with
  | O => None
  | S fuel => if ld m s =? 0 then Some 0 else if ld m s =? c then Some s else strchr fuel m (s + 1) c
  end.

(** [input] is what the reads of standard input will return; its end is end
    of file.  Returns the memory and the input left. *)
Fixpoint gets_loop (m : mem) (buf i max : Z) (input : list Z) (fuel : nat) : mem * list Z :=
  match fuel with
  | O => (st8 m (buf + i) 0, input)
  | S fuel =>
      if negb (i + 1 <? max) then (st8 m (buf + i) 0, input) else
      match input with
      | [] => (st8 m (buf + i) 0, [])
      | c :: input =>
          let m := st8 m (buf + i) c in
          if (c =? 10) || (c =? 13) then (st8 m (buf + (i + 1)) 0, input)
          else gets_loop m buf (i + 1) max input fuel
      end
  end.
Definition gets (m : mem) (buf max : Z) (input : list Z) : mem * list Z :=
  gets_loop m buf 0 max input (Z.to_nat max).

(** On the contents of the string. *)
Fixpoint atoi_loop (s : list Z) (n : Z) : Z :=
  match s with
  | c :: s => if (48 <=? c) && (c <=? 57) then atoi_loop s (i32 (n * 10 + c - 48)) else n
  | [] => n
  end.
Definition atoi (s : list Z) : Z := atoi_loop s 0.

Definition umemmove (m : mem) (dst src n : Z) : mem :=
  if dst <? src then memmove_up m dst src (Z.to_nat n)
  else memmove_down m (dst + n) (src + n) (Z.to_nat n).
Fixpoint umemcmp_loop (m : mem) (p1 p2 : Z) (n : nat) : Z :=
  match n with
  | O => 0
  | S n => if negb (ld m p1 =? ld m p2) then ld m p1 - ld m p2 else umemcmp_loop m (p1 + 1) (p2 + 1) n
  end.
Definition umemcmp (m : mem) (p1 p2 n : Z) : Z := umemcmp_loop m p1 p2 (Z.to_nat n).
Definition umemcpy (m : mem) (dst src n : Z) : mem := umemmove m dst src n.

(** ** user/printf.c *)
Definition udigits : list Z := str "0123456789ABCDEF".
Inductive uarg : Type :=
| UInt (x : Z)                    (* int *)
| ULong (x : Z)                   (* uint64 *)
| UStr (s : option (list Z))
| UChar (c : Z).

Definition uprintint (xx base : Z) (sgn : bool) : list Z := reverse (int_buf udigits xx base sgn).
Fixpoint uprintptr_loop (n : nat) (x : Z) : list Z :=
  match n with
  | O => []
  | S n => digit udigits (Z.shiftr x 60) :: uprintptr_loop n (u64 (Z.shiftl x 4))
  end.
Definition uprintptr (x : Z) : list Z := [48; 120] ++ uprintptr_loop 16 x.

(** [percent]: the state after a '%'.  [None]: the arguments do not fit. *)
Fixpoint vprintf (percent : bool) (fmt : list Z) (ap : list uarg) : option (list Z) :=
  match fmt with
  | [] => Some []
  | c :: fmt =>
      if negb percent then
        if c =? 37 then vprintf true fmt ap else (fun t => c :: t) <$> vprintf false fmt ap
      else if c =? 100 then                                    (* 'd' *)
        match ap with UInt x :: ap => app (uprintint x 10 true) <$> vprintf false fmt ap | _ => None end
      else if c =? 108 then                                    (* 'l' *)
        match ap with ULong x :: ap => app (uprintint (i32 x) 10 false) <$> vprintf false fmt ap | _ => None end
      else if c =? 120 then                                    (* 'x' *)
        match ap with UInt x :: ap => app (uprintint x 16 false) <$> vprintf false fmt ap | _ => None end
      else if c =? 112 then                                    (* 'p' *)
        match ap with ULong x :: ap => app (uprintptr x) <$> vprintf false fmt ap | _ => None end
      else if c =? 115 then                                    (* 's' *)
        match ap with UStr s :: ap => app (default null_str s) <$> vprintf false fmt ap | _ => None end
      else if c =? 99 then                                     (* 'c' *)
        match ap with UChar x :: ap => app [u8 x] <$> vprintf false fmt ap | _ => None end
      else if c =? 37 then app [37] <$> vprintf false fmt ap
      else app [37; c] <$> vprintf false fmt ap
  end.
Definition fprintf (fmt : list Z) (ap : list uarg) : option (list Z) := vprintf false fmt ap.

(** ** Theorems *)

(** Reading the digits of a number, the highest first, gives it back. *)
Definition dec_value (cs : list Z) : Z := foldl (fun n c => n * 10 + (c - 48)) 0 cs.

Definition decimal (ds : list Z) : Prop := forall x, 0 <= x < 10 -> digit ds x = 48 + x.

Section digits.
Context (ds : list Z) (Hds : decimal ds).

Lemma digits_range fuel x c : 0 <= x -> c ∈ digits_of fuel ds 10 x -> 48 <= c <= 57.
Proof using Hds.
  revert x. induction fuel as [|fuel IH]; intros x Hx; cbn [digits_of]; [by intros ?%elem_of_nil|].
  pose proof (Z.mod_pos_bound x 10 ltac:(lia)). assert (0 <= x / 10) by (apply Z.div_pos; lia).
  destruct (x / 10 =? 0); rewrite ?elem_of_cons; intros [->|Hin]; [rewrite Hds; lia|by apply elem_of_nil in Hin|rewrite Hds; lia|by apply (IH (x / 10))].
Qed.

Lemma digits_value fuel x : 0 <= x < 10 ^ Z.of_nat fuel -> dec_value (reverse (digits_of fuel ds 10 x)) = x.
Proof using Hds.
  revert x. induction fuel as [|fuel IH]; intros x Hx; cbn [digits_of]; [cbn in *; lia|].
  pose proof (Z.mod_pos_bound x 10 ltac:(lia)). pose proof (Z.div_mod x 10 ltac:(lia)).
  rewrite Nat2Z.inj_succ, Z.pow_succ_r in Hx by lia.
  destruct (Z.eqb_spec (x / 10) 0) as [E|E].
  - cbn. rewrite Hds by lia. lia.
  - rewrite reverse_cons. unfold dec_value. rewrite foldl_app. fold (dec_value (reverse (digits_of fuel ds 10 (x / 10)))).
    rewrite IH; [cbn; rewrite Hds by lia; lia|]. split; [apply Z.div_pos; lia|]. apply Z.div_lt_upper_bound; lia.
Qed.
End digits.

Lemma dec_value_mono cs n : 0 <= n -> Forall (fun c => 48 <= c <= 57) cs -> n <= foldl (fun n c => n * 10 + (c - 48)) n cs.
Proof.
  intros Hn HF. revert n Hn. induction HF as [|d cs Hd HF IH]; intros n Hn; cbn; [lia|]. specialize (IH (n * 10 + (d - 48)) ltac:(lia)). lia.
Qed.
Lemma atoi_digits cs n :
  0 <= n -> Forall (fun c => 48 <= c <= 57) cs -> foldl (fun n c => n * 10 + (c - 48)) n cs < 2^31 ->
  atoi_loop cs n = foldl (fun n c => n * 10 + (c - 48)) n cs.
Proof.
  intros Hn HF. revert n Hn. induction HF as [|d cs Hd HF IH]; intros n Hn Hb; [done|]. cbn [atoi_loop foldl] in *.
  assert ((48 <=? d) && (d <=? 57) = true) as -> by lia.
  pose proof (dec_value_mono cs (n * 10 + (d - 48)) ltac:(lia) HF).
  assert (i32 (n * 10 + d - 48) = n * 10 + (d - 48)) as -> by (unfold i32; rewrite signed_small; lia). apply IH; [lia|done].
Qed.

(** What follows the number, if anything, does not start with a digit. *)
Definition ends_number (rest : list Z) : Prop := match rest with c :: _ => ~ (48 <= c <= 57) | [] => True end.
Lemma atoi_stops cs n rest :
  0 <= n -> Forall (fun c => 48 <= c <= 57) cs -> foldl (fun n c => n * 10 + (c - 48)) n cs < 2^31 -> ends_number rest ->
  atoi_loop (cs ++ rest) n = foldl (fun n c => n * 10 + (c - 48)) n cs.
Proof.
  intros Hn HF. revert n Hn. induction HF as [|d cs Hd HF IH]; intros n Hn Hb Hr.
  - cbn. destruct rest as [|c rest]; [done|]. cbn in *. assert ((48 <=? c) && (c <=? 57) = false) as -> by lia. done.
  - cbn [atoi_loop foldl app] in *. assert ((48 <=? d) && (d <=? 57) = true) as -> by lia.
    pose proof (dec_value_mono cs (n * 10 + (d - 48)) ltac:(lia) HF).
    assert (i32 (n * 10 + d - 48) = n * 10 + (d - 48)) as -> by (unfold i32; rewrite signed_small; lia). apply IH; [lia|done|done].
Qed.

Lemma udecimal : decimal udigits.
Proof.
  assert (Forall (fun x => digit udigits x = 48 + x) (seqZ 0 10)) as HF by (vm_compute; repeat constructor).
  rewrite Forall_forall in HF. intros x Hx. apply HF, elem_of_seqZ. lia.
Qed.
Lemma kdecimal : decimal digits.
Proof.
  assert (Forall (fun x => digit digits x = 48 + x) (seqZ 0 10)) as HF by (vm_compute; repeat constructor).
  rewrite Forall_forall in HF. intros x Hx. apply HF, elem_of_seqZ. lia.
Qed.

(** [t] is the decimal numeral of [n]: digits only, of that value, without a
    leading zero unless it is "0". *)
Definition numeral (t : list Z) (n : Z) : Prop :=
  t <> [] /\ Forall (fun c => 48 <= c <= 57) t /\ dec_value t = n /\ (head t = Some 48 -> t = [48]).

Lemma digits_top ds fuel x : decimal ds -> 0 < x < 10 ^ Z.of_nat fuel -> last (digits_of fuel ds 10 x) <> Some 48.
Proof.
  intros Hd. revert x. induction fuel as [|fuel IH]; intros x Hx; [cbn in Hx; lia|]. cbn [digits_of].
  pose proof (Z.mod_pos_bound x 10 ltac:(lia)). pose proof (Z.div_mod x 10 ltac:(lia)). rewrite Nat2Z.inj_succ, Z.pow_succ_r in Hx by lia.
  destruct (Z.eqb_spec (x / 10) 0) as [E|E].
  - cbn. rewrite Hd by lia. intros [= E']. lia.
  - assert (0 < x / 10 < 10 ^ Z.of_nat fuel) as Hq by (split; [pose proof (Z.div_pos x 10 ltac:(lia) ltac:(lia)); lia|apply Z.div_lt_upper_bound; lia]).
    specialize (IH _ Hq). destruct fuel as [|fuel]; [cbn in Hq; lia|]. rewrite last_cons. by destruct (last (digits_of (S fuel) ds 10 (x / 10))) eqn:El; [|apply last_None in El; cbn in El; destruct (_ =? 0)].
Qed.
Lemma digits_numeral ds x : decimal ds -> 0 <= x < 2^32 -> numeral (reverse (digits_of 32 ds 10 x)) x.
Proof.
  intros Hd Hx. assert (0 <= x < 10 ^ Z.of_nat 32) as Hx' by (change (10 ^ Z.of_nat 32) with 100000000000000000000000000000000; lia). split_and!.
  - intros E. apply (f_equal length) in E. rewrite length_reverse in E. cbn in E. by destruct (_ =? 0).
  - apply list.Forall_forall. intros c Hc. rewrite elem_of_reverse in Hc. apply (digits_range ds Hd 32 x); [lia|done].
  - by apply digits_value.
  - intros Hh. rewrite head_reverse in Hh. destruct (decide (x = 0)) as [->|Hne]; [change ([digit ds 0] = [48]); by rewrite (Hd 0 ltac:(lia))|].
    exfalso. apply (digits_top ds 32 x Hd); [lia|done].
Qed.
Lemma digits_same ds ds' fuel x : decimal ds -> decimal ds' -> digits_of fuel ds 10 x = digits_of fuel ds' 10 x.
Proof.
  intros Hd Hd'. revert x. induction fuel as [|fuel IH]; intros x; [done|]. cbn [digits_of]. pose proof (Z.mod_pos_bound x 10 ltac:(lia)).
  by rewrite Hd, Hd', IH by lia.
Qed.

Lemma uprintint_text x : - 2^31 <= x < 2^31 -> exists t, numeral t (Z.abs x) /\ uprintint x 10 true = if x <? 0 then 45 :: t else t.
Proof.
  intros Hx. exists (reverse (digits_of 32 udigits 10 (Z.abs x))). split; [apply digits_numeral; [apply udecimal|lia]|].
  unfold uprintint, int_buf. cbn [andb]. destruct (Z.ltb_spec x 0); rewrite u32_small by lia.
  - by rewrite reverse_app, Z.abs_neq by lia.
  - by rewrite app_nil_r, Z.abs_eq by lia.
Qed.
Lemma uprintint_numeral x : 0 <= x < 2^31 -> numeral (uprintint x 10 true) x.
Proof. intros Hx. destruct (uprintint_text x) as (t & Ht & ->); [lia|]. destruct (Z.ltb_spec x 0); [lia|]. by rewrite Z.abs_eq in Ht by lia. Qed.
Lemma numeral_atoi t n rest : numeral t n -> n < 2^31 -> ends_number rest -> atoi (t ++ rest) = n.
Proof. intros (_ & Hd & Hv & _) Hn Hr. unfold atoi. rewrite atoi_stops; [exact Hv|lia|done| |done]. unfold dec_value in Hv. lia. Qed.

(** C32: numbers in base 10.  [printint] of the user library prints every int
    as its decimal numeral, most significant digit first, without leading
    zeros and after a minus sign when it is negative, the smallest int
    included; the [printint] of the kernel prints the same.  [atoi] reads what
    is printed for a non-negative number back, whatever text that does not
    start with a digit follows it; it does not know the minus sign, so it
    reads a negative number as 0, and the numeral after the sign as the
    magnitude. *)
Theorem printint_atoi (x : Z) (rest : list Z) :
  - 2^31 <= x < 2^31 -> ends_number rest ->
  exists t, numeral t (Z.abs x) /\ uprintint x 10 true = (if x <? 0 then 45 :: t else t) /\
    printint x 10 true = puts (uprintint x 10 true) /\
    atoi (uprintint x 10 true ++ rest) = Z.max x 0 /\
    (- 2^31 < x -> atoi (t ++ rest) = Z.abs x).
Proof.
  intros Hx Hr. destruct (uprintint_text x Hx) as (t & Ht & E). exists t.
  assert (- 2^31 < x -> atoi (t ++ rest) = Z.abs x) as Ha by (intros Hl; apply numeral_atoi; [done|lia|done]).
  split_and!; [done|done| |rewrite E|done].
  - unfold printint, uprintint, int_buf. by rewrite (digits_same digits udigits) by (apply kdecimal || apply udecimal).
  - destruct (Z.ltb_spec x 0); [cbn; lia|]. rewrite Ha; lia.
Qed.

Lemma printint_atoi_witness :
  uprintint (-1027) 10 true = [45; 49; 48; 50; 55] /\ exists t, uprintint (-1027) 10 true = 45 :: t /\ atoi (t ++ [32; 49]) = 1027.
Proof.
  destruct (printint_atoi (-1027) [32; 49]) as (t & _ & E & _ & _ & Ha).
  - lia.
  - cbn. lia.
  - split; [reflexivity|]. exists t. split; [exact E|]. apply Ha. lia.
Defined.

(** The two [memmove]s, which choose the direction differently, agree. *)
Lemma umemmove_memmove m dst src n x :
  bytes_ok m -> 0 <= n -> ld (umemmove m dst src n) x = ld (memmove m dst src n) x.
Proof.
  intros Hm Hn. rewrite ld_memmove by done. unfold umemmove. destruct (Z.ltb_spec dst src).
  - rewrite ld_memmove_up by (done || lia). by rewrite Z2Nat.id.
  - rewrite ld_memmove_down by (done || lia). rewrite Z2Nat.id by done. replace (dst + n - n) with dst by lia.
    destruct (inb dst n x); [|done]. f_equal. lia.
Qed.
