(* ===== verification/Umalloc.v ===== *)
(** * user/umalloc.c: the memory allocator of user programs

    Free blocks form a circular list in order of address, threaded through
    the headers of the blocks.  Addresses and sizes are in units of
    [sizeof(Header)], 16 bytes; [hdr] maps the address of a header to its
    [ptr] and [size] fields.  [base] is the address of the static header,
    which is below the heap.  Sizes are [uint]: no sum of them reaches 2^32
    units, 64 GB, in the 128 MB the kernel has, so [free] adds them as
    integers. *)

From S2P Require Import Prelude.

Record ust : Type := USt {
  hdr : gmap Z (Z * Z);        (* s.ptr, s.size *)
  freep : Z;                   (* 0 is the null pointer *)
  ubrk : Z                     (* end of the heap *)
}.

Definition sptr (s : ust) (p : Z) : Z := default 0 (fst <$> hdr s !! p).
Definition ssize (s : ust) (p : Z) : Z := default 0 (snd <$> hdr s !! p).
Definition set_sptr (p x : Z) (s : ust) : ust := USt (<[p := (x, ssize s p)]> (hdr s)) (freep s) (ubrk s).
Definition set_ssize (p x : Z) (s : ust) : ust := USt (<[p := (sptr s p, x)]> (hdr s)) (freep s) (ubrk s).
Definition set_freep (p : Z) (s : ust) : ust := USt (hdr s) p (ubrk s).

(** The test that ends the loop of [free] at [p], whose successor is [nx]. *)
Definition stops (bp p nx : Z) : bool := ((p <? bp) && (bp <? nx)) || ((nx <=? p) && ((p <? bp) || (bp <? nx))).
Fixpoint free_find (fuel : nat) (s : ust) (bp p : Z) : option Z :=
  match fuel with
  | O => None
  | S fuel => if stops bp p (sptr s p) then Some p else free_find fuel s bp (sptr s p)
  end.

(** The block is joined to the one above it, or linked to it. *)
Definition join_upper (bp p : Z) (s : ust) : ust :=
  if bp + ssize s bp =? sptr s p
  then let s' := set_ssize bp (ssize s bp + ssize s (sptr s p)) s in set_sptr bp (sptr s' (sptr s' p)) s'
  else set_sptr bp (sptr s p) s.
(** The one below it takes it in, or is linked to it. *)
Definition join_lower (bp p : Z) (s : ust) : ust :=
  if p + ssize s p =? bp
  then let s' := set_ssize p (ssize s p + ssize s bp) s in set_sptr p (sptr s' bp) s'
  else set_sptr p bp s.

(** [free(bp + 1)].  Every node of the list has a header, so the number of
    headers bounds the turns of the loops; [None] would be a loop that does not
    end within that bound. *)
Definition free (bp : Z) (s : ust) : option ust :=
  match free_find (S (size (hdr s))) s bp (freep s) with
  | None => None
  | Some p => Some (set_freep p (join_lower bp p (join_upper bp p s)))
  end.

Section malloc.
Context (base : Z).
(** Whether the kernel grants [sbrk(n)], [n] in bytes, when the heap ends at [b]. *)
Context (grants : Z -> Z -> bool).

Definition sbrk (n : Z) (s : ust) : option Z * ust :=
  if grants (ubrk s) n then (Some (ubrk s), USt (hdr s) (freep s) (ubrk s + n / 16)) else (None, s).

(** The inner option is the null pointer. *)
Definition morecore (nu : Z) (s : ust) : option (option Z * ust) :=
  let nu := if nu <? 4096 then 4096 else nu in
  match sbrk (i32 (nu * 16)) s with
  | (None, s) => Some (None, s)
  | (Some hp, s) =>
      match free hp (set_ssize hp nu s) with
      | None => None
      | Some s => Some (Some (freep s), s)
      end
  end.

Fixpoint malloc_loop (fuel : nat) (nunits prevp p : Z) (s : ust) : option (option Z * ust) :=
  match fuel with
  | O => None
  | S fuel =>
      if nunits <=? ssize s p then
        if ssize s p =? nunits then Some (Some (p + 1), set_freep prevp (set_sptr prevp (sptr s p) s))
        else
          let s := set_ssize p (ssize s p - nunits) s in
          let q := p + ssize s p in
          Some (Some (q + 1), set_freep prevp (set_ssize q nunits s))
      else if p =? freep s then
        match morecore nunits s with
        | None => None
        | Some (None, s) => Some (None, s)
        | Some (Some p, s) => malloc_loop fuel nunits p (sptr s p) s
        end
      else malloc_loop fuel nunits p (sptr s p) s
  end.

Definition nunits_of (nbytes : Z) : Z := u32 ((nbytes + 16 - 1) / 16 + 1).
(** The list is created at the first call. *)
Definition malloc_init (s : ust) : ust :=
  if freep s =? 0 then USt (<[base := (base, 0)]> (hdr s)) base (ubrk s) else s.
Definition malloc (nbytes : Z) (s : ust) : option (option Z * ust) :=
  let s := malloc_init s in malloc_loop (2 * size (hdr s) + 4) (nunits_of nbytes) (freep s) (sptr s (freep s)) s.
End malloc.

(** ** Abstract view: the blocks of the list in order of address *)

Abbreviation block := (Z * Z)%type.

(** Disjoint blocks between [lo] and [hi], no two of them adjacent. *)
Fixpoint spaced (lo : Z) (l : list block) (hi : Z) : Prop :=
  match l with
  | [] => lo <= hi
  | (a, n) :: l => lo < a /\ 0 <= n /\ spaced (a + n) l hi
  end.
Fixpoint end_of (lo : Z) (l : list block) : Z := match l with [] => lo | (a, n) :: l => end_of (a + n) l end.

(** The nodes [l] are linked from [x] to [y]. *)
Fixpoint linked (h : gmap Z (Z * Z)) (x : Z) (l : list block) (y : Z) : Prop :=
  match l with
  | [] => x = y
  | (a, n) :: l => x = a /\ exists nx, h !! a = Some (nx, n) /\ linked h nx l y
  end.
Definition head_of (l : list block) (y : Z) : Z := match l with (a, _) :: _ => a | [] => y end.

Section list.
Implicit Types (h : gmap Z (Z * Z)) (l : list block).

Lemma linked_head h x l y : linked h x l y -> x = head_of l y.
Proof. destruct l as [|[a n] l]; cbn; [done|]. by intros [-> _]. Qed.
Lemma head_of_app l1 l2 y : head_of (l1 ++ l2) y = head_of l1 (head_of l2 y).
Proof. by destruct l1 as [|[] ?]. Qed.
Lemma linked_app h x l1 l2 y : linked h x (l1 ++ l2) y <-> linked h x l1 (head_of l2 y) /\ linked h (head_of l2 y) l2 y.
Proof.
  revert x. induction l1 as [|[a n] l1 IH]; intros x; cbn [app linked].
  - split; [intros H; by rewrite <- (linked_head _ _ _ _ H)|]. by intros [-> ?].
  - split; [intros (-> & nx & E & [H1 H2]%IH); eauto|]. intros [(-> & nx & E & H1) H2]. split; [done|]. exists nx. split; [done|]. by apply IH.
Qed.
Lemma linked_frame h x l y a v : (a ∉ l.*1) -> linked h x l y -> linked (<[a := v]> h) x l y.
Proof.
  revert x. induction l as [|[b n] l IH]; intros x Ha; [done|]. rewrite fmap_cons, not_elem_of_cons in Ha. destruct Ha as [Hne Ha].
  intros (-> & nx & E & Hl). split; [done|]. exists nx. rewrite lookup_insert_ne by done. auto.
Qed.
(** Rotating a circular list. *)
Lemma linked_rotate h l1 l2 x : l2 <> [] -> linked h x (l1 ++ l2) x -> linked h (head_of l2 x) (l2 ++ l1) (head_of l2 x).
Proof.
  intros Hne H0. pose proof (linked_head _ _ _ _ H0) as Ex. apply linked_app in H0 as [H1 H2]. apply linked_app.
  assert (head_of l1 (head_of l2 x) = x) as -> by (by rewrite <- head_of_app). by destruct l2 as [|[] ?].
Qed.

Lemma spaced_app lo l1 l2 hi : spaced lo (l1 ++ l2) hi <-> spaced lo l1 (end_of lo l1) /\ spaced (end_of lo l1) l2 hi.
Proof. revert lo. induction l1 as [|[a n] l1 IH]; intros lo; cbn; [split; [by split; [lia|]|tauto]|]. rewrite IH. tauto. Qed.
Lemma spaced_le lo l hi : spaced lo l hi -> lo <= hi.
Proof. revert lo. induction l as [|[a n] l IH]; intros lo; cbn; [done|]. intros (? & ? & H%IH). lia. Qed.
Lemma spaced_mono lo l hi hi' : spaced lo l hi -> hi <= hi' -> spaced lo l hi'.
Proof. revert lo. induction l as [|[a n] l IH]; intros lo; cbn; [lia|]. intros (? & ? & ?) ?. auto. Qed.
Lemma spaced_in lo l hi a n : spaced lo l hi -> (a, n) ∈ l -> lo < a /\ 0 <= n /\ a + n <= hi.
Proof.
  revert lo. induction l as [|[b k] l IH]; intros lo; cbn; [by intros _ ?%elem_of_nil|]. intros (? & ? & H) [E|Hin]%elem_of_cons.
  - injection E as -> ->. apply spaced_le in H. lia.
  - destruct (IH _ H Hin). lia.
Qed.
Lemma spaced_end lo l hi : spaced lo l hi -> end_of lo l <= hi.
Proof. revert lo. induction l as [|[a n] l IH]; intros lo; cbn; [done|]. intros (? & ? & ?). auto. Qed.
(** Where a block that overlaps none of the list goes. *)
Lemma spaced_split lo l hi bp sz :
  spaced lo l hi -> lo <= bp -> Forall (fun b => b.1 + b.2 <= bp \/ bp + sz <= b.1) l ->
  exists X B, l = X ++ B /\ end_of lo X <= bp /\ Forall (fun b => bp + sz <= b.1) B.
Proof.
  revert lo. induction l as [|[a n] l IH]; intros lo Hs Hlo HF; [by exists [], []|]. apply Forall_cons in HF as [Ha HF]. destruct Hs as (H1 & H2 & H3). cbn in Ha.
  destruct Ha as [Ha|Ha].
  - destruct (IH (a + n) H3 Ha HF) as (X & B & -> & HX & HB). by exists ((a, n) :: X), B.
  - exists [], ((a, n) :: l). split_and!; [done..|]. apply Forall_forall. intros [b k] [E|Hin]%elem_of_cons; [by injection E as -> ->|].
    destruct (spaced_in _ _ _ _ _ H3 Hin). cbn. lia.
Qed.
End list.

(** ** The search of [free] *)

Fixpoint quiet (bp : Z) (l : list block) (y : Z) : Prop :=
  match l with [] => True | (a, _) :: l => stops bp a (head_of l y) = false /\ quiet bp l y end.

Lemma quiet_app bp l1 l2 y : quiet bp (l1 ++ l2) y <-> quiet bp l1 (head_of l2 y) /\ quiet bp l2 y.
Proof. induction l1 as [|[a n] l1 IH]; cbn; [tauto|]. rewrite IH, head_of_app. tauto. Qed.

Lemma quiet_low bp lo l y n : spaced lo (l ++ [(y, n)]) bp -> y < bp -> quiet bp l y.
Proof.
  revert lo. induction l as [|[a k] l IH]; intros lo; cbn; [done|]. intros (H1 & H2 & H3) Hy. split; [|by eapply IH].
  assert (a < head_of l y < bp) as ?; [|unfold stops; lia]. destruct l as [|[b m] l]; cbn in *; [lia|]. destruct H3 as (? & ? & H3).
  rewrite spaced_app in H3. cbn in H3. destruct H3 as [E (? & ? & ?)]. apply spaced_le in E. lia.
Qed.
Lemma quiet_high bp base lo l hi : spaced lo l hi -> Forall (fun b => bp < b.1) l -> base < bp -> quiet bp l base.
Proof.
  revert lo. induction l as [|[a k] l IH]; intros lo; cbn; [done|]. intros (H1 & H2 & H3) [Ha HF]%Forall_cons Hb. split; [|by apply (IH (a + k))].
  cbn in Ha. destruct l as [|[b m] l]; cbn in *; [unfold stops; lia|]. destruct H3 as (? & _). unfold stops. lia.
Qed.

Lemma sptr_eq s p x n : hdr s !! p = Some (x, n) -> sptr s p = x.
Proof. unfold sptr. by intros ->. Qed.
Lemma ssize_eq s p x n : hdr s !! p = Some (x, n) -> ssize s p = n.
Proof. unfold ssize. by intros ->. Qed.

Lemma free_find_run fuel s bp p l k n y :
  linked (hdr s) p (l ++ [(k, n)]) y -> quiet bp l k -> stops bp k y = true -> (length l < fuel)%nat -> free_find fuel s bp p = Some k.
Proof.
  revert fuel p. induction l as [|[a m] l IH]; intros [|fuel] p Hl Hq Hs Hf; [cbn in Hf; lia| |cbn in Hf; lia|].
  - destruct Hl as (-> & nx & E & ->). cbn. by rewrite (sptr_eq _ _ _ _ E), Hs.
  - destruct Hl as (-> & nx & E & Hl). destruct Hq as [Hq1 Hq]. cbn [free_find]. rewrite (sptr_eq _ _ _ _ E).
    pose proof (linked_head _ _ _ _ Hl) as Enx. rewrite head_of_app in Enx. cbn in Enx. rewrite <- Enx in Hq1. rewrite Hq1. apply IH; [done..|cbn in Hf; lia].
Qed.

Section invariant.
Context (base : Z).
Hypothesis Hbase : 0 < base.

Record uinv (s : ust) (L : list block) : Prop := {
  ui_head : exists fl, L = (base, 0) :: fl /\ Forall (fun b => 0 < b.2) fl;
  ui_spaced : spaced (base - 1) L (ubrk s);
  ui_linked : linked (hdr s) base L base;
  ui_freep : exists L1 L2, L = L1 ++ L2 /\ L2 <> [] /\ freep s = head_of L2 base;
  ui_brk : base < ubrk s
}.

(** The units of the blocks of a list. *)
Definition covers (l : list block) (x : Z) : Prop := exists a n, (a, n) ∈ l /\ a <= x < a + n.
Definition apart (bp sz : Z) (b : block) : Prop := b.1 + b.2 <= bp \/ bp + sz <= b.1.

Lemma covers_cons a n l x : covers ((a, n) :: l) x <-> a <= x < a + n \/ covers l x.
Proof.
  unfold covers. split; [intros (b & m & [E|Hin]%elem_of_cons & Hx); [injection E as -> ->; by left|right; eauto]|].
  intros [Hx|(b & m & Hin & Hx)]; [exists a, n|exists b, m]; rewrite elem_of_cons; auto.
Qed.
Lemma covers_app l1 l2 x : covers (l1 ++ l2) x <-> covers l1 x \/ covers l2 x.
Proof. induction l1 as [|[a n] l1 IH]; cbn [app]; [split; [auto|intros [(? & ? & ?%elem_of_nil & _)|?]; done]|]. rewrite !covers_cons, IH. tauto. Qed.
Lemma covers_nil x : ~ covers [] x.
Proof. by intros (? & ? & ?%elem_of_nil & _). Qed.

Lemma spaced_NoDup lo l hi : spaced lo l hi -> NoDup l.*1.
Proof.
  revert lo. induction l as [|[a n] l IH]; intros lo; [by constructor|]. intros (H1 & H2 & H3). rewrite fmap_cons. apply NoDup_cons. split; [|by eapply IH].
  intros ([b m] & E & Hin)%list_elem_of_fmap. destruct (spaced_in _ _ _ _ _ H3 Hin). cbn in *. lia.
Qed.
Lemma linked_header h x l y a : linked h x l y -> a ∈ l.*1 -> is_Some (h !! a).
Proof. revert x. induction l as [|[b n] l IH]; intros x; [by intros _ ?%elem_of_nil|]. intros (_ & nx & E & Hl) [->|Hin]%elem_of_cons; [by eexists|by eapply IH]. Qed.
Lemma length_headers s L : uinv s L -> (length L <= size (hdr s))%nat.
Proof.
  intros I. rewrite <- (length_fmap fst L), <- (size_list_to_set (C := gset Z) L.*1) by (eapply spaced_NoDup, (ui_spaced _ _ I)). rewrite <- size_dom.
  apply subseteq_size. intros a Ha. apply elem_of_list_to_set in Ha. apply elem_of_dom. by eapply linked_header; [apply (ui_linked _ _ I)|].
Qed.

Section free.
Context (s : ust) (L : list block) (bp sz x : Z).
Hypothesis I : uinv s L.
Hypothesis Ebp : hdr s !! bp = Some (x, sz).
Hypothesis Hsz : 0 < sz.
Hypothesis Hbp : base < bp.
Hypothesis Hbrk : bp + sz <= ubrk s.
Hypothesis Hap : Forall (apart bp sz) L.

(** The predecessor of the block in the list. *)
Lemma free_place : exists X k n B, L = X ++ (k, n) :: B /\ k + n <= bp /\ k < bp /\ Forall (fun b => bp + sz <= b.1) B.
Proof using I Hsz Hbp Hap.
  pose proof (ui_spaced _ _ I) as Hs. destruct (spaced_split (base - 1) L (ubrk s) bp sz Hs) as (X & B & E & HX & HB); [lia|exact Hap|].
  destruct X as [|b X _] using rev_ind.
  - destruct (ui_head _ _ I) as (fl & Efl & _). rewrite Efl in E. cbn in E. subst B. apply Forall_cons in HB as [HB _]. cbn in HB. lia.
  - destruct b as [k n]. exists X, k, n, B. rewrite <- app_assoc in E. cbn [app] in E. assert (end_of (base - 1) (X ++ [(k, n)]) = k + n) as He.
    { clear. generalize (base - 1). induction X as [|[a m] X IH]; intros lo; [done|]. apply IH. }
    rewrite He in HX. split_and!; [done|done| |done]. destruct (ui_head _ _ I) as (fl & Efl & Hpos). rewrite Efl in E. destruct X as [|b X]; injection E as E1 E2.
    + lia.
    + subst fl. rewrite Forall_app, Forall_cons in Hpos. destruct Hpos as (_ & Hn & _). cbn in Hn. lia.
Qed.

Lemma free_search fuel X k n B :
  L = X ++ (k, n) :: B -> k + n <= bp -> k < bp -> Forall (fun b => bp + sz <= b.1) B -> (length L <= fuel)%nat -> free_find fuel s bp (freep s) = Some k.
Proof using I Hsz Hbp Hap.
  intros EL Hk Hk' HB Hf. destruct (ui_freep _ _ I) as (L1 & L2 & E12 & Hne & ->).
  pose proof (ui_spaced _ _ I) as Hs. pose proof (linked_rotate (hdr s) L1 L2 base Hne ltac:(rewrite <- E12; apply (ui_linked _ _ I))) as Hrot.
  assert (Hstop : stops bp k (head_of B base) = true).
  { destruct B as [|[b nb] B]; cbn; [|apply Forall_cons in HB as [HB _]; cbn in HB; unfold stops; lia].
    destruct (ui_head _ _ I) as (fl & Efl & _). assert (base <= k); [|unfold stops; lia]. rewrite EL, spaced_app in Hs. destruct Hs as [H1 (H2 & _)]. apply spaced_le in H1. lia. }
  assert (HqX : quiet bp X k).
  { apply (quiet_low bp (base - 1) X k n); [|done]. rewrite EL, spaced_app in Hs. rewrite spaced_app. destruct Hs as [H1 (H2 & H3 & _)]. split; [done|]. cbn. lia. }
  assert (Hh : forall z, head_of L1 (head_of L2 z) = base).
  { intros z. rewrite <- head_of_app, <- E12. by destruct (ui_head _ _ I) as (fl & -> & _). }
  assert (Hlen : (length L1 + length L2 <= fuel)%nat) by (rewrite E12, length_app in Hf; lia).
  assert (Hsp : spaced (k + n) B (ubrk s)) by (rewrite EL, spaced_app in Hs; apply Hs).
  rewrite E12 in EL. apply app_eq_inv in EL as [([|[a m] M] & E1 & E2)|(M & E1 & E2)].
  - rewrite app_nil_r in E1. cbn in E2. subst L1 L2. change (((k, n) :: B) ++ X) with ([(k, n)] ++ (B ++ X)) in Hrot. apply linked_app in Hrot as [Hrot _].
    rewrite head_of_app, (Hh base) in Hrot. apply (free_find_run fuel s bp _ [] k n _ Hrot); [done..|cbn in *; lia].
  - injection E2 as <- <- ->. subst L1. rewrite app_assoc, (cons_middle _ _ M), app_assoc in Hrot. apply linked_app in Hrot as [Hrot _].
    rewrite <- head_of_app in Hrot. apply (free_find_run fuel s bp _ _ k n _ Hrot); [|done|rewrite !length_app in *; cbn in *; lia]. apply quiet_app. split; [|done].
    assert (head_of X k = base) as ->.
    { pose proof (Hh base) as Hx. rewrite head_of_app in Hx. done. }
    rewrite spaced_app in Hsp. apply Forall_app in HB as [_ HB]. eapply quiet_high; [apply Hsp| |done]. eapply Forall_impl; [exact HB|]. cbn. lia.
  - subst X L2. rewrite <- app_assoc in Hrot. cbn [app] in Hrot. rewrite (cons_middle _ M (B ++ L1)), app_assoc in Hrot. apply linked_app in Hrot as [Hrot _].
    rewrite (head_of_app B L1), (Hh base) in Hrot. apply quiet_app in HqX as [_ HqM]. apply (free_find_run fuel s bp _ M k n _ Hrot); [done..|]. rewrite length_app in Hlen. cbn in Hlen. lia.
Qed.

(** Merging with the block above, then with the one below. *)
Definition merge_up (B : list block) : Z * list block :=
  match B with (b, nb) :: B' => if bp + sz =? b then (sz + nb, B') else (sz, B) | [] => (sz, []) end.
Definition merge_down (k n : Z) (u : Z * list block) : list block :=
  if k + n =? bp then (k, n + u.1) :: u.2 else (k, n) :: (bp, u.1) :: u.2.

Lemma step_up k B n :
  hdr s !! k = Some (head_of B base, n) -> k < bp -> Forall (fun b => bp + sz <= b.1) B -> linked (hdr s) (head_of B base) B base ->
  join_upper bp k s = USt (<[bp := (head_of (merge_up B).2 base, (merge_up B).1)]> (hdr s)) (freep s) (ubrk s).
Proof using Ebp Hsz Hbp.
  intros Ek Hk HB Hl. unfold join_upper. rewrite (ssize_eq _ _ _ _ Ebp), (sptr_eq _ _ _ _ Ek). destruct B as [|[b nb] B]; cbn [head_of merge_up] in *.
  - destruct (Z.eqb_spec (bp + sz) base); [lia|]. unfold set_sptr. by rewrite (ssize_eq _ _ _ _ Ebp).
  - apply Forall_cons in HB as [HB _]. cbn in HB. destruct Hl as (_ & nx & Eb & Hl). apply linked_head in Hl. destruct (Z.eqb_spec (bp + sz) b) as [E|E].
    + rewrite (ssize_eq _ _ _ _ Eb). unfold set_sptr, set_ssize. cbn [hdr freep ubrk fst snd].
      unfold sptr, ssize. cbn [hdr]. rewrite lookup_insert_eq, (lookup_insert_ne _ bp k) by lia. rewrite Ek. cbn. rewrite lookup_insert_ne by lia. rewrite Eb. cbn. by rewrite insert_insert_eq, Hl.
    + unfold set_sptr. by rewrite (ssize_eq _ _ _ _ Ebp).
Qed.

Lemma step_down k n x' sz' nx h :
  h !! k = Some (x', n) -> h !! bp = Some (nx, sz') -> k <> bp ->
  join_lower bp k (USt h (freep s) (ubrk s)) = USt (<[k := if k + n =? bp then (nx, n + sz') else (bp, n)]> h) (freep s) (ubrk s).
Proof using Type.
  intros Ek Eb Hne. unfold join_lower. set (s1 := USt h _ _). rewrite (ssize_eq s1 _ _ _ Ek), (ssize_eq s1 _ _ _ Eb). destruct (k + n =? bp); unfold set_sptr, set_ssize; cbn [hdr].
  - unfold sptr, ssize. cbn [hdr s1]. rewrite lookup_insert_eq, lookup_insert_ne by done. rewrite Eb. cbn. by rewrite insert_insert_eq.
  - unfold ssize. cbn [hdr s1]. by rewrite Ek.
Qed.

Lemma above (B : list block) b : Forall (fun b => bp + sz <= b.1) B -> b ∈ B.*1 -> bp < b.
Proof using Hsz. intros HB ([c m] & -> & Hin)%list_elem_of_fmap. rewrite Forall_forall in HB. specialize (HB _ Hin). cbn in *. lia. Qed.

Lemma merge_up_spec lo (B : list block) :
  spaced lo B (ubrk s) -> Forall (fun b => bp + sz <= b.1) B -> linked (hdr s) (head_of B base) B base ->
  let u := merge_up B in
  spaced (bp + u.1) u.2 (ubrk s) /\ 0 < u.1 /\ linked (hdr s) (head_of u.2 base) u.2 base /\ Forall (fun b => bp + sz <= b.1) u.2 /\
  (forall y, covers ((bp, u.1) :: u.2) y <-> bp <= y < bp + sz \/ covers B y) /\ (forall y, y ∈ u.2.*1 -> y ∈ B.*1) /\ (Forall (fun b => 0 < b.2) B -> Forall (fun b => 0 < b.2) u.2).
Proof using Hsz Hbrk.
  intros Hs HB Hl. destruct B as [|[b nb] B]; cbn [merge_up]; [cbn; split_and!; (done || lia || (intros y; rewrite covers_cons; done))|].
  apply Forall_cons in HB as [Hb HB]. cbn in Hb, Hs. destruct Hs as (H1 & H2 & H3). destruct (Z.eqb_spec (bp + sz) b) as [E|E]; cbn [fst snd].
  - destruct Hl as (_ & nx & Eb & Hl). pose proof (linked_head _ _ _ _ Hl) as Hnx. rewrite Hnx in Hl. split_and!; try done.
    + replace (bp + (sz + nb)) with (b + nb) by lia. done.
    + lia.
    + intros y. rewrite !covers_cons. assert (bp <= y < bp + (sz + nb) <-> (bp <= y < bp + sz \/ b <= y < b + nb)) as -> by lia. tauto.
    + intros y Hy. rewrite fmap_cons. by right.
    + by intros [_ ?]%Forall_cons.
  - split_and!; try done.
    + cbn. split_and!; (done || lia).
    + by constructor.
    + intros y. by rewrite (covers_cons bp).
Qed.

Lemma freed_linked X k n B vk sz' :
  linked (hdr s) base X k -> spaced (base - 1) X (end_of (base - 1) X) -> end_of (base - 1) X < k -> k < bp ->
  linked (hdr s) (head_of B base) B base -> Forall (fun b => bp + sz <= b.1) B ->
  vk = (if k + n =? bp then (head_of B base, n + sz') else (bp, n)) ->
  linked (<[k := vk]> (<[bp := (head_of B base, sz')]> (hdr s))) base (X ++ merge_down k n (sz', B)) base.
Proof using Hsz.
  intros HX Hs He Hk HB HF ->. assert (HXa : forall a, a ∈ X.*1 -> a < k).
  { intros a ([c m] & -> & Hin)%list_elem_of_fmap. destruct (spaced_in _ _ _ _ _ Hs Hin) as (? & ? & ?). cbn. lia. }
  assert (HXf : forall v v' h, linked h base X k -> linked (<[k := v]> (<[bp := v']> h)) base X k).
  { intros v v' h Hh. apply linked_frame; [intros Hin%HXa; lia|]. apply linked_frame; [intros Hin%HXa; lia|done]. }
  assert (HBf : forall v v' h, linked h (head_of B base) B base -> linked (<[k := v]> (<[bp := v']> h)) (head_of B base) B base).
  { intros v v' h Hh. apply linked_frame; [intros Hin%(above B _ HF); lia|]. apply linked_frame; [intros Hin%(above B _ HF); lia|done]. }
  apply linked_app. unfold merge_down. destruct (k + n =? bp); cbn [head_of fst snd linked].
  - split; [by apply HXf|]. split; [done|]. eexists. rewrite lookup_insert_eq. split; [done|]. by apply HBf.
  - split; [by apply HXf|]. split; [done|]. eexists. rewrite lookup_insert_eq. split; [done|]. split; [done|]. eexists.
    rewrite lookup_insert_ne, lookup_insert_eq by lia. split; [done|]. by apply HBf.
Qed.

Definition larger (l : list block) (m : Z) : Prop := exists a n, (a, n) ∈ l /\ m <= n.

Lemma free_run :
  exists s' L', free bp s = Some s' /\ uinv s' L' /\ (forall y, covers L' y <-> covers L y \/ bp <= y < bp + sz) /\
    ubrk s' = ubrk s /\ (forall a, (a ∉ L.*1) -> a <> bp -> hdr s' !! a = hdr s !! a) /\ (length L' <= S (length L))%nat /\ larger L' sz.
Proof using I Ebp Hsz Hbp Hbrk Hap.
  assert (length L <= S (size (hdr s)))%nat as Hf by (pose proof (length_headers s L I); lia). destruct free_place as (X & k & n & B & EL & Hk & Hk' & HB). pose proof (free_search _ X k n B EL Hk Hk' HB Hf) as Efind.
  destruct (ui_head _ _ I) as (fl & Efl & Hpos). pose proof (ui_spaced _ _ I) as Hs. pose proof (ui_linked _ _ I) as Hl. rewrite EL in Hs, Hl.
  apply spaced_app in Hs as [HsX (He & Hn & HsB)]. apply linked_app in Hl as [HlX (_ & nx & Ek & HlB)].
  pose proof (linked_head _ _ _ _ HlB) as Enx. rewrite Enx in Ek, HlB. cbn [head_of] in HlX.
  destruct (merge_up_spec (k + n) B HsB HB HlB) as (Hu1 & Hu2 & Hu3 & Hu4 & Hcov & Hsub & Hup).
  set (u := merge_up B) in *. set (vk := if k + n =? bp then (head_of u.2 base, n + u.1) else (bp, n)).
  exists (USt (<[k := vk]> (<[bp := (head_of u.2 base, u.1)]> (hdr s))) k (ubrk s)), (X ++ merge_down k n u).
  assert (Hcovd : forall y, covers (merge_down k n u) y <-> k <= y < k + n \/ covers ((bp, u.1) :: u.2) y).
  { intros y. unfold merge_down. destruct (Z.eqb_spec (k + n) bp) as [E|E]; rewrite !covers_cons; [|done].
    assert (k <= y < k + (n + u.1) <-> (k <= y < k + n \/ bp <= y < bp + u.1)) as -> by lia. tauto. }
  split_and!.
  - unfold free. rewrite Efind. rewrite (step_up k B n Ek Hk' HB HlB). fold u.
    rewrite (step_down k n (head_of B base) u.1 (head_of u.2 base)); [done|by rewrite lookup_insert_ne by lia|by rewrite lookup_insert_eq|lia].
  - split; cbn [hdr freep ubrk].
    + destruct X as [|b X].
      * rewrite Efl in EL. injection EL as <- <- ->. exists ((bp, u.1) :: u.2). unfold merge_down. destruct (Z.eqb_spec (base + 0) bp); [lia|]. split; [done|]. constructor; auto.
      * rewrite Efl in EL. injection EL as <- ->. exists (X ++ merge_down k n u). split; [done|]. apply Forall_app in Hpos as [HpX [Hpk HpB]%Forall_cons].
        apply Forall_app. split; [done|]. unfold merge_down. destruct (k + n =? bp); repeat constructor; cbn in *; auto; lia.
    + apply spaced_app. split; [done|]. unfold merge_down. destruct (Z.eqb_spec (k + n) bp) as [E|E]; cbn; [replace (k + (n + u.1)) with (bp + u.1) by lia|]; split_and!; (done || lia).
    + apply freed_linked; try done.
    + exists X, (merge_down k n u). split_and!; [done| |]; unfold merge_down; by destruct (k + n =? bp).
    + apply (ui_brk _ _ I).
  - intros y. rewrite EL, !covers_app, covers_cons, Hcovd, Hcov. tauto.
  - done.
  - intros a Ha Hne. cbn. rewrite !lookup_insert_ne; [done|congruence|]. rewrite EL, fmap_app, fmap_cons in Ha. intros ->. apply Ha. apply elem_of_app. right. by left.
  - rewrite EL, !length_app. unfold merge_down, u, merge_up. destruct B as [|[b nb] B]; [|destruct (bp + sz =? b)]; cbn [fst snd length]; destruct (k + n =? bp); cbn [length]; lia.
  - unfold merge_down, larger. assert (sz <= u.1) as Hle.
    { unfold u, merge_up. destruct B as [|[b nb] B]; [cbn; lia|]. destruct HsB as (_ & ? & _). destruct (bp + sz =? b); cbn; lia. }
    destruct (k + n =? bp); [exists k, (n + u.1)|exists bp, u.1]; (split; [apply elem_of_app; right; rewrite !elem_of_cons; auto|lia]).
Qed.
End free.

(** ** The search of [malloc] *)

(** The predecessor of a block that is not [base]. *)
Lemma pred_split s L c a :
  uinv s L -> c ∈ L.*1 -> sptr s c = a -> 0 < ssize s a -> exists X nc m Y, L = X ++ (c, nc) :: (a, m) :: Y /\ ssize s a = m.
Proof.
  intros I ([c' nc] & -> & (X & Y & EL)%list_elem_of_split)%list_elem_of_fmap <- Ha. pose proof (ui_linked _ _ I) as Hl. rewrite EL in Hl. cbn [fst] in *.
  apply linked_app in Hl as [_ (_ & nx & Ec & Hl)]. rewrite (sptr_eq _ _ _ _ Ec) in *. destruct Y as [|[a m] Y].
  - cbn in Hl. subst nx. exfalso. destruct (ui_head _ _ I) as (fl & Efl & _). pose proof (ui_linked _ _ I) as Hl. rewrite Efl in Hl. destruct Hl as (_ & z & Eb & _).
    rewrite (ssize_eq _ _ _ _ Eb) in Ha. lia.
  - destruct Hl as (-> & z & Ea & _). exists X, nc, m, Y. split; [done|]. by rewrite (ssize_eq _ _ _ _ Ea).
Qed.

Section take.
Context (s : ust) (X : list block) (c nc a m : Z) (Y : list block) (nu : Z).
Hypothesis I : uinv s (X ++ (c, nc) :: (a, m) :: Y).
Hypothesis Hnu : 0 < nu <= m.

Lemma take_facts :
  spaced (base - 1) X (end_of (base - 1) X) /\ end_of (base - 1) X < c /\ 0 <= nc /\ c + nc < a /\ spaced (a + m) Y (ubrk s) /\
  linked (hdr s) base X c /\ hdr s !! c = Some (a, nc) /\ hdr s !! a = Some (head_of Y base, m) /\ linked (hdr s) (head_of Y base) Y base.
Proof using I.
  pose proof (ui_spaced _ _ I) as Hs. pose proof (ui_linked _ _ I) as Hl. apply spaced_app in Hs as [Hs1 (Hs2 & Hs3 & Hs4 & Hs5 & Hs6)].
  apply linked_app in Hl as [Hl1 (_ & nx & Ec & -> & ny & Ea & Hl2)]. pose proof (linked_head _ _ _ _ Hl2) as Ey. subst ny. done.
Qed.
Lemma take_out_X y : y ∈ X.*1 -> y < c.
Proof using I. destruct take_facts as (H1 & H2 & _). intros ([b k] & -> & Hin)%list_elem_of_fmap. destruct (spaced_in _ _ _ _ _ H1 Hin) as (? & ? & ?). cbn. lia. Qed.
Lemma take_out_Y y : y ∈ Y.*1 -> a + m < y.
Proof using I. destruct take_facts as (_ & _ & _ & _ & H5 & _). intros ([b k] & -> & Hin)%list_elem_of_fmap. destruct (spaced_in _ _ _ _ _ H5 Hin) as (? & ? & ?). cbn. lia. Qed.


(** The head of the list stays [base] when the blocks after [c] change. *)
Lemma take_ui_head Z' : Forall (fun b => 0 < b.2) Z' -> exists fl, X ++ (c, nc) :: Z' = (base, 0) :: fl /\ Forall (fun b => 0 < b.2) fl.
Proof using I.
  intros HZ. destruct (ui_head _ _ I) as (fl & Efl & Hpos). destruct X as [|b X']; injection Efl as E1 E2.
  - intros. subst. by exists Z'.
  - subst b fl. exists (X' ++ (c, nc) :: Z'). split; [done|]. apply Forall_app in Hpos as [HX [Hc _]%Forall_cons]. apply Forall_app. split; [done|]. by constructor.
Qed.
Lemma take_pos_Y : Forall (fun b => 0 < b.2) Y.
Proof using I.
  destruct (ui_head _ _ I) as (fl & Efl & Hpos). destruct X as [|b X']; injection Efl as E1 E2; subst fl; [by apply Forall_cons in Hpos as [_ ?]|].
  apply Forall_app in Hpos as [_ Hp]. by apply Forall_cons in Hp as [_ [_ ?]%Forall_cons].
Qed.

(** All of the block. *)
Lemma take_all : uinv (set_freep c (set_sptr c (sptr s a) s)) (X ++ (c, nc) :: Y).
Proof using I Hnu.
  destruct take_facts as (H1 & H2 & H3 & H4 & H5 & H6 & Ec & Ea & H7). rewrite (sptr_eq _ _ _ _ Ea). unfold set_sptr, set_freep. rewrite (ssize_eq _ _ _ _ Ec).
  split; cbn [hdr freep ubrk].
  - apply take_ui_head, take_pos_Y.
  - apply spaced_app. split; [done|]. split_and!; [done..|]. destruct Y as [|[b k] Y']; cbn in *; [lia|]. destruct H5 as (? & ? & ?). split_and!; [lia|done..].
  - apply linked_app. cbn [head_of]. split; [apply linked_frame; [intros ?%take_out_X; lia|done]|]. split; [done|]. eexists. rewrite lookup_insert_eq. split; [done|].
    apply linked_frame; [intros ?%take_out_Y; lia|done].
  - exists X, ((c, nc) :: Y). done.
  - apply (ui_brk _ _ I).
Qed.

(** Its upper end. *)
Lemma take_part : nu < m -> uinv (set_freep c (set_ssize (a + (m - nu)) nu (set_ssize a (m - nu) s))) (X ++ (c, nc) :: (a, m - nu) :: Y).
Proof using I Hnu.
  intros Hlt. destruct take_facts as (H1 & H2 & H3 & H4 & H5 & H6 & Ec & Ea & H7). unfold set_ssize, set_freep. cbn [hdr freep ubrk]. rewrite (sptr_eq _ _ _ _ Ea).
  split; cbn [hdr freep ubrk].
  - apply take_ui_head. constructor; [cbn; lia|apply take_pos_Y].
  - apply spaced_app. split; [done|]. split_and!; [done..|]. split_and!; [done|lia|]. destruct Y as [|[b k] Y']; cbn in *; [lia|]. destruct H5 as (? & ? & ?). split_and!; [lia|done..].
  - apply linked_app. cbn [head_of]. split; [do 2 (apply linked_frame; [intros ?%take_out_X; lia|]); done|]. split; [done|]. exists a. rewrite !lookup_insert_ne by lia. split; [done|].
    split; [done|]. eexists. rewrite lookup_insert_ne, lookup_insert_eq by lia. split; [done|]. do 2 (apply linked_frame; [intros ?%take_out_Y; lia|]). done.
  - exists X, ((c, nc) :: (a, m - nu) :: Y). done.
  - apply (ui_brk _ _ I).
Qed.

Lemma take_apart y (L' : list block) : L' = Y \/ L' = (a, m - nu) :: Y -> covers (X ++ (c, nc) :: L') y -> ~ (a + (m - nu) <= y < a + m).
Proof using I Hnu.
  destruct take_facts as (H1 & H2 & H3 & H4 & H5 & _). intros HL Hc Hy. rewrite covers_app, covers_cons in Hc. destruct Hc as [(b & k & Hin & Hb)|[Hb|Hc]].
  - destruct (spaced_in _ _ _ _ _ H1 Hin). lia.
  - lia.
  - assert (forall y, covers Y y -> a + m < y) as HY by (intros z (b & k & Hin & Hb); destruct (spaced_in _ _ _ _ _ H5 Hin); lia).
    destruct HL as [-> | ->]; [apply HY in Hc; lia|]. rewrite covers_cons in Hc. destruct Hc as [Hc|Hc%HY]; lia.
Qed.
End take.

(** What a successful [malloc] of [nu] units does: the block at [b] was free,
    and nothing else has changed hands. *)
Record gives (s : ust) (L : list block) (nu b : Z) (s' : ust) (L' : list block) : Prop := {
  gv_inv : uinv s' L';
  gv_header : exists x, hdr s' !! b = Some (x, nu);
  gv_above : base < b;
  gv_covers : forall y, covers L y <-> covers L' y \/ b <= y < b + nu;
  gv_apart : forall y, covers L' y -> ~ (b <= y < b + nu);
  gv_brk : ubrk s' = ubrk s;
  gv_frame : forall z, (z ∉ L.*1) -> ~ covers L z -> hdr s' !! z = hdr s !! z
}.

Section loop.
Context (grants : Z -> Z -> bool).

Lemma fit_run fuel s L nu c a :
  uinv s L -> c ∈ L.*1 -> sptr s c = a -> 0 < nu <= ssize s a ->
  exists b s' L', malloc_loop grants (S fuel) nu c a s = Some (Some (b + 1), s') /\ gives s L nu b s' L'.
Proof.
  intros I Hc Ea Hnu. destruct (pred_split s L c a I Hc Ea) as (X & nc & m & Y & -> & Em); [lia|]. rewrite Em in Hnu. clear Hc Ea.
  destruct (take_facts s X c nc a m Y I) as (H1 & H2 & H3 & H4 & H5 & H6 & Ec & Eh & H7). pose proof (spaced_le _ _ _ H1) as Hle.
  cbn [malloc_loop]. rewrite Em. destruct (Z.leb_spec nu m); [|lia]. destruct (Z.eqb_spec m nu) as [->|Hne].
  - do 3 eexists. split; [reflexivity|]. split; [by apply (take_all s X c nc a nu Y nu)| |lia| | |done|].
    + cbn. rewrite lookup_insert_ne by lia. eauto.
    + intros y. rewrite !covers_app, !covers_cons. tauto.
    + intros y Hy. pose proof (take_apart s X c nc a nu Y nu I ltac:(lia) y Y ltac:(by left) Hy). lia.
    + intros z Hz _. cbn. rewrite lookup_insert_ne; [done|]. intros ->. apply Hz. rewrite fmap_app. apply elem_of_app. right. by left.
  - assert (ssize (set_ssize a (m - nu) s) a = m - nu) as Es by (unfold ssize, set_ssize; cbn [hdr]; by rewrite lookup_insert_eq).
    do 3 eexists. split; [reflexivity|]. rewrite Es. split; [apply (take_part s X c nc a m Y nu I Hnu); lia| |lia| | |done|].
    + cbn. rewrite lookup_insert_eq. eauto.
    + intros y. rewrite !covers_app, !covers_cons. assert (a <= y < a + m <-> (a <= y < a + (m - nu) \/ a + (m - nu) <= y < a + (m - nu) + nu)) as -> by lia. tauto.
    + intros y Hy. pose proof (take_apart s X c nc a m Y nu I Hnu y _ ltac:(by right) Hy). lia.
    + intros z Hz Hcz. cbn. rewrite !lookup_insert_ne; [done| |].
      * intros ->. apply Hz. rewrite fmap_app. apply elem_of_app. right. right. by left.
      * intros <-. apply Hcz. rewrite covers_app, !covers_cons. right. right. left. lia.
Qed.

Lemma malloc_skip fuel s nu c a :
  ssize s a < nu -> a <> freep s -> malloc_loop grants (S fuel) nu c a s = malloc_loop grants fuel nu a (sptr s a) s.
Proof. intros Hs Hf. cbn [malloc_loop]. destruct (Z.leb_spec nu (ssize s a)); [lia|]. by destruct (Z.eqb_spec a (freep s)). Qed.

(** The loop passes blocks that are too small until one fits or it is back at
    the start. *)
Lemma scan_run s L nu l f nf y fuel c p :
  uinv s L -> 0 < nu -> linked (hdr s) p (l ++ [(f, nf)]) y -> f = freep s -> (f ∉ l.*1) -> (forall b, b ∈ l.*1 -> b ∈ L.*1) -> c ∈ L.*1 -> sptr s c = p ->
  (exists b s' L', malloc_loop grants (length l + S fuel) nu c p s = Some (Some (b + 1), s') /\ gives s L nu b s' L') \/
  (Forall (fun b => b.2 < nu) (l ++ [(f, nf)]) /\ exists c', malloc_loop grants (length l + S fuel) nu c p s = malloc_loop grants (S fuel) nu c' f s).
Proof.
  intros I Hnu. revert c p. induction l as [|[a m] l IH]; intros c p Hl Hf Hni Hsub Hc Hp.
  - destruct Hl as (-> & nx & E & ->). destruct (Z.le_gt_cases nu nf) as [Hfit|Hfit].
    + left. apply fit_run; [done..|]. rewrite (ssize_eq _ _ _ _ E). lia.
    + right. split; [apply Forall_singleton; cbn; lia|]. by exists c.
  - destruct Hl as (-> & nx & E & Hl). rewrite fmap_cons, not_elem_of_cons in Hni. destruct Hni as [Hne Hni]. cbn [fst] in Hne.
    destruct (Z.le_gt_cases nu m) as [Hfit|Hfit]; [left; cbn [length Nat.add]; apply fit_run; [done..|]; rewrite (ssize_eq _ _ _ _ E); lia|].
    cbn [length Nat.add]. rewrite malloc_skip; [|rewrite (ssize_eq _ _ _ _ E); lia|congruence]. rewrite (sptr_eq _ _ _ _ E).
    destruct (IH a nx Hl Hf Hni) as [H|[HF H]]; [intros b Hb; apply Hsub; by right|apply Hsub; by left|by rewrite (sptr_eq _ _ _ _ E)|by left|].
    right. split; [by constructor|done].
Qed.

(** One round from [freep]. *)
Lemma round_run s L nu fuel :
  uinv s L -> 0 < nu ->
  (exists b s' L', malloc_loop grants (length L + S fuel) nu (freep s) (sptr s (freep s)) s = Some (Some (b + 1), s') /\ gives s L nu b s' L') \/
  (Forall (fun b => b.2 < nu) L /\ exists c', malloc_loop grants (length L + S fuel) nu (freep s) (sptr s (freep s)) s = malloc_loop grants (S (S fuel)) nu c' (freep s) s).
Proof.
  intros I Hnu. destruct (ui_freep _ _ I) as (L1 & L2 & EL & Hne & Ef). pose proof (linked_rotate (hdr s) L1 L2 base Hne ltac:(rewrite <- EL; apply (ui_linked _ _ I))) as Hrot.
  destruct L2 as [|[f nf] L2]; [done|]. cbn [head_of] in *. destruct Hrot as (_ & nx & E & Hrot).
  assert (Hlin : linked (hdr s) nx ((L2 ++ L1) ++ [(f, nf)]) nx).
  { apply linked_app. cbn [head_of]. split; [done|]. split; [done|]. by exists nx. }
  assert (Hperm : L ≡ₚ (L2 ++ L1) ++ [(f, nf)]) by (rewrite EL; solve_Permutation).
  assert (Hlen : (length L + S fuel = length (L2 ++ L1) + S (S fuel))%nat) by (apply Permutation_length in Hperm; rewrite (length_app (L2 ++ L1)) in Hperm; cbn in Hperm; lia).
  rewrite Ef, Hlen, (sptr_eq _ _ _ _ E).
  destruct (scan_run s L nu (L2 ++ L1) f nf nx (S fuel) f nx I Hnu Hlin (eq_sym Ef)) as [H|[HF H]].
  - pose proof (spaced_NoDup _ _ _ (ui_spaced _ _ I)) as Hn. rewrite Hperm, fmap_app in Hn. apply NoDup_app in Hn as (_ & Hd & _). intros Hin. apply (Hd f Hin). by left.
  - intros b Hb. rewrite Hperm, fmap_app. apply elem_of_app. by left.
  - rewrite Hperm, fmap_app. apply elem_of_app. right. by left.
  - by rewrite (sptr_eq _ _ _ _ E).
  - by left.
  - right. split; [by rewrite Hperm|done].
Qed.

Lemma list_below s L a n : uinv s L -> (a, n) ∈ L -> a < ubrk s /\ base <= a /\ a + n <= ubrk s.
Proof.
  intros I Hin. destruct (spaced_in _ _ _ _ _ (ui_spaced _ _ I) Hin) as (? & ? & ?). pose proof (ui_brk _ _ I). destruct (ui_head _ _ I) as (fl & -> & Hpos).
  apply elem_of_cons in Hin as [E|Hin]; [injection E as -> ->; lia|]. rewrite Forall_forall in Hpos. specialize (Hpos _ Hin). cbn in Hpos. lia.
Qed.
Lemma in_list_covered s L z : uinv s L -> z ∈ L.*1 -> z = base \/ covers L z.
Proof.
  intros I ([a n] & -> & Hin)%list_elem_of_fmap. cbn. pose proof Hin as Hin'. destruct (ui_head _ _ I) as (fl & E & Hpos). rewrite E in Hin'.
  apply elem_of_cons in Hin' as [E'|Hin']; [left; by injection E' as ->|]. right. rewrite Forall_forall in Hpos. specialize (Hpos _ Hin'). exists a, n. cbn in Hpos. split; [done|lia].
Qed.
(** Stores to headers outside the list. *)
Lemma uinv_header s L z v : uinv s L -> (z ∉ L.*1) -> uinv (USt (<[z := v]> (hdr s)) (freep s) (ubrk s)) L.
Proof. intros [H1 H2 H3 H4 H5] Hz. split; [done..| |done|done]. by apply linked_frame. Qed.
Lemma uinv_grow s L b : uinv s L -> ubrk s <= b -> uinv (USt (hdr s) (freep s) b) L.
Proof. intros [H1 H2 H3 H4 H5] Hb. split; [done|by eapply spaced_mono|done|done|cbn; lia]. Qed.

Lemma morecore_run s L nu :
  uinv s L -> 0 < nu < 2^27 ->
  morecore grants nu s = Some (None, s) \/
  exists s' L' k, nu <= k /\ morecore grants nu s = Some (Some (freep s'), s') /\ uinv s' L' /\ ubrk s' = ubrk s + k /\
    (forall y, covers L' y <-> covers L y \/ ubrk s <= y < ubrk s + k) /\ (forall z, (z ∉ L.*1) -> z < ubrk s -> hdr s' !! z = hdr s !! z) /\
    (length L' <= S (length L))%nat /\ larger L' nu.
Proof.
  intros I Hnu. unfold morecore, sbrk. set (k := if nu <? 4096 then 4096 else nu). assert (nu <= k < 2^27 /\ 0 < k) as [Hk Hk0] by (unfold k; destruct (Z.ltb_spec nu 4096); lia).
  assert (i32 (k * 16) = k * 16) as -> by (unfold i32; apply signed_small; lia). destruct (grants (ubrk s) (k * 16)); [right|by left]. rewrite Z.div_mul by done.
  pose proof (ui_brk _ _ I) as Hbrk. set (hp := ubrk s). set (s0 := USt (hdr s) (freep s) (hp + k)). assert (hp ∉ L.*1) as Hni.
  { intros ([a n] & E & Hin)%list_elem_of_fmap. destruct (list_below _ _ _ _ I Hin) as (? & _). cbn in E. unfold hp in E. lia. }
  assert (I0 : uinv (set_ssize hp k s0) L) by (apply (uinv_header s0); [apply (uinv_grow s); [done|unfold hp; lia]|done]).
  destruct (free_run (set_ssize hp k s0) L hp k (sptr s0 hp) I0) as (s' & L' & E & I' & Hc & Hb & Hf & Hl & Hla); [by cbn; rewrite lookup_insert_eq|lia|done|cbn; lia| |].
  { apply Forall_forall. intros [a n] Hin. left. cbn. destruct (list_below _ _ _ _ I Hin). unfold hp. lia. }
  rewrite E. exists s', L', k. split_and!; try done; try lia.
  - intros z Hz Hlt. rewrite (Hf z Hz) by (unfold hp; lia). cbn. by rewrite lookup_insert_ne by (unfold hp; lia).
  - destruct Hla as (a & n & Hin & Hn). exists a, n. split; [done|lia].
Qed.

(** The result of [malloc]. *)
Record got (s : ust) (L : list block) (nu b : Z) (s' : ust) (L' : list block) : Prop := {
  gt_inv : uinv s' L';
  gt_header : exists x, hdr s' !! b = Some (x, nu);
  gt_above : base < b;
  gt_covers : forall y, (covers L y \/ ubrk s <= y < ubrk s') <-> (covers L' y \/ b <= y < b + nu);
  gt_apart : forall y, covers L' y -> ~ (b <= y < b + nu);
  gt_brk : ubrk s <= ubrk s';
  gt_frame : forall z, (z ∉ L.*1) -> ~ covers L z -> z < ubrk s -> hdr s' !! z = hdr s !! z
}.

Lemma malloc_loop_run s L nu :
  uinv s L -> 0 < nu < 2^27 ->
  let r := malloc_loop grants (2 * size (hdr s) + 4) nu (freep s) (sptr s (freep s)) s in
  r = Some (None, s) \/ exists b s' L', r = Some (Some (b + 1), s') /\ got s L nu b s' L'.
Proof.
  intros I Hnu r. pose proof (length_headers s L I) as Hlen. set (f1 := (2 * size (hdr s) + 3 - length L)%nat).
  assert (2 * size (hdr s) + 4 = length L + S f1)%nat as Ef by (unfold f1; lia). unfold r. rewrite Ef.
  destruct (round_run s L nu f1 I ltac:(lia)) as [(b & s' & L' & -> & G)|(HF & c' & ->)].
  - right. exists b, s', L'. split; [done|]. destruct G as [G1 G2 G3 G4 G5 G6 G7]. split; try done; [|lia|auto]. intros y. rewrite <- G4. rewrite G6. split; [intros [?|?]; [done|lia]|by left].
  - assert (ssize s (freep s) < nu) as Hsz.
    { destruct (ui_freep _ _ I) as (L1 & [|[f nf] L2] & EL & Hne & ->); [done|]. cbn [head_of]. pose proof (ui_linked _ _ I) as Hl. rewrite EL in Hl, HF.
      apply linked_app in Hl as [_ (_ & nx & E & _)]. rewrite (ssize_eq _ _ _ _ E). apply Forall_app in HF as [_ [HF _]%Forall_cons]. done. }
    cbn [malloc_loop]. destruct (Z.leb_spec nu (ssize s (freep s))); [lia|]. rewrite Z.eqb_refl.
    destruct (morecore_run s L nu I Hnu) as [->|(s1 & L1 & k & Hk & -> & I1 & Hb1 & Hc1 & Hf1 & Hl1 & a & n & Hin & Hn)]; [by left|]. right.
    change (if nu <=? ssize s1 (sptr s1 (freep s1)) then _ else _) with (malloc_loop grants (S f1) nu (freep s1) (sptr s1 (freep s1)) s1).
    assert (S f1 = length L1 + S (f1 - length L1))%nat as -> by (unfold f1; lia).
    destruct (round_run s1 L1 nu (f1 - length L1) I1 ltac:(lia)) as [(b & s' & L' & -> & G)|(HF1 & _)]; [|rewrite Forall_forall in HF1; specialize (HF1 _ Hin); cbn in HF1; lia].
    exists b, s', L'. split; [done|]. destruct G as [G1 G2 G3 G4 G5 G6 G7]. split; try done.
    + intros y. rewrite <- G4, Hc1, G6, Hb1. tauto.
    + lia.
    + intros z Hz Hcz Hlt. rewrite G7; [by apply Hf1| |intros [?|?]%Hc1; [done|lia]].
      intros Hin1. destruct (in_list_covered _ _ _ I1 Hin1) as [->|[?|?]%Hc1]; [|done|lia]. apply Hz. destruct (ui_head _ _ I) as (fl & -> & _). by left.
Qed.
End loop.
End invariant.
