(* ===== verification/UmallocProps.v ===== *)
(** * Theorems on the user allocator

    A program calls [malloc] and [free] and writes into the blocks it holds,
    in any order.  The blocks it holds never overlap each other, the free list
    or the headers, and together with the free list they make up the heap. *)

From S2P Require Import Prelude Umalloc.

(** The blocks the program holds: the address of the header and the size. *)
Abbreviation blocks := (gmap Z Z).
Definition holds (al : blocks) (y : Z) : Prop := exists b n, al !! b = Some n /\ b <= y < b + n.

(** Requests that [sbrk], which takes an [int], can serve. *)
Definition sane (nbytes : Z) : Prop := 0 <= nbytes < 2^31 - 64.

(** A program starts with no heap. *)
Definition ustart (heap : Z) (x : ust * blocks) : Prop := freep x.1 = 0 /\ ubrk x.1 = heap /\ x.2 = ∅.

Section heap.
Context (base : Z).
Hypothesis Hbase : 0 < base.
Context (heap : Z).
Hypothesis Hheap : base < heap.

Record hinv (s : ust) (L : list (Z * Z)) (al : blocks) : Prop := {
  hi_list : uinv base s L;
  hi_heap : heap <= ubrk s;
  hi_header : forall b n, al !! b = Some n -> 0 < n /\ exists x, hdr s !! b = Some (x, n);
  hi_all : forall y, (covers L y \/ holds al y) <-> heap <= y < ubrk s;
  hi_free : forall y, covers L y -> ~ holds al y;
  hi_apart : forall b n b' n' y, al !! b = Some n -> al !! b' = Some n' -> b <= y < b + n -> b' <= y < b' + n' -> b = b'
}.
Definition reachable_inv (x : ust * blocks) : Prop := ustart heap x \/ exists L, hinv x.1 L x.2.

Lemma holds_insert al b n y : al !! b = None -> holds (<[b := n]> al) y <-> (b <= y < b + n \/ holds al y).
Proof.
  intros Hb. unfold holds. split.
  - intros (c & k & Hc & Hy). destruct (decide (c = b)) as [->|Hne]; [rewrite lookup_insert_eq in Hc; injection Hc as ->; by left|].
    rewrite lookup_insert_ne in Hc by done. right. eauto.
  - intros [Hy|(c & k & Hc & Hy)]; [exists b, n; by rewrite lookup_insert_eq|]. exists c, k. rewrite lookup_insert_ne by congruence. done.
Qed.
Lemma holds_delete al b n y : al !! b = Some n -> holds al y <-> (b <= y < b + n \/ holds (delete b al) y).
Proof. intros Hb. rewrite <- (holds_insert (delete b al) b n) by apply lookup_delete_eq. by rewrite insert_delete_id. Qed.

(** Room for the bytes after the header, and less than a unit to spare. *)
Lemma nunits_room nbytes : sane nbytes -> nbytes <= 16 * (nunits_of nbytes - 1) < nbytes + 16.
Proof.
  intros [H1 H2]. unfold nunits_of. pose proof (Z.div_mod (nbytes + 16 - 1) 16 ltac:(lia)). pose proof (Z.mod_pos_bound (nbytes + 16 - 1) 16 ltac:(lia)).
  rewrite u32_small by lia. lia.
Qed.
Lemma nunits_range nbytes : sane nbytes -> 0 < nunits_of nbytes < 2^27.
Proof.
  intros [H1 H2]. unfold nunits_of. assert (0 <= (nbytes + 16 - 1) / 16 < 2^27 - 2) as H by (split; [apply Z.div_pos; lia|apply Z.div_lt_upper_bound; lia]).
  rewrite u32_small by lia. lia.
Qed.

(** The first call creates the list. *)
Lemma init_inv x : reachable_inv x -> exists L, hinv (malloc_init base x.1) L x.2.
Proof using Hbase Hheap.
  intros [(H1 & H2 & H3)|[L I]].
  - exists [(base, 0)]. unfold malloc_init. rewrite H1, H3. cbn. split; cbn.
    + split; cbn; [by exists []|rewrite H2; lia| |exists [], [(base, 0)]; done|lia]. split; [done|]. eexists. by rewrite lookup_insert_eq.
    + lia.
    + intros b n. by rewrite lookup_empty.
    + intros y. rewrite H2. split; [|lia]. intros [Hc|(b & n & Hb & _)]; [|by rewrite lookup_empty in Hb]. apply covers_cons in Hc as [?|Hc]; [lia|by apply covers_nil in Hc].
    + intros y Hc. apply covers_cons in Hc as [?|Hc]; [lia|by apply covers_nil in Hc].
    + intros b n b' n' y. by rewrite lookup_empty.
  - exists L. unfold malloc_init. destruct (Z.eqb_spec (freep x.1) 0) as [E|_]; [|done]. exfalso.
    destruct (ui_freep _ _ _ (hi_list _ _ _ I)) as (L1 & [|[f nf] L2] & EL & Hne & Ef); [done|]. cbn in Ef.
    destruct (list_below base (x.1) L f nf (hi_list _ _ _ I)) as (_ & ? & _); [rewrite EL; apply elem_of_app; right; by left|]. lia.
Qed.

Lemma not_in_list s L al z : hinv s L al -> holds al z -> z ∉ L.*1.
Proof using Hheap.
  intros I Hz Hin. destruct (in_list_covered base _ _ _ (hi_list _ _ _ I) Hin) as [->|Hc]; [|by apply (hi_free _ _ _ I z)].
  pose proof (proj1 (hi_all _ _ _ I base) (or_intror Hz)). lia.
Qed.
Lemma header_held s L al b n : hinv s L al -> al !! b = Some n -> holds al b.
Proof using Type. intros I Hb. destruct (hi_header _ _ _ I b n Hb) as [Hn _]. exists b, n. split; [done|lia]. Qed.

Lemma malloc_keeps s L al nu b s' L' : hinv s L al -> 0 < nu -> got base s L nu b s' L' -> hinv s' L' (<[b := nu]> al).
Proof using Hheap.
  intros I Hnu G. pose proof I as [I1 I2 I3 I4 I5 I6]. destruct G as [G1 G2 G3 G4 G5 G6 G7].
  assert (Hnew : forall y, b <= y < b + nu -> ~ holds al y).
  { intros y Hy Hh. pose proof (proj2 (G4 y) (or_intror Hy)) as [Hc|Hc]; [by apply (I5 y)|]. pose proof (proj1 (I4 y) (or_intror Hh)). lia. }
  assert (Hb : al !! b = None).
  { destruct (al !! b) as [n|] eqn:E; [|done]. exfalso. apply (Hnew b); [lia|]. by eapply header_held. }
  split; [done|lia| | | |].
  - intros c n Hc. destruct (decide (c = b)) as [->|Hne]; [rewrite lookup_insert_eq in Hc; injection Hc as <-; done|]. rewrite lookup_insert_ne in Hc by done.
    pose proof (header_held _ _ _ _ _ I Hc) as Hh. rewrite G7; [by apply I3|by eapply not_in_list|intros Hcv; by apply (I5 c)|]. apply (I4 c). by right.
  - intros y. rewrite holds_insert by done. specialize (I4 y). specialize (G4 y). split; [|intros Hy].
    + intros [Hc|[Hy|Hh]]; [destruct (proj2 G4 (or_introl Hc)) as [?|?]|destruct (proj2 G4 (or_intror Hy)) as [?|?]|]; try lia; assert (heap <= y < ubrk s) by (apply I4; tauto); lia.
    + destruct (decide (y < ubrk s)) as [Hlt|Hge]; [assert (heap <= y < ubrk s) as Hr by lia; destruct (proj2 I4 Hr) as [Hc|Hh]; [|tauto]; destruct (proj1 G4 (or_introl Hc)); tauto|].
      assert (ubrk s <= y < ubrk s') as Hr by lia. destruct (proj1 G4 (or_intror Hr)); tauto.
  - intros y Hc Hh. rewrite holds_insert in Hh by done. destruct Hh as [Hy|Hh]; [by apply (G5 y)|].
    destruct (proj2 (G4 y) (or_introl Hc)) as [Hc'|Hc']; [by apply (I5 y)|]. pose proof (proj1 (I4 y) (or_intror Hh)). lia.
  - intros c n c' n' y Hc Hc' Hy Hy'. destruct (decide (c = b)) as [->|Hne], (decide (c' = b)) as [->|Hne']; [done| | |];
      rewrite ?lookup_insert_eq in *; repeat match goal with H : <[b := nu]> al !! _ = _ |- _ => rewrite lookup_insert_ne in H by done end; simplify_eq.
    + exfalso. apply (Hnew y); [done|]. by exists c', n'.
    + exfalso. apply (Hnew y); [done|]. by exists c, n.
    + by apply (I6 c n c' n' y).
Qed.

(** A held block, seen by [free]. *)
Lemma held_block s L al b n : hinv s L al -> al !! b = Some n -> base < b /\ b + n <= ubrk s /\ Forall (apart b n) L.
Proof using Hheap.
  intros I Hb. pose proof (hi_header _ _ _ I b n Hb) as [Hn _].
  assert (Hin : forall y, b <= y < b + n -> heap <= y < ubrk s) by (intros y Hy; apply (hi_all _ _ _ I); right; by exists b, n).
  pose proof (Hin b ltac:(lia)). pose proof (Hin (b + n - 1) ltac:(lia)). split_and!; [lia..|]. apply Forall_forall. intros [a m] Ha. unfold apart. cbn [fst snd].
  assert (Hdis : forall y, a <= y < a + m -> ~ (b <= y < b + n)).
  { intros y Hy Hy'. apply (hi_free _ _ _ I y); [by exists a, m|by exists b, n]. }
  destruct (list_below base _ _ _ _ (hi_list _ _ _ I) Ha) as (_ & ? & _). destruct (spaced_in _ _ _ _ _ (ui_spaced _ _ _ (hi_list _ _ _ I)) Ha) as (_ & Hm & _).
  destruct (Z.le_gt_cases (b + n) a); [by right|]. left. destruct (Z.le_gt_cases (a + m) b); [done|]. exfalso.
  destruct (Z.eq_dec m 0) as [->|Hm0].
  - pose proof (not_in_list s L al a I) as Hni. apply Hni; [exists b, n; split; [done|lia]|]. apply list_elem_of_fmap. by exists (a, 0).
  - apply (Hdis (Z.max a b)); lia.
Qed.

Lemma free_keeps s L al b n : hinv s L al -> al !! b = Some n -> exists s' L', free b s = Some s' /\ hinv s' L' (delete b al).
Proof using Hheap.
  intros I Hb. destruct (held_block _ _ _ _ _ I Hb) as (Hab & Hle & Hap). pose proof I as [I1 I2 I3 I4 I5 I6]. destruct (I3 b n Hb) as [Hn [x Hx]].
  destruct (free_run base s L b n x I1 Hx Hn Hab Hle Hap) as (s' & L' & E & I' & Hc & Hbr & Hf & _ & _). exists s', L'. split; [done|]. split; [done|lia| | | |].
  - intros c k Hck. apply lookup_delete_Some in Hck as [Hne Hck]. rewrite Hf; [by apply I3| |done]. eapply not_in_list; [exact I|]. by eapply header_held.
  - intros y. rewrite Hc, Hbr, <- I4, (holds_delete al b n y Hb). tauto.
  - intros y Hy Hh. assert (holds al y) as Hy' by (apply (holds_delete al b n y Hb); by right). apply Hc in Hy as [Hy|Hy]; [by apply (I5 y)|].
    destruct Hh as (c & k & Hck & Hyk). apply lookup_delete_Some in Hck as [Hne Hck]. apply Hne. by apply (I6 b n c k y).
  - intros c k c' k' y Hc1 Hc2. apply lookup_delete_Some in Hc1 as [_ Hc1]. apply lookup_delete_Some in Hc2 as [_ Hc2]. by apply I6.
Qed.

End heap.

Section client.
Context (base : Z) (grants : Z -> Z -> bool).

Inductive ustep : ust * blocks -> ust * blocks -> Prop :=
| u_malloc nbytes b s s' al :
    sane nbytes -> malloc base grants nbytes s = Some (Some (b + 1), s') -> ustep (s, al) (s', <[b := nunits_of nbytes]> al)
| u_malloc_fails nbytes s s' al :
    sane nbytes -> malloc base grants nbytes s = Some (None, s') -> ustep (s, al) (s', al)
| u_free b n s s' al :
    al !! b = Some n -> free b s = Some s' -> ustep (s, al) (s', delete b al)
| u_write b n z v s al :          (* the program stores into its block, past the header *)
    al !! b = Some n -> b < z < b + n -> ustep (s, al) (USt (<[z := v]> (hdr s)) (freep s) (ubrk s), al).

Hypothesis Hbase : 0 < base.
Context (heap : Z).
Hypothesis Hheap : base < heap.

Lemma malloc_total x nbytes :
  reachable_inv base heap x -> sane nbytes ->
  (exists s', malloc base grants nbytes x.1 = Some (None, s') /\ exists L, hinv base heap s' L x.2) \/
  exists b s' L', malloc base grants nbytes x.1 = Some (Some (b + 1), s') /\ hinv base heap s' L' (<[b := nunits_of nbytes]> x.2).
Proof using Hbase Hheap.
  intros Hx Hn. pose proof (nunits_range _ Hn) as Hnu. destruct (init_inv base Hbase heap Hheap x Hx) as [L I]. unfold malloc.
  destruct (malloc_loop_run base grants (malloc_init base x.1) L (nunits_of nbytes) (hi_list _ _ _ _ _ I) Hnu) as [E|(b & s' & L' & E & G)].
  - left. eexists. split; [exact E|]. by exists L.
  - right. exists b, s', L'. split; [exact E|]. by apply (malloc_keeps base heap Hheap (malloc_init base x.1) L); [|lia|].
Qed.

Lemma ustep_keeps x x' : ustep x x' -> reachable_inv base heap x -> reachable_inv base heap x'.
Proof using Hbase Hheap.
  intros Hs Hx. destruct Hs as [nbytes b s s' al Hn E|nbytes s s' al Hn E|b n s s' al Hb E|b n z v s al Hb Hz].
  - destruct (malloc_total _ _ Hx Hn) as [(s1 & E1 & _)|(b1 & s1 & L1 & E1 & I1)]; cbn in *; rewrite E in E1; [done|]. injection E1 as E1 <-.
    replace b1 with b in I1 by lia. right. by exists L1.
  - destruct (malloc_total _ _ Hx Hn) as [(s1 & E1 & L & I1)|(b1 & s1 & L1 & E1 & _)]; cbn in *; rewrite E in E1; [|done]. injection E1 as <-. right. by exists L.
  - destruct Hx as [(_ & _ & Hal)|[L I]]; cbn [fst snd] in *; [subst; by rewrite lookup_empty in Hb|]. destruct (free_keeps base heap Hheap _ _ _ _ _ I Hb) as (s1 & L1 & E1 & I1). rewrite E in E1. injection E1 as <-. right. by exists L1.
  - destruct Hx as [(_ & _ & Hal)|[L I]]; cbn [fst snd] in *; [subst; by rewrite lookup_empty in Hb|]. right. exists L. cbn in *. assert (holds al z) as Hz' by (exists b, n; split; [done|lia]).
    pose proof (not_in_list base heap Hheap _ _ _ _ I Hz') as Hni. destruct I as [I1 I2 I3 I4 I5 I6]. split; cbn; try done; [by apply (uinv_header base)|].
    intros c k Hc. destruct (I3 c k Hc) as [Hk Hx]. split; [done|]. rewrite lookup_insert_ne; [done|]. intros ->. assert (c = b); [|lia]. apply (I6 c k b n c); [done..|lia|lia].
Qed.

Lemma reach_inv x0 x : ustart heap x0 -> rtc ustep x0 x -> reachable_inv base heap x.
Proof using Hbase Hheap. intros H0 Hr. assert (reachable_inv base heap x0) as H by (by left). clear H0. induction Hr as [|x y z Hxy _ IH]; [done|]. by apply IH, (ustep_keeps x). Qed.

(** C36: the allocator is safe.  Whatever sequence of [malloc], [free] and
    stores into its own blocks a program makes, the blocks it holds are inside
    the heap, do not overlap, and keep their sizes in their headers; a block
    [malloc] returns has room for the bytes asked for after its header; and
    every further call of [malloc], and of [free] on a block it holds, returns:
    the loops over the circular list end. *)
Theorem malloc_blocks_disjoint x0 s al :
  ustart heap x0 -> rtc ustep x0 (s, al) ->
  (forall b n, al !! b = Some n -> heap <= b /\ b + n <= ubrk s /\ ssize s b = n) /\
  (forall b n b' n', al !! b = Some n -> al !! b' = Some n' -> b <> b' -> b + n <= b' \/ b' + n' <= b) /\
  (forall nbytes b s', sane nbytes -> malloc base grants nbytes s = Some (Some (b + 1), s') -> nbytes <= 16 * (ssize s' b - 1)) /\
  (forall nbytes, sane nbytes -> exists r, malloc base grants nbytes s = Some r) /\
  (forall b n, al !! b = Some n -> exists s', free b s = Some s').
Proof using Hbase Hheap.
  intros H0 Hr. pose proof (reach_inv _ _ H0 Hr) as Hx. split_and!.
  - intros b n Hb. destruct Hx as [(_ & _ & E)|[L I]]; [cbn in E; subst; by rewrite lookup_empty in Hb|]. cbn in I.
    destruct (held_block base heap Hheap _ _ _ _ _ I Hb) as (_ & ? & _). destruct (hi_header _ _ _ _ _ I b n Hb) as [Hn [x E]].
    split_and!; [|done|by rewrite (ssize_eq _ _ _ _ E)]. apply (hi_all _ _ _ _ _ I b). right. exists b, n. split; [done|lia].
  - intros b n b' n' Hb Hb' Hne. destruct Hx as [(_ & _ & E)|[L I]]; [cbn in E; subst; by rewrite lookup_empty in Hb|]. cbn in I.
    destruct (hi_header _ _ _ _ _ I b n Hb) as [Hn _]. destruct (hi_header _ _ _ _ _ I b' n' Hb') as [Hn' _].
    destruct (Z.le_gt_cases (b + n) b'); [by left|]. right. destruct (Z.le_gt_cases (b' + n') b); [done|]. exfalso. apply Hne.
    apply (hi_apart _ _ _ _ _ I b n b' n' (Z.max b b')); [done..|lia|lia].
  - intros nbytes b s' Hn E. destruct (malloc_total _ _ Hx Hn) as [(s1 & E1 & _)|(b1 & s1 & L1 & E1 & I1)]; cbn in *; rewrite E in E1; [done|]. injection E1 as E1 <-.
    replace b1 with b in I1 by lia. destruct (hi_header _ _ _ _ _ I1 b (nunits_of nbytes)) as [_ [x Ex]]; [by rewrite lookup_insert_eq|].
    rewrite (ssize_eq _ _ _ _ Ex). by apply nunits_room.
  - intros nbytes Hn. destruct (malloc_total _ _ Hx Hn) as [(s' & E & _)|(b & s' & L' & E & _)]; eauto.
  - intros b n Hb. destruct Hx as [(_ & _ & E)|[L I]]; [cbn in E; subst; by rewrite lookup_empty in Hb|]. destruct (free_keeps base heap Hheap _ _ _ _ _ I Hb) as (s' & L' & E & _). eauto.
Qed.

(** The allocator loses nothing.  In every such state the heap is made up
    exactly of the blocks the program holds and the blocks of the free list,
    which are disjoint, in order of address and coalesced: no two free blocks
    are adjacent. *)
Theorem free_list_complete x0 s al :
  ustart heap x0 -> rtc ustep x0 (s, al) -> freep s <> 0 ->
  exists fl, linked (hdr s) base ((base, 0) :: fl) base /\ spaced base fl (ubrk s) /\
    (forall y, heap <= y < ubrk s <-> (covers fl y \/ holds al y)) /\ (forall y, covers fl y -> ~ holds al y).
Proof using Hbase Hheap.
  intros H0 Hr Hf. destruct (reach_inv _ _ H0 Hr) as [(E & _)|[L I]]; [done|]. cbn in I. destruct I as [I1 I2 I3 I4 I5 I6].
  destruct (ui_head _ _ _ I1) as (fl & -> & _). exists fl. assert (Hc : forall y, covers ((base, 0) :: fl) y <-> covers fl y) by (intros y; rewrite covers_cons; split; [intros [?|?]; [lia|done]|by right]).
  split_and!.
  - apply (ui_linked _ _ _ I1).
  - pose proof (ui_spaced _ _ _ I1) as (_ & _ & H). by rewrite Z.add_0_r in H.
  - intros y. rewrite <- I4, Hc. done.
  - intros y. rewrite <- Hc. apply I5.
Qed.
End client.

(** ** A run: two blocks, the first freed *)
Definition demo_u0 : ust := USt ∅ 0 100.
Definition demo_u (n : Z) (s : ust) : ust := match malloc 10 (fun _ _ => true) n s with Some (_, s) => s | None => s end.
Definition demo_u1 : ust := Eval vm_compute in demo_u 100 demo_u0.
Definition demo_u2 : ust := Eval vm_compute in demo_u 20 demo_u1.
Definition demo_u3 : ust := Eval vm_compute in match free 4188 demo_u2 with Some s => s | None => demo_u2 end.
Definition demo_al : gmap Z Z := delete 4188 (<[4185 := nunits_of 20]> (<[4188 := nunits_of 100]> ∅)).

Lemma demo_run : rtc (ustep 10 (fun _ _ => true)) (demo_u0, ∅) (demo_u3, demo_al).
Proof.
  eapply rtc_l; [apply (u_malloc 10 (fun _ _ => true) 100 4188 demo_u0 demo_u1); [split; lia|vm_compute; reflexivity]|].
  eapply rtc_l; [apply (u_malloc 10 (fun _ _ => true) 20 4185 demo_u1 demo_u2); [split; lia|vm_compute; reflexivity]|].
  eapply rtc_l; [apply (u_free 10 (fun _ _ => true) 4188 8 demo_u2 demo_u3); vm_compute; reflexivity|]. apply rtc_refl.
Qed.
Lemma malloc_blocks_disjoint_witness : exists s', free 4185 demo_u3 = Some s'.
Proof.
  destruct (malloc_blocks_disjoint 10 (fun _ _ => true) ltac:(lia) 100 ltac:(lia) (demo_u0, ∅) demo_u3 demo_al) as (_ & _ & _ & _ & H); [by split_and!|apply demo_run|].
  apply (H 4185 3). vm_compute. reflexivity.
Defined.
Lemma free_list_complete_witness :
  exists fl, linked (hdr demo_u3) 10 ((10, 0) :: fl) 10 /\ spaced 10 fl (ubrk demo_u3) /\
    (forall y, 100 <= y < ubrk demo_u3 <-> (covers fl y \/ holds demo_al y)) /\ (forall y, covers fl y -> ~ holds demo_al y).
Proof. apply (free_list_complete 10 (fun _ _ => true) ltac:(lia) 100 ltac:(lia) (demo_u0, ∅) demo_u3 demo_al); [by split_and!|apply demo_run|done]. Defined.
