(* ===== verification/Grep.v ===== *)
(** * user/grep.c: regular expressions and line search

    A C string is the list of its characters, without the terminating NUL;
    [text + 1] is the tail of the list.  The pattern matcher is equivalent to
    a reference semantics of patterns as sequences of items; the search loop
    prints exactly the matching lines of its input, however [read] cuts the
    input into pieces. *)

From S2P Require Import Prelude Printf.

Abbreviation ch_caret := 94.
Abbreviation ch_dollar := 36.
Abbreviation ch_dot := 46.
Abbreviation ch_star := 42.

(** The loop of [matchstar]; [here] is [matchhere] at the rest of the pattern. *)
Fixpoint matchstar (here : list Z -> bool) (c : Z) (text : list Z) : bool :=
  if here text then true else
  match text with
  | [] => false
  | t :: text => if (t =? c) || (c =? ch_dot) then matchstar here c text else false
  end.

Fixpoint matchhere (re text : list Z) : bool :=
  match re with
  | [] => true
  | c :: re' =>
      match re' with
      | s :: re'' =>
          if s =? ch_star then matchstar (matchhere re'') c text else
          match text with
          | t :: text' => if (c =? ch_dot) || (c =? t) then matchhere re' text' else false
          | [] => false
          end
      | [] =>
          if c =? ch_dollar then match text with [] => true | _ => false end else
          match text with
          | t :: text' => if (c =? ch_dot) || (c =? t) then matchhere re' text' else false
          | [] => false
          end
      end
  end.

(** The loop of [match], over every suffix of the text and the empty string. *)
Fixpoint match_from (re text : list Z) : bool :=
  if matchhere re text then true else match text with [] => false | _ :: text => match_from re text end.
Definition match_ (re text : list Z) : bool :=
  match re with
  | c :: re' => if c =? ch_caret then matchhere re' text else match_from re text
  | [] => match_from re text
  end.

(** ** [grep] *)

Definition bufsize : nat := 1024.

(** [strchr(p, '\n')]: the line before the newline and what follows it. *)
Fixpoint break_line (p : list Z) : option (list Z * list Z) :=
  match p with
  | [] => None
  | b :: p =>
      if b =? 0 then None else
      if b =? 10 then Some ([], p) else
      match break_line p with Some (l, rest) => Some (b :: l, rest) | None => None end
  end.

(** The inner loop: what it writes and what is left from [p] on. *)
Fixpoint grep_lines (fuel : nat) (pattern p : list Z) : list Z * list Z :=
  match fuel with
  | O => ([], p)
  | S fuel =>
      match break_line p with
      | Some (l, rest) =>
          let (out, left) := grep_lines fuel pattern rest in ((if match_ pattern l then l ++ [10] else []) ++ out, left)
      | None => ([], p)
      end
  end.

(** [read(fd, buf, n)] of a file with [input] left: at least one byte unless
    the file is at its end or [n] is 0, at most [n]; [k] is how many the kernel
    has at hand. *)
Definition read_len (k n : nat) (input : list Z) : nat := Nat.min (Nat.min (Nat.max 1 k) n) (length input).

(** [buf] holds the [m] bytes kept from the last turn; [ks] says how the
    reads are cut (when it runs out they fill the buffer). *)
Fixpoint grep_loop (fuel : nat) (ks : list nat) (pattern buf input : list Z) : option (list Z) :=
  match fuel with
  | O => None
  | S fuel =>
      let n := read_len (hd bufsize ks) (bufsize - length buf - 1) input in
      if (n =? 0)%nat then Some [] else
      let buf := buf ++ take n input in
      let (out, left) := grep_lines (length buf) pattern buf in
      (fun more => out ++ more) <$> grep_loop fuel (tl ks) pattern left (drop n input)
  end.
Definition grep (ks : list nat) (pattern input : list Z) : option (list Z) :=
  grep_loop (S (length input)) ks pattern [] input.

(** ** Reference semantics of patterns *)

Inductive item : Type := One (c : Z) | Star (c : Z).
Definition accepts (c t : Z) : Prop := c = ch_dot \/ c = t.

(** The items of a pattern, and whether it ends in [$]. *)
Fixpoint parse (re : list Z) : list item * bool :=
  match re with
  | [] => ([], false)
  | c :: re' =>
      match re' with
      | s :: re'' =>
          if s =? ch_star then let (l, e) := parse re'' in (Star c :: l, e)
          else let (l, e) := parse re' in (One c :: l, e)
      | [] => if c =? ch_dollar then ([], true) else ([One c], false)
      end
  end.

(** The strings a sequence of items denotes. *)
Inductive denotes : list item -> list Z -> Prop :=
| den_nil : denotes [] []
| den_one c t l s : accepts c t -> denotes l s -> denotes (One c :: l) (t :: s)
| den_star c rep l s : Forall (accepts c) rep -> denotes l s -> denotes (Star c :: l) (rep ++ s).

(** [text] starts with a string of the pattern, which is all of it after [$]. *)
Definition here_spec (re text : list Z) : Prop :=
  exists s rest, text = s ++ rest /\ denotes (parse re).1 s /\ ((parse re).2 = true -> rest = []).
Definition match_spec (re text : list Z) : Prop :=
  match re with
  | c :: re' => if c =? ch_caret then here_spec re' text else exists skip rest, text = skip ++ rest /\ here_spec re rest
  | [] => exists skip rest, text = skip ++ rest /\ here_spec re rest
  end.

(** ** Theorems *)

Lemma matchstar_spec here c text :
  matchstar here c text = true <-> exists rep rest, text = rep ++ rest /\ Forall (accepts c) rep /\ here rest = true.
Proof.
  induction text as [|t text IH]; cbn [matchstar]; destruct (here _) eqn:Eh.
  - split; [|done]. intros _. by exists [], [].
  - split; [done|]. intros (rep & rest & E & _ & Hr). symmetry in E. apply app_nil in E as [-> ->]. congruence.
  - split; [|done]. intros _. by exists [], (t :: text).
  - assert (((t =? c) || (c =? ch_dot)) = true <-> accepts c t) as Ha by (unfold accepts; rewrite orb_true_iff, !Z.eqb_eq; naive_solver).
    destruct ((t =? c) || (c =? ch_dot)).
    + rewrite IH. split.
      * intros (rep & rest & -> & HF & Hr). exists (t :: rep), rest. split_and!; [done| |done]. constructor; [by apply Ha|done].
      * intros (rep & rest & E & HF & Hr). destruct rep as [|t' rep]; [cbn in E; subst; congruence|]. injection E as <- ->. apply Forall_cons in HF as [_ HF]. eauto.
    + split; [done|]. intros (rep & rest & E & HF & Hr). destruct rep as [|t' rep]; [cbn in E; subst; congruence|]. injection E as <- ->.
      apply Forall_cons in HF as [HF _]. by apply Ha in HF.
Qed.

Lemma here_nil text : here_spec [] text.
Proof. exists [], text. by split_and!; [|constructor|]. Qed.
Lemma here_end text : here_spec [ch_dollar] text <-> text = [].
Proof.
  unfold here_spec. cbn. split; [|intros ->; exists [], []; by split_and!; [|constructor|]].
  intros (s & rest & -> & Hd & Hr). inversion Hd; subst. by rewrite Hr.
Qed.
Lemma here_one c re text :
  (parse (c :: re)).1 = One c :: (parse re).1 -> (parse (c :: re)).2 = (parse re).2 ->
  here_spec (c :: re) text <-> exists t text', text = t :: text' /\ accepts c t /\ here_spec re text'.
Proof.
  unfold here_spec. intros -> ->. split.
  - intros (s & rest & -> & Hd & Hr). inversion Hd; subst. naive_solver.
  - intros (t & text' & -> & Ha & s & rest & -> & Hd & Hr). exists (t :: s), rest. split_and!; [done|by constructor|done].
Qed.
Lemma here_star c re text :
  here_spec (c :: ch_star :: re) text <-> exists rep rest, text = rep ++ rest /\ Forall (accepts c) rep /\ here_spec re rest.
Proof.
  unfold here_spec. cbn [parse Z.eqb Pos.eqb]. destruct (parse re) as [l e]. cbn. split.
  - intros (s & rest & -> & Hd & Hr). inversion Hd as [| |? rep ? s' HF Hd']; subst. exists rep, (s' ++ rest). rewrite app_assoc. naive_solver.
  - intros (rep & ? & -> & HF & s & rest & -> & Hd & Hr). exists (rep ++ s), rest. rewrite app_assoc. split_and!; [done|by constructor|done].
Qed.

Lemma parse_one c s re : s <> ch_star -> parse (c :: s :: re) = (One c :: (parse (s :: re)).1, (parse (s :: re)).2).
Proof.
  intros Hs%Z.eqb_neq. change (parse (c :: s :: re)) with
    (if s =? ch_star then let (l, e) := parse re in (Star c :: l, e) else let (l, e) := parse (s :: re) in (One c :: l, e)).
  rewrite Hs. by destruct (parse (s :: re)).
Qed.

Lemma matchhere_one c re text :
  (match text with t :: text' => if (c =? ch_dot) || (c =? t) then matchhere re text' else false | [] => false end) = true <->
  exists t text', text = t :: text' /\ accepts c t /\ matchhere re text' = true.
Proof.
  destruct text as [|t text]; [split; [done|by intros (? & ? & ? & _)]|].
  assert (((c =? ch_dot) || (c =? t)) = true <-> accepts c t) as Ha by (unfold accepts; rewrite orb_true_iff, !Z.eqb_eq; naive_solver).
  destruct ((c =? ch_dot) || (c =? t)); naive_solver.
Qed.

Lemma matchhere_spec re text : matchhere re text = true <-> here_spec re text.
Proof.
  remember (length re) as n eqn:Hn. assert (length re <= n)%nat as Hle by lia. clear Hn. revert re text Hle.
  induction n as [|n IH]; intros re text Hle; (destruct re as [|c re]; [split; [intros _; apply here_nil|done]|]); [cbn in Hle; lia|].
  cbn [length] in Hle. destruct re as [|s re].
  - change (matchhere [c] text) with
      (if c =? ch_dollar then match text with [] => true | _ => false end else
       match text with t :: text' => if (c =? ch_dot) || (c =? t) then matchhere [] text' else false | [] => false end).
    destruct (Z.eqb_spec c ch_dollar) as [->|Hc].
    + rewrite here_end. by destruct text.
    + rewrite matchhere_one, here_one by (cbn; by apply Z.eqb_neq in Hc as ->). setoid_rewrite IH; [done|cbn; lia].
  - change (matchhere (c :: s :: re) text) with
      (if s =? ch_star then matchstar (matchhere re) c text else
       match text with t :: text' => if (c =? ch_dot) || (c =? t) then matchhere (s :: re) text' else false | [] => false end).
    cbn [length] in Hle. destruct (Z.eqb_spec s ch_star) as [->|Hs].
    + rewrite matchstar_spec, here_star. by setoid_rewrite IH; [|lia].
    + rewrite matchhere_one, here_one by (by rewrite parse_one).
      setoid_rewrite IH; [done|cbn; lia].
Qed.

Lemma match_from_spec re text : match_from re text = true <-> exists skip rest, text = skip ++ rest /\ here_spec re rest.
Proof.
  induction text as [|t text IH]; cbn [match_from]; destruct (matchhere re _) eqn:E.
  - split; [|done]. intros _. exists [], []. split; [done|]. by apply matchhere_spec.
  - split; [done|]. intros (skip & rest & Et & Hr). symmetry in Et. apply app_nil in Et as [-> ->]. apply matchhere_spec in Hr. congruence.
  - split; [|done]. intros _. exists [], (t :: text). split; [done|]. by apply matchhere_spec.
  - rewrite IH. split.
    + intros (skip & rest & -> & Hr). by exists (t :: skip), rest.
    + intros (skip & rest & Et & Hr). destruct skip as [|t' skip]; [cbn in Et; subst; apply matchhere_spec in Hr; congruence|]. injection Et as <- ->. eauto.
Qed.

(** C35: the recursive matcher of [grep] decides the reference semantics of
    patterns: [match(re, text)] is true exactly when some part of the text -
    at its start after [^], up to its end before a final [$] - is one of the
    strings the pattern denotes, [c*] standing for any number of [c] and [.]
    for any character. *)
Theorem match_decides re text : match_ re text = true <-> match_spec re text.
Proof.
  unfold match_, match_spec. destruct re as [|c re]; [apply match_from_spec|]. destruct (c =? ch_caret); [apply matchhere_spec|apply match_from_spec].
Qed.

(** ** The search loop *)

(** The complete lines of a text, and what follows the last newline. *)
Fixpoint lines_of (bs : list Z) : list (list Z) * list Z :=
  match bs with
  | [] => ([], [])
  | b :: bs =>
      let (ls, left) := lines_of bs in
      if b =? 10 then ([] :: ls, left) else
      match ls with l :: ls => ((b :: l) :: ls, left) | [] => ([], b :: left) end
  end.
Definition print_lines (pattern : list Z) (ls : list (list Z)) : list Z :=
  concat ((fun l => l ++ [10]) <$> filter (fun l => match_ pattern l = true) ls).

Definition no_nul (bs : list Z) : Prop := Forall (fun b => b <> 0) bs.

Lemma print_lines_cons pattern l ls :
  print_lines pattern (l :: ls) = (if match_ pattern l then l ++ [10] else []) ++ print_lines pattern ls.
Proof. unfold print_lines. destruct (match_ pattern l) eqn:E; [by rewrite filter_cons_True|]. rewrite filter_cons_False; [done|congruence]. Qed.
Lemma print_lines_app pattern ls ls' : print_lines pattern (ls ++ ls') = print_lines pattern ls ++ print_lines pattern ls'.
Proof. unfold print_lines. by rewrite filter_app, fmap_app, concat_app. Qed.

Lemma break_line_lines p :
  no_nul p ->
  match break_line p with
  | Some (l, rest) => (lines_of p).1 = l :: (lines_of rest).1 /\ (lines_of p).2 = (lines_of rest).2 /\ (length rest < length p)%nat /\ no_nul rest
  | None => lines_of p = ([], p)
  end.
Proof.
  induction p as [|b p IH]; intros Hn; [done|]. apply Forall_cons in Hn as [Hb Hn]. specialize (IH Hn). cbn [break_line lines_of].
  apply Z.eqb_neq in Hb as ->. destruct (b =? 10) eqn:E; [destruct (lines_of p); cbn; split_and!; (done || lia)|].
  destruct (break_line p) as [[l rest]|].
  - destruct IH as (E1 & E2 & Hl & Hr). destruct (lines_of p) as [ls left]. cbn in *. rewrite E1. cbn. split_and!; (done || lia).
  - by rewrite IH.
Qed.

Lemma grep_lines_spec fuel pattern p :
  no_nul p -> (length p <= fuel)%nat -> grep_lines fuel pattern p = (print_lines pattern (lines_of p).1, (lines_of p).2).
Proof.
  revert p. induction fuel as [|fuel IH]; intros p Hn Hl; [destruct p; [done|cbn in Hl; lia]|]. cbn [grep_lines].
  pose proof (break_line_lines p Hn) as Hb. destruct (break_line p) as [[l rest]|]; [|by rewrite Hb].
  destruct Hb as (-> & -> & Hlt & Hr). rewrite IH by (done || lia). by rewrite print_lines_cons.
Qed.

Lemma lines_of_app a b :
  (lines_of (a ++ b)).1 = (lines_of a).1 ++ (lines_of ((lines_of a).2 ++ b)).1 /\ (lines_of (a ++ b)).2 = (lines_of ((lines_of a).2 ++ b)).2.
Proof.
  induction a as [|x a IH]; [done|]. cbn [lines_of app]. destruct (lines_of (a ++ b)) as [ls left]. destruct (lines_of a) as [la lefta]. cbn in IH.
  destruct (x =? 10) eqn:Ex.
  - cbn. destruct IH as [-> ->]. done.
  - destruct la as [|l la]; cbn in *.
    + destruct IH as [-> ->]. rewrite Ex. by destruct (lines_of (lefta ++ b)) as [[|] ?].
    + by destruct IH as [-> ->].
Qed.

Lemma lines_left bs : lines_of (lines_of bs).2 = ([], (lines_of bs).2).
Proof.
  induction bs as [|b bs IH]; [done|]. cbn [lines_of]. destruct (lines_of bs) as [ls left]. cbn in IH. destruct (b =? 10) eqn:E; [done|].
  destruct ls; [|done]. cbn [snd lines_of]. by rewrite IH, E.
Qed.
Lemma left_no_nul bs : no_nul bs -> no_nul (lines_of bs).2.
Proof.
  induction 1 as [|b bs Hb _ IH]; [constructor|]. cbn [lines_of]. destruct (lines_of bs) as [ls left]. cbn in IH. destruct (b =? 10); [done|].
  destruct ls; [by constructor|done].
Qed.
(** A partial line is the start of the next complete one. *)
Lemma first_line_long buf x l ls : (lines_of buf).1 = [] -> (lines_of (buf ++ x)).1 = l :: ls -> (length buf <= length l)%nat.
Proof.
  revert l ls. induction buf as [|b buf IH]; intros l ls Hb E; [cbn; lia|]. cbn [lines_of app] in *.
  destruct (lines_of buf) as [lb leftb]. destruct (lines_of (buf ++ x)) as [lx leftx]. destruct (b =? 10); [done|].
  destruct lb; [|done]. destruct lx as [|l' lx]; [done|]. cbn in E. injection E as <- <-. cbn [length]. specialize (IH l' lx eq_refl eq_refl). lia.
Qed.

Lemma grep_loop_prints fuel ks pattern buf input :
  lines_of buf = ([], buf) -> no_nul (buf ++ input) -> Forall (fun l => (length l < bufsize - 1)%nat) (lines_of (buf ++ input)).1 ->
  (length input < fuel)%nat -> grep_loop fuel ks pattern buf input = Some (print_lines pattern (lines_of (buf ++ input)).1).
Proof.
  revert ks buf input. induction fuel as [|fuel IH]; intros ks buf input Hb Hn HF Hfu; [lia|]. cbn [grep_loop].
  set (n := read_len _ _ _). destruct (Nat.eqb_spec n 0) as [E|E].
  - destruct (lines_of (buf ++ input)) as [[|l ls] left] eqn:El; [done|]. exfalso. cbn in HF. apply Forall_cons in HF as [Hl _].
    assert ((lines_of (buf ++ input)).1 = l :: ls) as E1 by (by rewrite El).
    pose proof (first_line_long buf input l ls ltac:(by rewrite Hb) E1) as Hlen.
    unfold n, read_len in E. destruct input as [|b input]; [rewrite app_nil_r, Hb in El; done|]. cbn [length] in E. unfold bufsize in *. lia.
  - assert (Hle : (n <= length input)%nat) by (unfold n, read_len; lia).
    assert (buf ++ input = (buf ++ take n input) ++ drop n input) as Ei by (by rewrite <- app_assoc, take_drop).
    rewrite Ei in Hn, HF |- *. set (buf' := buf ++ take n input) in *. pose proof (lines_of_app buf' (drop n input)) as [E1 _].
    rewrite E1 in HF |- *. apply Forall_app in HF as [_ HF]. apply Forall_app in Hn as [Hn1 Hn2].
    rewrite grep_lines_spec by done. rewrite IH; [cbn; by rewrite print_lines_app|apply lines_left| |done|rewrite length_drop; lia].
    apply Forall_app. split; [by apply left_no_nul|done].
Qed.

(** [grep] terminates and prints exactly the complete lines of its input
    that match the pattern, in order, however the kernel cuts the input into
    reads, as long as the input has no NUL byte and its lines fit in the
    buffer (the code gives up at a longer line). *)
Theorem grep_prints_matches ks pattern input :
  no_nul input -> Forall (fun l => (length l < bufsize - 1)%nat) (lines_of input).1 ->
  grep ks pattern input = Some (concat ((fun l => l ++ [10]) <$> filter (fun l => match_ pattern l = true) (lines_of input).1)).
Proof. intros Hn HF. apply (grep_loop_prints _ ks pattern [] input); [done|done|done|lia]. Qed.

Lemma grep_prints_matches_witness :
  grep [2; 3; 1; 7]%nat (str "a*b$") (str "xaab" ++ [10] ++ str "ba" ++ [10] ++ str "b" ++ [10] ++ str "ab") = Some (str "xaab" ++ [10] ++ str "b" ++ [10]).
Proof.
  rewrite (grep_prints_matches [2; 3; 1; 7]%nat (str "a*b$") (str "xaab" ++ [10] ++ str "ba" ++ [10] ++ str "b" ++ [10] ++ str "ab"));
    [vm_compute; reflexivity|unfold no_nul; apply Forall_forall; intros x Hx; by vm_compute in Hx; set_solver|].
  vm_compute. repeat constructor.
Defined.
