(* ===== verification/PsTree.v ===== *)
(** * user/ps.c, user/pstree.c: listing the processes

    [getprocs] fills an array of [struct pstat]; [ps] prints one line for
    each, [pstree] the tree of the descendants of a process.  Output is the
    list of bytes written to standard output. *)

From S2P Require Import Prelude Proc Printf Ulib.

Record pstat : Type := PStat { ps_pid : Z; ps_state : procstate; ps_size : Z; ps_ppid : Z; ps_name : list Z }.
#[export] Instance pstat_eq_dec : EqDecision pstat.
Proof. solve_decision. Defined.

(** ** ps *)

(** [states[]]: a state without an initialiser is a null pointer. *)
Definition ps_states (s : procstate) : option (list Z) :=
  match s with
  | SLEEPING => Some (str "sleeping")
  | RUNNABLE => Some (str "runnable")
  | RUNNING => Some (str "running ")
  | ZOMBIE => Some (str "zombie  ")
  | UNUSED | USED => None
  end.
Definition tab : list Z := [9].
Definition nl : list Z := [10].
Definition ps_header : list Z := str "pid" ++ tab ++ str "state" ++ tab ++ tab ++ str "size" ++ tab ++ str "ppid" ++ tab ++ str "name" ++ nl.
Definition ps_format : list Z := str "%d" ++ tab ++ str "%s" ++ tab ++ str "%l" ++ tab ++ str "%d" ++ tab ++ str "%s" ++ nl.
Definition ps_line (u : pstat) : list Z :=
  default [] (fprintf ps_format [UInt (ps_pid u); UStr (ps_states (ps_state u)); ULong (ps_size u); UInt (ps_ppid u); UStr (Some (ps_name u))]).
Fixpoint ps_loop (us : list pstat) : list Z :=
  match us with [] => [] | u :: us => ps_line u ++ ps_loop us end.
(** [getprocs] returned [nprocs] entries, or a negative number. *)
Definition ps_main (uproc : option (list pstat)) : Z * list Z :=
  match uproc with None => (-1, []) | Some us => (0, ps_header ++ ps_loop us) end.

(** ** pstree *)

(** The [while] loop: the first entry with the pid. *)
Fixpoint find_pid (us : list pstat) (pid : Z) : option pstat :=
  match us with [] => None | u :: us => if ps_pid u =? pid then Some u else find_pid us pid end.
Definition tree_line (indent : nat) (u : pstat) : list Z :=
  concat (replicate indent (str "  ")) ++ default [] (fprintf (str "%s(%d)" ++ nl) [UStr (Some (ps_name u)); UInt (ps_pid u)]).
Definition not_found (pid : Z) : list Z := default [] (fprintf (str "pid %d not found" ++ nl) [UInt pid]).

Section mktree.
Context (uproc : list pstat).

(** [fuel] bounds the depth of the recursion. *)
Fixpoint mktree (fuel : nat) (indent : nat) (pid : Z) : option (list Z) :=
  match fuel with
  | O => None
  | S fuel =>
      match find_pid uproc pid with
      | None => Some (not_found pid)
      | Some u =>
          let fix children (us : list pstat) : option (list Z) :=
            match us with
            | [] => Some []
            | c :: us =>
                if ps_ppid c =? pid then
                  match mktree fuel (S indent) (ps_pid c), children us with Some a, Some b => Some (a ++ b) | _, _ => None end
                else children us
            end in
          (fun out => tree_line indent u ++ out) <$> children uproc
      end
  end.
End mktree.
(** [argv] are the arguments, the name of the program first. *)
Definition pstree_main (argv : list (list Z)) (uproc : option (list pstat)) : Z * option (list Z) :=
  let pid := if (length argv =? 2)%nat then atoi (default [] (argv !! 1%nat)) else 1 in
  match uproc with None => (-1, Some []) | Some us => (0, mktree us (S (length us)) 0 pid) end.

(** ** Theorems *)

Section tree.
Context (us : list pstat).

(** What the kernel reports: one entry for each pid, all of them positive, and
    a parent older than its children (pids are handed out in increasing order,
    and orphans go to init, the first process). *)
Definition tree_like : Prop := NoDup (ps_pid <$> us) /\ Forall (fun u => ps_ppid u < ps_pid u /\ 0 < ps_pid u < 2^31) us.

Definition parent_of (p q : Z) : Prop := exists u, u ∈ us /\ ps_ppid u = p /\ ps_pid u = q.
Definition below (p : Z) (u : pstat) : Prop := u ∈ us /\ rtc parent_of p (ps_pid u).

(** The entries [mktree] prints, with their indentation. *)
Fixpoint visit (fuel : nat) (d : nat) (pid : Z) : option (list (nat * pstat)) :=
  match fuel with
  | O => None
  | S fuel =>
      match find_pid us pid with
      | None => Some []
      | Some u => (fun ls => (d, u) :: concat ls) <$> mapM (fun c => visit fuel (S d) (ps_pid c)) (filter (fun c => ps_ppid c = pid) us)
      end
  end.
(** The text [mktree] prints for them. *)
Definition render (l : list (nat * pstat)) : list Z := concat ((fun x => tree_line x.1 x.2) <$> l).

Context (Hus : tree_like).

Lemma find_pid_in u : u ∈ us -> find_pid us (ps_pid u) = Some u.
Proof using Hus.
  destruct Hus as [Hn _]. clear Hus. induction us as [|v l IH]; intros Hu; [by apply elem_of_nil in Hu|]. cbn. rewrite fmap_cons in Hn. apply NoDup_cons in Hn as [Hv Hn].
  apply elem_of_cons in Hu as [->|Hu]; [by rewrite Z.eqb_refl|]. destruct (Z.eqb_spec (ps_pid v) (ps_pid u)) as [E|_]; [|by apply IH].
  exfalso. apply Hv. rewrite E. by apply list_elem_of_fmap_2.
Qed.

Lemma same_pid u v : u ∈ us -> v ∈ us -> ps_pid u = ps_pid v -> u = v.
Proof using Hus. intros Hu Hv E. apply find_pid_in in Hu, Hv. rewrite E in Hu. congruence. Qed.

Lemma parent_lt p q : parent_of p q -> p < q.
Proof using Hus. intros (u & Hu & <- & <-). destruct Hus as [_ HF]. rewrite Forall_forall in HF. by apply HF in Hu as [? _]. Qed.
Lemma below_le p q : rtc parent_of p q -> p <= q.
Proof using Hus. induction 1 as [|p r q Hp _ IH]; [lia|]. apply parent_lt in Hp. lia. Qed.
Lemma parent_unique p p' q : parent_of p q -> parent_of p' q -> p = p'.
Proof using Hus. intros (u & Hu & <- & Eu) (v & Hv & <- & Ev). by rewrite (same_pid u v) by congruence. Qed.

(** Two ancestors of a process are ancestors of one another. *)
Lemma ancestors a b q : rtc parent_of a q -> rtc parent_of b q -> rtc parent_of a b \/ rtc parent_of b a.
Proof using Hus.
  intros Ha. revert b. induction Ha as [q|a r q Har Hrq IH]; intros b Hb; [by right|]. destruct (IH b Hb) as [H|H]; [left; by eapply rtc_l|].
  apply rtc_inv_r in H as [->|(r' & Hb' & Hr')]; [left; by apply rtc_once|]. right. by rewrite (parent_unique _ _ _ Har Hr').
Qed.

(** The subtrees of two children of one process are disjoint. *)
Lemma siblings_apart p a b q : parent_of p a -> parent_of p b -> rtc parent_of a q -> rtc parent_of b q -> a = b.
Proof using Hus.
  intros Ha Hb Haq Hbq. pose proof (parent_lt _ _ Ha). pose proof (parent_lt _ _ Hb).
  destruct (ancestors a b q Haq Hbq) as [H1|H1]; apply rtc_inv_r in H1 as [E|(r & H2 & H3)]; [done| |done|].
  - rewrite (parent_unique _ _ _ H3 Hb) in H2. apply below_le in H2. lia.
  - rewrite (parent_unique _ _ _ H3 Ha) in H2. apply below_le in H2. lia.
Qed.

(** How many entries are younger than a process bounds the depth below it. *)
Definition younger (p : Z) : nat := length (filter (fun u => p < ps_pid u) us).
Lemma younger_lt p u : u ∈ us -> p < ps_pid u -> (younger (ps_pid u) < younger p)%nat.
Proof.
  unfold younger. intros Hu Hp. induction us as [|v l IH]; [by apply elem_of_nil in Hu|].
  assert (Hle : (length (filter (fun w => (ps_pid u < ps_pid w)%Z) l) <= length (filter (fun w => (p < ps_pid w)%Z) l))%nat).
  { clear - Hp. induction l as [|w l IH]; [done|]. rewrite !filter_cons. destruct (decide (ps_pid u < ps_pid w)), (decide (p < ps_pid w)); cbn; lia. }
  rewrite !filter_cons. apply elem_of_cons in Hu as [<-|Hu].
  - rewrite decide_False, decide_True by lia. cbn. lia.
  - specialize (IH Hu). destruct (decide (ps_pid u < ps_pid v)), (decide (p < ps_pid v)); cbn; lia.
Qed.

Lemma elem_children p c : c ∈ filter (fun c => ps_ppid c = p) us <-> c ∈ us /\ ps_ppid c = p.
Proof. rewrite list_elem_of_filter. tauto. Qed.

Lemma below_cases u v : u ∈ us -> below (ps_pid u) v <-> v = u \/ exists c, c ∈ us /\ ps_ppid c = ps_pid u /\ below (ps_pid c) v.
Proof using Hus.
  intros Hu. unfold below. split.
  - intros [Hv H]. apply rtc_inv in H as [E|(q & (c & Hc & E1 & <-) & H)]; [left; by apply same_pid|right; eauto].
  - intros [->|(c & Hc & E & Hv & H)]; [split; [done|apply rtc_refl]|]. split; [done|]. eapply rtc_l; [|exact H]. by exists c.
Qed.

(** Printing the subtrees of the children in turn visits each entry below
    them once. *)
Lemma visit_children fuel d p cs :
  (forall c, c ∈ cs -> c ∈ us /\ ps_ppid c = p) -> NoDup cs ->
  (forall c, c ∈ cs -> exists l, visit fuel (S d) (ps_pid c) = Some l /\ NoDup l.*2 /\ forall v, v ∈ l.*2 <-> below (ps_pid c) v) ->
  exists ls, mapM (fun c => visit fuel (S d) (ps_pid c)) cs = Some ls /\ NoDup (concat ls).*2 /\
    forall v, v ∈ (concat ls).*2 <-> exists c, c ∈ cs /\ below (ps_pid c) v.
Proof using Hus.
  induction cs as [|c cs IH]; intros Hp Hn Hv; [exists []; split_and!; [done|constructor|intros v; split; [by intros ?%elem_of_nil|by intros (? & ?%elem_of_nil & _)]]|].
  apply NoDup_cons in Hn as [Hc Hn]. destruct (Hv c ltac:(by left)) as (l & El & Nl & Vl).
  destruct IH as (ls & Els & Nls & Vls); [intros c' Hc'; apply Hp; by right|done|intros c' Hc'; apply Hv; by right|].
  exists (l :: ls). cbn [mapM]. cbn. rewrite El. cbn. rewrite Els. split; [done|]. rewrite fmap_app. split.
  - apply NoDup_app. split_and!; [done| |done]. intros v Hin Hin'. apply Vl in Hin as [_ H1]. apply Vls in Hin' as (c' & Hc' & _ & H2).
    destruct (Hp c ltac:(by left)) as [Hcu Ec]. destruct (Hp c' ltac:(by right)) as [Hcu' Ec'].
    apply Hc. rewrite (same_pid c c'); [done..|]. apply (siblings_apart p _ _ (ps_pid v)); [by exists c|by exists c'|done|done].
  - intros v. rewrite elem_of_app, Vl, Vls. setoid_rewrite elem_of_cons. naive_solver.
Qed.

Lemma visit_spec fuel d u :
  u ∈ us -> (younger (ps_pid u) < fuel)%nat ->
  exists l, visit fuel d (ps_pid u) = Some l /\ NoDup l.*2 /\ forall v, v ∈ l.*2 <-> below (ps_pid u) v.
Proof using Hus.
  revert d u. induction fuel as [|fuel IH]; intros d u Hu Hf; [lia|]. cbn [visit]. rewrite find_pid_in by done.
  destruct (visit_children fuel d (ps_pid u) (filter (fun c => ps_ppid c = ps_pid u) us)) as (ls & E & Nls & Vls).
  - intros c Hc. by apply elem_children.
  - apply NoDup_filter. apply (NoDup_fmap_1 ps_pid), Hus.
  - intros c [Hc Ec]%elem_children. apply IH; [done|]. assert (ps_pid u < ps_pid c) by (apply parent_lt; by exists c).
    pose proof (younger_lt (ps_pid u) c Hc ltac:(done)). lia.
  - rewrite E. eexists. split; [done|]. rewrite fmap_cons. cbn [snd]. split.
    + apply NoDup_cons. split; [|done]. intros (c & [Hc Ec]%elem_children & _ & H)%Vls. apply below_le in H.
      assert (ps_pid u < ps_pid c) by (apply parent_lt; by exists c). lia.
    + intros v. rewrite elem_of_cons, Vls, below_cases by done. setoid_rewrite elem_children. naive_solver.
Qed.

(** The indentation is the distance from the root of the subtree. *)
Lemma find_pid_pid l pid u : find_pid l pid = Some u -> ps_pid u = pid.
Proof using Type. induction l as [|v l IH]; [done|]. cbn. destruct (Z.eqb_spec (ps_pid v) pid); [by intros [= ->]|done]. Qed.
Lemma visit_depth fuel d pid l x : visit fuel d pid = Some l -> x ∈ l -> exists k, x.1 = (d + k)%nat /\ nsteps parent_of k pid (ps_pid x.2).
Proof using Type.
  revert d pid l. induction fuel as [|fuel IH]; intros d pid l E Hx; [done|]. cbn [visit] in E. destruct (find_pid us pid) as [u|] eqn:Eu; [|injection E as <-; by apply elem_of_nil in Hx].
  destruct (mapM _ _) as [ls|] eqn:Els; [|done]. injection E as <-. apply elem_of_cons in Hx as [->|Hx].
  - exists 0%nat. cbn. split; [lia|]. rewrite (find_pid_pid _ _ _ Eu). constructor.
  - apply list_elem_of_In, in_concat in Hx as (l & Hl%list_elem_of_In & Hx%list_elem_of_In). apply mapM_Some_1 in Els. apply list_elem_of_lookup in Hl as [i Hi].
    destruct (Forall2_lookup_r _ _ _ _ _ Els Hi) as (c & Hc & Ec). apply list_elem_of_lookup_2, elem_children in Hc as [Hc Hp].
    destruct (IH _ _ _ Ec Hx) as (k & -> & Hk). exists (S k). split; [lia|]. eapply nsteps_l; [|exact Hk]. by exists c.
Qed.

(** [mktree] prints what [visit] lists. *)
Lemma mktree_children fuel indent pid cs :
  (forall c l, c ∈ cs -> visit fuel (S indent) (ps_pid c) = Some l -> mktree us fuel (S indent) (ps_pid c) = Some (render l)) ->
  forall ls, mapM (fun c => visit fuel (S indent) (ps_pid c)) (filter (fun c => ps_ppid c = pid) cs) = Some ls ->
  (fix children (us0 : list pstat) : option (list Z) :=
     match us0 with
     | [] => Some []
     | c :: us0 =>
         if ps_ppid c =? pid then
           match mktree us fuel (S indent) (ps_pid c), children us0 with Some a, Some b => Some (a ++ b) | _, _ => None end
         else children us0
     end) cs = Some (render (concat ls)).
Proof using Type.
  induction cs as [|c cs IH]; intros Hm ls E; [by injection E as <-|]. rewrite filter_cons in E.
  destruct (decide (ps_ppid c = pid)) as [Ec|Ec].
  - apply Z.eqb_eq in Ec as ->. cbn in E. destruct (visit fuel (S indent) (ps_pid c)) as [l|] eqn:El; [|done]. cbn in E.
    destruct (mapM _ _) as [ls'|] eqn:Els; [|done]. injection E as <-.
    rewrite (Hm c l ltac:(by left) El). rewrite (IH ltac:(intros; apply Hm; [by right|done]) ls' eq_refl). cbn. unfold render. by rewrite fmap_app, concat_app.
  - apply Z.eqb_neq in Ec as ->. apply IH; [|done]. intros c' l Hc'. apply Hm. by right.
Qed.

Lemma mktree_visit fuel indent u l :
  u ∈ us -> visit fuel indent (ps_pid u) = Some l -> mktree us fuel indent (ps_pid u) = Some (render l).
Proof using Hus.
  revert indent u l. induction fuel as [|fuel IH]; intros indent u l Hu E; [done|]. cbn [visit mktree] in *. rewrite find_pid_in in * by done.
  destruct (mapM _ _) as [ls|] eqn:Els; [|done]. injection E as <-.
  rewrite (mktree_children fuel indent (ps_pid u) us (fun c l Hc => IH (S indent) c l Hc) ls Els). done.
Qed.
End tree.

(** The tree below an entry, parents before their children and siblings in
    the order of the table, each with its depth. *)
Inductive preorder (us : list pstat) : nat -> pstat -> list (nat * pstat) -> Prop :=
| preorder_node d u l : preorders us (S d) (filter (fun c => ps_ppid c = ps_pid u) us) l -> preorder us d u ((d, u) :: l)
with preorders (us : list pstat) : nat -> list pstat -> list (nat * pstat) -> Prop :=
| preorders_nil d : preorders us d [] []
| preorders_cons d c cs l l' : preorder us d c l -> preorders us d cs l' -> preorders us d (c :: cs) (l ++ l').
(** The lines of a tree: two spaces for each level, the name, and the pid in
    decimal in parentheses. *)
Inductive tree_text : list (nat * pstat) -> list Z -> Prop :=
| tree_text_nil : tree_text [] []
| tree_text_cons d u l pid rest :
    numeral pid (ps_pid u) -> tree_text l rest ->
    tree_text ((d, u) :: l) (replicate (2 * d) 32 ++ ps_name u ++ [40] ++ pid ++ [41; 10] ++ rest).
(** The process the arguments ask for. *)
Definition asked (argv : list (list Z)) (pid : Z) : Prop :=
  (exists prog a, argv = [prog; a] /\ numeral a pid /\ pid < 2^31) \/ (length argv <> 2%nat /\ pid = 1).

Lemma visit_preorder us fuel d u l : tree_like us -> u ∈ us -> visit us fuel d (ps_pid u) = Some l -> preorder us d u l.
Proof.
  intros Hus. revert d u l. induction fuel as [|fuel IH]; intros d u l Hu E; [done|]. cbn [visit] in E. rewrite (find_pid_in us Hus u Hu) in E.
  destruct (mapM _ _) as [ls|] eqn:Els; [|done]. injection E as <-. constructor. apply mapM_Some_1 in Els.
  assert (forall c, c ∈ filter (fun c => ps_ppid c = ps_pid u) us -> c ∈ us) as Hin by (intros c; rewrite elem_children; tauto). revert Hin.
  induction Els as [|c lc cs ls Ec _ IHs]; intros Hin; cbn [concat]; constructor; [apply IH; [apply Hin; left|done]|apply IHs; intros c' Hc'; apply Hin; by right].
Qed.
Lemma tree_line_text d u : 0 < ps_pid u < 2^31 ->
  exists pid, numeral pid (ps_pid u) /\ tree_line d u = replicate (2 * d) 32 ++ ps_name u ++ [40] ++ pid ++ [41; 10].
Proof.
  intros Hp. exists (uprintint (ps_pid u) 10 true). split; [apply uprintint_numeral; lia|]. unfold tree_line.
  assert (concat (replicate d (str "  ")) = replicate (2 * d) 32) as ->; [|done].
  clear. induction d as [|d IH]; [done|]. cbn [replicate concat]. rewrite IH. by replace (2 * S d)%nat with (S (S (2 * d))) by lia.
Qed.
Lemma render_text us l : tree_like us -> (forall x, x ∈ l -> x.2 ∈ us) -> tree_text l (render l).
Proof.
  intros [_ Hus] Hl. rewrite Forall_forall in Hus. induction l as [|[d u] l IH]; [constructor|]. unfold render. rewrite fmap_cons. cbn [concat fst snd].
  destruct (tree_line_text d u) as (pid & Hn & ->); [apply Hus, (Hl (d, u)); left|]. rewrite <- !app_assoc. constructor; [done|]. apply IH. intros x Hx. apply Hl. by right.
Qed.
Lemma find_pid_none us pid : (forall u, u ∈ us -> ps_pid u <> pid) -> find_pid us pid = None.
Proof.
  induction us as [|v l IH]; intros Hno; [done|]. cbn. destruct (Z.eqb_spec (ps_pid v) pid) as [E|_]; [|apply IH; intros u Hu; apply Hno; by right].
  exfalso. apply (Hno v); [left|done].
Qed.
Lemma asked_pid argv pid uproc : asked argv pid ->
  pstree_main argv uproc = match uproc with None => (-1, Some []) | Some us => (0, mktree us (S (length us)) 0 pid) end.
Proof.
  unfold pstree_main. intros [(prog & a & -> & Ha & Hp)|[Hl ->]].
  - pose proof (numeral_atoi a pid [] Ha Hp I) as E. rewrite app_nil_r in E. rewrite <- E. reflexivity.
  - by apply Nat.eqb_neq in Hl as ->.
Qed.

(** C40: [pstree] terminates and prints a tree.  The process asked for is the
    one whose pid is its argument in decimal, and pid 1 when it is not given
    exactly one.  On a table with one entry for each pid, in which parents are
    older than their children, it prints that process and each of its
    descendants exactly once and nothing else, in preorder with siblings in
    the order of the table: a line "name(pid)" each, indented by two spaces
    for each step from the root.  For a pid that is not in the table it says so,
    and it fails when the processes cannot be listed. *)
Theorem pstree_prints_subtree us argv pid :
  tree_like us -> asked argv pid ->
  (forall u, u ∈ us -> ps_pid u = pid ->
     exists l text, pstree_main argv (Some us) = (0, Some text) /\ tree_text l text /\ preorder us 0 u l /\
       NoDup l.*2 /\ (forall v, v ∈ l.*2 <-> below us pid v) /\ (forall d v, (d, v) ∈ l -> nsteps (parent_of us) d pid (ps_pid v))) /\
  ((forall u, u ∈ us -> ps_pid u <> pid) -> 0 <= pid ->
     exists t, numeral t pid /\ pstree_main argv (Some us) = (0, Some (str "pid " ++ t ++ str " not found" ++ [10]))) /\
  pstree_main argv None = (-1, Some []).
Proof.
  intros Hus Ha. rewrite !(asked_pid argv pid) by done. split_and!; [| |done].
  - intros u Hu <-. assert ((younger us (ps_pid u) < S (length us))%nat) as Hf by (apply Nat.lt_succ_r, length_filter).
    destruct (visit_spec us Hus (S (length us)) 0 u Hu Hf) as (l & E & Nl & Vl). exists l, (render l).
    rewrite (mktree_visit us Hus _ 0 u l Hu E). split; [done|]. split; [|split; [by eapply visit_preorder|split; [done|split; [done|]]]].
    + apply (render_text us); [done|]. intros x Hx. apply (Vl x.2). by apply list_elem_of_fmap_2.
    + intros d v Hin. destruct (visit_depth us _ _ _ _ _ E Hin) as (k & Ek & Hk). cbn in *. by subst.
  - intros Hno H0. exists (uprintint pid 10 true). assert (pid < 2^31) as H1 by (destruct Ha as [(? & ? & _ & _ & ?)|[_ ->]]; [done|lia]).
    split; [by apply uprintint_numeral|]. cbn [mktree]. by rewrite find_pid_none.
Qed.

Definition demo_ps : list pstat :=
  [PStat 1 SLEEPING 12288 0 (str "init"); PStat 2 SLEEPING 16384 1 (str "sh"); PStat 5 RUNNING 12288 2 (str "pstree"); PStat 4 ZOMBIE 12288 1 (str "a")].
Lemma demo_ps_tree : tree_like demo_ps.
Proof. split; [apply (bool_decide_unpack _); vm_compute; exact I|]. repeat constructor. Qed.
Definition demo_argv : list (list Z) := [str "pstree"; str "2"].
Lemma demo_asked : asked demo_argv 2.
Proof.
  left. exists (str "pstree"), (str "2"). split; [reflexivity|]. split; [|lia]. split; [discriminate|]. split; [vm_compute; repeat constructor; discriminate|].
  split; [reflexivity|]. discriminate.
Qed.
Lemma pstree_prints_subtree_witness :
  exists l text, pstree_main demo_argv (Some demo_ps) = (0, Some text) /\ tree_text l text /\ preorder demo_ps 0 (PStat 2 SLEEPING 16384 1 (str "sh")) l.
Proof.
  destruct (pstree_prints_subtree demo_ps demo_argv 2 demo_ps_tree demo_asked) as (H & _ & _).
  destruct (H (PStat 2 SLEEPING 16384 1 (str "sh")) ltac:(right; left) eq_refl) as (l & text & E & Ht & Hp & _).
  exists l, text. split; [exact E|]. split; [exact Ht|exact Hp].
Defined.
Example pstree_demo :
  pstree_main [str "pstree"] (Some demo_ps) = (0, Some (str "init(1)" ++ nl ++ str "  sh(2)" ++ nl ++ str "    pstree(5)" ++ nl ++ str "  a(4)" ++ nl)).
Proof. vm_compute. reflexivity. Qed.
Example ps_line_demo : ps_line (PStat 2 SLEEPING 16384 1 (str "sh")) = str "2" ++ tab ++ str "sleeping" ++ tab ++ str "16384" ++ tab ++ str "1" ++ tab ++ str "sh" ++ nl.
Proof. vm_compute. reflexivity. Qed.
