(* ===== verification/Sh.v ===== *)
(** * user/sh.c: parsing of commands

    A [char *] into the command line is the part of the line from there to
    its end ([es]): [*s] is its head, or NUL at the end, and [s < es] holds
    when it is not empty.  The parser builds a tree whose words are pairs of
    such pointers; [nulterminate] then stores NULs into the line.  A [panic]
    prints its message and ends the process; memory for the tree is assumed
    to be available, as the code does. *)

From S2P Require Import Prelude Syscall Printf Ulib.

Definition MAXARGS : nat := 10.
Definition whitespace : list Z := [32; 9; 13; 10; 11].
Definition symbols : list Z := str "<|>&;()".

(** [strchr(set, c)] as a test; it finds no NUL. *)
Definition in_set (set : list Z) (c : Z) : bool := existsb (Z.eqb c) set.
Definition is_ws : Z -> bool := in_set whitespace.
Definition is_word (c : Z) : bool := negb (is_ws c) && negb (in_set symbols c).

Abbreviation ptr := (list Z).
Definition deref (s : ptr) : Z := hd 0 s.
Fixpoint skip (f : Z -> bool) (s : ptr) : ptr :=
  match s with [] => [] | c :: s' => if f c then skip f s' else s end.

(** A word of the line: the pointers to its first character and past its last. *)
Definition word : Type := ptr * ptr.

Inductive cmd : Type :=
| EXEC (argv : list word)
| REDIR (c : cmd) (file : word) (mode fd : Z)
| PIPE (left right : cmd)
| LIST (left right : cmd)
| BACK (c : cmd).

Inductive tok : Type := T_end | T_sym (c : Z) | T_append | T_word.

(** The token, the pointers [q] and [eq], and the new [*ps]. *)
Definition gettoken (ps : ptr) : tok * word * ptr :=
  let s := skip is_ws ps in
  let q := s in
  let '(ret, s) :=
    match s with
    | [] => (T_end, s)
    | c :: s' =>
        if in_set (str "|();&<") c then (T_sym c, s')
        else if c =? 62 then                                    (* '>' *)
          match s' with
          | d :: s'' => if d =? 62 then (T_append, s'') else (T_sym c, s')
          | [] => (T_sym c, s')
          end
        else (T_word, skip is_word s)
    end in
  (ret, (q, s), skip is_ws s).

Definition peek (ps : ptr) (toks : list Z) : bool * ptr :=
  let s := skip is_ws ps in (match s with [] => false | c :: _ => in_set toks c end, s).

Inductive result (A : Type) : Type :=
| Got (a : A) (ps : ptr)
| Bad (out : list Z) (msg : string)   (* what is printed before [panic] *)
| NoFuel.
Arguments Got {A} _ _.
Arguments Bad {A} _ _.
Arguments NoFuel {A}.
Definition rbind {A B} (r : result A) (k : A -> ptr -> result B) : result B :=
  match r with Got a ps => k a ps | Bad o m => Bad o m | NoFuel => NoFuel end.

Definition redir : Type := word * Z * Z.
Definition wrap_redir (c : cmd) (r : redir) : cmd := let '(file, mode, fd) := r in REDIR c file mode fd.
(** [redircmd] around the command, the first redirection innermost. *)
Definition wrap_redirs (c : cmd) (rs : list redir) : cmd := foldl wrap_redir c rs.

(** The redirections [parseredirs] adds, in the order of the line. *)
Fixpoint parseredirs (fuel : nat) (ps : ptr) : result (list redir) :=
  match fuel with
  | O => NoFuel
  | S fuel =>
      let (more, ps) := peek ps (str "<>") in
      if negb more then Got [] ps else
      let '(t, _, ps) := gettoken ps in
      let '(t2, w, ps) := gettoken ps in
      match t2 with
      | T_word =>
          let r := match t with
                   | T_sym c => if c =? 60 then (w, O_RDONLY, 0) else (w, Z.lor (Z.lor O_WRONLY O_CREATE) O_TRUNC, 1)
                   | _ => (w, Z.lor O_WRONLY O_CREATE, 1)
                   end in
          rbind (parseredirs fuel ps) (fun rs ps => Got (r :: rs) ps)
      | _ => Bad [] "missing file for redirection"
      end
  end.

(** The loop of [parseexec]; [argc] words are stored. *)
Fixpoint parse_args (fuel : nat) (argc : nat) (ps : ptr) : result (list word * list redir) :=
  match fuel with
  | O => NoFuel
  | S fuel =>
      let (stop, ps) := peek ps (str "|)&;") in
      if (stop : bool) then Got ([], []) ps else
      let '(t, w, ps) := gettoken ps in
      match t with
      | T_end => Got ([], []) ps
      | T_word =>
          if (MAXARGS <=? S argc)%nat then Bad [] "too many args" else
          rbind (parseredirs (S (length ps)) ps) (fun rs ps =>
          rbind (parse_args fuel (S argc) ps) (fun x ps => Got (w :: x.1, rs ++ x.2) ps))
      | _ => Bad [] "syntax"
      end
  end.

(** The loop of [parseline] over [&]. *)
Fixpoint parse_back (fuel : nat) (c : cmd) (ps : ptr) : result cmd :=
  match fuel with
  | O => NoFuel
  | S fuel =>
      let (more, ps) := peek ps (str "&") in
      if (more : bool) then let '(_, _, ps) := gettoken ps in parse_back fuel (BACK c) ps else Got c ps
  end.

(** [fuel] bounds the nesting of calls. *)
Fixpoint parseline (fuel : nat) (ps : ptr) : result cmd :=
  match fuel with
  | O => NoFuel
  | S fuel =>
      rbind (parsepipe fuel ps) (fun c ps =>
      rbind (parse_back (S (length ps)) c ps) (fun c ps =>
      let (more, ps) := peek ps (str ";") in
      if (more : bool) then
        let '(_, _, ps) := gettoken ps in
        rbind (parseline fuel ps) (fun r ps => Got (LIST c r) ps)
      else Got c ps))
  end
with parsepipe (fuel : nat) (ps : ptr) : result cmd :=
  match fuel with
  | O => NoFuel
  | S fuel =>
      rbind (parseexec fuel ps) (fun c ps =>
      let (more, ps) := peek ps (str "|") in
      if (more : bool) then
        let '(_, _, ps) := gettoken ps in
        rbind (parsepipe fuel ps) (fun r ps => Got (PIPE c r) ps)
      else Got c ps)
  end
with parseexec (fuel : nat) (ps : ptr) : result cmd :=
  match fuel with
  | O => NoFuel
  | S fuel =>
      let (block, ps) := peek ps (str "(") in
      if (block : bool) then parseblock fuel ps else
      rbind (parseredirs (S (length ps)) ps) (fun rs ps =>
      rbind (parse_args (S (length ps)) 0 ps) (fun x ps => Got (wrap_redirs (EXEC x.1) (rs ++ x.2)) ps))
  end
with parseblock (fuel : nat) (ps : ptr) : result cmd :=
  match fuel with
  | O => NoFuel
  | S fuel =>
      let (open, ps) := peek ps (str "(") in
      if negb open then Bad [] "parseblock" else
      let '(_, _, ps) := gettoken ps in
      rbind (parseline fuel ps) (fun c ps =>
      let (close, ps) := peek ps (str ")") in
      if negb close then Bad [] "syntax - missing )" else
      let '(_, _, ps) := gettoken ps in
      rbind (parseredirs (S (length ps)) ps) (fun rs ps => Got (wrap_redirs c rs) ps))
  end.

(** [nulterminate]: the stores it makes into the line, each at a pointer. *)
Fixpoint nulterminate (c : cmd) : list ptr :=
  match c with
  | EXEC argv => snd <$> argv
  | REDIR c file _ _ => nulterminate c ++ [snd file]
  | PIPE l r | LIST l r => nulterminate l ++ nulterminate r
  | BACK c => nulterminate c
  end.

Definition leftovers (ps : ptr) : list Z := default [] (fprintf (str "leftovers: %s" ++ [10]) [UStr (Some ps)]).
#[global] Arguments leftovers : simpl never.
Definition parsecmd (s : list Z) : result cmd :=
  rbind (parseline (4 * length s + 5) s) (fun c ps =>
  let (_, ps) := peek ps [] in
  match ps with [] => Got c ps | _ => Bad (leftovers ps) "syntax" end).

(** The line as [nulterminate] leaves it; [s ++ [0]] is the C string. *)
Definition offset (s : list Z) (p : ptr) : nat := (length s - length p)%nat.
Definition store_nuls (s : list Z) (ps : list ptr) : list Z := foldl (fun m p => <[offset s p := 0]> m) (s ++ [0]) ps.
(** The C string at a pointer. *)
Definition cstring (m : list Z) (off : nat) : list Z := str_of (drop off m).

(** ** The parser returns *)

Lemma skip_le f s : (length (skip f s) <= length s)%nat.
Proof. induction s as [|c s IH]; cbn; [lia|]. destruct (f c); cbn; lia. Qed.
Lemma skip_stops f s c s' : skip f s = c :: s' -> f c = false.
Proof. induction s as [|d s IH]; cbn; [done|]. destruct (f d) eqn:E; [done|]. by intros [= <- <-]. Qed.

Lemma symbol_cases c : in_set (str "|();&<") c = false -> (c =? 62) = false -> in_set symbols c = false.
Proof. unfold in_set, symbols. cbn. rewrite !orb_false_iff. tauto. Qed.

Lemma gettoken_le ps : (length (gettoken ps).2 <= length ps)%nat.
Proof.
  unfold gettoken. pose proof (skip_le is_ws ps). destruct (skip is_ws ps) as [|c s]; [cbn; lia|]. cbn [length] in *.
  destruct (in_set _ c); [cbn [snd]; pose proof (skip_le is_ws s); lia|]. destruct (c =? 62).
  - destruct s as [|d s]; [cbn; lia|]. destruct (d =? 62); cbn [snd length] in *; [pose proof (skip_le is_ws s)|pose proof (skip_le is_ws (d :: s)); cbn in *]; lia.
  - cbn [snd]. pose proof (skip_le is_ws (skip is_word (c :: s))). pose proof (skip_le is_word (c :: s)). cbn [length] in *. lia.
Qed.
(** A token other than the end of the line takes at least a character. *)
Lemma gettoken_lt ps : (gettoken ps).1.1 <> T_end -> (length (gettoken ps).2 < length ps)%nat.
Proof.
  unfold gettoken. pose proof (skip_le is_ws ps). destruct (skip is_ws ps) as [|c s] eqn:Es; [done|]. cbn [length] in *. apply skip_stops in Es.
  destruct (in_set (str "|();&<") c) eqn:E1; [intros _; cbn [snd]; pose proof (skip_le is_ws s); lia|]. destruct (c =? 62) eqn:E2.
  - intros _. destruct s as [|d s]; [cbn; lia|]. destruct (d =? 62); cbn [snd length] in *; [pose proof (skip_le is_ws s)|pose proof (skip_le is_ws (d :: s)); cbn in *]; lia.
  - intros _. cbn [snd]. pose proof (skip_le is_ws (skip is_word (c :: s))). pose proof (skip_le is_word s).
    assert (skip is_word (c :: s) = skip is_word s) as E by (cbn; unfold is_word; by rewrite Es, (symbol_cases c E1 E2)). rewrite E in *. lia.
Qed.
Lemma peek_le ps toks : (length (peek ps toks).2 <= length ps)%nat.
Proof. apply skip_le. Qed.
Lemma peek_then ps toks : (peek ps toks).1 = true -> (length (gettoken (peek ps toks).2).2 < length ps)%nat.
Proof.
  intros Hp. assert ((gettoken (peek ps toks).2).1.1 <> T_end) as Ht.
  - revert Hp. unfold peek, gettoken. cbn [fst snd]. destruct (skip is_ws ps) as [|c s] eqn:E; [done|]. apply skip_stops in E. intros _. cbn [skip]. rewrite E.
    destruct (in_set (str "|();&<") c); [done|]. destruct (c =? 62); [|done]. destruct s as [|d s]; [done|]. by destruct (d =? 62).
  - apply gettoken_lt in Ht. pose proof (peek_le ps toks). lia.
Qed.

(** The outcome is not for lack of fuel, and leaves at most [n] characters. *)
Definition fine {A} (n : nat) (r : result A) : Prop :=
  match r with Got _ ps => (length ps <= n)%nat | Bad _ _ => True | NoFuel => False end.
Lemma fine_bind {A B} n m (r : result A) (k : A -> ptr -> result B) :
  fine n r -> (forall a ps, (length ps <= n)%nat -> fine m (k a ps)) -> fine m (rbind r k).
Proof. destruct r; cbn; auto. Qed.

(** One token; after a successful [peek] it takes a character. *)
Ltac take_token :=
  match goal with |- context [gettoken ?p] =>
    let H := fresh "Hle" in let H' := fresh "Hlt" in
    pose proof (gettoken_le p) as H; pose proof (gettoken_lt p) as H'; destruct (gettoken p) as [[? ?] ?]; cbn [fst snd] in *
  end.
Ltac take_peek :=
  match goal with |- context [peek ?p ?t] =>
    let H := fresh "Hle" in let H' := fresh "Hlt" in
    pose proof (peek_le p t) as H; pose proof (peek_then p t) as H'; destruct (peek p t) as [[] ?]; cbn [fst snd negb] in *;
    [specialize (H' eq_refl)|clear H']
  end.

Lemma parseredirs_fine fuel n ps : (length ps < fuel)%nat -> (length ps <= n)%nat -> fine n (parseredirs fuel ps).
Proof.
  revert ps. induction fuel as [|fuel IH]; intros ps Hf Hn; [lia|]. cbn [parseredirs]. take_peek; [|cbn; lia]. do 2 take_token.
  match goal with |- fine _ (match ?t with _ => _ end) => destruct t end; try exact I.
  eapply (fine_bind n); [apply IH; lia|]. by intros.
Qed.
Lemma redirs_fine n ps : (length ps <= n)%nat -> fine n (parseredirs (S (length ps)) ps).
Proof. apply parseredirs_fine. lia. Qed.

Lemma parse_args_fine fuel n argc ps : (length ps < fuel)%nat -> (length ps <= n)%nat -> fine n (parse_args fuel argc ps).
Proof.
  revert argc ps. induction fuel as [|fuel IH]; intros argc ps Hf Hn; [lia|]. cbn [parse_args]. take_peek; [cbn; lia|]. take_token.
  match goal with |- fine _ (match ?t with _ => _ end) => destruct t end; try exact I; [cbn; lia|]. destruct (_ <=? _)%nat; [exact I|].
  eapply (fine_bind (Nat.pred (length ps))); [apply redirs_fine; specialize (Hlt ltac:(done)); lia|]. intros rs ps' Hps'.
  specialize (Hlt ltac:(done)). eapply (fine_bind n); [apply IH; lia|]. by intros.
Qed.
Lemma parse_back_fine fuel n c ps : (length ps < fuel)%nat -> (length ps <= n)%nat -> fine n (parse_back fuel c ps).
Proof.
  revert c ps. induction fuel as [|fuel IH]; intros c ps Hf Hn; [lia|]. cbn [parse_back]. take_peek; [|cbn; lia]. take_token. apply IH; lia.
Qed.

Lemma parse_fine fuel ps n :
  (length ps <= n)%nat ->
  ((4 * length ps + 4 <= fuel)%nat -> fine n (parseline fuel ps)) /\ ((4 * length ps + 3 <= fuel)%nat -> fine n (parsepipe fuel ps)) /\
  ((4 * length ps + 2 <= fuel)%nat -> fine n (parseexec fuel ps)) /\ ((4 * length ps + 1 <= fuel)%nat -> fine n (parseblock fuel ps)).
Proof.
  revert ps n. induction fuel as [|fuel IH]; intros ps n Hn; [split_and!; intros ?; lia|].
  assert (IHl : forall ps n, (length ps <= n)%nat -> (4 * length ps + 4 <= fuel)%nat -> fine n (parseline fuel ps)) by (intros; by apply IH).
  assert (IHp : forall ps n, (length ps <= n)%nat -> (4 * length ps + 3 <= fuel)%nat -> fine n (parsepipe fuel ps)) by (intros; by apply IH).
  assert (IHe : forall ps n, (length ps <= n)%nat -> (4 * length ps + 2 <= fuel)%nat -> fine n (parseexec fuel ps)) by (intros; by apply IH).
  assert (IHb : forall ps n, (length ps <= n)%nat -> (4 * length ps + 1 <= fuel)%nat -> fine n (parseblock fuel ps)) by (intros; by apply IH). clear IH.
  split_and!; intros Hf.
  - cbn [parseline]. eapply (fine_bind (length ps)); [apply IHp; lia|]. intros c p1 H1. eapply (fine_bind (length ps)); [apply parse_back_fine; lia|]. intros c' p2 H2.
    take_peek; [|cbn; lia]. take_token. eapply (fine_bind n); [apply IHl; lia|]. by intros.
  - cbn [parsepipe]. eapply (fine_bind (length ps)); [apply IHe; lia|]. intros c p1 H1. take_peek; [|cbn; lia]. take_token. eapply (fine_bind n); [apply IHp; lia|]. by intros.
  - cbn [parseexec]. take_peek; [apply IHb; lia|]. eapply (fine_bind n); [apply redirs_fine; lia|]. intros rs p1 H1. eapply (fine_bind n); [apply parse_args_fine; lia|]. by intros.
  - cbn [parseblock]. take_peek; [|exact I]. take_token. eapply (fine_bind (length ps)); [apply IHl; lia|]. intros c p1 H1. take_peek; [|exact I]. take_token.
    eapply (fine_bind n); [apply redirs_fine; lia|]. by intros.
Qed.

(** C37: the shell's parser returns on every line: it builds a command or
    reports a syntax error.  The recursion is at most four calls deep for each
    character of the line. *)
Theorem parsecmd_terminates s : parsecmd s <> NoFuel.
Proof.
  unfold parsecmd. pose proof (parse_fine (4 * length s + 5) s (length s) (le_n _)) as [H _]. specialize (H ltac:(lia)).
  destruct (parseline (4 * length s + 5) s); cbn in *; [|done|done]. by destruct (skip is_ws ps).
Qed.

Lemma parsecmd_terminates_example : exists c, parsecmd (str "(a <x; b)|c >>y&") = Got c [].
Proof. eexists. vm_compute. reflexivity. Qed.

(** ** Words and [nulterminate] *)

Definition text (w : word) : list Z := take (length w.1 - length w.2) w.1.
Fixpoint words (c : cmd) : list word :=
  match c with
  | EXEC argv => argv
  | REDIR c file _ _ => words c ++ [file]
  | PIPE l r | LIST l r => words l ++ words r
  | BACK c => words c
  end.

Lemma nulterminate_words c : nulterminate c = snd <$> words c.
Proof. induction c as [argv|c IH f m fd|l IHl r IHr|l IHl r IHr|c IH]; cbn [nulterminate words]; rewrite ?fmap_app, ?IH, ?IHl, ?IHr; done. Qed.

(** A maximal sequence of word characters of the line. *)
Definition is_word_of (s : list Z) (w : word) : Prop :=
  w.1 `suffix_of` s /\ exists t, w.1 = t ++ w.2 /\ t <> [] /\ Forall (fun c => is_word c = true) t /\ match w.2 with [] => True | c :: _ => is_word c = false end.

Lemma skip_split f s : exists t, s = t ++ skip f s /\ Forall (fun c => f c = true) t.
Proof.
  induction s as [|c s [t [E HF]]]; [by exists []|]. cbn. destruct (f c) eqn:Ec; [|by exists []]. exists (c :: t). cbn. rewrite <- E. split; [done|by constructor].
Qed.
Lemma skip_suffix f s : skip f s `suffix_of` s.
Proof. destruct (skip_split f s) as [t [E _]]. by exists t. Qed.

Section words.
Context (s : list Z).

Lemma gettoken_suffix ps : ps `suffix_of` s -> (gettoken ps).2 `suffix_of` s.
Proof.
  intros Hs. transitivity ps; [clear Hs|done]. pose proof (skip_suffix is_ws ps) as H1. unfold gettoken. destruct (skip is_ws ps) as [|c l]; [done|].
  assert (Hl : l `suffix_of` ps) by (etransitivity; [|exact H1]; by exists [c]).
  destruct (in_set _ c); [cbn [snd]; by etransitivity; [apply skip_suffix|]|]. destruct (c =? 62).
  - destruct l as [|d l]; [done|]. destruct (d =? 62); cbn [snd]; (etransitivity; [apply skip_suffix|]); [|done]. etransitivity; [|exact Hl]. by exists [d].
  - cbn [snd]. etransitivity; [apply skip_suffix|]. etransitivity; [apply skip_suffix|done].
Qed.
Lemma gettoken_word ps : ps `suffix_of` s -> (gettoken ps).1.1 = T_word -> is_word_of s (gettoken ps).1.2.
Proof.
  intros Hs. pose proof (skip_suffix is_ws ps) as H1. unfold gettoken. destruct (skip is_ws ps) as [|c l] eqn:Es; [done|]. apply skip_stops in Es.
  destruct (in_set (str "|();&<") c) eqn:E1; [done|]. destruct (c =? 62) eqn:E2; [destruct l as [|d l]; [done|]; by destruct (d =? 62)|]. intros _. cbn [fst snd].
  split; [cbn [fst]; by etransitivity|]. destruct (skip_split is_word (c :: l)) as (t & E & HF). exists t. cbn [fst snd]. split_and!; [done| |done|].
  - intros ->. pose proof (skip_stops is_word (c :: l) c l (eq_sym E)) as Hw. unfold is_word in Hw. by rewrite Es, (symbol_cases c E1 E2) in Hw.
  - destruct (skip is_word (c :: l)) as [|d l'] eqn:Ed; [done|]. by apply (skip_stops is_word (c :: l) d l').
Qed.
Lemma peek_suffix ps toks : ps `suffix_of` s -> (peek ps toks).2 `suffix_of` s.
Proof. intros Hs. unfold peek. cbn [snd]. etransitivity; [apply skip_suffix|done]. Qed.

(** A successful parse stays in the line and its words are words of it. *)
Definition in_line {A} (P : A -> Prop) (r : result A) : Prop := match r with Got a ps => ps `suffix_of` s /\ P a | _ => True end.
Lemma in_line_bind {A B} (P : A -> Prop) (Q : B -> Prop) r k :
  in_line P r -> (forall a ps, P a -> ps `suffix_of` s -> in_line Q (k a ps)) -> in_line Q (rbind r k).
Proof. destruct r; cbn; [|done|done]. intros [? ?] Hk. by apply Hk. Qed.

Abbreviation good_redirs := (Forall (fun r : redir => is_word_of s r.1.1)).
Abbreviation good_cmd := (fun c => Forall (is_word_of s) (words c)).

Ltac next_token :=
  match goal with |- context [gettoken ?p] =>
    pose proof (gettoken_suffix p ltac:(assumption)); pose proof (gettoken_word p ltac:(assumption)); destruct (gettoken p) as [[? ?] ?]; cbn [fst snd] in *
  end.
Ltac next_peek :=
  match goal with |- context [peek ?p ?t] => pose proof (peek_suffix p t ltac:(assumption)); destruct (peek p t) as [[] ?]; cbn [fst snd negb] in * end.

Lemma parseredirs_words fuel ps : ps `suffix_of` s -> in_line good_redirs (parseredirs fuel ps).
Proof.
  revert ps. induction fuel as [|fuel IH]; intros ps Hs; [exact I|]. cbn [parseredirs]. next_peek; [|by split; [|constructor]]. do 2 next_token.
  match goal with |- in_line _ (match ?t with _ => _ end) => destruct t end; try exact I.
  eapply in_line_bind; [by apply IH|]. intros rs p Hrs Hp. split; [done|]. constructor; [|done].
  match goal with |- context [match ?t with _ => _ end] => destruct t; try destruct (_ =? 60) end; cbn; auto.
Qed.
Lemma parse_args_words fuel argc ps : ps `suffix_of` s -> in_line (fun x => Forall (is_word_of s) x.1 /\ good_redirs x.2) (parse_args fuel argc ps).
Proof.
  revert argc ps. induction fuel as [|fuel IH]; intros argc ps Hs; [exact I|]. cbn [parse_args]. next_peek; [by split; [|split; constructor]|]. next_token.
  match goal with |- in_line _ (match ?t with _ => _ end) => destruct t end; try exact I; [by split; [|split; constructor]|].
  destruct (_ <=? _)%nat; [exact I|]. eapply in_line_bind; [by apply parseredirs_words|]. intros rs p Hrs Hp.
  eapply in_line_bind; [by apply IH|]. intros x p' [Hx1 Hx2] Hp'. split; [done|]. cbn. split; [constructor; auto|]. by apply Forall_app.
Qed.
Lemma parse_back_words fuel c ps : ps `suffix_of` s -> good_cmd c -> in_line good_cmd (parse_back fuel c ps).
Proof.
  revert c ps. induction fuel as [|fuel IH]; intros c ps Hs Hc; [exact I|]. cbn [parse_back]. next_peek; [|done]. next_token. by apply IH.
Qed.
Lemma wrap_redirs_words c rs : good_cmd c -> good_redirs rs -> good_cmd (wrap_redirs c rs).
Proof.
  unfold wrap_redirs. intros Hc Hr. revert c Hc. induction Hr as [|[[f m] fd] rs Hf _ IH]; intros c Hc; [done|]. cbn [foldl]. apply IH. cbn.
  apply Forall_app. split; [done|by constructor].
Qed.

Lemma parse_words fuel ps :
  ps `suffix_of` s ->
  in_line good_cmd (parseline fuel ps) /\ in_line good_cmd (parsepipe fuel ps) /\ in_line good_cmd (parseexec fuel ps) /\ in_line good_cmd (parseblock fuel ps).
Proof.
  revert ps. induction fuel as [|fuel IH]; intros ps Hs; [by split_and!|]. split_and!.
  - cbn [parseline]. eapply in_line_bind; [by apply IH|]. intros c p Hc Hp. eapply in_line_bind; [by apply parse_back_words|]. intros c' p' Hc' Hp'.
    next_peek; [|done]. next_token. eapply in_line_bind; [by apply IH|]. intros r p1 Hr Hp1. split; [done|]. cbn. by apply Forall_app.
  - cbn [parsepipe]. eapply in_line_bind; [by apply IH|]. intros c p Hc Hp. next_peek; [|done]. next_token. eapply in_line_bind; [by apply IH|].
    intros r p1 Hr Hp1. split; [done|]. cbn. by apply Forall_app.
  - cbn [parseexec]. next_peek; [by apply IH|]. eapply in_line_bind; [by apply parseredirs_words|]. intros rs p1 Hrs Hp1.
    eapply in_line_bind; [by apply parse_args_words|]. intros x p2 [Hx1 Hx2] Hp2. split; [done|]. apply wrap_redirs_words; [done|]. by apply Forall_app.
  - cbn [parseblock]. next_peek; [|exact I]. next_token. eapply in_line_bind; [by apply IH|]. intros c p1 Hc Hp1. next_peek; [|exact I]. next_token.
    eapply in_line_bind; [by apply parseredirs_words|]. intros rs p2 Hrs Hp2. split; [done|]. by apply wrap_redirs_words.
Qed.

Lemma parsecmd_words c ps : parsecmd s = Got c ps -> good_cmd c.
Proof.
  intros E. assert (in_line good_cmd (parsecmd s)) as H; [|rewrite E in H; apply H]. unfold parsecmd. eapply in_line_bind; [apply parse_words; by exists []|].
  intros c' p Hc Hp. pose proof (peek_suffix p [] Hp) as Hp'. destruct (peek p []) as [b p']. cbn [snd] in Hp'. by destruct p'.
Qed.
End words.

Lemma store_nuls_lookup s ps i :
  Forall (fun p => (length p <= length s)%nat) ps -> store_nuls s ps !! i = if decide (i ∈ offset s <$> ps) then Some 0 else (s ++ [0]) !! i.
Proof.
  unfold store_nuls. assert (Hlen : forall m, length m = S (length s) -> Forall (fun p => (length p <= length s)%nat) ps ->
    foldl (fun m p => <[offset s p := 0]> m) m ps !! i = if decide (i ∈ offset s <$> ps) then Some 0 else m !! i);
    [|apply Hlen; rewrite length_app; cbn; lia].
  induction ps as [|p ps IH]; intros m Hm Hp; [done|]. apply Forall_cons in Hp as [Hp Hps]. cbn [foldl]. rewrite IH by (rewrite ?length_insert; done).
  rewrite fmap_cons. destruct (decide (i ∈ offset s <$> ps)) as [Hi|Hi]; [by rewrite decide_True by (by right)|].
  destruct (decide (i = offset s p)) as [->|Hne]; [rewrite decide_True by (by left); apply list_lookup_insert_eq; unfold offset; lia|].
  rewrite list_lookup_insert_ne by done. rewrite decide_False; [done|]. by intros [?|?]%elem_of_cons.
Qed.

Lemma suffix_offset s p : p `suffix_of` s -> drop (offset s p) s = p /\ (length p <= length s)%nat /\ offset s p = (length s - length p)%nat.
Proof. intros [k ->]. unfold offset. rewrite length_app. split_and!; [|lia|done]. by rewrite Nat.add_sub, drop_app_length. Qed.

Section nuls.
Context (s : list Z) (ws : list word).
Hypothesis Hnul : Forall (fun c => c <> 0) s.
Hypothesis Hws : Forall (is_word_of s) ws.

Lemma word_split w : is_word_of s w -> exists t, text w = t /\ w.1 = t ++ w.2 /\ Forall (fun c => is_word c = true) t /\
  (forall j c, t !! j = Some c -> s !! (offset s w.1 + j)%nat = Some c) /\ offset s w.2 = (offset s w.1 + length t)%nat /\
  (length w.2 <= length s)%nat.
Proof using Type.
  intros (Hsuf & t & E & Hne & HF & _). exists t. destruct (suffix_offset s w.1 Hsuf) as (Hd & Hl & Ho). assert (length w.1 = length t + length w.2)%nat as Hlen by (by rewrite E, length_app).
  split_and!; [|done|done| | |lia].
  - unfold text. rewrite Hlen, Nat.add_sub, E. by rewrite take_app_length.
  - intros j c Hj. rewrite <- lookup_drop, Hd, E. by apply lookup_app_l_Some.
  - unfold offset in *. lia.
Qed.

(** The end of a word is not inside another word. *)
Lemma end_outside w w' j c : is_word_of s w -> is_word_of s w' -> text w !! j = Some c -> offset s w'.2 <> (offset s w.1 + j)%nat.
Proof using Type.
  intros Hw Hw' Hj E. destruct (word_split w Hw) as (t & Et & _ & HF & Hin & _). rewrite Et in Hj. specialize (Hin j c Hj). rewrite <- E in Hin.
  destruct Hw' as (Hsuf & t' & E' & _ & _ & Hend). assert (w'.2 `suffix_of` s) as Hs2 by (etransitivity; [|exact Hsuf]; by exists t').
  destruct (suffix_offset s w'.2 Hs2) as (Hd & _ & _). rewrite <- (Nat.add_0_r (offset s w'.2)), <- lookup_drop, Hd in Hin.
  destruct w'.2 as [|d l]; [done|]. cbn in Hin. injection Hin as ->. rewrite Forall_lookup in HF. specialize (HF j c Hj). congruence.
Qed.

Lemma str_of_prefix t rest : Forall (fun c => c <> 0) t -> str_of (t ++ 0 :: rest) = t.
Proof using Type. induction 1 as [|c t Hc _ IH]; [done|]. cbn. apply Z.eqb_neq in Hc as ->. by rewrite IH. Qed.

Lemma word_cstring w : w ∈ ws -> cstring (store_nuls s (snd <$> ws)) (offset s w.1) = text w.
Proof using Hnul Hws.
  intros Hin. pose proof Hws as HF. rewrite Forall_forall in HF. pose proof (HF w Hin) as Hw. destruct (word_split w Hw) as (t & Et & E & Hwt & Hc & Ho & Hl).
  assert (Hps : Forall (fun p : ptr => (length p <= length s)%nat) (snd <$> ws)).
  { apply Forall_fmap, Forall_forall. intros w' Hw'. destruct (word_split w' (HF w' Hw')) as (? & _ & _ & _ & _ & _ & ?). done. }
  assert (Hnz : Forall (fun c => c <> 0) t).
  { apply Forall_lookup. intros j c Hj. rewrite Forall_lookup in Hnul. by apply (Hnul _ _ (Hc j c Hj)). }
  rewrite Et. unfold cstring. rewrite <- (str_of_prefix t (drop (S (offset s w.2)) (store_nuls s (snd <$> ws))) Hnz). f_equal.
  apply list_eq. intros i. rewrite lookup_drop. destruct (decide (i < length t)%nat) as [Hi|Hi].
  - destruct (lookup_lt_is_Some_2 t i Hi) as [c Hj]. rewrite (lookup_app_l_Some _ _ _ _ Hj). rewrite store_nuls_lookup by done.
    rewrite decide_False; [by apply lookup_app_l_Some, Hc|]. intros (p & Ep & (w' & -> & Hw')%list_elem_of_fmap)%list_elem_of_fmap.
    symmetry in Ep. revert Ep. apply (end_outside w w' i c); [done|by apply HF|by rewrite Et].
  - rewrite lookup_app_r by lia. destruct (i - length t)%nat as [|k] eqn:Ek.
    + rewrite store_nuls_lookup by done. rewrite decide_True; [done|]. apply list_elem_of_fmap. exists w.2. split; [lia|]. by apply list_elem_of_fmap_2.
    + transitivity (drop (S (offset s w.2)) (store_nuls s (snd <$> ws)) !! k); [rewrite lookup_drop; f_equal; lia|done].
Qed.
End nuls.

(** The words of a parsed command are right in the shared line buffer.
    [nulterminate] ends every word with a NUL stored in the line itself, over
    the separator that follows it; after all the stores, the C string at each
    [argv] and file pointer is exactly the text of its word, which has no white
    space and no shell symbol. *)
Theorem nulterminate_ends_words s c ps :
  Forall (fun ch => ch <> 0) s -> parsecmd s = Got c ps ->
  Forall (fun w => cstring (store_nuls s (nulterminate c)) (offset s w.1) = text w /\ Forall (fun ch => is_word ch = true) (text w)) (words c).
Proof.
  intros Hnul E. pose proof (parsecmd_words s c ps E) as Hw. cbv beta in Hw. rewrite nulterminate_words. apply Forall_forall. intros w Hin. split; [by apply word_cstring|].
  rewrite Forall_forall in Hw. destruct (word_split s w (Hw w Hin)) as (t & -> & _ & HF & _). done.
Qed.

Definition demo_line : list Z := str "cat<in|wc >out&".
Definition demo_cmd : cmd := Eval vm_compute in match parsecmd demo_line with Got c _ => c | _ => EXEC [] end.
Lemma nulterminate_ends_words_witness :
  Forall (fun w => cstring (store_nuls demo_line (nulterminate demo_cmd)) (offset demo_line w.1) = text w /\ Forall (fun ch => is_word ch = true) (text w)) (words demo_cmd).
Proof. apply (nulterminate_ends_words demo_line demo_cmd []); [apply (bool_decide_unpack _); vm_compute; exact I|vm_compute; reflexivity]. Defined.
