(* ===== verification/ShRun.v ===== *)
(** * user/sh.c: running commands

    [runcmd] is translated to the tree of system calls it makes ([prog]):
    every call that can fail has a continuation for each outcome, and a
    [fork] one for the child and one for the parent.  [step] gives the calls
    their meaning on a table of processes that interleave; [tasks] is what a
    command asks for, independently of processes. *)

From S2P Require Import Prelude Syscall Printf Ulib Sh.

Inductive prog : Type :=
| Exit (status : Z)
| Exec (argv : list (list Z)) (fails : prog)
| Fprintf2 (msg : list Z) (k : prog)
| Close (fd : nat) (k : prog)
| Open (file : list Z) (mode : Z) (k : option nat -> prog)
| Pipe (k : option (nat * nat) -> prog)
| Dup (fd : nat) (k : prog)
| Chdir (dir : list Z) (k : bool -> prog)
| Fork (child parent fails : prog)
| Wait (k : prog).

Definition nl : list Z := [10].
Definition sh_panic (s : string) : prog := Fprintf2 (str s ++ nl) (Exit 1).
Definition fork1 (child parent : prog) : prog := Fork child parent (sh_panic "fork").
Definition failed (what : string) (name : list Z) : list Z := default [] (fprintf (str what ++ str " %s failed" ++ nl) [UStr (Some name)]).

Fixpoint runcmd (c : cmd) : prog :=
  match c with
  | EXEC argv =>
      match argv with
      | [] => Exit 1
      | w :: _ => Exec (text <$> argv) (Fprintf2 (failed "exec" (text w)) (Exit 0))
      end
  | REDIR c file mode fd =>
      Close (Z.to_nat fd) (Open (text file) mode (fun r =>
        match r with None => Fprintf2 (failed "open" (text file)) (Exit 1) | Some _ => runcmd c end))
  | LIST l r => fork1 (runcmd l) (Wait (runcmd r))
  | PIPE l r =>
      Pipe (fun p =>
        match p with
        | None => sh_panic "pipe"
        | Some (p0, p1) =>
            fork1 (Close 1 (Dup p1 (Close p0 (Close p1 (runcmd l)))))
              (fork1 (Close 0 (Dup p0 (Close p0 (Close p1 (runcmd r)))))
                (Close p0 (Close p1 (Wait (Wait (Exit 0))))))
        end)
  | BACK c => fork1 (runcmd c) (Exit 0)
  end.

(** ** Processes

    The calls act on a table of processes that run at the same time, one step
    of any of them at a time, when [fork], [pipe], [open], [exec] and [chdir]
    find the resources they need.  An open file is named by how it was opened;
    a process, and the pipe it creates, by a label: its place in the tree of
    forks. *)

Abbreviation label := (list nat).
Inductive fobj : Type :=
| Inherited (n : nat)
| Opened (file : list Z) (mode : Z)
| PipeR (name : label)
| PipeW (name : label).
Abbreviation fds := (list (option fobj)).

(** [fdalloc]: the lowest descriptor that is not open. *)
Fixpoint lowest (e : fds) : option nat :=
  match e with [] => None | None :: _ => Some 0%nat | Some _ :: e => S <$> lowest e end.

(** The calls that concern only the process itself. *)
Definition call (p : prog) (e : fds) (x : label) : option (prog * fds * label) :=
  match p with
  | Fprintf2 _ k => Some (k, e, x)
  | Close fd k => Some (k, <[fd := None]> e, x)
  | Open file mode k =>
      Some (match lowest e with Some i => (k (Some i), <[i := Some (Opened file mode)]> e, x) | None => (k None, e, x) end)
  | Pipe k =>
      Some (match lowest e with
            | Some i =>
                let e1 := <[i := Some (PipeR x)]> e in
                match lowest e1 with Some j => (k (Some (i, j)), <[j := Some (PipeW x)]> e1, 2%nat :: x) | None => (k None, e, x) end
            | None => (k None, e, x)
            end)
  | Dup fd k =>
      Some (match mjoin (e !! fd), lowest e with Some o, Some i => (k, <[i := Some o]> e, x) | _, _ => (k, e, x) end)
  | _ => None
  end.

(** What can be seen of a session: the programs that are executed, with their
    arguments and descriptors, the changes of the shell's own directory, and
    the ends of the programs. *)
Inductive action : Type :=
| Launch (x : label) (argv : list (list Z)) (e : fds)
| Enter (dir : list Z).
Inductive event : Type := Did (a : action) | Ended (x : label).

(** A process runs code of the shell or, after [exec], a program; when it has
    exited it waits for its parent. *)
Inductive status : Type := Code (p : prog) | Program | Zombie | Gone.
Record process : Type := Process { stat : status; files : fds; lbl : label; parent : option nat }.
Definition state : Type := list process * list event.
Definition become (st : status) (q : process) : process := Process st (files q) (lbl q) (parent q).
Definition children (ps : list process) (i : nat) : list nat := filter (fun j => (ps !! j) ≫= parent = Some i) (seq 0 (length ps)).
(** The children of a process that exits are given to init. *)
Definition orphan (i : nat) (q : process) : process := if decide (parent q = Some i) then Process (stat q) (files q) (lbl q) None else q.
Definition reparent (i : nat) (ps : list process) : list process := orphan i <$> ps.

Inductive step : state -> state -> Prop :=
| step_call ps tr i q p p' e' x' :
    ps !! i = Some q -> stat q = Code p -> call p (files q) (lbl q) = Some (p', e', x') ->
    step (ps, tr) (<[i := Process (Code p') e' x' (parent q)]> ps, tr)
| step_chdir ps tr i q dir k :
    ps !! i = Some q -> stat q = Code (Chdir dir k) -> step (ps, tr) (<[i := become (Code (k true)) q]> ps, tr ++ [Did (Enter dir)])
| step_exec ps tr i q argv f :
    ps !! i = Some q -> stat q = Code (Exec argv f) ->
    step (ps, tr) (<[i := become Program q]> ps, tr ++ [Did (Launch (lbl q) argv (files q))])
| step_end ps tr i q :
    ps !! i = Some q -> stat q = Program -> step (ps, tr) (reparent i (<[i := become Zombie q]> ps), tr ++ [Ended (lbl q)])
| step_exit ps tr i q n :
    ps !! i = Some q -> stat q = Code (Exit n) -> step (ps, tr) (reparent i (<[i := become Zombie q]> ps), tr)
| step_fork ps tr i q c k f :
    ps !! i = Some q -> stat q = Code (Fork c k f) ->
    step (ps, tr) (<[i := Process (Code k) (files q) (1%nat :: lbl q) (parent q)]> ps ++ [Process (Code c) (files q) (0%nat :: lbl q) (Some i)], tr)
| step_wait ps tr i j q qj k :
    ps !! i = Some q -> stat q = Code (Wait k) -> ps !! j = Some qj -> stat qj = Zombie -> parent qj = Some i ->
    step (ps, tr) (<[i := become (Code k) q]> (<[j := Process Gone (files qj) (lbl qj) None]> ps), tr)
| step_childless ps tr i q k :
    ps !! i = Some q -> stat q = Code (Wait k) -> children ps i = [] -> step (ps, tr) (<[i := become (Code k) q]> ps, tr).
Definition start (p : prog) (e : fds) : state := ([Process (Code p) e [] None], []).

(** ** What a command means

    A command asks for programs to be executed, each of them only after some
    others have ended.  A redirection replaces one descriptor, a pipe connects
    descriptor 1 of its left side to descriptor 0 of its right side, and
    nothing else is open in the programs of the command.  The right side of a
    list starts after the programs of the left side have ended; the two sides
    of a pipe run together; nothing waits for what runs in the background. *)

Record task : Type := Task { t_act : action; t_after : list label }.

(** The programs that have ended when the command is complete. *)
Fixpoint foreground (c : cmd) (x : label) : list label :=
  match c with
  | EXEC [] => []
  | EXEC _ => [x]
  | REDIR c _ _ _ => foreground c x
  | LIST l r => foreground l (0%nat :: x) ++ foreground r (1%nat :: x)
  | PIPE l r => foreground l (0%nat :: 2%nat :: x) ++ foreground r (0%nat :: 1%nat :: 2%nat :: x)
  | BACK _ => []
  end.
Fixpoint tasks (c : cmd) (e : fds) (x : label) (after : list label) : list task :=
  match c with
  | EXEC [] => []
  | EXEC argv => [Task (Launch x (text <$> argv) e) after]
  | REDIR c file mode fd => tasks c (<[Z.to_nat fd := Some (Opened (text file) mode)]> e) x after
  | LIST l r => tasks l e (0%nat :: x) after ++ tasks r e (1%nat :: x) (after ++ foreground l (0%nat :: x))
  | PIPE l r =>
      tasks l (<[1%nat := Some (PipeW x)]> e) (0%nat :: 2%nat :: x) after ++
      tasks r (<[0%nat := Some (PipeR x)]> e) (0%nat :: 1%nat :: 2%nat :: x) after
  | BACK c => tasks c e (0%nat :: x) after
  end.

(** A trace that carries out tasks: any task left is started when the programs
    it comes after have ended, and any running program ends.  The tasks left
    and the programs running are those after the trace. *)
Inductive follows (spec : list task) : list event -> list task -> list label -> Prop :=
| follows_nil : follows spec [] spec []
| follows_launch tr rest running x argv e after rest' :
    follows spec tr rest running -> rest ≡ₚ Task (Launch x argv e) after :: rest' -> (forall y, y ∈ after -> Ended y ∈ tr) ->
    follows spec (tr ++ [Did (Launch x argv e)]) rest' (x :: running)
| follows_enter tr rest running dir after rest' :
    follows spec tr rest running -> rest ≡ₚ Task (Enter dir) after :: rest' -> (forall y, y ∈ after -> Ended y ∈ tr) ->
    follows spec (tr ++ [Did (Enter dir)]) rest' running
| follows_end tr rest running x running' :
    follows spec tr rest running -> running ≡ₚ x :: running' -> follows spec (tr ++ [Ended x]) rest running'.

(** Standard input, output and error are open and nothing else is. *)
Definition std (e : fds) : Prop := exists a b c n, (2 <= n)%nat /\ e = Some a :: Some b :: Some c :: replicate n None.

Definition launch_std (x : task) : Prop := match t_act x with Launch _ _ e => std e | Enter _ => True end.

(** ** Theorems *)

(** The redirections the parser makes are of standard input or output. *)
Fixpoint std_redirs (c : cmd) : Prop :=
  match c with
  | EXEC _ => True
  | REDIR c _ _ fd => (fd = 0 \/ fd = 1) /\ std_redirs c
  | PIPE l r | LIST l r => std_redirs l /\ std_redirs r
  | BACK c => std_redirs c
  end.

Definition holds {A} (P : A -> Prop) (r : result A) : Prop := match r with Got a _ => P a | _ => True end.
Lemma holds_bind {A B} (P : A -> Prop) (Q : B -> Prop) r k : holds P r -> (forall a ps, P a -> holds Q (k a ps)) -> holds Q (rbind r k).
Proof. destruct r; cbn; auto. Qed.
Abbreviation std_list := (Forall (fun r : redir => r.2 = 0 \/ r.2 = 1)).

Ltac split_calls :=
  repeat match goal with
         | |- context [gettoken ?p] => destruct (gettoken p) as [[? ?] ?]
         | |- context [peek ?p ?t] => destruct (peek p t) as [[] ?]; cbn [negb]
         end.

Lemma parseredirs_std fuel ps : holds std_list (parseredirs fuel ps).
Proof.
  revert ps. induction fuel as [|fuel IH]; intros ps; [exact I|]. cbn [parseredirs]. split_calls; [|constructor].
  match goal with |- holds _ (match ?t with _ => _ end) => destruct t end; try exact I.
  eapply holds_bind; [apply IH|]. intros rs p Hrs. cbn. constructor; [|done].
  match goal with |- context [match ?t with _ => _ end] => destruct t; try destruct (_ =? 60) end; cbn; auto.
Qed.
Lemma parse_args_std fuel argc ps : holds (fun x => std_list x.2) (parse_args fuel argc ps).
Proof.
  revert argc ps. induction fuel as [|fuel IH]; intros argc ps; [exact I|]. cbn [parse_args]. split_calls; [constructor|].
  match goal with |- holds _ (match ?t with _ => _ end) => destruct t end; try exact I; [constructor|]. destruct (_ <=? _)%nat; [exact I|].
  eapply holds_bind; [apply parseredirs_std|]. intros rs p Hrs. eapply holds_bind; [apply IH|]. intros x p' Hx. cbn. by apply Forall_app.
Qed.
Lemma parse_back_std fuel c ps : std_redirs c -> holds std_redirs (parse_back fuel c ps).
Proof. revert c ps. induction fuel as [|fuel IH]; intros c ps Hc; [exact I|]. cbn [parse_back]. split_calls; [by apply IH|done]. Qed.
Lemma wrap_redirs_std c rs : std_redirs c -> std_list rs -> std_redirs (wrap_redirs c rs).
Proof.
  unfold wrap_redirs. intros Hc Hr. revert c Hc. induction Hr as [|[[f m] fd] rs Hf _ IH]; intros c Hc; [done|]. cbn [foldl]. apply IH. by split.
Qed.
Lemma parse_std fuel ps :
  holds std_redirs (parseline fuel ps) /\ holds std_redirs (parsepipe fuel ps) /\ holds std_redirs (parseexec fuel ps) /\ holds std_redirs (parseblock fuel ps).
Proof.
  revert ps. induction fuel as [|fuel IH]; intros ps; [by split_and!|]. split_and!.
  - cbn [parseline]. eapply holds_bind; [apply IH|]. intros c p Hc. eapply holds_bind; [by apply parse_back_std|]. intros c' p' Hc'. split_calls; [|done].
    eapply holds_bind; [apply IH|]. intros r p1 Hr. by split.
  - cbn [parsepipe]. eapply holds_bind; [apply IH|]. intros c p Hc. split_calls; [|done]. eapply holds_bind; [apply IH|]. intros r p1 Hr. by split.
  - cbn [parseexec]. split_calls; [apply IH|]. eapply holds_bind; [apply parseredirs_std|]. intros rs p1 Hrs. eapply holds_bind; [apply parse_args_std|].
    intros x p2 Hx. apply wrap_redirs_std; [exact I|]. by apply Forall_app.
  - cbn [parseblock]. split_calls; [|exact I..]. eapply holds_bind; [apply IH|]. intros c p1 Hc. split_calls; [|exact I].
    eapply holds_bind; [apply parseredirs_std|]. intros rs p2 Hrs. by apply wrap_redirs_std.
Qed.
Lemma parsecmd_std s c ps : parsecmd s = Got c ps -> std_redirs c.
Proof.
  intros E. assert (holds std_redirs (parsecmd s)) as H; [|rewrite E in H; apply H]. unfold parsecmd. eapply holds_bind; [apply parse_std|].
  intros c' p Hc. split_calls; match goal with |- holds _ (match ?q with _ => _ end) => by destruct q end.
Qed.

Lemma std_insert e fd o : std e -> (fd < 3)%nat -> std (<[fd := Some o]> e).
Proof.
  intros (a & b & c & n & Hn & ->) Hfd. destruct fd as [|[|[|]]]; [..|lia]; [exists o, b, c, n|exists a, o, c, n|exists a, b, o, n]; done.
Qed.

(** Closing a standard descriptor and opening another file puts the file there. *)
Lemma redir_lowest e fd : std e -> fd = 0 \/ fd = 1 -> lowest (<[Z.to_nat fd := None]> e) = Some (Z.to_nat fd).
Proof. by intros (a & b & c & n & Hn & ->) [-> | ->]. Qed.

Section pipe.
Context (e : fds) (name : list nat).
Hypothesis He : std e.
Lemma pipe_fds : lowest e = Some 3%nat /\ lowest (<[3%nat := Some (PipeR name)]> e) = Some 4%nat.
Proof using He. destruct He as (a & b & c & n & Hn & ->). by destruct n as [|[|n]]; [lia|lia|]. Qed.
Definition with_pipe : fds := <[4%nat := Some (PipeW name)]> (<[3%nat := Some (PipeR name)]> e).
Lemma left_side : <[4%nat := None]> (<[3%nat := None]> (<[1%nat := Some (PipeW name)]> (<[1%nat := None]> with_pipe))) = <[1%nat := Some (PipeW name)]> e.
Proof using He. unfold with_pipe. destruct He as (a & b & c & n & Hn & ->). by destruct n as [|[|n]]; [lia|lia|]. Qed.
Lemma right_side : <[4%nat := None]> (<[3%nat := None]> (<[0%nat := Some (PipeR name)]> (<[0%nat := None]> with_pipe))) = <[0%nat := Some (PipeR name)]> e.
Proof using He. unfold with_pipe. destruct He as (a & b & c & n & Hn & ->). by destruct n as [|[|n]]; [lia|lia|]. Qed.
Lemma left_dup : mjoin (<[1%nat := None]> with_pipe !! 4%nat) = Some (PipeW name) /\ lowest (<[1%nat := None]> with_pipe) = Some 1%nat.
Proof using He. unfold with_pipe. destruct He as (a & b & c & n & Hn & ->). by destruct n as [|[|n]]; [lia|lia|]. Qed.
Lemma right_dup : mjoin (<[0%nat := None]> with_pipe !! 3%nat) = Some (PipeR name) /\ lowest (<[0%nat := None]> with_pipe) = Some 0%nat.
Proof using He. unfold with_pipe. destruct He as (a & b & c & n & Hn & ->). by destruct n as [|[|n]]; [lia|lia|]. Qed.
End pipe.

(** ** The future of a process

    What a process does from a point on, with the processes it forks: its
    tasks, the programs that have ended when it is waited for, and a bound on
    the steps.  [base] and [own] have ended, [own] since the process started;
    [pend] is what the children forked since then wait for, [w] of which the
    process has waited for. *)
Record future : Type := Future { f_tasks : list task; f_own : list label; f_steps : nat }.
Definition tick (f : future) : future := Future (f_tasks f) (f_own f) (S (f_steps f)).

Fixpoint den (p : prog) (e : fds) (x : label) (base own : list label) (pend : list (list label)) (w : nat) : future :=
  match p with
  | Exit _ => Future [] own 2
  | Exec argv _ => Future [Task (Launch x argv e) (base ++ own)] (own ++ [x]) 3
  | Fprintf2 _ k => tick (den k e x base own pend w)
  | Close fd k => tick (den k (<[fd := None]> e) x base own pend w)
  | Open file mode k =>
      tick (match lowest e with
            | Some i => den (k (Some i)) (<[i := Some (Opened file mode)]> e) x base own pend w
            | None => den (k None) e x base own pend w
            end)
  | Pipe k =>
      tick (match lowest e with
            | Some i =>
                let e1 := <[i := Some (PipeR x)]> e in
                match lowest e1 with
                | Some j => den (k (Some (i, j))) (<[j := Some (PipeW x)]> e1) (2%nat :: x) base own pend w
                | None => den (k None) e x base own pend w
                end
            | None => den (k None) e x base own pend w
            end)
  | Dup fd k =>
      tick (match mjoin (e !! fd), lowest e with
            | Some o, Some i => den k (<[i := Some o]> e) x base own pend w
            | _, _ => den k e x base own pend w
            end)
  | Chdir dir k =>
      let f := den (k true) e x base own pend w in
      Future (Task (Enter dir) (base ++ own) :: f_tasks f) (f_own f) (S (f_steps f))
  | Fork child k _ =>
      let c := den child e (0%nat :: x) (base ++ own) [] [] 0 in
      let f := den k e (1%nat :: x) base own (pend ++ [f_own c]) w in
      Future (f_tasks c ++ f_tasks f) (f_own f) (S (f_steps c + f_steps f))
  | Wait k =>
      tick (if (length pend <=? S w)%nat then den k e x base (own ++ concat pend) [] 0 else den k e x base own pend (S w))
  end.

Lemma den_call p e x base own pend w p' e' x' :
  call p e x = Some (p', e', x') -> den p e x base own pend w = tick (den p' e' x' base own pend w).
Proof.
  destruct p; intros E; cbn [call] in E; try discriminate; apply (inj Some) in E; cbn [den]; f_equal.
  - by injection E as <- <- <-.
  - by injection E as <- <- <-.
  - destruct (lowest e); by injection E as <- <- <-.
  - cbv zeta in *. destruct (lowest e); [destruct (lowest _)|]; by injection E as <- <- <-.
  - destruct (mjoin _); [destruct (lowest _)|]; by injection E as <- <- <-.
Qed.

(** The processes of [runcmd] carry out the tasks of the command. *)
Lemma den_runcmd c e x base own :
  std_redirs c -> std e ->
  f_tasks (den (runcmd c) e x base own [] 0) = tasks c e x (base ++ own) /\ f_own (den (runcmd c) e x base own [] 0) = own ++ foreground c x.
Proof.
  revert e x base own. induction c as [argv|c IH f m fd|l IHl r IHr|l IHl r IHr|c IH]; intros e x base own Hc He.
  - destruct argv; cbn; [by rewrite app_nil_r|done].
  - destruct Hc as [Hfd Hc]. cbn [runcmd den]. rewrite (redir_lowest e fd He Hfd). cbv beta iota. rewrite list_insert_insert_eq. cbn [tick f_tasks f_own tasks foreground]. apply IH; [done|].
    apply std_insert; [done|]. destruct Hfd as [-> | ->]; cbn; lia.
  - destruct Hc as [Hl Hr]. cbn [runcmd den]. destruct (pipe_fds e x He) as [-> ->]. cbv zeta beta iota. fold (with_pipe e x). unfold fork1. cbn [den f_tasks f_own tick app length Nat.leb].
    destruct (left_dup e x He) as [-> ->]. destruct (right_dup e x He) as [-> ->]. rewrite left_side, right_side by done. cbn [f_tasks f_own tick concat].
    destruct (IHl (<[1%nat := Some (PipeW x)]> e) (0%nat :: 2%nat :: x) (base ++ own) [] Hl ltac:(auto using std_insert)) as [El1 El2].
    destruct (IHr (<[0%nat := Some (PipeR x)]> e) (0%nat :: 1%nat :: 2%nat :: x) (base ++ own) [] Hr ltac:(auto using std_insert)) as [Er1 Er2].
    rewrite El1, Er1, El2, Er2. cbn [tasks foreground app]. rewrite !app_nil_r. done.
  - destruct Hc as [Hl Hr]. cbn [runcmd]. unfold fork1. cbn [den f_tasks f_own tick app length Nat.leb concat].
    destruct (IHl e (0%nat :: x) (base ++ own) [] Hl He) as [El1 El2]. rewrite El1, El2. cbn [app]. rewrite !app_nil_r.
    destruct (IHr e (1%nat :: x) base (own ++ foreground l (0%nat :: x)) Hr He) as [Er1 Er2]. rewrite Er1, Er2. cbn [tasks foreground]. by rewrite !app_assoc.
  - cbn [runcmd]. unfold fork1. cbn [den f_tasks f_own]. destruct (IH e (0%nat :: x) (base ++ own) [] Hc He) as [E1 _]. rewrite E1. cbn [tasks foreground app]. rewrite ?app_nil_r. done.
Qed.

Lemma tasks_std c e x after : std_redirs c -> std e -> Forall launch_std (tasks c e x after).
Proof.
  revert e x after. induction c as [argv|c IH f m fd|l IHl r IHr|l IHl r IHr|c IH]; intros e x after Hc He; cbn [tasks].
  - destruct argv; by repeat constructor.
  - destruct Hc as [Hfd Hc]. apply IH; [done|]. apply std_insert; [done|]. destruct Hfd as [-> | ->]; cbn; lia.
  - destruct Hc as [Hl Hr]. apply Forall_app. split; [apply IHl|apply IHr]; auto using std_insert.
  - destruct Hc as [Hl Hr]. apply Forall_app. split; [apply IHl|apply IHr]; done.
  - by apply IH.
Qed.

Definition console : fds := Some (Inherited 0) :: Some (Inherited 1) :: Some (Inherited 2) :: replicate 13 None.
Example pipeline_demo :
  tasks demo_cmd console [] [] =
  [Task (Launch [0; 2; 0]%nat [str "cat"] (Some (Opened (str "in") O_RDONLY) :: Some (PipeW [0%nat]) :: Some (Inherited 2) :: replicate 13 None)) [];
   Task (Launch [0; 1; 2; 0]%nat [str "wc"] (Some (PipeR [0%nat]) :: Some (Opened (str "out") 0x601) :: Some (Inherited 2) :: replicate 13 None)) []].
Proof. vm_compute. reflexivity. Qed.
