(* ===== verification/ShProc.v ===== *)
(** * user/sh.c: the processes of a command carry out its tasks

    Every interleaving of the processes of a tree of system calls is a trace
    of the tasks the tree stands for ([follows]), none gets stuck before all
    tasks are done, and all of them end. *)

From stdpp Require Import functions.
From S2P Require Import Prelude Sh ShRun.

(** ** Lists gathered from all processes *)

Definition gather {A} (f : nat -> list A) (n : nat) : list A := concat (f <$> seq 0 n).

Lemma gather_ext {A} (f g : nat -> list A) n : (forall j, (j < n)%nat -> f j = g j) -> gather f n = gather g n.
Proof. intros Hfg. unfold gather. f_equal. apply list_fmap_ext. intros k j Hk. apply lookup_seq in Hk as [-> Hk]. apply Hfg. lia. Qed.
Lemma gather_split {A} (f : nat -> list A) n i :
  (i < n)%nat -> exists R, forall g, (forall j, (j < n)%nat -> j <> i -> g j = f j) -> gather g n ≡ₚ g i ++ R.
Proof.
  intros Hi. exists (concat (f <$> seq 0 i) ++ concat (f <$> seq (S i) (n - S i))). intros g Hg. unfold gather.
  replace n with (i + S (n - S i))%nat at 1 by lia. rewrite seq_app, fmap_app, concat_app. cbn [seq fmap list_fmap concat Nat.add].
  assert (g <$> seq 0 i = f <$> seq 0 i) as ->.
  { apply list_fmap_ext. intros k j Hk. apply lookup_seq in Hk as [-> Hk]. apply Hg; lia. }
  assert (g <$> seq (S i) (n - S i) = f <$> seq (S i) (n - S i)) as ->.
  { apply list_fmap_ext. intros k j Hk. apply lookup_seq in Hk as [-> Hk]. apply Hg; lia. }
  rewrite !app_assoc. apply Permutation_app_tail. apply Permutation_app_comm.
Qed.
Lemma gather_S {A} (f : nat -> list A) n : gather f (S n) = gather f n ++ f n.
Proof. unfold gather. rewrite seq_S, fmap_app, concat_app. cbn. by rewrite app_nil_r. Qed.
Lemma gather_nil {A} (f : nat -> list A) n : (forall j, (j < n)%nat -> f j = []) -> gather f n = [].
Proof. intros Hf. rewrite (gather_ext f (fun _ => []) n Hf). unfold gather. by induction (seq 0 n). Qed.

(** ** Ghost state

    For each process, the arguments its future is taken at. *)
Record ghost : Type := Ghost { g_base : list label; g_own : list label; g_pend : list (list label); g_w : nat }.
Definition fut (q : process) (g : ghost) : future :=
  match stat q with
  | Code p => den p (files q) (lbl q) (g_base g) (g_own g) (g_pend g) (g_w g)
  | Program => Future [] (g_own g ++ [lbl q]) 2
  | Zombie => Future [] (g_own g) 1
  | Gone => Future [] (g_own g) 0
  end.
Definition running_in (q : process) : list label := match stat q with Program => [lbl q] | _ => [] end.

Definition at_ {A} (f : process -> ghost -> list A) (ps : list process) (G : nat -> ghost) (j : nat) : list A :=
  match ps !! j with Some q => f q (G j) | None => [] end.
Abbreviation tasks_at := (at_ (fun q g => f_tasks (fut q g))).
Abbreviation own_at := (at_ (fun q g => f_own (fut q g))).
Abbreviation running_at := (at_ (fun q _ => running_in q)).
Abbreviation steps_at := (at_ (fun q g => replicate (f_steps (fut q g)) tt)).
Definition steps_left (ps : list process) (G : nat -> ghost) : nat := length (gather (steps_at ps G) (length ps)).

(** The children a process has waited for have ended; the others are what
    [g_pend] still expects. *)
Definition waits (tr : list event) (g : ghost) (kids : list (list label)) (rs : list (list label)) : Prop :=
  g_pend g ≡ₚ rs ++ kids /\ (g_w g <= length rs)%nat /\ (forall x, x ∈ concat rs -> Ended x ∈ tr) /\ ((g_w g < length (g_pend g))%nat \/ g_pend g = []).

Record inv (spec : list task) (ps : list process) (tr : list event) (G : nat -> ghost) : Prop := {
  i_known : forall i q x, ps !! i = Some q -> x ∈ g_base (G i) ++ g_own (G i) -> Ended x ∈ tr;
  i_kids : forall i q p, ps !! i = Some q -> stat q = Code p -> exists rs, waits tr (G i) (own_at ps G <$> children ps i) rs;
  i_parent : forall j q k, ps !! j = Some q -> parent q = Some k -> (k < j)%nat;
  i_gone : forall j q, ps !! j = Some q -> stat q = Gone -> parent q = None;
  i_follows : exists rest running, follows spec tr rest running /\
    rest ≡ₚ gather (tasks_at ps G) (length ps) /\ running ≡ₚ gather (running_at ps G) (length ps)
}.

(** ** Steps of one process *)

Lemma at_other {A} (f : process -> ghost -> list A) ps G i q g j : j <> i -> at_ f (<[i := q]> ps) (<[i := g]> G) j = at_ f ps G j.
Proof. intros Hj. unfold at_. rewrite list_lookup_insert_ne by done. by rewrite fn_lookup_insert_ne. Qed.
Lemma at_here {A} (f : process -> ghost -> list A) ps G i q g : (i < length ps)%nat -> at_ f (<[i := q]> ps) (<[i := g]> G) i = f q g.
Proof. intros Hi. unfold at_. rewrite list_lookup_insert_eq by done. by rewrite fn_lookup_insert. Qed.

Lemma elem_kids ps i j : j ∈ children ps i <-> exists q, ps !! j = Some q /\ parent q = Some i.
Proof.
  unfold children. rewrite list_elem_of_filter, elem_of_seq. destruct (ps !! j) as [q|] eqn:E; cbn.
  - apply lookup_lt_Some in E. split; [intros [? _]; eauto|]. intros (q' & [= ->] & ?). split; [done|lia].
  - split; [by intros [? _]|]. by intros (q' & ? & _).
Qed.
Lemma children_same ps ps' i :
  length ps' = length ps -> (forall j, ps' !! j ≫= parent = ps !! j ≫= parent) -> children ps' i = children ps i.
Proof. intros Hl Hp. unfold children. rewrite Hl. apply list_filter_iff. intros j. by rewrite Hp. Qed.
Lemma children_insert ps i q q' k : ps !! i = Some q -> parent q' = parent q -> children (<[i := q']> ps) k = children ps k.
Proof.
  intros E Hp. apply children_same; [apply length_insert|]. intros j. destruct (decide (j = i)) as [->|Hj]; [|by rewrite list_lookup_insert_ne].
  rewrite list_lookup_insert_eq by (by eapply lookup_lt_Some). rewrite E. cbn. done.
Qed.

Lemma waits_mono tr tr' g kids rs : tr ⊆ tr' -> waits tr g kids rs -> waits tr' g kids rs.
Proof. intros Ht (H1 & H2 & H3 & H4). split_and!; auto. Qed.
Lemma ended_mono tr tr' (x : label) : Ended x ∈ tr -> Ended x ∈ tr ++ tr'.
Proof. intros. apply elem_of_app. by left. Qed.

Lemma inv_update spec ps tr G i q q' g' evs :
  inv spec ps tr G -> ps !! i = Some q -> parent q' = parent q -> stat q' <> Gone ->
  f_own (fut q' g') = f_own (fut q (G i)) -> (f_steps (fut q' g') < f_steps (fut q (G i)))%nat ->
  (forall x, x ∈ g_base g' ++ g_own g' -> Ended x ∈ tr ++ evs) ->
  (forall p, stat q' = Code p -> exists rs, waits (tr ++ evs) g' (own_at ps G <$> children ps i) rs) ->
  (forall R S rest running, follows spec tr rest running -> rest ≡ₚ f_tasks (fut q (G i)) ++ R -> running ≡ₚ running_in q ++ S ->
     exists rest' running', follows spec (tr ++ evs) rest' running' /\ rest' ≡ₚ f_tasks (fut q' g') ++ R /\ running' ≡ₚ running_in q' ++ S) ->
  inv spec (<[i := q']> ps) (tr ++ evs) (<[i := g']> G) /\ (steps_left (<[i := q']> ps) (<[i := g']> G) < steps_left ps G)%nat.
Proof.
  intros [Hk Hc Hp Hg (rest & running & Hf & Hr & Hn)] Ei Hpar Hst Hown Hsteps Hk' Hc' Hf'. pose proof (lookup_lt_Some _ _ _ Ei) as Hi.
  assert (forall j, own_at (<[i := q']> ps) (<[i := g']> G) j = own_at ps G j) as Hoa.
  { intros j. destruct (decide (j = i)) as [->|Hj]; [rewrite at_here by done; unfold at_; by rewrite Ei, Hown|by apply at_other]. }
  assert (forall k, own_at (<[i := q']> ps) (<[i := g']> G) <$> children (<[i := q']> ps) k = own_at ps G <$> children ps k) as Hkids.
  { intros k. rewrite (children_insert ps i q q' k Ei Hpar). apply list_fmap_ext. intros; apply Hoa. }
  split.
  - split.
    + intros j qj x Ej Hx. destruct (decide (j = i)) as [->|Hj]; [rewrite fn_lookup_insert in Hx; auto|].
      rewrite list_lookup_insert_ne in Ej by done. rewrite fn_lookup_insert_ne in Hx by done. apply ended_mono. by eapply Hk.
    + intros j qj p Ej Ep. rewrite Hkids. destruct (decide (j = i)) as [->|Hj].
      * rewrite list_lookup_insert_eq in Ej by done. injection Ej as <-. rewrite fn_lookup_insert. by eapply Hc'.
      * rewrite list_lookup_insert_ne in Ej by done. rewrite fn_lookup_insert_ne by done. destruct (Hc _ _ _ Ej Ep) as [rs Hw]. exists rs. eapply waits_mono; [|exact Hw]. set_solver.
    + intros j qj k Ej Epj. destruct (decide (j = i)) as [->|Hj]; [rewrite list_lookup_insert_eq in Ej by done; injection Ej as <-; rewrite Hpar in Epj|rewrite list_lookup_insert_ne in Ej by done]; by eapply Hp.
    + intros j qj Ej Egj. destruct (decide (j = i)) as [->|Hj]; [rewrite list_lookup_insert_eq in Ej by done; by injection Ej as <-|rewrite list_lookup_insert_ne in Ej by done; by eapply Hg].
    + destruct (gather_split (tasks_at ps G) (length ps) i Hi) as [R HR]. destruct (gather_split (running_at ps G) (length ps) i Hi) as [S HS].
      destruct (Hf' R S rest running) as (rest' & running' & Hfo & Hre & Hru); [done| | |].
      * rewrite Hr, HR by done. unfold at_. by rewrite Ei.
      * rewrite Hn, HS by done. unfold at_. by rewrite Ei.
      * exists rest', running'. rewrite length_insert. split_and!; [done| |].
        -- rewrite Hre, HR by (intros; by apply at_other). by rewrite at_here.
        -- rewrite Hru, HS by (intros; by apply at_other). by rewrite at_here.
  - unfold steps_left. rewrite length_insert. destruct (gather_split (steps_at ps G) (length ps) i Hi) as [R HR].
    rewrite (Permutation_length (HR (steps_at (<[i := q']> ps) (<[i := g']> G)) ltac:(intros; by apply at_other))).
    rewrite (Permutation_length (HR (steps_at ps G) ltac:(done))). rewrite !length_app, at_here by done. unfold at_. rewrite Ei, !length_replicate. lia.
Qed.

(** ** Steps that change the tree of processes *)

Lemma orphan_fields i q : stat (orphan i q) = stat q /\ files (orphan i q) = files q /\ lbl (orphan i q) = lbl q.
Proof. unfold orphan. by destruct (decide _). Qed.
Lemma fut_orphan i q g : fut (orphan i q) g = fut q g.
Proof. unfold fut. by destruct (orphan_fields i q) as (-> & -> & ->). Qed.
Lemma at_reparent {A} (f : process -> ghost -> list A) i ps G j :
  (forall q g, f (orphan i q) g = f q g) -> at_ f (reparent i ps) G j = at_ f ps G j.
Proof. intros Hf. unfold at_, reparent. rewrite list_lookup_fmap. destruct (ps !! j); cbn; [apply Hf|done]. Qed.
Lemma children_reparent i ps k : k <> i -> children (reparent i ps) k = children ps k.
Proof.
  intros Hk. unfold children, reparent. rewrite length_fmap. apply list_filter_iff. intros j. rewrite list_lookup_fmap. destruct (ps !! j) as [q|]; cbn; [|done].
  unfold orphan. destruct (decide (parent q = Some i)) as [->|]; [|done]. cbn. split; [done|]. intros [= ->]. done.
Qed.

Lemma inv_reparent spec ps tr G i q :
  inv spec ps tr G -> ps !! i = Some q -> (forall p, stat q <> Code p) ->
  inv spec (reparent i ps) tr G /\ steps_left (reparent i ps) G = steps_left ps G.
Proof.
  intros [Hk Hc Hp Hg Hf] Ei Hst.
  assert (forall j qj, reparent i ps !! j = Some qj -> exists q0, ps !! j = Some q0 /\ qj = orphan i q0) as Hl.
  { intros j qj Ej. unfold reparent in Ej. rewrite list_lookup_fmap in Ej. destruct (ps !! j) as [q0|]; [|done]. injection Ej as <-. eauto. }
  assert (forall A (f : process -> ghost -> list A), (forall q g, f (orphan i q) g = f q g) -> gather (at_ f (reparent i ps) G) (length (reparent i ps)) = gather (at_ f ps G) (length ps)) as Hga.
  { intros A f Hof. unfold reparent at 2. rewrite length_fmap. apply gather_ext. intros j _. by apply at_reparent. }
  split; [split|].
  - intros j qj x (q0 & E0 & _)%Hl Hx. by eapply Hk.
  - intros j qj p (q0 & E0 & ->)%Hl Ep. rewrite (proj1 (orphan_fields i q0)) in Ep. assert (j <> i) as Hj by (intros ->; rewrite Ei in E0; injection E0 as <-; by eapply Hst).
    rewrite children_reparent by done. destruct (Hc _ _ _ E0 Ep) as [rs Hw]. exists rs.
    assert (own_at (reparent i ps) G <$> children ps j = own_at ps G <$> children ps j) as ->; [|done].
    apply list_fmap_ext. intros k l _. apply at_reparent. intros. by rewrite fut_orphan.
  - intros j qj k (q0 & E0 & ->)%Hl. unfold orphan. destruct (decide _); [done|]. intros Ep. by eapply Hp.
  - intros j qj (q0 & E0 & ->)%Hl. unfold orphan. destruct (decide _); [done|]. intros Eg. by eapply Hg.
  - destruct Hf as (rest & running & Hf & Hr & Hn). exists rest, running. rewrite !Hga; [done| |].
    + intros. unfold running_in. by destruct (orphan_fields i q0) as (-> & _ & ->).
    + intros. by rewrite fut_orphan.
  - unfold steps_left. f_equal. apply Hga. intros. by rewrite fut_orphan.
Qed.

(** A zombie is taken off the table: what its parent expected of it has ended. *)
Lemma NoDup_children ps i : NoDup (children ps i).
Proof. apply NoDup_filter, NoDup_seq. Qed.
Lemma children_reap ps i j qj : ps !! j = Some qj -> parent qj = Some i ->
  children ps i ≡ₚ j :: children (<[j := Process Gone (files qj) (lbl qj) None]> ps) i /\
  forall k, k <> i -> children (<[j := Process Gone (files qj) (lbl qj) None]> ps) k = children ps k.
Proof.
  intros Ej Epj. pose proof (lookup_lt_Some _ _ _ Ej) as Hj. set (ps' := <[j := _]> ps).
  assert (forall l k, l ∈ children ps' k <-> l ∈ children ps k /\ l <> j) as Hin.
  { intros l k. rewrite !elem_kids. unfold ps'. destruct (decide (l = j)) as [->|Hl].
    - rewrite list_lookup_insert_eq by done. split; [|by intros [_ ?]]. by intros (q & [= <-] & ?).
    - rewrite list_lookup_insert_ne by done. naive_solver. }
  split.
  - apply NoDup_Permutation; [apply NoDup_children|apply NoDup_cons; split; [by rewrite Hin; intros [_ ?]|apply NoDup_children]|].
    intros l. rewrite elem_of_cons, Hin. destruct (decide (l = j)) as [->|]; [|tauto]. split; [by left|]. intros _. apply elem_kids. eauto.
  - intros k Hk. unfold children, ps'. rewrite length_insert. apply list_filter_iff. intros l. destruct (decide (l = j)) as [->|Hl]; [|by rewrite list_lookup_insert_ne].
    rewrite list_lookup_insert_eq by done. rewrite Ej. cbn. rewrite Epj. split; [done|]. intros [= ->]. done.
Qed.

Lemma inv_reap spec ps tr G i j q qj p :
  inv spec ps tr G -> ps !! i = Some q -> stat q = Code p -> ps !! j = Some qj -> stat qj = Zombie -> parent qj = Some i ->
  let ps' := <[j := Process Gone (files qj) (lbl qj) None]> ps in
  inv spec ps' tr G /\ (steps_left ps' G <= steps_left ps G)%nat /\
  exists rs, waits tr (G i) (own_at ps' G <$> children ps' i) rs /\ ((g_w (G i) < length rs)%nat \/ g_pend (G i) = []).
Proof.
  intros [Hk Hc Hp Hg (rest & running & Hf & Hr & Hn)] Ei Ep Ej Esj Epj ps'. pose proof (lookup_lt_Some _ _ _ Ej) as Hj.
  destruct (children_reap ps i j qj Ej Epj) as [Hci Hck]. fold ps' in Hci, Hck.
  assert (forall l, l <> j -> ps' !! l = ps !! l) as Hother by (intros l Hl; unfold ps'; by rewrite list_lookup_insert_ne).
  assert (ps' !! j = Some (Process Gone (files qj) (lbl qj) None)) as Ej' by (unfold ps'; by rewrite list_lookup_insert_eq).
  assert (length ps' = length ps) as Hlen by (unfold ps'; by rewrite length_insert).
  assert (forall A (f : process -> ghost -> list A), f (Process Gone (files qj) (lbl qj) None) (G j) = f qj (G j) -> forall l, at_ f ps' G l = at_ f ps G l) as Hat.
  { intros A f Hf' l. unfold at_. destruct (decide (l = j)) as [->|Hl]; [by rewrite Ej', Ej|by rewrite Hother]. }
  assert (forall l, own_at ps' G l = own_at ps G l) as Hown by (apply Hat; unfold fut; by rewrite Esj).
  assert (forall x, x ∈ own_at ps G j -> Ended x ∈ tr) as Hend.
  { intros x Hx. unfold at_ in Hx. rewrite Ej in Hx. unfold fut in Hx. rewrite Esj in Hx. apply (Hk j qj x Ej). apply elem_of_app. by right. }
  assert (forall k, own_at ps' G <$> children ps' k = own_at ps G <$> children ps' k) as Hmap by (intros; apply list_fmap_ext; intros; apply Hown).
  assert (exists rs, waits tr (G i) (own_at ps' G <$> children ps' i) rs /\ ((g_w (G i) < length rs)%nat \/ g_pend (G i) = [])) as Hwi.
  { destruct (Hc _ _ _ Ei Ep) as (rs & H1 & H2 & H3 & H4). exists (own_at ps G j :: rs). rewrite Hmap. split; [split_and!|left; cbn; lia].
    - rewrite H1, Hci. cbn. by rewrite <- Permutation_middle.
    - cbn. lia.
    - intros x Hx. cbn in Hx. apply elem_of_app in Hx as [Hx|Hx]; auto.
    - done. }
  split; [split|split; [|done]].
  - intros l ql x El Hx. destruct (decide (l = j)) as [->|Hl]; [by apply (Hk j qj)|]. rewrite Hother in El by done. by eapply Hk.
  - intros l ql pl El Epl. destruct (decide (l = i)) as [->|Hl]; [destruct Hwi as (rs & Hw & _); eauto|].
    destruct (decide (l = j)) as [->|Hlj]; [rewrite Ej' in El; by injection El as <-|]. rewrite Hother in El by done. rewrite Hmap, Hck by done. by eapply Hc.
  - intros l ql k El. destruct (decide (l = j)) as [->|Hlj]; [rewrite Ej' in El; by injection El as <-|]. rewrite Hother in El by done. by eapply Hp.
  - intros l ql El. destruct (decide (l = j)) as [->|Hlj]; [rewrite Ej' in El; by injection El as <-|]. rewrite Hother in El by done. by eapply Hg.
  - exists rest, running. rewrite Hlen. split_and!; [done| |].
    + rewrite Hr. by rewrite (gather_ext (tasks_at ps' G) (tasks_at ps G)) by (intros; apply Hat; unfold fut; by rewrite Esj).
    + rewrite Hn. by rewrite (gather_ext (running_at ps' G) (running_at ps G)) by (intros; apply Hat; unfold running_in; by rewrite Esj).
  - unfold steps_left. rewrite Hlen. destruct (gather_split (steps_at ps G) (length ps) j Hj) as [R HR].
    rewrite (Permutation_length (HR (steps_at ps' G) ltac:(intros l _ Hl; unfold at_; by rewrite Hother))), (Permutation_length (HR (steps_at ps G) ltac:(done))).
    rewrite !length_app. unfold at_. rewrite Ej', Ej. cbn. lia.
Qed.

(** A fork: the child expects nothing yet, and its parent expects the child. *)
Lemma children_fork ps i qc k : parent qc = Some i ->
  children (ps ++ [qc]) k = children ps k ++ (if decide (k = i) then [length ps] else []).
Proof.
  intros Hqc. unfold children. rewrite length_app. cbn [length]. rewrite Nat.add_1_r, seq_S, filter_app. cbn [Nat.add]. f_equal.
  - assert (forall l : list nat, (forall j, j ∈ l -> (j < length ps)%nat) ->
      filter (fun j => (ps ++ [qc]) !! j ≫= parent = Some k) l = filter (fun j => ps !! j ≫= parent = Some k) l) as Hext.
    { induction l as [|j l IH]; intros Hl; [done|]. rewrite !filter_cons, IH by (intros; apply Hl; by right).
      rewrite lookup_app_l by (apply Hl; left). done. }
    apply Hext. intros j Hj. apply elem_of_seq in Hj. lia.
  - rewrite filter_cons, filter_nil. rewrite lookup_app_r, Nat.sub_diag by lia. cbn. rewrite Hqc.
    destruct (decide (Some i = Some k)), (decide (k = i)); congruence || done.
Qed.

Section fork.
Context (spec : list task) (ps : list process) (tr : list event) (G : nat -> ghost) (i : nat) (q : process) (c k f : prog).
Hypothesis Hinv : inv spec ps tr G.
Hypothesis Ei : ps !! i = Some q.
Hypothesis Ep : stat q = Code (Fork c k f).
Let qc := Process (Code c) (files q) (0%nat :: lbl q) (Some i).
Let qk := Process (Code k) (files q) (1%nat :: lbl q) (parent q).
Let gc := Ghost (g_base (G i) ++ g_own (G i)) [] [] 0.
Let gk := Ghost (g_base (G i)) (g_own (G i)) (g_pend (G i) ++ [f_own (fut qc gc)]) (g_w (G i)).
Let n := length ps.
Let ps' := <[i := qk]> ps ++ [qc].
Let G' : nat -> ghost := <[n := gc]> (<[i := gk]> G).

Lemma fork_fut : fut q (G i) = Future (f_tasks (fut qc gc) ++ f_tasks (fut qk gk)) (f_own (fut qk gk)) (S (f_steps (fut qc gc) + f_steps (fut qk gk))).
Proof using Ep. unfold fut. by rewrite Ep. Qed.
Lemma fork_i : (i < n)%nat.
Proof using Ei. by eapply lookup_lt_Some. Qed.
Lemma fork_len : length ps' = S n.
Proof using Type. unfold ps'. rewrite length_app, length_insert. cbn. unfold n. lia. Qed.
Lemma fork_at_i {A} (h : process -> ghost -> list A) : at_ h ps' G' i = h qk gk.
Proof using Ei.
  pose proof fork_i as Hi. unfold at_, ps', G'. rewrite lookup_app_l by (by rewrite length_insert). rewrite list_lookup_insert_eq by done.
  by rewrite fn_lookup_insert_ne, fn_lookup_insert by lia.
Qed.
Lemma fork_at_n {A} (h : process -> ghost -> list A) : at_ h ps' G' n = h qc gc.
Proof using Type. unfold at_, ps', G', n. rewrite lookup_app_r by (rewrite length_insert; lia). rewrite length_insert, Nat.sub_diag. cbn. by rewrite fn_lookup_insert. Qed.
Lemma fork_at_other {A} (h : process -> ghost -> list A) j : (j < n)%nat -> j <> i -> at_ h ps' G' j = at_ h ps G j.
Proof using Type.
  intros Hj Hne. unfold at_, ps', G'. rewrite lookup_app_l by (by rewrite length_insert). rewrite list_lookup_insert_ne by done. by rewrite !fn_lookup_insert_ne by lia.
Qed.
Lemma fork_cases j qj : ps' !! j = Some qj ->
  (j = n /\ qj = qc) \/ (j = i /\ qj = qk) \/ (j <> i /\ (j < n)%nat /\ ps !! j = Some qj /\ G' j = G j).
Proof using Ei.
  pose proof fork_i as Hi. intros E. destruct (decide (j < n)%nat) as [Hj|Hj].
  - right. unfold ps' in E. rewrite lookup_app_l in E by (by rewrite length_insert). destruct (decide (j = i)) as [->|Hne].
    + left. rewrite list_lookup_insert_eq in E by done. by injection E as <-.
    + right. rewrite list_lookup_insert_ne in E by done. split_and!; [done..|]. unfold G'. by rewrite !fn_lookup_insert_ne by lia.
  - left. assert (j = n) as ->; [apply lookup_lt_Some in E; rewrite fork_len in E; lia|]. split; [done|]. unfold ps', n in E.
    rewrite lookup_app_r in E by (rewrite length_insert; lia). rewrite length_insert, Nat.sub_diag in E. by injection E as <-.
Qed.
Lemma fork_children k' : children ps' k' = children ps k' ++ (if decide (k' = i) then [n] else []).
Proof using Ei. unfold ps'. rewrite (children_fork _ i qc k') by done. rewrite length_insert. f_equal. by apply (children_insert ps i q). Qed.
Lemma fork_gather {A} (h : process -> ghost -> list A) :
  exists R, gather (at_ h ps G) n ≡ₚ h q (G i) ++ R /\ gather (at_ h ps' G') (length ps') ≡ₚ h qc gc ++ h qk gk ++ R.
Proof using Ei.
  destruct (gather_split (at_ h ps G) n i fork_i) as [R HR]. exists R. split; [rewrite HR by done; unfold at_; by rewrite Ei|].
  rewrite fork_len, gather_S, fork_at_n. rewrite HR by (intros; by apply fork_at_other). rewrite fork_at_i. apply Permutation_app_comm.
Qed.

Lemma fork_own j : (j < n)%nat -> own_at ps' G' j = own_at ps G j.
Proof using Ei Ep.
  intros Hj. destruct (decide (j = i)) as [->|Hne]; [|by apply fork_at_other]. rewrite fork_at_i. unfold at_. by rewrite Ei, fork_fut.
Qed.
Lemma fork_kids k' : own_at ps' G' <$> children ps k' = own_at ps G <$> children ps k'.
Proof using Ei Ep.
  apply list_fmap_ext. intros l j Hj. apply list_elem_of_lookup_2, elem_kids in Hj as (qj & Ej & _). apply fork_own. by eapply lookup_lt_Some.
Qed.

Lemma inv_fork : inv spec ps' tr G' /\ (steps_left ps' G' < steps_left ps G)%nat.
Proof using Hinv Ei Ep.
  pose proof fork_i as Hi. destruct Hinv as [Hk Hc Hp Hg (rest & running & Hf & Hr & Hn)].
  assert (G' n = gc) as EGn by (unfold G'; by rewrite fn_lookup_insert).
  assert (G' i = gk) as EGi by (unfold G'; by rewrite fn_lookup_insert_ne, fn_lookup_insert by lia).
  split; [split|].
  - intros j qj x [[-> ->]|[[-> ->]|(Hne & Hj & Ej & EG)]]%fork_cases Hx.
    + rewrite EGn in Hx. unfold gc in Hx. cbn in Hx. rewrite app_nil_r in Hx. by apply (Hk i q).
    + rewrite EGi in Hx. by apply (Hk i q).
    + rewrite EG in Hx. by eapply Hk.
  - intros j qj p [[-> ->]|[[-> ->]|(Hne & Hj & Ej & EG)]]%fork_cases Epj; rewrite fork_children.
    + rewrite decide_False by lia. rewrite app_nil_r. exists []. rewrite EGn. assert (children ps n = []) as ->.
      { destruct (children ps n) as [|l ls] eqn:El; [done|]. assert (l ∈ children ps n) as (ql & Eql & Epl)%elem_kids by (rewrite El; left).
        pose proof (Hp _ _ _ Eql Epl). pose proof (lookup_lt_Some _ _ _ Eql). unfold n in *. lia. }
      split_and!; [done|done|by intros ? ?%elem_of_nil|by right].
    + rewrite decide_True by done. rewrite fmap_app. cbn [fmap list_fmap]. rewrite fork_at_n, fork_kids, EGi. destruct (Hc _ _ _ Ei Ep) as (rs & H1 & H2 & H3 & H4).
      exists rs. split_and!; [|done|done|left; cbn; rewrite length_app; cbn].
      * cbn [g_pend gk]. rewrite H1. by rewrite <- app_assoc.
      * destruct H4 as [H4|H4]; [lia|]. rewrite H4. cbn. apply Permutation_length in H1. rewrite H4, length_app in H1. cbn in H1. lia.
    + rewrite decide_False by done. rewrite app_nil_r, fork_kids, EG. by eapply Hc.
  - intros j qj k' [[-> ->]|[[-> ->]|(Hne & Hj & Ej & EG)]]%fork_cases Epj.
    + cbn in Epj. assert (k' = i) as Ek by congruence. rewrite Ek. exact Hi.
    + by apply (Hp i q).
    + by eapply Hp.
  - intros j qj [[-> ->]|[[-> ->]|(Hne & Hj & Ej & EG)]]%fork_cases Egj; [done|done|by eapply Hg].
  - exists rest, running. destruct (fork_gather (fun q g => f_tasks (fut q g))) as (R & E1 & E2). destruct (fork_gather (fun q _ => running_in q)) as (S & E3 & E4).
    split_and!; [done| |].
    + rewrite Hr. fold n. rewrite E1, E2, fork_fut. cbn [f_tasks]. by rewrite app_assoc.
    + rewrite Hn. fold n. rewrite E3, E4. unfold running_in at 1. by rewrite Ep.
  - destruct (fork_gather (fun q g => replicate (f_steps (fut q g)) tt)) as (R & E1 & E2). unfold steps_left. fold n.
    apply Permutation_length in E1, E2. rewrite E1, E2, fork_fut. cbn [f_steps]. rewrite !length_app, !length_replicate. lia.
Qed.
End fork.

(** ** Every step *)

(** A [wait] that finds a child, or no child at all. *)
Lemma inv_waited spec ps tr G i q k rs :
  inv spec ps tr G -> ps !! i = Some q -> stat q = Code (Wait k) ->
  waits tr (G i) (own_at ps G <$> children ps i) rs -> (g_w (G i) < length rs)%nat \/ g_pend (G i) = [] ->
  exists g', inv spec (<[i := become (Code k) q]> ps) tr (<[i := g']> G) /\ (steps_left (<[i := become (Code k) q]> ps) (<[i := g']> G) < steps_left ps G)%nat.
Proof.
  intros I Ei Ep (H1 & H2 & H3 & H4) Hw. pose proof (i_known _ _ _ _ I i q) as Hk.
  set (g' := if (length (g_pend (G i)) <=? S (g_w (G i)))%nat then Ghost (g_base (G i)) (g_own (G i) ++ concat (g_pend (G i))) [] 0 else Ghost (g_base (G i)) (g_own (G i)) (g_pend (G i)) (S (g_w (G i)))).
  assert (fut q (G i) = tick (fut (become (Code k) q) g')) as Ef.
  { unfold fut. rewrite Ep. cbn [stat become files lbl den]. unfold g'. by destruct (_ <=? _)%nat. }
  assert ((length (g_pend (G i)) <= S (g_w (G i)))%nat -> (own_at ps G <$> children ps i) = [] /\ forall x, x ∈ concat (g_pend (G i)) -> Ended x ∈ tr) as Hall.
  { intros Hle. pose proof (Permutation_length H1) as Hl. rewrite length_app in Hl. assert ((own_at ps G <$> children ps i) = []) as Hnil.
    { apply nil_length_inv. destruct Hw as [Hw|Hw]; [|rewrite Hw in Hl; cbn in Hl]; lia. }
    split; [done|]. intros x Hx. apply H3. rewrite Hnil, app_nil_r in H1. clear - H1 Hx.
    apply list_elem_of_In, in_concat in Hx as (l & Hl%list_elem_of_In & Hx). apply list_elem_of_In, in_concat. exists l. split; [|done]. apply list_elem_of_In. by rewrite <- H1. }
  exists g'. rewrite <- (app_nil_r tr) at 1. apply (inv_update spec ps tr G i q); try done.
  - by rewrite Ef.
  - rewrite Ef. cbn. lia.
  - rewrite app_nil_r. intros x Hx. unfold g' in Hx. destruct (Nat.leb_spec (length (g_pend (G i))) (S (g_w (G i)))) as [Hle|Hgt]; cbn in Hx; [|by apply Hk].
    rewrite app_assoc in Hx. apply elem_of_app in Hx as [Hx|Hx]; [by apply Hk|by apply Hall].
  - intros p _. rewrite app_nil_r. unfold g'. destruct (Nat.leb_spec (length (g_pend (G i))) (S (g_w (G i)))) as [Hle|Hgt].
    + destruct (Hall Hle) as [-> _]. exists []. split_and!; [done|done|by intros ? ?%elem_of_nil|by right].
    + exists rs. split_and!; [done| |done|left; cbn; lia]. cbn. destruct Hw as [Hw|Hw]; [lia|]. rewrite Hw in Hgt. cbn in Hgt. lia.
  - intros R S rest running Hf Hr Hn. exists rest, running. rewrite app_nil_r, Ef in *. split_and!; [done|done|]. rewrite Hn. unfold running_in. by rewrite Ep.
Qed.

Lemma step_inv spec ps tr G ps' tr' :
  inv spec ps tr G -> step (ps, tr) (ps', tr') -> exists G', inv spec ps' tr' G' /\ (steps_left ps' G' < steps_left ps G)%nat.
Proof.
  intros I Hs. inversion Hs as [? ? i q p p' e' x' Ei Ep Ec|? ? i q dir k Ei Ep|? ? i q argv f Ei Ep|? ? i q Ei Ep|? ? i q n Ei Ep|? ? i q c k f Ei Ep|? ? i j q qj k Ei Ep Ej Esj Epj|? ? i q k Ei Ep Ech]; subst; clear Hs.
  all: pose proof (i_known _ _ _ _ I i q) as Hk.
  - assert (fut q (G i) = tick (fut (Process (Code p') e' x' (parent q)) (G i))) as Ef by (unfold fut; rewrite Ep; by apply den_call).
    exists (<[i := G i]> G). rewrite <- (app_nil_r tr') at 1. apply (inv_update spec ps tr' G i q); rewrite ?app_nil_r; try done.
    + by rewrite Ef.
    + rewrite Ef. cbn. lia.
    + intros x. by apply Hk.
    + intros _ _. by apply (i_kids _ _ _ _ I i q p).
    + intros R S rest running Hf Hr Hn. exists rest, running. rewrite Ef in Hr. split_and!; [done|done|]. rewrite Hn. unfold running_in. by rewrite Ep.
  - assert (fut q (G i) = let f := fut (become (Code (k true)) q) (G i) in Future (Task (Enter dir) (g_base (G i) ++ g_own (G i)) :: f_tasks f) (f_own f) (S (f_steps f))) as Ef
      by (unfold fut; by rewrite Ep).
    exists (<[i := G i]> G). apply (inv_update spec ps tr G i q); try done.
    + by rewrite Ef.
    + rewrite Ef. cbn. lia.
    + intros x Hx. apply ended_mono. by apply Hk.
    + intros _ _. destruct (i_kids _ _ _ _ I i q _ Ei Ep) as [rs Hw]. exists rs. eapply waits_mono; [|exact Hw]. set_solver.
    + intros R S rest running Hf Hr Hn. rewrite Ef in Hr. cbn [f_tasks app] in Hr. exists (f_tasks (fut (become (Code (k true)) q) (G i)) ++ R), running. split_and!; [|done|].
      * eapply follows_enter; [done|exact Hr|]. intros y Hy. by apply Hk.
      * rewrite Hn. unfold running_in. by rewrite Ep.
  - assert (fut q (G i) = Future [Task (Launch (lbl q) argv (files q)) (g_base (G i) ++ g_own (G i))] (g_own (G i) ++ [lbl q]) 3) as Ef by (unfold fut; by rewrite Ep).
    exists (<[i := G i]> G). apply (inv_update spec ps tr G i q); try done.
    + by rewrite Ef.
    + rewrite Ef. cbn. lia.
    + intros x Hx. apply ended_mono. by apply Hk.
    + intros R S rest running Hf Hr Hn. rewrite Ef in Hr. cbn [f_tasks app] in Hr. exists R, (lbl q :: running). split_and!; [|done|].
      * eapply follows_launch; [done|exact Hr|]. intros y Hy. by apply Hk.
      * rewrite Hn. unfold running_in. by rewrite Ep.
  - set (g' := Ghost (g_base (G i)) (g_own (G i) ++ [lbl q]) [] 0).
    destruct (inv_update spec ps tr G i q (become Zombie q) g' [Ended (lbl q)]) as [I' Hlt]; try done.
    + unfold fut. by rewrite Ep.
    + unfold fut. rewrite Ep. cbn. lia.
    + intros x Hx. cbn in Hx. rewrite app_assoc in Hx. apply elem_of_app in Hx as [Hx|Hx%list_elem_of_singleton]; [apply ended_mono; by apply Hk|subst; apply elem_of_app; right; left].
    + intros R S rest running Hf Hr Hn. exists rest, S. split_and!; [|rewrite Hr; unfold fut; by rewrite Ep|done].
      eapply follows_end; [done|]. rewrite Hn. unfold running_in. by rewrite Ep.
    + exists (<[i := g']> G). destruct (inv_reparent _ _ _ _ i (become Zombie q) I') as [I'' ->]; [by rewrite list_lookup_insert_eq by (by eapply lookup_lt_Some)|done|done].
  - destruct (inv_update spec ps tr' G i q (become Zombie q) (G i) []) as [I' Hlt]; rewrite ?app_nil_r in *; try done.
    + unfold fut. by rewrite Ep.
    + unfold fut. rewrite Ep. cbn. lia.
    + intros x. by apply Hk.
    + intros R S rest running Hf Hr Hn. exists rest, running. split_and!; [done|rewrite Hr; unfold fut; by rewrite Ep|]. rewrite Hn. unfold running_in. by rewrite Ep.
    + exists (<[i := G i]> G). destruct (inv_reparent _ _ _ _ i (become Zombie q) I') as [I'' ->]; [by rewrite list_lookup_insert_eq by (by eapply lookup_lt_Some)|done|done].
  - eexists. by apply (inv_fork spec ps tr' G i q c k f).
  - destruct (inv_reap spec ps tr' G i j q qj _ I Ei Ep Ej Esj Epj) as (I' & Hle & rs & Hw & Hlt).
    assert (i <> j) as Hij by (intros ->; congruence).
    destruct (inv_waited _ _ _ _ i q k rs I' ltac:(by rewrite list_lookup_insert_ne) Ep Hw Hlt) as (g' & I'' & Hlt'). eexists. split; [exact I''|]. lia.
  - destruct (i_kids _ _ _ _ I i q _ Ei Ep) as (rs & Hw). pose proof Hw as (H1 & _ & _ & H4). rewrite Ech, app_nil_r in H1.
    destruct (inv_waited _ _ _ _ i q k rs I Ei Ep Hw) as (g' & I'' & Hlt'); [|eauto]. by rewrite <- (Permutation_length H1).
Qed.

(** ** From the start to the end *)

Lemma inv_start p e : inv (f_tasks (den p e [] [] [] [] 0)) (start p e).1 [] (fun _ => Ghost [] [] [] 0).
Proof.
  split; cbn [start fst].
  - intros i q x _ Hx. by apply elem_of_nil in Hx.
  - intros [|i] q p' E Ep; [|done]. exists []. split_and!; [done|done|by intros ? ?%elem_of_nil|by right].
  - intros [|j] q k E; [|done]. by injection E as <-.
  - intros [|j] q E; [|done]. by injection E as <-.
  - eexists _, []. split_and!; [constructor|unfold gather; cbn; by rewrite app_nil_r|done].
Qed.

(** As long as a process has not exited, some process can make a step: the
    youngest one that has not exited cannot be waiting for a child. *)
Definition over (q : process) : Prop := stat q = Zombie \/ stat q = Gone.
Lemma progress spec ps tr G : inv spec ps tr G -> (exists s', step (ps, tr) s') \/ Forall over ps.
Proof.
  intros I. assert (forall n, (n <= length ps)%nat -> (exists s', step (ps, tr) s') \/ forall j q, ps !! j = Some q -> (length ps - n <= j)%nat -> over q) as Hall.
  { induction n as [|n IH]; intros Hn; [right; intros j q E Hj; apply lookup_lt_Some in E; lia|]. destruct (IH ltac:(lia)) as [?|Ho]; [by left|].
    destruct (lookup_lt_is_Some_2 ps (length ps - S n)) as [q Eq]; [lia|]. set (i := (length ps - S n)%nat) in *.
    assert ((exists s', step (ps, tr) s') \/ over q) as [?|Hoq]; [|by left|].
    - destruct (stat q) as [p| | |] eqn:Est; [|left; eexists; by eapply step_end|by right; left|by right; right]. left.
      destruct (call p (files q) (lbl q)) as [[[p' e'] x']|] eqn:Ec; [eexists; by eapply step_call|].
      destruct p as [n0|argv f|msg p|fd p|file mode k|k|fd p|dir k|c k f|k]; try discriminate Ec.
      + eexists. by eapply step_exit.
      + eexists. by eapply step_exec.
      + eexists. by eapply step_chdir.
      + eexists. by eapply step_fork.
      + destruct (children ps i) as [|j js] eqn:Ech; [eexists; by eapply step_childless|].
        assert (j ∈ children ps i) as (qj & Ej & Epj)%elem_kids by (rewrite Ech; left). pose proof (i_parent _ _ _ _ I _ _ _ Ej Epj) as Hlt.
        destruct (Ho j qj Ej ltac:(lia)) as [Hz|Hg]; [eexists; exact (step_wait ps tr i j q qj k Eq Est Ej Hz Epj)|]. by rewrite (i_gone _ _ _ _ I _ _ Ej Hg) in Epj.
    - right. intros j qj Ej Hj. destruct (decide (j = i)) as [->|Hne]; [congruence|]. apply (Ho j); [done|lia]. }
  destruct (Hall (length ps) ltac:(lia)) as [?|Ho]; [by left|]. right. apply Forall_lookup. intros j q Ej. apply (Ho j q Ej). lia.
Qed.

(** When all have exited, all tasks are done and all programs have ended. *)
Lemma over_done spec ps tr G : inv spec ps tr G -> Forall over ps -> follows spec tr [] [].
Proof.
  intros I Ho. destruct (i_follows _ _ _ _ I) as (rest & running & Hf & Hr & Hn).
  assert (forall j q, ps !! j = Some q -> over q) as Hoj by (intros j q; by apply Forall_lookup_1).
  assert (gather (tasks_at ps G) (length ps) = []) as E1.
  { apply gather_nil. intros j _. unfold at_. destruct (ps !! j) as [q|] eqn:E; [|done]. unfold fut. by destruct (Hoj j q E) as [-> | ->]. }
  assert (gather (running_at ps G) (length ps) = []) as E2.
  { apply gather_nil. intros j _. unfold at_. destruct (ps !! j) as [q|] eqn:E; [|done]. unfold running_in. by destruct (Hoj j q E) as [-> | ->]. }
  rewrite E1 in Hr. rewrite E2 in Hn. apply Permutation_nil_r in Hr, Hn. by subst.
Qed.

(** The processes of a tree carry out its tasks in every interleaving. *)
Lemma processes_follow p e s :
  rtc step (start p e) s ->
  let f := den p e [] [] [] [] 0 in
  (exists rest running, follows (f_tasks f) s.2 rest running) /\
  ((exists s', step s s') \/ Forall over s.1 /\ follows (f_tasks f) s.2 [] []).
Proof.
  intros Hr f. assert (exists G, inv (f_tasks f) s.1 s.2 G) as [G I].
  { assert (inv (f_tasks f) (start p e).1 (start p e).2 (fun _ => Ghost [] [] [] 0)) as I0 by apply inv_start. clearbody f. revert I0. generalize (fun _ : nat => Ghost [] [] [] 0).
    induction Hr as [s|[ps tr] [ps' tr'] s Hs _ IH]; intros G I; [eauto|]. destruct (step_inv _ _ _ _ _ _ I Hs) as (G' & I' & _). by eapply IH. }
  destruct s as [ps tr]. cbn [fst snd] in *. split.
  - destruct (i_follows _ _ _ _ I) as (rest & running & Hf & _). eauto.
  - destruct (progress _ _ _ _ I) as [?|Ho]; [by left|]. right. split; [done|]. by eapply over_done.
Qed.
Lemma processes_end p e n s : nsteps step n (start p e) s -> (n <= f_steps (den p e [] [] [] [] 0))%nat.
Proof.
  intros Hn.
  assert (forall G, inv (f_tasks (den p e [] [] [] [] 0)) (start p e).1 (start p e).2 G -> (n <= steps_left (start p e).1 G)%nat) as Hle.
  { generalize (f_tasks (den p e [] [] [] [] 0)). intros spec. induction Hn as [s|n [ps tr] [ps' tr'] s Hs _ IH]; intros G I; [lia|]. destruct (step_inv _ _ _ _ _ _ I Hs) as (G' & I' & Hlt). specialize (IH G' I'). cbn [fst snd] in *. lia. }
  specialize (Hle _ (inv_start p e)). unfold steps_left, gather in Hle. cbn [start fst length seq fmap list_fmap concat] in Hle. rewrite app_nil_r in Hle. cbn in Hle. by rewrite length_replicate in Hle.
Qed.
