(* ===== verification/ShMain.v ===== *)
(** * user/sh.c: the main loop

    The shell's static line buffer is in the byte-addressed memory of the
    program; [gets] and [memset] are those of ulib.c.  The loop is translated,
    for a given standard input, to the tree of system calls it makes.  A
    session - one line per command - asks for the programs of its commands,
    those of a line after the programs of the lines before it have ended,
    except the ones in the background, and for changes of the directory of the
    shell itself. *)

From S2P Require Import Prelude Mem CString Syscall Printf Ulib Sh ShRun ShProc.

Definition nbuf : Z := 100.

(** What [getcmd] returns, the memory and the input left. *)
Definition getcmd (m : mem) (buf nbuf : Z) (input : list Z) : Z * mem * list Z :=
  let m := umemset m buf 0 nbuf in
  let (m, input) := gets m buf nbuf input in
  ((if ld m buf =? 0 then -1 else 0), m, input).

(** The C string at an address of the buffer. *)
Definition string_at (m : mem) (a : Z) : list Z := str_of (ldn m a (Z.to_nat nbuf)).

(** [while((fd = open("console", O_RDWR)) >= 0) if(fd >= 3) ...]: at most
    four turns, since [open] takes the lowest free descriptor. *)
Fixpoint open_console (fuel : nat) (k : prog) : prog :=
  match fuel with
  | O => k
  | S fuel =>
      Open (str "console") O_RDWR (fun r =>
        match r with
        | None => k
        | Some fd => if (3 <=? fd)%nat then Close fd k else open_console fuel k
        end)
  end.

(** The child: [runcmd(parsecmd(buf))]. *)
Definition run_line (line : list Z) : prog :=
  match parsecmd line with
  | Got c _ => runcmd c
  | Bad [] msg => sh_panic msg
  | Bad out msg => Fprintf2 out (sh_panic msg)
  | NoFuel => Exit 1
  end.

Definition is_cd (m : mem) (buf : Z) : bool := (ld m buf =? 99) && (ld m (buf + 1) =? 100) && (ld m (buf + 2) =? 32).
Definition prompt : list Z := str "$ ".
Definition cannot_cd (dir : list Z) : list Z := default [] (fprintf (str "cannot cd %s" ++ nl) [UStr (Some dir)]).

(** The loop of [main].  [None]: out of fuel, or a buffer without NUL. *)
Fixpoint main_loop (fuel : nat) (m : mem) (buf : Z) (input : list Z) : option prog :=
  match fuel with
  | O => None
  | S fuel =>
      let '(r, m, input) := getcmd m buf nbuf input in
      Fprintf2 prompt <$>
      if r <? 0 then Some (Exit 0) else
      if is_cd m buf then
        n ← ustrlen (Z.to_nat nbuf) m buf;
        let m := st8 m (buf + (n - 1)) 0 in
        let dir := string_at m (buf + 3) in
        k ← main_loop fuel m buf input;
        Some (Chdir dir (fun ok => if (ok : bool) then k else Fprintf2 (cannot_cd dir) k))
      else
        k ← main_loop fuel m buf input;
        Some (fork1 (run_line (string_at m buf)) (Wait k))
  end.
Definition sh_main (m : mem) (buf : Z) (input : list Z) : option prog :=
  open_console 4 <$> main_loop (S (length input)) m buf input.

(** ** What a session means *)

(** A line of input that fits the buffer with its newline. *)
Definition line_ok (l : list Z) : Prop :=
  Z.of_nat (length l) + 2 <= nbuf /\ Forall (fun c => 0 < c < 256 /\ c <> 10 /\ c <> 13) l.
Definition typed (ls : list (list Z)) : list Z := concat ((fun l => l ++ [10]) <$> ls).

Definition cd_dir (l : list Z) : option (list Z) :=
  match l with
  | c :: d :: sp :: dir => if (c =? 99) && (d =? 100) && (sp =? 32) then Some dir else None
  | _ => None
  end.

(** The tasks of a session, from a point where the programs [after] have ended. *)
Fixpoint session (ls : list (list Z)) (e : fds) (x : label) (after : list label) : list task :=
  match ls with
  | [] => []
  | l :: ls =>
      match cd_dir l with
      | Some dir => Task (Enter dir) after :: session ls e x after
      | None =>
          match parsecmd (l ++ [10]) with
          | Got c _ => tasks c e (0%nat :: x) after ++ session ls e (1%nat :: x) (after ++ foreground c (0%nat :: x))
          | _ => session ls e (1%nat :: x) after
          end
      end
  end.

(** The descriptors the shell starts with: some of the first three, and no
    other. *)
Definition boot_fds (a b c : option fobj) (n : nat) : fds := a :: b :: c :: replicate n None.
Definition opened (o : option fobj) : option fobj := Some (default (Opened (str "console") O_RDWR) o).
Definition with_console (a b c : option fobj) (n : nat) : fds := opened a :: opened b :: opened c :: replicate n None.

(** ** Strings in the buffer *)

Lemma gets_line buf max rest l m i fuel :
  Forall (fun c => c <> 10 /\ c <> 13) l -> i + Z.of_nat (length l) + 2 <= max -> (length l < fuel)%nat ->
  gets_loop m buf i max (l ++ 10 :: rest) fuel = (stn m (buf + i) (l ++ [10; 0]), rest).
Proof.
  revert m i fuel. induction l as [|c l IH]; intros m i fuel HF Hi Hf; (destruct fuel as [|fuel]; [cbn in Hf; lia|]);
    cbn [gets_loop app length] in *; (destruct (Z.ltb_spec (i + 1) max); [|lia]); cbn [negb].
  - cbn. do 2 f_equal. lia.
  - apply Forall_cons in HF as [[H10%Z.eqb_neq H13%Z.eqb_neq] HF]. rewrite H10, H13. cbn [orb]. rewrite IH by (done || lia).
    cbn [stn app]. do 2 f_equal. lia.
Qed.

Lemma cstr_stn m a cs rest : Forall (fun c => 0 < c < 256) cs -> cstr_at (stn m a (cs ++ 0 :: rest)) a cs.
Proof.
  intros HF. revert m a. induction HF as [|c cs Hc _ IH]; intros m a; cbn [app stn cstr_at].
  - rewrite ld_stn_out by lia. apply ld_st8_eq.
  - split_and!; [lia| |apply IH]. rewrite ld_stn_out by lia. rewrite ld_st8_eq. apply u8_small. lia.
Qed.

(** The string of a buffer that holds one. *)
Lemma string_at_cstr m a cs : cstr_at m a cs -> Z.of_nat (length cs) < nbuf -> string_at m a = cs.
Proof.
  intros Hc Hl. unfold string_at. assert (length cs < Z.to_nat nbuf)%nat as Hn by lia. clear Hl. revert a Hc Hn. generalize (Z.to_nat nbuf).
  induction cs as [|c cs IH]; intros n a Hc Hn; (destruct n as [|n]; [cbn in Hn; lia|]); cbn [cstr_at ldn str_of length] in *.
  - by rewrite Hc.
  - destruct Hc as (H0%Z.eqb_neq & -> & Hc). rewrite H0. f_equal. apply IH; [done|lia].
Qed.

Lemma cstr_suffix m a xs ys : cstr_at m a (xs ++ ys) -> cstr_at m (a + Z.of_nat (length xs)) ys.
Proof.
  revert a. induction xs as [|x xs IH]; intros a H; [by rewrite Z.add_0_r|]. destruct H as (_ & _ & H). apply IH in H.
  replace (a + Z.of_nat (length (x :: xs))) with (a + 1 + Z.of_nat (length xs)) by (cbn; lia). done.
Qed.
Lemma cstr_chop m a xs ys : cstr_at m a (xs ++ ys) -> cstr_at (st8 m (a + Z.of_nat (length xs)) 0) a xs.
Proof.
  revert a. induction xs as [|x xs IH]; intros a H; [rewrite Z.add_0_r; apply ld_st8_eq|]. destruct H as (Hx & Hl & H).
  cbn [length]. split_and!; [done|rewrite ld_st8_ne by lia; done|]. apply IH in H.
  replace (a + Z.of_nat (S (length xs))) with (a + 1 + Z.of_nat (length xs)) by lia. done.
Qed.

(** ** One turn of the loop *)

Lemma getcmd_line m buf l rest :
  line_ok l -> exists m', getcmd m buf nbuf (l ++ 10 :: rest) = (0, m', rest) /\ cstr_at m' buf (l ++ [10]).
Proof.
  intros [Hl HF]. unfold getcmd, gets. rewrite gets_line; [|by eapply Forall_impl; [exact HF|]; intros; naive_solver|lia|unfold nbuf in *; lia].
  rewrite Z.add_0_r. replace (l ++ [10; 0]) with ((l ++ [10]) ++ [0]) by (by rewrite <- app_assoc).
  pose proof (cstr_stn (umemset m buf 0 nbuf) buf (l ++ [10]) []) as Hc. set (m' := stn _ _ _) in *.
  assert (cstr_at m' buf (l ++ [10])) as Hc'.
  { apply Hc. apply Forall_app. split; [|by repeat constructor]. eapply Forall_impl; [exact HF|]. intros; naive_solver. }
  exists m'. split; [|done]. clearbody m'. destruct (Z.eqb_spec (ld m' buf) 0) as [E|]; [|done].
  destruct l; [cbn in Hc'; lia|]. cbn in Hc'. lia.
Qed.
Lemma getcmd_eof m buf : exists m', getcmd m buf nbuf [] = (-1, m', []).
Proof.
  unfold getcmd, gets. change (Z.to_nat nbuf) with 100%nat. cbn [gets_loop]. change (negb (0 + 1 <? nbuf)) with false. cbv iota beta.
  rewrite Z.add_0_r, ld_st8_eq. eexists. reflexivity.
Qed.

Lemma is_cd_line m buf l : cstr_at m buf (l ++ [10]) -> is_cd m buf = if cd_dir l is Some _ then true else false.
Proof.
  unfold is_cd. destruct l as [|c [|d [|sp l]]]; cbn.
  - intros (_ & -> & _). done.
  - intros (_ & -> & _ & -> & _). by destruct (c =? 99).
  - intros (_ & -> & _ & -> & _ & E & _). rewrite <- Z.add_assoc in E. change (buf + (1 + 1)) with (buf + 2) in E. rewrite E. by rewrite andb_false_r.
  - intros (_ & -> & _ & -> & _ & E & _). rewrite <- Z.add_assoc in E. change (buf + (1 + 1)) with (buf + 2) in E. rewrite E. by destruct (_ && _).
Qed.
Lemma cd_dir_split l dir : cd_dir l = Some dir -> l = str "cd " ++ dir.
Proof.
  destruct l as [|c [|d [|sp l]]]; try done. cbn. destruct (Z.eqb_spec c 99), (Z.eqb_spec d 100), (Z.eqb_spec sp 32); try done. intros [= <-]. by subst.
Qed.

Lemma den_run_line line e x base :
  std e ->
  f_tasks (den (run_line line) e x base [] [] 0) = match parsecmd line with Got c _ => tasks c e x base | _ => [] end /\
  f_own (den (run_line line) e x base [] [] 0) = match parsecmd line with Got c _ => foreground c x | _ => [] end.
Proof.
  intros He. unfold run_line. destruct (parsecmd line) as [c ps|[|] msg|] eqn:E; [|done..].
  destruct (den_runcmd c e x base [] ltac:(by eapply parsecmd_std) He) as [-> ->]. by rewrite app_nil_r.
Qed.

Lemma main_loop_session ls fuel m buf :
  Forall line_ok ls -> (length (typed ls) < fuel)%nat ->
  exists p, main_loop fuel m buf (typed ls) = Some p /\ forall e x own, std e -> f_tasks (den p e x [] own [] 0) = session ls e x own.
Proof.
  intros HF. revert fuel m. induction HF as [|l ls Hl _ IH]; intros fuel m Hf; (destruct fuel as [|fuel]; [lia|]); cbn [main_loop].
  - change (typed []) with (@nil Z). destruct (getcmd_eof m buf) as [m' ->]. eexists. split; [reflexivity|]. done.
  - assert (typed (l :: ls) = l ++ 10 :: typed ls) as Et by (unfold typed; cbn; by rewrite <- app_assoc).
    rewrite Et in Hf |- *. rewrite length_app in Hf. cbn [length] in Hf.
    destruct (getcmd_line m buf l (typed ls) Hl) as (m1 & -> & Hc). cbn [Z.ltb Z.compare session]. rewrite (is_cd_line m1 buf l Hc).
    destruct Hl as [Hlen _]. destruct (cd_dir l) as [dir|] eqn:Ec.
    + unfold ustrlen, strlen. rewrite (strlen_cstr m1 buf (l ++ [10]) 0) by (rewrite ?Z.add_0_r, ?length_app; cbn; done || unfold nbuf in *; lia).
      cbn [mbind option_bind]. replace (0 + Z.of_nat (length (l ++ [10])) - 1) with (Z.of_nat (length l)) by (rewrite length_app; cbn; lia).
      set (m2 := st8 _ _ _).
      destruct (IH fuel m2 ltac:(lia)) as (k & Ek & Hk). cbn [mbind option_bind]. rewrite Ek. eexists. split; [reflexivity|].
      intros e x own He. cbn [den tick f_tasks app]. rewrite Hk by done. do 3 f_equal. apply cd_dir_split in Ec as ->.
      apply string_at_cstr; [|rewrite length_app in Hlen; unfold nbuf in *; lia]. apply (cstr_suffix m2 buf (str "cd ") dir). by apply (cstr_chop m1 buf _ [10]).
    + destruct (IH fuel m1 ltac:(lia)) as (k & Ek & Hk). rewrite Ek. eexists. split; [reflexivity|]. intros e x own He.
      rewrite (string_at_cstr m1 buf (l ++ [10])) by (rewrite ?length_app; cbn; done || lia).
      unfold fork1. cbn [den tick f_tasks app length Nat.leb concat]. destruct (den_run_line (l ++ [10]) e (0%nat :: x) own He) as [-> ->].
      rewrite Hk by done. by destruct (parsecmd (l ++ [10])); rewrite ?app_nil_r.
Qed.

Lemma open_console_den k a b c n x base own pend w :
  (1 <= n)%nat -> f_tasks (den (open_console 4 k) (boot_fds a b c n) x base own pend w) = f_tasks (den k (with_console a b c n) x base own pend w).
Proof. intros Hn. destruct n as [|n]; [lia|]. by destruct a, b, c. Qed.
Lemma with_console_std a b c n : (2 <= n)%nat -> std (with_console a b c n).
Proof. unfold with_console, opened, std. eauto 10. Qed.

Lemma session_std ls e x after : std e -> Forall launch_std (session ls e x after).
Proof.
  intros He. revert x after. induction ls as [|l ls IH]; intros x after; cbn [session]; [done|]. destruct (cd_dir l); [by constructor|].
  destruct (parsecmd (l ++ [10])) as [c ps| |] eqn:E; [|done..].
  apply Forall_app. split; [|done]. apply tasks_std; [by eapply parsecmd_std|done].
Qed.


Definition demo_session : list (list Z) := [str "cd /tmp"; str "cat<in|wc >out"; str "ls )"; str "sleep 9&"; str "echo hi"].

(** What it asks for: the syntax error of the third line costs nothing but
    that line, [echo] waits for both sides of the pipe and not for [sleep]. *)
Example demo_session_tasks :
  (fun t => (match t_act t with Launch x argv _ => (x, argv) | Enter dir => ([], [dir]) end, t_after t)) <$> session demo_session (with_console None None None 13) [] [] =
  [([], [str "/tmp"], []);
   ([0; 2; 0]%nat, [str "cat"], []);
   ([0; 1; 2; 0]%nat, [str "wc"], []);
   ([0; 0; 1; 1]%nat, [str "sleep"; str "9"], [[0; 2; 0]%nat; [0; 1; 2; 0]%nat]);
   ([0; 1; 1; 1]%nat, [str "echo"; str "hi"], [[0; 2; 0]%nat; [0; 1; 2; 0]%nat])].
Proof. vm_compute. reflexivity. Qed.

(** The chop of [cd] assumes a newline: at the end of an input without one it
    removes the last letter of the directory. *)
Example cd_without_newline :
  (fun p => f_tasks (den p (boot_fds None None None 13) [] [] [] [] 0)) <$> sh_main ∅ 4096 (str "cd tmp") = Some [Task (Enter (str "tm")) []].
Proof. vm_compute. reflexivity. Qed.
