(* ===== verification/Asm.v ===== *)
(** * A hart, and the assembly files of the kernel

    The registers, the control and status registers, the privilege mode and
    the memory of one RISC-V hart; what the instructions used by entry.S,
    swtch.S, trampoline.S and kernelvec.S do to them; the entry of a trap;
    and the listings themselves.  Every instruction
    and every load or store is translated by the page table that [satp] names
    at that moment, so code that switches page tables is exposed to what the
    new table maps.  [None] is an exception: a page fault, a misaligned access
    or a register that is out of reach. *)

From S2P Require Import Prelude Mem Riscv Kalloc VmSpec.

Inductive reg : Type :=
| ra | sp | gp | tp | t0 | t1 | t2 | s0 | s1
| a0 | a1 | a2 | a3 | a4 | a5 | a6 | a7
| s2 | s3 | s4 | s5 | s6 | s7 | s8 | s9 | s10 | s11 | t3 | t4 | t5 | t6.
#[export] Instance reg_dec : EqDecision reg.
Proof. solve_decision. Defined.

(** [sstatus], [sie] and [sip] are the supervisor's views of [mstatus], [mie]
    and [mip]. *)
Inductive csr : Type :=
| mhartid | mstatus | mepc | mtvec | mscratch | mie | mip | medeleg | mideleg | pmpaddr0 | pmpcfg0
| sstatus | sie | sip | sepc | scause | stval | stvec | sscratch | satp.
#[export] Instance csr_dec : EqDecision csr.
Proof. solve_decision. Defined.

Inductive mode : Type := User | Supervisor | Machine.

Record hart : Type := Hart {
  gpr : reg -> Z;
  csrs : csr -> Z;
  pc : Z;
  priv : mode;
  pm : mem
}.

Definition set_x (r : reg) (v : Z) (h : hart) : hart :=
  Hart (fun r' => if decide (r' = r) then u64 v else gpr h r') (csrs h) (pc h) (priv h) (pm h).
Definition set_pc (v : Z) (h : hart) : hart := Hart (gpr h) (csrs h) v (priv h) (pm h).
Definition set_priv (p : mode) (h : hart) : hart := Hart (gpr h) (csrs h) (pc h) p (pm h).
Definition set_pm (m : mem) (h : hart) : hart := Hart (gpr h) (csrs h) (pc h) (priv h) m.
Definition put_c (r : csr) (v : Z) (h : hart) : hart :=
  Hart (gpr h) (fun r' => if decide (r' = r) then u64 v else csrs h r') (pc h) (priv h) (pm h).

(** ** Control and status registers *)

Definition bit (b v : Z) : bool := Z.testbit v b.
Definition put_bit (b : Z) (on : bool) (v : Z) : Z := if on then Z.setbit v b else Z.clearbit v b.
(** The bits of [new] under [mask], the others from [old]. *)
Definition merge (mask new old : Z) : Z := Z.lor (Z.land new mask) (Z.land old (Z.lnot mask)).

Definition SSTATUS_MASK : Z := 0x80000003000de762.
(** Interrupts and exceptions that can be delegated: the supervisor's
    external, timer and software interrupts; every exception but a call from
    machine mode. *)
Definition MIDELEG_MASK : Z := 0x222.
Definition MEDELEG_MASK : Z := 0xf7ff.
Definition SSIP : Z := 2.

Definition csr_read (r : csr) (h : hart) : Z :=
  match r with
  | sstatus => Z.land (csrs h mstatus) SSTATUS_MASK
  | sie => Z.land (csrs h mie) (csrs h mideleg)
  | sip => Z.land (csrs h mip) (csrs h mideleg)
  | r => csrs h r
  end.
Definition csr_write (r : csr) (v : Z) (h : hart) : hart :=
  match r with
  | sstatus => put_c mstatus (merge SSTATUS_MASK v (csrs h mstatus)) h
  | sie => put_c mie (merge (csrs h mideleg) v (csrs h mie)) h
  | sip => put_c mip (merge (Z.land SSIP (csrs h mideleg)) v (csrs h mip)) h
  | mideleg => put_c mideleg (Z.land v MIDELEG_MASK) h
  | medeleg => put_c medeleg (Z.land v MEDELEG_MASK) h
  | mhartid => h
  | r => put_c r v h
  end.

(** ** Address translation (Sv39; off in machine mode and when [satp] is 0) *)

Inductive access : Type := Fetch | Load | Store.
Definition allows (p : mode) (k : access) (pte : Z) : bool :=
  flag pte PTE_V
  && (match k with Fetch => flag pte PTE_X | Load => flag pte PTE_R | Store => flag pte PTE_R && flag pte PTE_W end)
  && (match p with User => flag pte PTE_U | _ => negb (flag pte PTE_U) end).
Definition satp_root (s : Z) : Z := Z.shiftl (Z.land s (Z.ones 44)) 12.
Definition translate (p : mode) (s : Z) (m : mem) (k : access) (va : Z) : option Z :=
  match p with
  | Machine => Some va
  | _ =>
      if s =? 0 then Some va else
      if negb (va <? MAXVA) then None else
      let pte := pte_of m (satp_root s) va in
      if allows p k pte then Some (PTE2PA pte + va mod PGSIZE) else None
  end.
Definition resolve (k : access) (va : Z) (h : hart) : option Z := translate (priv h) (csrs h satp) (pm h) k va.

(** ** Instructions *)

Inductive instr : Type :=
| SD (rs : reg) (off : Z) (base : reg)
| LD (rd : reg) (off : Z) (base : reg)
| ADDI (rd rs : reg) (imm : Z)
| ADD (rd rs1 rs2 : reg)
| MUL (rd rs1 rs2 : reg)
| LI (rd : reg) (imm : Z)
| CSRR (rd : reg) (r : csr)
| CSRW (r : csr) (rs : reg)
| CSRRW (rd : reg) (r : csr) (rs : reg)
| SFENCE_VMA
| JR (rs : reg)
| SRET
| MRET.
Definition RET : instr := JR ra.

(** The registers of machine mode are out of reach below it, the others in
    user mode. *)
Definition permitted (p : mode) (r : csr) : bool :=
  match p, r with
  | Machine, _ => true
  | User, _ => false
  | Supervisor, (sstatus | sie | sip | sepc | scause | stval | stvec | sscratch | satp) => true
  | Supervisor, _ => false
  end.
Definition aligned (a : Z) : bool := a mod 8 =? 0.
Definition mpp (v : Z) : mode := if bit 12 v && bit 11 v then Machine else if bit 11 v then Supervisor else User.
Definition put_mpp (p : mode) (v : Z) : Z :=
  match p with
  | User => put_bit 12 false (put_bit 11 false v)
  | Supervisor => put_bit 12 false (put_bit 11 true v)
  | Machine => put_bit 12 true (put_bit 11 true v)
  end.
(** Bits of [mstatus]: SIE 1, MIE 3, SPIE 5, MPIE 7, SPP 8, MPP 11 and 12. *)
Definition do_sret (h : hart) : hart :=
  let v := csrs h mstatus in
  set_pc (csrs h sepc) (set_priv (if bit 8 v then Supervisor else User)
    (put_c mstatus (put_bit 8 false (put_bit 5 true (put_bit 1 (bit 5 v) v))) h)).
Definition do_mret (h : hart) : hart :=
  let v := csrs h mstatus in
  set_pc (csrs h mepc) (set_priv (mpp v) (put_c mstatus (put_mpp User (put_bit 7 true (put_bit 3 (bit 7 v) v))) h)).

Definition exec (i : instr) (h : hart) : option hart :=
  match i with
  | SD rs off base =>
      let va := u64 (gpr h base + off) in
      if negb (aligned va) then None else
      pa ← resolve Store va h; Some (set_pm (st64 (pm h) pa (gpr h rs)) h)
  | LD rd off base =>
      let va := u64 (gpr h base + off) in
      if negb (aligned va) then None else
      pa ← resolve Load va h; Some (set_x rd (ld64 (pm h) pa) h)
  | ADDI rd rs imm => Some (set_x rd (gpr h rs + imm) h)
  | ADD rd rs1 rs2 => Some (set_x rd (gpr h rs1 + gpr h rs2) h)
  | MUL rd rs1 rs2 => Some (set_x rd (gpr h rs1 * gpr h rs2) h)
  | LI rd imm => Some (set_x rd imm h)
  | CSRR rd r => if permitted (priv h) r then Some (set_x rd (csr_read r h) h) else None
  | CSRW r rs => if permitted (priv h) r then Some (csr_write r (gpr h rs) h) else None
  | CSRRW rd r rs =>
      if permitted (priv h) r then Some (set_x rd (csr_read r h) (csr_write r (gpr h rs) h)) else None
  | SFENCE_VMA => match priv h with User => None | _ => Some h end
  | JR rs => Some (set_pc (gpr h rs) h)
  | SRET => match priv h with User => None | _ => Some (do_sret h) end
  | MRET => match priv h with Machine => Some (do_mret h) | _ => None end
  end.

(** Straight-line code at address [va], stored at physical address [pa]: every
    instruction is fetched, through the page of [va], before it is executed. *)
Definition fetch (va pa : Z) (h : hart) : bool := bool_decide (resolve Fetch va h = Some pa).
Fixpoint run (va pa : Z) (is_ : list instr) (h : hart) : option hart :=
  match is_ with
  | [] => Some h
  | i :: is_ => if fetch va pa h then h ← exec i h; run va pa is_ h else None
  end.

(** ** Traps *)

(** A trap taken in supervisor mode, with [stvec] in direct mode. *)
Definition trap (cause val : Z) (h : hart) : hart :=
  let v := csrs h mstatus in
  let spp := match priv h with User => false | _ => true end in
  set_pc (csrs h stvec) (set_priv Supervisor
    (put_c mstatus (put_bit 8 spp (put_bit 1 false (put_bit 5 (bit 1 v) v)))
      (put_c scause cause (put_c stval val (put_c sepc (pc h) h))))).
(** A machine timer interrupt. *)
Definition timer_trap (h : hart) : hart :=
  let v := csrs h mstatus in
  set_pc (csrs h mtvec) (set_priv Machine
    (put_c mstatus (put_mpp (priv h) (put_bit 3 false (put_bit 7 (bit 3 v) v))) (put_c mepc (pc h) h))).

(** ** kernel/swtch.S *)
Definition swtch : list instr :=
  [ SD ra 0 a0; SD sp 8 a0; SD s0 16 a0; SD s1 24 a0; SD s2 32 a0; SD s3 40 a0; SD s4 48 a0; SD s5 56 a0; SD s6 64 a0;
    SD s7 72 a0; SD s8 80 a0; SD s9 88 a0; SD s10 96 a0; SD s11 104 a0;
    LD ra 0 a1; LD sp 8 a1; LD s0 16 a1; LD s1 24 a1; LD s2 32 a1; LD s3 40 a1; LD s4 48 a1; LD s5 56 a1; LD s6 64 a1;
    LD s7 72 a1; LD s8 80 a1; LD s9 88 a1; LD s10 96 a1; LD s11 104 a1;
    RET ].

(** ** kernel/trampoline.S *)
Definition uservec : list instr :=
  [ CSRRW a0 sscratch a0;
    SD ra 40 a0; SD sp 48 a0; SD gp 56 a0; SD tp 64 a0; SD t0 72 a0; SD t1 80 a0; SD t2 88 a0; SD s0 96 a0; SD s1 104 a0;
    SD a1 120 a0; SD a2 128 a0; SD a3 136 a0; SD a4 144 a0; SD a5 152 a0; SD a6 160 a0; SD a7 168 a0; SD s2 176 a0;
    SD s3 184 a0; SD s4 192 a0; SD s5 200 a0; SD s6 208 a0; SD s7 216 a0; SD s8 224 a0; SD s9 232 a0; SD s10 240 a0;
    SD s11 248 a0; SD t3 256 a0; SD t4 264 a0; SD t5 272 a0; SD t6 280 a0;
    CSRR t0 sscratch;
    SD t0 112 a0;
    LD sp 8 a0;
    LD tp 32 a0;
    LD t0 16 a0;
    LD t1 0 a0;
    CSRW satp t1;
    SFENCE_VMA;
    JR t0 ].
Definition userret : list instr :=
  [ CSRW satp a1;
    SFENCE_VMA;
    LD t0 112 a0;
    CSRW sscratch t0;
    LD ra 40 a0; LD sp 48 a0; LD gp 56 a0; LD tp 64 a0; LD t0 72 a0; LD t1 80 a0; LD t2 88 a0; LD s0 96 a0; LD s1 104 a0;
    LD a1 120 a0; LD a2 128 a0; LD a3 136 a0; LD a4 144 a0; LD a5 152 a0; LD a6 160 a0; LD a7 168 a0; LD s2 176 a0;
    LD s3 184 a0; LD s4 192 a0; LD s5 200 a0; LD s6 208 a0; LD s7 216 a0; LD s8 224 a0; LD s9 232 a0; LD s10 240 a0;
    LD s11 248 a0; LD t3 256 a0; LD t4 264 a0; LD t5 272 a0; LD t6 280 a0;
    CSRRW a0 sscratch a0;
    SRET ].

(** ** kernel/kernelvec.S: up to the call of [kerneltrap], and after it *)
Definition kernelvec_save : list instr :=
  [ ADDI sp sp (-256);
    SD ra 0 sp; SD sp 8 sp; SD gp 16 sp; SD tp 24 sp; SD t0 32 sp; SD t1 40 sp; SD t2 48 sp; SD s0 56 sp; SD s1 64 sp;
    SD a0 72 sp; SD a1 80 sp; SD a2 88 sp; SD a3 96 sp; SD a4 104 sp; SD a5 112 sp; SD a6 120 sp; SD a7 128 sp;
    SD s2 136 sp; SD s3 144 sp; SD s4 152 sp; SD s5 160 sp; SD s6 168 sp; SD s7 176 sp; SD s8 184 sp; SD s9 192 sp;
    SD s10 200 sp; SD s11 208 sp; SD t3 216 sp; SD t4 224 sp; SD t5 232 sp; SD t6 240 sp ].
Definition kernelvec_restore : list instr :=
  [ LD ra 0 sp; LD sp 8 sp; LD gp 16 sp; LD t0 32 sp; LD t1 40 sp; LD t2 48 sp; LD s0 56 sp; LD s1 64 sp;
    LD a0 72 sp; LD a1 80 sp; LD a2 88 sp; LD a3 96 sp; LD a4 104 sp; LD a5 112 sp; LD a6 120 sp; LD a7 128 sp;
    LD s2 136 sp; LD s3 144 sp; LD s4 152 sp; LD s5 160 sp; LD s6 168 sp; LD s7 176 sp; LD s8 184 sp; LD s9 192 sp;
    LD s10 200 sp; LD s11 208 sp; LD t3 216 sp; LD t4 224 sp; LD t5 232 sp; LD t6 240 sp;
    ADDI sp sp 256;
    SRET ].
Definition timervec : list instr :=
  [ CSRRW a0 mscratch a0;
    SD a1 0 a0;
    SD a2 8 a0;
    SD a3 16 a0;
    LD a1 24 a0;
    LD a2 32 a0;
    LD a3 0 a1;
    ADD a3 a3 a2;
    SD a3 0 a1;
    LI a1 2;
    CSRW sip a1;
    LD a3 16 a0;
    LD a2 8 a0;
    LD a1 0 a0;
    CSRRW a0 mscratch a0;
    MRET ].

(** ** kernel/entry.S, up to the call of [start]; [stack0] is its address *)
Definition entry (stack0 : Z) : list instr :=
  [ LI sp stack0;
    LI a0 (1024 * 4);
    CSRR a1 mhartid;
    ADDI a1 a1 1;
    MUL a0 a0 a1;
    ADD sp sp a0 ].
