(* ===== verification/Switch.v ===== *)
(** * Kernel threads: [swtch], [kernelvec] and [timervec]

    [kernel_space] is what the kernel's page table gives a hart in supervisor
    mode: text and data are mapped one to one, as [kvmmake] maps them. *)

From S2P Require Import Prelude Mem Riscv Kalloc Vm VmSpec VmProps Asm AsmProps.

Lemma window_sub h cva cpa va pa n lo N k n' :
  window h cva cpa va pa n lo N -> 0 <= k -> 0 <= n' -> k + n' <= n -> k mod 8 = 0 -> window h cva cpa (va + k) (pa + k) n' lo N.
Proof.
  intros [Hal Hr Hi Hf Ha] H0 Hn' Hk H8. split; [|lia|lia|done|].
  - by rewrite Zplus_mod, Hal, H8.
  - intros m' a i Hm Hne Hii. rewrite <- !Z.add_assoc. apply Ha; [done|done|lia].
Qed.

Lemma window_narrow h cva cpa va pa n lo N lo' N' :
  window h cva cpa va pa n lo N -> lo <= lo' -> lo' + N' <= lo + N -> lo' <= pa -> pa + n <= lo' + N' -> window h cva cpa va pa n lo' N'.
Proof.
  intros [Hal Hr Hi Hf Ha] H1 H2 H3 H4.
  assert (forall m', same_off lo' N' (pm h) m' -> same_off lo N (pm h) m') as Hs.
  { intros m' Hm y Hy. apply Hm. apply inb_false in Hy. apply inb_false. lia. }
  split; auto.
Qed.

Section switch.
Context {L : Layout} {LO : LayoutOk L}.
Abbreviation RX := (Z.lor PTE_R PTE_X).
Abbreviation RW := (Z.lor PTE_R PTE_W).

Record kernel_space (h : hart) (root : Z) (own : gmap Z (list Z)) : Prop := {
  ks_priv : priv h = Supervisor;
  ks_satp : csrs h satp = MAKE_SATP root;
  ks_pt : pt_inv (pm h) root own;
  ks_text : forall va, KERNBASE <= va < etext -> pte_of (pm h) root va = mkpte (PGROUNDDOWN va) RX;
  ks_data : forall va, etext <= va < kend -> pte_of (pm h) root va = mkpte (PGROUNDDOWN va) RW
}.

Lemma layout_ranges : 0 < KERNBASE < etext /\ etext <= kend < 2^33.
Proof using LO. pose proof kend_ram. pose proof etext_ram as [? _]. unfold PHYSTOP, KERNBASE in *. lia. Qed.

(** An access to a page of RAM mapped with permissions [perm]. *)
Lemma translate_leaf m root own k va page perm :
  pt_inv m root own -> 0 <= va < MAXVA -> pte_of m root va = mkpte page perm -> 0 <= page < 2^56 -> page mod 4096 = 0 ->
  0 <= perm < 1024 -> flag perm PTE_U = false ->
  (match k with Fetch => flag perm PTE_X | Load => flag perm PTE_R | Store => flag perm PTE_R && flag perm PTE_W end) = true ->
  translate Supervisor (MAKE_SATP root) m k va = Some (page + va mod 4096).
Proof using LO.
  intros Hpt Hva E Hp Hal Hperm Hu Hk. rewrite (translate_pt _ _ _ own) by done. rewrite E.
  by destruct (mkpte_allows page perm k Hp Hal Hperm Hu Hk) as [-> ->].
Qed.
Lemma translate_direct m root own k va perm :
  pt_inv m root own -> 0 <= va < 2^33 -> pte_of m root va = mkpte (PGROUNDDOWN va) perm -> 0 <= perm < 1024 -> flag perm PTE_U = false ->
  (match k with Fetch => flag perm PTE_X | Load => flag perm PTE_R | Store => flag perm PTE_R && flag perm PTE_W end) = true ->
  translate Supervisor (MAKE_SATP root) m k va = Some va.
Proof using LO.
  intros Hpt Hva E Hperm Hu Hk. pose proof (PGROUNDDOWN_bounds va) as [Hb Hal]. rewrite PGROUNDDOWN_eq in Hb.
  rewrite (translate_leaf m root own k va (PGROUNDDOWN va) perm); try done.
  - f_equal. rewrite PGROUNDDOWN_eq. lia.
  - change MAXVA with (2^38). lia.
  - rewrite PGROUNDDOWN_eq. pose proof (Z.mod_pos_bound va 4096 ltac:(lia)). pose proof (Z.mod_le va 4096). lia.
Qed.

(** Stores to the kernel's data leave its page table alone. *)
Lemma data_stores m m' root own : pt_inv m root own -> same_off etext (kend - etext) m m' ->
  pt_inv m' root own /\ forall va, pte_of m' root va = pte_of m root va.
Proof.
  intros Hpt Hs. destruct (pt_words m m' root own Hpt) as [H1 H2]; [|split; [done|apply H2]].
  intros q path i Hq Hi. apply (same_off_ldw etext (kend - etext) m m' 8); [done|].
  destruct (pt_page _ _ _ Hpt q path Hq) as [[_ Hk] _]. lia.
Qed.

Lemma kernel_space_move h h' root own :
  kernel_space h root own -> priv h' = priv h -> csrs h' satp = csrs h satp -> same_off etext (kend - etext) (pm h) (pm h') ->
  kernel_space h' root own.
Proof.
  intros [Hp Hsat Hpt Ht Hd] Ep Es Hm. destruct (data_stores _ _ _ _ Hpt Hm) as [Hpt' E].
  split; [congruence|congruence|done| |]; intros va Hva; rewrite E; auto.
Qed.

Lemma kernel_window h root own cva va n :
  kernel_space h root own -> KERNBASE <= cva < etext -> etext <= va -> 0 <= n -> va + n <= kend -> va mod 8 = 0 ->
  window h cva cva va va n etext (kend - etext).
Proof using LO.
  intros [Hp Hsat Hpt Ht Hd] Hcv Hva Hn Hend H8. pose proof layout_ranges. split; [done|lia|lia| |]; rewrite Hp, Hsat.
  - intros m' Hm. destruct (data_stores _ _ _ _ Hpt Hm) as [Hpt' E]. eapply translate_direct; [exact Hpt'|lia|rewrite E; by apply Ht|vm_compute; split; congruence|done..].
  - intros m' k i Hm Hk Hi. destruct (data_stores _ _ _ _ Hpt Hm) as [Hpt' E].
    eapply translate_direct; [exact Hpt'|lia|rewrite E; apply Hd; lia|vm_compute; split; congruence|done|by destruct k].
Qed.

(** ** kernel/swtch.S *)

(** struct context. *)
Definition context_regs : offs :=
  [(ra, 0); (sp, 8); (s0, 16); (s1, 24); (s2, 32); (s3, 40); (s4, 48); (s5, 56); (s6, 64); (s7, 72); (s8, 80); (s9, 88);
   (s10, 96); (s11, 104)].
Definition callee_saved (r : reg) : Prop := r ∈ context_regs.*1.
Definition sizeof_context : Z := 112.
Lemma context_fits : fits sizeof_context context_regs. Proof. decide_list. Qed.
Lemma context_nodup : NoDup context_regs.*1 /\ NoDup context_regs.*2. Proof. split; decide_list. Qed.
Lemma swtch_shape : swtch = saves a0 context_regs ++ (loads a1 context_regs ++ [JR ra]).
Proof. reflexivity. Qed.
Lemma off_of_elem r o l : off_of r l = Some o -> (r, o) ∈ l.
Proof.
  induction l as [|[r' o'] l IH]; [done|]. cbn [off_of]. destruct (decide (r = r')) as [->|]; [intros [= ->]; apply elem_of_cons; auto|].
  intros E. apply elem_of_cons. auto.
Qed.
Lemma off_of_Some r l : r ∈ l.*1 -> is_Some (off_of r l).
Proof.
  induction l as [|[r' o'] l IH]; cbn [fmap list_fmap fst off_of]; [by rewrite elem_of_nil|]. rewrite elem_of_cons. intros [->|Hr].
  - by rewrite decide_True.
  - destruct (decide (r = r')); eauto.
Qed.
Lemma context_off r : callee_saved r -> exists o, off_of r context_regs = Some o /\ 0 <= o /\ o + 8 <= sizeof_context /\ o mod 8 = 0.
Proof.
  intros [o E]%off_of_Some. exists o. split; [done|]. pose proof context_fits as HF. unfold fits in HF. rewrite Forall_forall in HF.
  exact (HF (r, o) (off_of_elem r o _ E)).
Qed.

(** A struct context of the kernel's data. *)
Definition context_ok (a : Z) : Prop := etext <= a /\ a + sizeof_context <= kend /\ a mod 8 = 0.
Definition disjoint_contexts (a b : Z) : Prop := a + sizeof_context <= b \/ b + sizeof_context <= a.

Lemma swtch_run h root own cva old new :
  kernel_space h root own -> regs_ok h -> KERNBASE <= cva < etext -> gpr h a0 = old -> gpr h a1 = new ->
  context_ok old -> context_ok new -> disjoint_contexts old new ->
  exists h1, run cva cva swtch h = Some h1 /\ same_off old sizeof_context (pm h) (pm h1) /\
    csrs h1 = csrs h /\ priv h1 = priv h /\
    (forall r o, off_of r context_regs = Some o -> ld64 (pm h1) (old + o) = gpr h r) /\
    (forall r o, off_of r context_regs = Some o -> gpr h1 r = u64 (ld64 (pm h) (new + o))) /\
    (forall r, off_of r context_regs = None -> gpr h1 r = gpr h r) /\ pc h1 = gpr h1 ra.
Proof using LO.
  intros Hk Hr Hcv E0 E1 (Ho1 & Ho2 & Ho3) (Hn1 & Hn2 & Hn3) Hdis. rewrite swtch_shape. unfold sizeof_context in *.
  pose proof (kernel_window h root own cva old 112 Hk Hcv Ho1 ltac:(lia) Ho2 Ho3) as W0.
  pose proof (kernel_window h root own cva new 112 Hk Hcv Hn1 ltac:(lia) Hn2 Hn3) as W1.
  rewrite (run_saves cva cva old old 112 etext (kend - etext) a0 context_regs h) by (done || apply context_fits). set (h1 := set_pm _ h).
  assert (same_off old 112 (pm h) (pm h1)) as Hm by (apply (store_all_same_off _ 112 _ _ _ _ context_regs); [lia|lia|apply context_fits]).
  assert (window h1 cva cva new new 112 etext (kend - etext)) as W1'.
  { eapply window_move; [exact W1|done..|]. intros y Hy. apply Hm. apply inb_false in Hy. apply inb_false. lia. }
  rewrite (run_loads cva cva new new 112 etext (kend - etext) a1 context_regs h1) by (done || apply context_fits || (apply (bool_decide_unpack _); vm_compute; exact I)).
  destruct (load_all_rest new h1 context_regs) as (Em & Ec & Epr & _). pose proof (fun r => load_all_gpr new h1 context_regs r (proj1 context_nodup)) as Eg.
  set (h2 := load_all new h1 context_regs) in *. clearbody h2.
  assert (window h2 cva cva new new 112 etext (kend - etext)) as W2 by (eapply window_move; [exact W1'|done|by rewrite Ec|rewrite Em; apply same_off_refl]).
  erewrite run_step; [|exact W2|reflexivity]. eexists. split; [reflexivity|]. cbn [set_pc pm csrs priv gpr pc]. rewrite Em, Ec, Epr. split_and!; try done.
  - intros r o E. cbn [h1 set_pm pm]. rewrite (store_all_at _ _ _ _ r o 112 context_fits (proj2 context_nodup) E). apply u64_small, Hr.
  - intros r o E. rewrite Eg, E. f_equal. apply (same_off_ldw old 112 _ _ 8); [done|].
    assert (0 <= o /\ o + 8 <= 112) as Ho; [|unfold disjoint_contexts, sizeof_context in Hdis; lia].
    pose proof context_fits as HF. unfold fits in HF. rewrite Forall_forall in HF. destruct (HF (r, o) (off_of_elem r o _ E)) as (? & ? & _). done.
  - intros r E. by rewrite Eg, E.
Qed.

(** C26: [swtch] switches threads and comes back.  Called with two contexts of
    the kernel's data it stores the callee-saved registers, the stack pointer
    and the return address of the running thread in the first and continues
    at the return address and with the registers of the second.  Whenever any
    hart later switches to the first context, whose contents nothing changed,
    the first thread finds itself returned from its call with the registers
    the calling convention promises it. *)
Theorem swtch_roundtrip h root own cva :
  kernel_space h root own -> regs_ok h -> KERNBASE <= cva < etext ->
  context_ok (gpr h a0) -> context_ok (gpr h a1) -> disjoint_contexts (gpr h a0) (gpr h a1) ->
  exists h1, run cva cva swtch h = Some h1 /\ pc h1 = u64 (ld64 (pm h) (gpr h a1)) /\
    (forall r o, off_of r context_regs = Some o -> gpr h1 r = u64 (ld64 (pm h) (gpr h a1 + o))) /\
    same_off (gpr h a0) sizeof_context (pm h) (pm h1) /\
    forall h2 root2 own2, kernel_space h2 root2 own2 -> regs_ok h2 -> gpr h2 a1 = gpr h a0 ->
      context_ok (gpr h2 a0) -> disjoint_contexts (gpr h2 a0) (gpr h2 a1) ->
      (forall a, gpr h a0 <= a < gpr h a0 + sizeof_context -> Mem.ld (pm h2) a = Mem.ld (pm h1) a) ->
      exists h3, run cva cva swtch h2 = Some h3 /\ pc h3 = gpr h ra /\ forall r, callee_saved r -> gpr h3 r = gpr h r.
Proof using LO.
  intros Hk Hr Hcv Hold Hnew Hdis.
  destruct (swtch_run h root own cva _ _ Hk Hr Hcv eq_refl eq_refl Hold Hnew Hdis) as (h1 & Hrun & Hm & _ & _ & Hs & Hl & _ & Hpc).
  exists h1. split_and!; [done|by rewrite Hpc, (Hl ra 0 eq_refl), Z.add_0_r|done|done|].
  intros h2 root2 own2 Hk2 Hr2 E1 Hold2 Hdis2 Hsame.
  destruct (swtch_run h2 root2 own2 cva _ _ Hk2 Hr2 Hcv eq_refl eq_refl Hold2) as (h3 & Hrun3 & _ & _ & _ & _ & Hl3 & _ & Hpc3); [by rewrite E1|done|].
  assert (forall r, callee_saved r -> gpr h3 r = gpr h r) as Hback.
  { intros r Hc. destruct (context_off r Hc) as (o & E & H0 & H8 & _). rewrite (Hl3 r o E), E1.
    replace (ld64 (pm h2) (gpr h a0 + o)) with (ld64 (pm h1) (gpr h a0 + o)); [rewrite (Hs r o E); apply u64_small, Hr|].
    symmetry. apply (ldw_ext 8). intros y Hy. apply Hsame. lia. }
  exists h3. split_and!; [done| |done]. rewrite Hpc3. apply Hback. unfold callee_saved. vm_compute. set_solver.
Qed.
End switch.

(** A kernel of two pages of text and two of data, its page table, and two
    contexts. *)
Definition tiny_layout : Layout := {| kend := 0x80004000; etext := 0x80002000; trampoline_pa := 0x80001000 |}.
Lemma tiny_layout_ok : LayoutOk tiny_layout.
Proof. split; repeat split; vm_compute; congruence. Qed.
Definition tiny_mem : mem := Eval vm_compute in
  let dir m p q idx := st64 m (p + 8 * idx) (Z.lor (PA2PTE q) PTE_V) in
  let m := dir (dir ∅ 0x87ff8000 0x87ff9000 2) 0x87ff9000 0x87ffa000 0 in
  let m := st64 (st64 m 0x87ffa000 (mkpte 0x80000000 (Z.lor PTE_R PTE_X))) (0x87ffa000 + 8) (mkpte 0x80001000 (Z.lor PTE_R PTE_X)) in
  let m := st64 (st64 m (0x87ffa000 + 16) (mkpte 0x80002000 (Z.lor PTE_R PTE_W))) (0x87ffa000 + 24) (mkpte 0x80003000 (Z.lor PTE_R PTE_W)) in
  st64 m 0x80003000 0x80000abc.
Definition tiny_own : gmap Z (list Z) := <[0x87ff8000 := []]> (<[0x87ff9000 := [2]]> {[0x87ffa000 := [2; 0]]}).
Definition tiny_hart : hart :=
  Hart (fun r => match r with a0 => 0x80002000 | a1 => 0x80003000 | _ => tf_off r end) (fun r => match r with satp => MAKE_SATP 0x87ff8000 | _ => 0 end)
    0x80000000 Supervisor tiny_mem.
Lemma pages_cases lo (n : nat) va : lo mod 4096 = 0 -> lo <= va < lo + 4096 * Z.of_nat n ->
  exists i : nat, (i < n)%nat /\ PGROUNDDOWN va = lo + 4096 * Z.of_nat i.
Proof.
  intros Hal Hva. pose proof (PGROUNDDOWN_bounds va) as [Hb Hb2]. exists (Z.to_nat ((PGROUNDDOWN va - lo) / 4096)).
  Z.to_euclidean_division_equations. lia.
Qed.
Lemma tiny_space : @kernel_space tiny_layout tiny_hart 0x87ff8000 tiny_own.
Proof.
  split; [reflexivity|reflexivity|apply (@pt_check_sound tiny_layout); vm_compute; reflexivity| |]; intros va Hva; rewrite <- pte_of_rounddown;
    change (@etext tiny_layout) with 0x80002000 in Hva; try change (@kend tiny_layout) with 0x80004000 in Hva; try change KERNBASE with 0x80000000 in Hva.
  - destruct (pages_cases 0x80000000 2 va eq_refl) as (i & Hi & ->); [lia|]. destruct i as [|[|i]]; [vm_compute; reflexivity..|lia].
  - destruct (pages_cases 0x80002000 2 va eq_refl) as (i & Hi & ->); [lia|]. destruct i as [|[|i]]; [vm_compute; reflexivity..|lia].
Qed.
Lemma tiny_regs : regs_ok tiny_hart.
Proof. intros r. destruct r; vm_compute; split; congruence. Qed.

(** To the second context, and back to the first. *)
Lemma swtch_roundtrip_witness :
  exists h1, run 0x80000000 0x80000000 swtch tiny_hart = Some h1 /\ pc h1 = 0x80000abc /\
    exists h3, run 0x80000000 0x80000000 swtch (set_x a0 0x80003000 (set_x a1 0x80002000 h1)) = Some h3 /\
      pc h3 = tf_off ra /\ gpr h3 sp = tf_off sp /\ gpr h3 s11 = tf_off s11.
Proof.
  destruct (@swtch_roundtrip tiny_layout tiny_layout_ok tiny_hart 0x87ff8000 tiny_own 0x80000000 tiny_space tiny_regs) as (h1 & Hrun & Hpc & _ & Hm & Hback).
  - vm_compute. split; congruence.
  - split_and!; vm_compute; congruence.
  - split_and!; vm_compute; congruence.
  - left. vm_compute. congruence.
  - exists h1. split; [exact Hrun|]. split; [rewrite Hpc; vm_compute; reflexivity|].
    assert (h1 = default tiny_hart (run 0x80000000 0x80000000 swtch tiny_hart)) as E by (rewrite Hrun; reflexivity).
    destruct (Hback (set_x a0 0x80003000 (set_x a1 0x80002000 h1)) 0x87ff8000 tiny_own) as (h3 & Hrun3 & Hpc3 & Hregs).
    + apply (@kernel_space_move tiny_layout tiny_hart); [exact tiny_space|rewrite E; reflexivity|rewrite E; reflexivity|].
      intros y Hy. apply Hm. apply inb_false in Hy. apply inb_false. intros Hin. apply Hy. revert Hin. change (gpr tiny_hart a0) with 0x80002000.
      change (@etext tiny_layout) with 0x80002000. change (@kend tiny_layout) with 0x80004000. unfold sizeof_context. lia.
    + rewrite E. intros r. destruct r; vm_compute; split; congruence.
    + reflexivity.
    + split_and!; vm_compute; congruence.
    + right. vm_compute. congruence.
    + reflexivity.
    + exists h3. split; [exact Hrun3|]. split; [exact Hpc3|]. split; apply Hregs, (bool_decide_unpack _); vm_compute; exact I.
Defined.

Section traps.
Context {L : Layout} {LO : LayoutOk L}.

(** ** kernel/kernelvec.S *)

Definition stack_regs : offs :=
  [(ra, 0); (sp, 8); (gp, 16); (tp, 24); (t0, 32); (t1, 40); (t2, 48); (s0, 56); (s1, 64); (a0, 72); (a1, 80); (a2, 88); (a3, 96);
   (a4, 104); (a5, 112); (a6, 120); (a7, 128); (s2, 136); (s3, 144); (s4, 152); (s5, 160); (s6, 168); (s7, 176); (s8, 184);
   (s9, 192); (s10, 200); (s11, 208); (t3, 216); (t4, 224); (t5, 232); (t6, 240)].
Definition restored_regs : offs := filter (fun ro : reg * Z => ro.1 <> ra /\ ro.1 <> sp /\ ro.1 <> tp) stack_regs.
Lemma stack_fits : fits 256 stack_regs. Proof. decide_list. Qed.
Lemma restored_fits : fits 256 restored_regs. Proof. decide_list. Qed.
Lemma stack_nodup : NoDup stack_regs.*2. Proof. decide_list. Qed.
Lemma restored_nodup : NoDup restored_regs.*1. Proof. decide_list. Qed.
Lemma save_shape : kernelvec_save = ADDI sp sp (-256) :: (saves sp stack_regs ++ []).
Proof. reflexivity. Qed.
Lemma restore_shape : kernelvec_restore = LD ra 0 sp :: LD sp 8 sp :: (loads sp restored_regs ++ [ADDI sp sp 256; SRET]).
Proof. reflexivity. Qed.

(** The 256 bytes below the stack pointer, under the present page table, are
    the physical bytes at [pa], and stores to them do not change the table. *)
Definition stack_room (h : hart) (cva top pa : Z) : Prop := window h cva cva (top - 256) pa 256 pa 256.

(** There is room on the kernel stack of a process: a page of RAM outside the
    page table, mapped at [V]. *)
Lemma kstack_room h root own cva V P top :
  kernel_space h root own -> KERNBASE <= cva < etext -> page_ok P -> own !! P = None ->
  V mod 4096 = 0 -> 0 <= V -> V + 4096 <= MAXVA -> pte_of (pm h) root V = mkpte P (Z.lor PTE_R PTE_W) ->
  V + 256 <= top -> top <= V + 4096 -> top mod 8 = 0 -> stack_room h cva top (P + (top - 256 - V)).
Proof using LO.
  intros [Hp Hsat Hpt Ht _] Hcv HP Hn HV H0 HM E Ht1 Ht2 Ht8. pose proof (page_ok_pos P HP) as HPr. pose proof layout_ranges. destruct HP as [HPal _].
  assert (window h cva cva V P 4096 P 4096) as W.
  { split; [Z.to_euclidean_division_equations; lia|change MAXVA with (2^38) in HM; lia|lia| |]; rewrite Hp, Hsat.
    - intros m' Hm. destruct (pt_same_off _ _ _ _ _ Hpt Hm HPal Hn) as [Hpt' Ep].
      eapply translate_direct; [exact Hpt'|lia|rewrite (proj2 (Ep _)); by apply Ht|vm_compute; split; congruence|done..].
    - intros m' k i Hm Hk Hi. destruct (pt_same_off _ _ _ _ _ Hpt Hm HPal Hn) as [Hpt' Ep].
      assert (PGROUNDDOWN (V + i) = V) as Epg by (rewrite PGROUNDDOWN_eq; Z.to_euclidean_division_equations; lia).
      rewrite (translate_leaf m' root own k (V + i) P (Z.lor PTE_R PTE_W)); [|done|lia| |lia|done|vm_compute; split; congruence|done|by destruct k].
      + rewrite PGROUNDDOWN_eq in Epg. f_equal. lia.
      + by rewrite <- pte_of_rounddown, Epg, (proj2 (Ep _)). }
  unfold stack_room. replace (top - 256) with (V + (top - 256 - V)) at 1 by lia.
  eapply window_narrow; [apply (window_sub _ _ _ _ _ _ _ _ (top - 256 - V) 256 W)|..]; try lia. Z.to_euclidean_division_equations. lia.
Qed.

Lemma kernelvec_save_run h cva pa :
  stack_room h cva (gpr h sp) pa -> regs_ok h -> 256 <= gpr h sp ->
  exists h1, run cva cva kernelvec_save h = Some h1 /\ gpr h1 sp = gpr h sp - 256 /\ csrs h1 = csrs h /\ priv h1 = priv h /\
    same_off pa 256 (pm h) (pm h1) /\ ld64 (pm h1) (pa + 8) = gpr h sp - 256 /\
    (forall r o, r <> sp -> off_of r stack_regs = Some o -> ld64 (pm h1) (pa + o) = gpr h r).
Proof.
  intros W Hr Hsp. rewrite save_shape. unfold stack_room in W. pose proof (Hr sp) as Hr_sp.
  erewrite run_step; [|exact W|reflexivity]. set (h0 := set_x sp _ h).
  assert (gpr h0 sp = gpr h sp - 256) as Esp by (cbn; apply u64_small; lia).
  assert (window h0 cva cva (gpr h sp - 256) pa 256 pa 256) as W0 by (eapply window_move; [exact W|done..|apply same_off_refl]).
  rewrite (run_saves cva cva _ pa 256 pa 256 sp stack_regs h0) by (done || apply stack_fits). eexists. split; [reflexivity|].
  cbn [set_pm gpr csrs priv pm]. split_and!; [done|done|done| | |].
  - apply (store_all_same_off _ 256 _ _ _ _ stack_regs); [lia|lia|apply stack_fits].
  - rewrite (store_all_at _ _ _ _ sp 8 256 stack_fits stack_nodup eq_refl), Esp. apply u64_small. lia.
  - intros r o Hne E. rewrite (store_all_at _ _ _ _ r o 256 stack_fits stack_nodup E). cbn. rewrite decide_False by done. apply u64_small, Hr.
Qed.

Lemma restored_off r : r <> ra -> r <> sp -> r <> tp -> exists o, off_of r restored_regs = Some o /\ off_of r stack_regs = Some o.
Proof. destruct r; try done; intros _ _ _; eexists; split; reflexivity. Qed.

Lemma kernelvec_restore_run h cva pa top :
  stack_room h cva top pa -> 256 <= top < 2^64 -> priv h = Supervisor -> gpr h sp = top - 256 -> ld64 (pm h) (pa + 8) = top - 256 ->
  exists h3, run cva cva kernelvec_restore h = Some h3 /\ pc h3 = csrs h sepc /\
    priv h3 = (if bit 8 (csrs h mstatus) then Supervisor else User) /\ bit 1 (csrs h3 mstatus) = bit 5 (csrs h mstatus) /\ pm h3 = pm h /\
    gpr h3 sp = top /\ gpr h3 ra = u64 (ld64 (pm h) (pa + 0)) /\ gpr h3 tp = gpr h tp /\
    (forall r o, off_of r restored_regs = Some o -> gpr h3 r = u64 (ld64 (pm h) (pa + o))).
Proof.
  intros W Htop Hp Hsp Hw8. rewrite restore_shape. unfold stack_room in W.
  erewrite run_step; [|exact W|by apply (exec_ld _ _ _ _ _ _ _ sp h ra 0 W)]. set (h0 := set_x ra _ h).
  assert (window h0 cva cva (top - 256) pa 256 pa 256) as W0 by (eapply window_move; [exact W|done..|apply same_off_refl]).
  erewrite run_step; [|exact W0|by apply (exec_ld _ _ _ _ _ _ _ sp h0 sp 8 W0)]. change (pm h0) with (pm h). rewrite Hw8. set (h1 := set_x sp _ h0).
  assert (window h1 cva cva (top - 256) pa 256 pa 256) as W1 by (eapply window_move; [exact W0|done..|apply same_off_refl]).
  assert (gpr h1 sp = top - 256) as Esp by (cbn; apply u64_small; lia).
  rewrite (run_loads cva cva _ pa 256 pa 256 sp restored_regs h1) by (done || apply restored_fits || (apply (bool_decide_unpack _); vm_compute; exact I)).
  destruct (load_all_rest pa h1 restored_regs) as (Em & Ec & Epr & _). pose proof (fun r => load_all_gpr pa h1 restored_regs r restored_nodup) as Eg.
  set (h2 := load_all pa h1 restored_regs) in *. clearbody h2. change (pm h1) with (pm h) in *. change (csrs h1) with (csrs h) in Ec. change (priv h1) with (priv h) in Epr.
  assert (window h2 cva cva (top - 256) pa 256 pa 256) as W2 by (eapply window_move; [exact W|done|by rewrite Ec|rewrite Em; apply same_off_refl]).
  assert (gpr h2 sp = top - 256) as Esp2 by (rewrite Eg; done). cbn [app].
  erewrite run_step; [|exact W2|reflexivity]. set (h3 := set_x sp _ h2).
  assert (window h3 cva cva (top - 256) pa 256 pa 256) as W3 by (eapply window_move; [exact W2|done..|apply same_off_refl]).
  erewrite run_step; [|exact W3|cbn [exec]; change (priv h3) with (priv h2); rewrite Epr, Hp; reflexivity].
  eexists. split; [reflexivity|]. split_and!.
  - cbn. by rewrite Ec.
  - cbn. by rewrite Ec.
  - change (bit 1 (u64 (put_bit 8 false (put_bit 5 true (put_bit 1 (bit 5 (csrs h2 mstatus)) (csrs h2 mstatus))))) = bit 5 (csrs h mstatus)).
    rewrite Ec, bit_u64, !put_bit_other by lia. by apply put_bit_same.
  - done.
  - change (u64 (gpr h2 sp + 256) = top). rewrite Esp2, u64_small; lia.
  - change (gpr h2 ra = u64 (ld64 (pm h) (pa + 0))). rewrite Eg. done.
  - change (gpr h2 tp = gpr h tp). rewrite Eg. done.
  - intros r o E. assert (r <> sp) as Hne by (intros ->; discriminate E). cbn. rewrite decide_False by done. by rewrite Eg, E.
Qed.

(** C27: [kernelvec] is transparent.  An interrupt of kernel code saves the
    registers below its stack pointer; if the C handler obeys the calling
    convention - it returns with the stack pointer it was given and the saved
    bytes untouched, and with [sepc] and the trap bits of the status register
    as they were, which [kerneltrap] restores - then the interrupted code
    resumes where it was, in supervisor mode, with every register and the
    interrupt enable as they were, but for [tp], which holds the number of the
    hart it now runs on. *)
Theorem kernelvec_transparent cause val h cva pa :
  stack_room h cva (gpr h sp) pa -> regs_ok h -> 256 <= gpr h sp -> 0 <= pc h < 2^64 -> priv h = Supervisor ->
  exists h1, run cva cva kernelvec_save (trap cause val h) = Some h1 /\ gpr h1 sp = gpr h sp - 256 /\ same_off pa 256 (pm h) (pm h1) /\
    csrs h1 sepc = pc h /\ bit 1 (csrs h1 mstatus) = false /\
    forall h2, stack_room h2 cva (gpr h sp) pa -> priv h2 = Supervisor ->
      gpr h2 sp = gpr h1 sp -> (forall a, pa <= a < pa + 256 -> Mem.ld (pm h2) a = Mem.ld (pm h1) a) ->
      csrs h2 sepc = csrs h1 sepc -> bit 8 (csrs h2 mstatus) = bit 8 (csrs h1 mstatus) -> bit 5 (csrs h2 mstatus) = bit 5 (csrs h1 mstatus) ->
      exists h3, run cva cva kernelvec_restore h2 = Some h3 /\ pc h3 = pc h /\ priv h3 = Supervisor /\
        (forall r, r <> tp -> gpr h3 r = gpr h r) /\ gpr h3 tp = gpr h2 tp /\
        bit 1 (csrs h3 mstatus) = bit 1 (csrs h mstatus) /\ pm h3 = pm h2.
Proof.
  intros W Hr Hsp Hpc Hp. pose proof (Hr sp) as Hr_sp.
  destruct (kernelvec_save_run (trap cause val h) cva pa) as (h1 & Hrun & E1 & Ec & _ & Hm & Hw8 & Hw); [|done|done|].
  { eapply window_move; [exact W|done..|apply same_off_refl]. }
  change (gpr (trap cause val h)) with (gpr h) in *. change (pm (trap cause val h)) with (pm h) in Hm.
  assert (csrs h1 mstatus = u64 (put_bit 8 true (put_bit 1 false (put_bit 5 (bit 1 (csrs h mstatus)) (csrs h mstatus))))) as Ems
    by (rewrite Ec; cbn; by rewrite Hp).
  assert (csrs h1 sepc = pc h) as Esepc by (rewrite Ec; cbn; by apply u64_small).
  exists h1. split_and!; [done|done|done|done| |].
  { rewrite Ems, bit_u64, put_bit_other by lia. by apply put_bit_same. }
  intros h2 W2 Hp2 Hsp2 Hsame Hsepc H8 H5.
  assert (forall o, 0 <= o -> o + 8 <= 256 -> ld64 (pm h2) (pa + o) = ld64 (pm h1) (pa + o)) as Hword
    by (intros o H0 Ho; apply (ldw_ext 8); intros y Hy; apply Hsame; lia).
  destruct (kernelvec_restore_run h2 cva pa (gpr h sp) W2 ltac:(lia) Hp2) as (h3 & Hrun3 & Hpc3 & Hp3 & Hb3 & Hm3 & Rsp & Rra & Rtp & Rr);
    [congruence|rewrite Hword by lia; done|].
  exists h3. split_and!; [done|congruence| | |done| |done].
  - rewrite Hp3, H8, Ems, bit_u64, put_bit_same by lia. done.
  - intros r Hne. destruct (decide (r = sp)) as [->|]; [done|]. destruct (decide (r = ra)) as [->|].
    + rewrite Rra, Hword, (Hw ra 0) by (done || lia). apply u64_small, Hr.
    + destruct (restored_off r) as (o & Eo & Es); [done..|]. pose proof restored_fits as HF. unfold fits in HF. rewrite Forall_forall in HF.
      destruct (HF _ (off_of_elem _ _ _ Eo)) as (Ho1 & Ho2 & _). cbn [snd] in Ho1, Ho2. rewrite (Rr r o Eo), Hword, (Hw r o) by (done || lia). apply u64_small, Hr.
  - rewrite Hb3, H5, Ems, bit_u64, !put_bit_other by lia. by apply put_bit_same.
Qed.
End traps.

(** The stack of [tiny_hart] is the last page of the kernel's data. *)
Definition tiny_thread : hart := set_x sp 0x80004000 tiny_hart.
Lemma tiny_room : stack_room tiny_thread 0x80000000 0x80004000 0x80003f00.
Proof.
  assert (@kernel_space tiny_layout tiny_thread 0x87ff8000 tiny_own) as Hk by (apply (@kernel_space_move tiny_layout tiny_hart); [exact tiny_space|done..]).
  apply (@window_narrow tiny_thread 0x80000000 0x80000000 0x80003f00 0x80003f00 256 0x80002000 0x2000); try lia.
  apply (@kernel_window tiny_layout tiny_layout_ok tiny_thread 0x87ff8000 tiny_own); try done; vm_compute; congruence.
Qed.

Lemma kernelvec_transparent_witness :
  exists h1, run 0x80000000 0x80000000 kernelvec_save (trap 5 0 tiny_thread) = Some h1 /\
    exists h3, run 0x80000000 0x80000000 kernelvec_restore h1 = Some h3 /\ pc h3 = 0x80000000 /\ priv h3 = Supervisor /\
      forall r, r <> tp -> gpr h3 r = gpr tiny_thread r.
Proof.
  destruct (kernelvec_transparent 5 0 tiny_thread 0x80000000 0x80003f00) as (h1 & Hrun & _ & Hm & _ & _ & Hback).
  - exact tiny_room.
  - intros r. destruct r; vm_compute; split; congruence.
  - vm_compute. congruence.
  - vm_compute. split; congruence.
  - reflexivity.
  - exists h1. split; [exact Hrun|].
    assert (h1 = default tiny_hart (run 0x80000000 0x80000000 kernelvec_save (trap 5 0 tiny_thread))) as E by (rewrite Hrun; reflexivity).
    destruct (Hback h1) as (h3 & Hrun3 & Hpc & Hp & Hregs & _).
    + eapply window_move; [exact tiny_room|rewrite E; reflexivity|rewrite E; reflexivity|exact Hm].
    + rewrite E. reflexivity.
    + reflexivity.
    + reflexivity.
    + reflexivity.
    + reflexivity.
    + reflexivity.
    + exists h3. split; [exact Hrun3|]. split; [exact Hpc|]. split; [exact Hp|exact Hregs].
Defined.
