(* ===== verification/Boot.v ===== *)
(** * kernel/start.c, kernel/main.c and kernel/plic.c: the machine is set up

    The C code that runs before the scheduler, over the hart of [Asm].  The
    accessors of kernel/riscv.h are the single instructions they contain.
    Device registers (CLINT, PLIC) are words of memory.  The addresses of
    [main], [timervec], [stack0] and [timer_scratch] are fixed when the kernel
    is linked.  [main] of several harts is a transition system over the calls
    it makes. *)

From S2P Require Import Prelude Mem Riscv Kalloc Vm VmSpec Asm AsmProps Switch.

Definition NCPU : Z := 8.
Definition CLINT : Z := 0x2000000.
Definition CLINT_MTIMECMP (hartid : Z) : Z := CLINT + 0x4000 + 8 * hartid.
Definition CLINT_MTIME : Z := CLINT + 0xBFF8.
Definition PLIC_SENABLE (hart : Z) : Z := PLIC + 0x2080 + hart * 0x100.
Definition PLIC_SPRIORITY (hart : Z) : Z := PLIC + 0x201000 + hart * 0x2000.
Definition UART0_IRQ : Z := 10.
Definition VIRTIO0_IRQ : Z := 1.

Definition MSTATUS_MPP_MASK : Z := Z.shiftl 3 11.
Definition MSTATUS_MPP_S : Z := Z.shiftl 1 11.
Definition MSTATUS_MIE : Z := Z.shiftl 1 3.
Definition SIE_SEIE : Z := Z.shiftl 1 9.
Definition SIE_STIE : Z := Z.shiftl 1 5.
Definition SIE_SSIE : Z := Z.shiftl 1 1.
Definition MIE_MTIE : Z := Z.shiftl 1 7.

(** ** kernel/riscv.h *)
Abbreviation HM := (M hart).
Definition r_mhartid : HM Z := gets (csr_read mhartid).
Definition r_mstatus : HM Z := gets (csr_read mstatus).
Definition w_mstatus (v : Z) : HM unit := modify (csr_write mstatus v).
Definition w_mepc (v : Z) : HM unit := modify (csr_write mepc v).
Definition r_sie : HM Z := gets (csr_read sie).
Definition w_sie (v : Z) : HM unit := modify (csr_write sie v).
Definition r_mie : HM Z := gets (csr_read mie).
Definition w_mie (v : Z) : HM unit := modify (csr_write mie v).
Definition w_medeleg (v : Z) : HM unit := modify (csr_write medeleg v).
Definition w_mideleg (v : Z) : HM unit := modify (csr_write mideleg v).
Definition w_mtvec (v : Z) : HM unit := modify (csr_write mtvec v).
Definition w_pmpcfg0 (v : Z) : HM unit := modify (csr_write pmpcfg0 v).
Definition w_pmpaddr0 (v : Z) : HM unit := modify (csr_write pmpaddr0 v).
Definition w_satp (v : Z) : HM unit := modify (csr_write satp v).
Definition w_mscratch (v : Z) : HM unit := modify (csr_write mscratch v).
Definition r_tp : HM Z := gets (fun h => gpr h tp).
Definition w_tp (v : Z) : HM unit := modify (set_x tp v).
(** Nothing is cached in the model. *)
Definition sfence_vma : HM unit := mret tt.

(** [*(uint64* )a] and stores through such pointers. *)
Definition load64 (a : Z) : HM Z := gets (fun h => ld64 (pm h) a).
Definition store64 (a v : Z) : HM unit := modify (fun h => set_pm (st64 (pm h) a v) h).
Definition store32 (a v : Z) : HM unit := modify (fun h => set_pm (st32 (pm h) a v) h).

Definition cpuid : HM Z := id ← r_tp; mret (i32 id).

(** ** kernel/start.c *)
Section start.
Context (main_pc timervec_pc timer_scratch : Z).

Definition interval : Z := 1000000.
Definition timerinit : HM unit :=
  hartid ← r_mhartid;
  let id := i32 hartid in
  mtime ← load64 CLINT_MTIME;
  store64 (CLINT_MTIMECMP id) (mtime + interval);;
  let scratch := timer_scratch + 40 * id in
  store64 (scratch + 8 * 3) (CLINT_MTIMECMP id);;
  store64 (scratch + 8 * 4) interval;;
  w_mscratch scratch;;
  w_mtvec timervec_pc;;
  status ← r_mstatus;
  w_mstatus (Z.lor status MSTATUS_MIE);;
  ie ← r_mie;
  w_mie (Z.lor ie MIE_MTIE).

Definition start : HM unit :=
  x ← r_mstatus;
  let x := Z.land x (Z.lnot MSTATUS_MPP_MASK) in
  let x := Z.lor x MSTATUS_MPP_S in
  w_mstatus x;;
  w_mepc main_pc;;
  w_satp 0;;
  w_medeleg 0xffff;;
  w_mideleg 0xffff;;
  ie ← r_sie;
  w_sie (Z.lor (Z.lor (Z.lor ie SIE_SEIE) SIE_STIE) SIE_SSIE);;
  w_pmpaddr0 0x3fffffffffffff;;
  w_pmpcfg0 0xf;;
  timerinit;;
  id ← r_mhartid;
  w_tp (i32 id);;
  modify do_mret.
End start.

(** ** kernel/plic.c *)
Definition plicinit : HM unit :=
  store32 (PLIC + UART0_IRQ * 4) 1;;
  store32 (PLIC + VIRTIO0_IRQ * 4) 1.
Definition plicinithart : HM unit :=
  hart ← cpuid;
  store32 (PLIC_SENABLE hart) (Z.lor (Z.shiftl 1 UART0_IRQ) (Z.shiftl 1 VIRTIO0_IRQ));;
  store32 (PLIC_SPRIORITY hart) 0.

(** ** kernel/vm.c: the kernel's page table is made, and loaded *)
Record kvm : Type := Kvm { kvm_k : kstate; kernel_pagetable : Z }.
Definition kvminit `{Layout} : M kvm unit :=
  r ← zoom kvm_k (fun k s => Kvm k (kernel_pagetable s)) kvmmake;
  modify (fun s => Kvm (kvm_k s) r).
Definition kvminithart (kernel_pagetable : Z) : HM unit :=
  w_satp (MAKE_SATP kernel_pagetable);;
  sfence_vma.

(** ** kernel/main.c *)
Inductive call : Type :=
| consoleinit | printfinit | printf (fmt : string) (args : list Z) | kinit_ | kvminit_ | kvminithart_ | procinit | trapinit | trapinithart
| plicinit_ | plicinithart_ | binit | iinit | fileinit | virtio_disk_init | userinit | sync_synchronize | scheduler.
#[export] Instance call_dec : EqDecision call.
Proof. solve_decision. Defined.
Inductive stmt : Type := Call (f : call) | SetStarted | WaitStarted.

Definition newline : string := String (Ascii.ascii_of_nat 10) EmptyString.
Definition boot_calls : list call :=
  [consoleinit; printfinit; printf newline []; printf ("xv6 kernel is booting" +:+ newline) []; printf newline []; kinit_; kvminit_; kvminithart_; procinit;
   trapinit; trapinithart; plicinit_; plicinithart_; binit; iinit; fileinit; virtio_disk_init; userinit; sync_synchronize].
Definition hart_calls (id : nat) : list call :=
  [sync_synchronize; printf ("hart %d starting" +:+ newline) [Z.of_nat id]; kvminithart_; trapinithart; plicinithart_].
Definition main (id : nat) : list stmt :=
  (if (id =? 0)%nat then (Call <$> boot_calls) ++ [SetStarted] else WaitStarted :: (Call <$> hart_calls id)) ++ [Call scheduler].

(** What is left of [main] on each hart; the calls made so far, in order. *)
Record mstate : Type := MSt { started : bool; left_ : nat -> list stmt; made : list (nat * call) }.
Definition set_left (i : nat) (l : list stmt) (f : nat -> list stmt) : nat -> list stmt := fun j => if decide (j = i) then l else f j.
Inductive mstep : mstate -> mstate -> Prop :=
| step_call s i f rest : left_ s i = Call f :: rest -> mstep s (MSt (started s) (set_left i rest (left_ s)) (made s ++ [(i, f)]))
| step_set s i rest : left_ s i = SetStarted :: rest -> mstep s (MSt true (set_left i rest (left_ s)) (made s))
| step_wait s i rest : left_ s i = WaitStarted :: rest -> started s = true -> mstep s (MSt (started s) (set_left i rest (left_ s)) (made s))
| step_spin s i rest : left_ s i = WaitStarted :: rest -> started s = false -> mstep s s.
Definition boot : mstate := MSt false main [].

(** ** Theorems: [main] on all harts *)

Definition calls_of (l : list stmt) : list call := omap (fun x => match x with Call f => Some f | _ => None end) l.
Definition made_by (i : nat) (l : list (nat * call)) : list call := snd <$> filter (fun p => p.1 = i) l.
Definition boot_trace : list (nat * call) := pair 0%nat <$> boot_calls.

Definition in_order (s : mstate) : Prop := forall i, made_by i (made s) ++ calls_of (left_ s i) = calls_of (main i).
Definition booting (s : mstate) : Prop :=
  exists todo, left_ s 0%nat = (Call <$> todo) ++ [SetStarted; Call scheduler] /\ made s ++ (pair 0%nat <$> todo) = boot_trace /\
    forall i, i <> 0%nat -> left_ s i = main i.
Definition main_inv (s : mstate) : Prop := in_order s /\ if started s then boot_trace `prefix_of` made s else booting s.

Lemma made_by_snoc i l j f : made_by i (l ++ [(j, f)]) = made_by i l ++ (if decide (j = i) then [f] else []).
Proof.
  unfold made_by. rewrite filter_app, fmap_app. f_equal. destruct (decide (j = i)).
  - by rewrite filter_cons_True.
  - by rewrite filter_cons_False.
Qed.

Lemma order_call s i f rest : in_order s -> left_ s i = Call f :: rest ->
  in_order (MSt (started s) (set_left i rest (left_ s)) (made s ++ [(i, f)])).
Proof.
  intros Ho E j. cbn [made left_]. rewrite made_by_snoc. specialize (Ho j). unfold set_left. destruct (decide (j = i)) as [->|Hne].
  - rewrite decide_True by done. rewrite E in Ho. rewrite <- app_assoc. exact Ho.
  - rewrite decide_False by done. by rewrite app_nil_r.
Qed.
Lemma order_skip s i x rest b : in_order s -> left_ s i = x :: rest -> calls_of [x] = [] -> in_order (MSt b (set_left i rest (left_ s)) (made s)).
Proof.
  intros Ho E Hx j. cbn [made left_]. specialize (Ho j). unfold set_left. destruct (decide (j = i)) as [->|Hne]; [|done]. rewrite E in Ho. by destruct x.
Qed.
Lemma main_waits i : i <> 0%nat -> exists rest, main i = WaitStarted :: rest.
Proof. intros Hi. unfold main. destruct (Nat.eqb_spec i 0); [done|]. eexists. reflexivity. Qed.

Lemma mstep_inv s s' : main_inv s -> mstep s s' -> main_inv s'.
Proof.
  intros [Ho Hb] Hs. destruct Hs as [s i f rest E|s i rest E|s i rest E Est|s i rest E Est]; [| |by split; [by eapply order_skip|cbn; rewrite Est in *]|done].
  - split; [by apply order_call|]. cbn. destruct (started s); [by apply prefix_app_r|]. destruct Hb as (todo & E0 & Em & Hw).
    destruct (decide (i = 0%nat)) as [->|Hi]; [|destruct (main_waits i Hi) as [r Er]; rewrite Hw, Er in E by done; discriminate].
    rewrite E0 in E. destruct todo as [|g todo]; [discriminate|]. cbn in E. injection E as -> <-. exists todo. cbn. split_and!; [done| |].
    + by rewrite <- app_assoc.
    + intros i Hi. unfold set_left. rewrite decide_False by done. auto.
  - split; [by eapply order_skip|]. cbn. destruct (started s); [done|]. destruct Hb as (todo & E0 & Em & Hw).
    destruct (decide (i = 0%nat)) as [->|Hi]; [|destruct (main_waits i Hi) as [r Er]; rewrite Hw, Er in E by done; discriminate].
    rewrite E0 in E. destruct todo; [|discriminate]. rewrite app_nil_r in Em. by rewrite Em.
Qed.
Lemma main_inv_init : main_inv boot.
Proof. split; [by intros i|]. exists boot_calls. split_and!; done. Qed.

(** What each call of [main] relies on, as calls that must have returned
    before it: the console lock and the print lock for [printf], the page
    allocator for what allocates pages, the tables a process refers to for the
    first process, and for [scheduler] everything a process or an interrupt
    may touch, with the hart's own paging, trap vector and interrupts on. *)
Definition needs (i : nat) (f : call) : list (nat * call) :=
  match f with
  | printf _ _ => [(0%nat, consoleinit); (0%nat, printfinit)]
  | kvminit_ | virtio_disk_init => [(0%nat, kinit_)]
  | kvminithart_ => [(0%nat, kvminit_)]
  | trapinithart => [(0%nat, trapinit); (i, kvminithart_)]
  | plicinithart_ => [(0%nat, plicinit_); (i, trapinithart)]
  | userinit => [(0%nat, kinit_); (0%nat, kvminit_); (0%nat, procinit); (0%nat, binit); (0%nat, iinit)]
  | scheduler =>
      [(0%nat, procinit); (0%nat, trapinit); (0%nat, binit); (0%nat, iinit); (0%nat, fileinit); (0%nat, virtio_disk_init); (0%nat, userinit);
       (i, kvminithart_); (i, trapinithart); (i, plicinithart_)]
  | _ => []
  end.
(** What hart 0 sets up for all the harts. *)
Definition shared_setup : list call :=
  [consoleinit; printfinit; kinit_; kvminit_; procinit; trapinit; plicinit_; binit; iinit; fileinit; virtio_disk_init; userinit].
Definition all_needs (i : nat) (f : call) : list (nat * call) := needs i f ++ (if (i =? 0)%nat then [] else pair 0%nat <$> shared_setup).
Definition deps_ok (l : list (nat * call)) : Prop :=
  forall pre i f post, l = pre ++ (i, f) :: post -> all_needs i f ⊆ pre.

Lemma deps_snoc l i f : deps_ok l -> all_needs i f ⊆ l -> deps_ok (l ++ [(i, f)]).
Proof.
  intros Hl Hn pre j g post E. destruct (decide (post = [])) as [->|Hp].
  - apply app_inj_tail in E as [-> [= -> ->]]. done.
  - destruct (exists_last Hp) as (post' & x & ->). rewrite app_comm_cons, app_assoc in E. apply app_inj_tail in E as [E _]. by apply (Hl pre j g post').
Qed.
Lemma in_made_by i f l : f ∈ made_by i l -> (i, f) ∈ l.
Proof. unfold made_by. intros Hf. apply list_elem_of_fmap in Hf as ([j g] & -> & Hj). apply list_elem_of_filter in Hj as [Ej Hj]. cbn in *. by subst. Qed.

(** Hart 0 makes its calls after what they rely on. *)
Lemma main0_needs n f : calls_of (main 0) !! n = Some f -> needs 0 f ⊆ (pair 0%nat <$> take n (calls_of (main 0))).
Proof.
  intros E. assert (n < length (calls_of (main 0)))%nat as Hn by (apply lookup_lt_Some in E; exact E). vm_compute in Hn.
  do 20 (destruct n as [|n]; [injection E as <-; apply (bool_decide_unpack _); vm_compute; exact I|]). lia.
Qed.
(** Another hart makes them after those of its own they rely on, and the rest is hart 0's. *)
Lemma main_needs i n f x : i <> 0%nat -> calls_of (main i) !! n = Some f -> x ∈ needs i f -> x ∈ (pair 0%nat <$> shared_setup) \/ x ∈ (pair i <$> take n (calls_of (main i))).
Proof.
  intros Hi E Hx. unfold main in *. destruct (Nat.eqb_spec i 0); [done|]. do 6 (destruct n as [|n]; [injection E as <-; vm_compute in Hx |- *; set_solver|]). done.
Qed.

Lemma lookup_middle {A} (l1 l2 l : list A) x : l1 ++ x :: l2 = l -> l !! length l1 = Some x /\ take (length l1) l = l1.
Proof. intros <-. split; [by rewrite lookup_app_r, Nat.sub_diag by lia|]. by rewrite take_app_length. Qed.

Definition dep_inv (s : mstate) : Prop := main_inv s /\ deps_ok (made s).
Lemma mstep_deps s s' : dep_inv s -> mstep s s' -> dep_inv s'.
Proof.
  intros [Hi Hd] Hs. split; [by eapply mstep_inv|]. destruct Hs as [s i f rest E| | |]; [|exact Hd..]. apply deps_snoc; [done|].
  destruct Hi as [Ho Hb]. specialize (Ho i). rewrite E in Ho. cbn [calls_of omap list_omap] in Ho. apply lookup_middle in Ho as [Hf Ht].
  assert (forall l, (pair i <$> take (length (made_by i (made s))) (calls_of (main i))) = l -> forall x, x ∈ l -> x ∈ made s) as Hown.
  { intros l <- x Hx. rewrite Ht in Hx. apply list_elem_of_fmap in Hx as (g & -> & Hg). by apply in_made_by. }
  unfold all_needs. destruct (Nat.eqb_spec i 0) as [->|Hne].
  - rewrite app_nil_r. intros x Hx. by eapply Hown, (main0_needs _ _ Hf).
  - assert (boot_trace ⊆ made s) as Hboot.
    { destruct (started s); [destruct Hb as [k ->]; set_solver|]. destruct Hb as (_ & _ & _ & Hw). destruct (main_waits i Hne) as [r Er]. rewrite Hw, Er in E by done. discriminate. }
    assert ((pair 0%nat <$> shared_setup) ⊆ boot_trace) as Hsub by (apply (bool_decide_unpack _); vm_compute; exact I).
    intros x Hx. apply elem_of_app in Hx as [Hx|Hx]; [|by apply Hboot, Hsub].
    destruct (main_needs _ _ _ _ Hne Hf Hx) as [Hx'|Hx']; [by apply Hboot, Hsub|by eapply Hown].
Qed.
Lemma rtc_deps s : rtc mstep boot s -> dep_inv s.
Proof.
  intros Hr. remember boot as b eqn:Eb. assert (dep_inv b) as Hi by (subst; split; [apply main_inv_init|by intros [] ? ? ?]). clear Eb.
  induction Hr as [|x y z Hxy _ IH]; [done|]. apply IH. by eapply mstep_deps.
Qed.

(** A hart that need not wait can finish. *)
Lemma hart_finishes i s : started s = true \/ WaitStarted ∉ left_ s i ->
  exists s', rtc mstep s s' /\ left_ s' i = [] /\ (started s = true \/ SetStarted ∈ left_ s i -> started s' = true).
Proof.
  remember (left_ s i) as l eqn:El. revert s El. induction l as [|x l IH]; intros s El Hw.
  { exists s. split_and!; [done|done|]. intros [?|Hin]; [done|by apply elem_of_nil in Hin]. }
  assert (forall b m, let s1 := MSt b (set_left i l (left_ s)) m in l = left_ s1 i) as Hl by (intros; cbn; unfold set_left; by rewrite decide_True).
  assert (exists s1, mstep s s1 /\ l = left_ s1 i /\ started s1 = (started s || match x with SetStarted => true | _ => false end)) as (s1 & Hs & E1 & Est).
  { destruct x as [f| |].
    - eexists. split; [by apply step_call|]. split; [apply Hl|]. by rewrite orb_false_r.
    - eexists. split; [by eapply step_set|]. split; [apply Hl|]. by rewrite orb_true_r.
    - destruct Hw as [Hw|Hw]; [|exfalso; apply Hw; left]. eexists. split; [by apply (step_wait s i l)|]. split; [apply Hl|]. by rewrite Hw. }
  destruct (IH s1 E1) as (s' & Hr & E' & Hst).
  { destruct Hw as [Hw|Hw]; [left; by rewrite Est, Hw|right; apply not_elem_of_cons in Hw; tauto]. }
  exists s'. split_and!; [by eapply rtc_l|done|]. intros Hor. apply Hst. rewrite Est. destruct Hor as [->|Hin]; [by left|].
  apply elem_of_cons in Hin as [<-|Hin]; [left; apply orb_true_r|by right].
Qed.

(** C30: the order of initialisation on any number of harts, under any
    interleaving of their calls.  Every call is made after the calls it relies
    on: [printf] after the console is set up, [kvminithart] after the kernel
    page table exists, which is after the page allocator does, [userinit]
    after the page allocator and the process and inode tables, [scheduler]
    after the first process exists and the hart's own paging, trap vector and
    interrupts are on; and a hart other than 0 makes no call at all before
    hart 0 has set up everything the harts share, the disk and the first
    process included.  Each hart makes the calls of [main] in order, and from
    every reachable state every hart can still reach its scheduler. *)
Theorem boot_order s :
  rtc mstep boot s ->
  (forall pre i f post, made s = pre ++ (i, f) :: post ->
     needs i f ⊆ pre /\ (i <> 0%nat -> forall g, g ∈ shared_setup -> (0%nat, g) ∈ pre)) /\
  (forall i, made_by i (made s) `prefix_of` calls_of (main i)) /\
  (forall i, exists s', rtc mstep s s' /\ (i, scheduler) ∈ made s').
Proof.
  intros Hr. destruct (rtc_deps s Hr) as [[Ho Hb] Hd]. split_and!.
  - intros pre i f post E. specialize (Hd pre i f post E). unfold all_needs in Hd. split; [set_solver|]. intros Hi g Hg.
    destruct (Nat.eqb_spec i 0); [done|]. apply Hd, elem_of_app. right. apply list_elem_of_fmap. eauto.
  - intros i. eexists. symmetry. apply Ho.
  - intros i. assert (exists s1, rtc mstep s s1 /\ started s1 = true) as (s1 & Hr1 & Hst).
    { destruct (started s) eqn:Est; [by exists s|]. destruct Hb as (todo & E0 & _). destruct (hart_finishes 0 s) as (s1 & Hr1 & _ & Hst).
      - right. rewrite E0. rewrite not_elem_of_app, !not_elem_of_cons, list_elem_of_fmap. split_and!; [by intros (? & ? & _)|done|done|apply not_elem_of_nil].
      - exists s1. split; [done|]. apply Hst. right. rewrite E0. apply elem_of_app. right. left. }
    destruct (hart_finishes i s1) as (s2 & Hr2 & E2 & _); [by left|]. exists s2. split; [by etrans|].
    destruct (rtc_deps s2) as [[Ho2 _] _]; [by etrans; [exact Hr|etrans]|]. specialize (Ho2 i). rewrite E2, app_nil_r in Ho2.
    apply in_made_by. rewrite Ho2. unfold main, calls_of. rewrite omap_app. apply elem_of_app. right. left.
Qed.

(** A run in which a second hart starts after the first. *)
Fixpoint drive (is_ : list nat) (s : mstate) : mstate :=
  match is_ with
  | [] => s
  | i :: is_ =>
      drive is_ (match left_ s i with
                 | Call f :: rest => MSt (started s) (set_left i rest (left_ s)) (made s ++ [(i, f)])
                 | SetStarted :: rest => MSt true (set_left i rest (left_ s)) (made s)
                 | WaitStarted :: rest => if started s then MSt (started s) (set_left i rest (left_ s)) (made s) else s
                 | [] => s
                 end)
  end.
Lemma drive_rtc is_ s : rtc mstep s (drive is_ s).
Proof.
  revert s. induction is_ as [|i is_ IH]; intros s; [done|]. cbn [drive]. destruct (left_ s i) as [|[f| |] rest] eqn:E; [apply IH|..].
  - eapply rtc_l; [by apply step_call|apply IH].
  - eapply rtc_l; [by apply step_set|apply IH].
  - destruct (started s) eqn:Es; [|apply IH]. eapply rtc_l; [by apply step_wait|rewrite Es; apply IH].
Qed.
Lemma boot_order_witness :
  exists pre post, made (drive ([1; 0; 1]%nat ++ replicate 21 0%nat ++ replicate 7 1%nat) boot) = pre ++ (1%nat, kvminithart_) :: post /\
    (0%nat, kvminit_) ∈ pre /\ (0%nat, userinit) ∈ pre.
Proof.
  pose (l := made (drive ([1; 0; 1]%nat ++ replicate 21 0%nat ++ replicate 7 1%nat) boot)).
  assert (l = take 22 l ++ (1%nat, kvminithart_) :: drop 23 l) as E by (vm_compute; reflexivity).
  exists (take 22 l), (drop 23 l). split; [exact E|].
  destruct (boot_order (drive ([1; 0; 1]%nat ++ replicate 21 0%nat ++ replicate 7 1%nat) boot) (drive_rtc _ _)) as (H & _).
  destruct (H _ _ _ _ E) as [Hn Hs]. split.
  - apply Hn. left.
  - apply Hs; [discriminate|]. apply (bool_decide_unpack _). vm_compute. exact I.
Defined.

(** ** Theorems: the timer *)

(** Bits of the results of C's [&] and [|] on constants. *)
Lemma bit_lor b v w : bit b (Z.lor v w) = bit b v || bit b w.
Proof. apply Z.lor_spec. Qed.
Lemma bit_land b v w : bit b (Z.land v w) = bit b v && bit b w.
Proof. apply Z.land_spec. Qed.
Lemma bit_merge b mask new old : 0 <= b -> bit b (merge mask new old) = if bit b mask then bit b new else bit b old.
Proof.
  intros Hb. unfold merge. rewrite bit_lor, !bit_land. unfold bit. rewrite Z.lnot_spec by done.
  destruct (Z.testbit mask b); [by rewrite andb_true_r, andb_false_r, orb_false_r|by rewrite andb_false_r, andb_true_r].
Qed.
Lemma mpp_put p v : mpp (put_mpp p v) = p.
Proof. unfold mpp, put_mpp. destruct p; rewrite ?put_bit_same, ?put_bit_other, ?put_bit_same by lia; done. Qed.
Lemma mpp_u64 v : mpp (u64 v) = mpp v.
Proof. unfold mpp. by rewrite !bit_u64 by lia. Qed.
Lemma bit_put_mpp b p v : b <> 11 -> b <> 12 -> bit b (put_mpp p v) = bit b v.
Proof. intros H1 H2. unfold put_mpp. destruct p; rewrite !put_bit_other by lia; done. Qed.

(** What [timerinit] prepares for [timervec]: the scratch area of the hart,
    the address of its comparator and the interval; supervisor software
    interrupts are delegated. *)
Record clock_ok (h : hart) (scratch cmp iv : Z) : Prop := {
  ck_scratch : csrs h mscratch = scratch;
  ck_cmp : ld64 (pm h) (scratch + 24) = cmp;
  ck_interval : ld64 (pm h) (scratch + 32) = iv;
  ck_deleg : csrs h mideleg = MIDELEG_MASK;
  ck_al : scratch mod 8 = 0 /\ cmp mod 8 = 0;
  ck_range : 0 <= scratch /\ scratch + 40 <= 2^64 /\ 0 <= cmp < 2^64 /\ 0 <= iv < 2^64;
  ck_apart : cmp + 8 <= scratch \/ scratch + 40 <= cmp
}.

Section machine.
Context (cva : Z).
Lemma run_machine i is_ h h' : priv h = Machine -> exec i h = Some h' -> run cva cva (i :: is_) h = run cva cva is_ h'.
Proof. intros Hp E. cbn [run]. unfold fetch, resolve, translate. rewrite Hp, bool_decide_eq_true_2 by done. by rewrite E. Qed.
Lemma exec_sd_machine h r o base : priv h = Machine -> 0 <= gpr h base + o < 2^64 -> (gpr h base + o) mod 8 = 0 ->
  exec (SD r o base) h = Some (set_pm (st64 (pm h) (gpr h base + o) (gpr h r)) h).
Proof. intros Hp Hr Hal. cbn [exec]. rewrite u64_small by done. unfold aligned. rewrite Hal. unfold resolve, translate. by rewrite Hp. Qed.
Lemma exec_ld_machine h r o base : priv h = Machine -> 0 <= gpr h base + o < 2^64 -> (gpr h base + o) mod 8 = 0 ->
  exec (LD r o base) h = Some (set_x r (ld64 (pm h) (gpr h base + o)) h).
Proof. intros Hp Hr Hal. cbn [exec]. rewrite u64_small by done. unfold aligned. rewrite Hal. unfold resolve, translate. by rewrite Hp. Qed.

Lemma machine_window h va n : priv h = Machine -> va mod 8 = 0 -> 0 <= va -> 0 <= n -> va + n <= 2^64 -> window h cva cva va va n va n.
Proof. intros Hp Hal H0 Hn Hend. split; [done|lia|lia| |]; intros; unfold translate; by rewrite Hp. Qed.

Definition timer_saved : offs := [(a1, 0); (a2, 8); (a3, 16)].
Definition timer_args : offs := [(a1, 24); (a2, 32)].
Definition timer_restored : offs := [(a3, 16); (a2, 8); (a1, 0)].
Lemma timervec_shape : timervec =
  CSRRW a0 mscratch a0 :: (saves a0 timer_saved ++ (loads a0 timer_args ++
  LD a3 0 a1 :: ADD a3 a3 a2 :: SD a3 0 a1 :: LI a1 2 :: CSRW sip a1 :: (loads a0 timer_restored ++ [CSRRW a0 mscratch a0; MRET]))).
Proof. reflexivity. Qed.

Abbreviation timer_rest := (LD a3 0 a1 :: ADD a3 a3 a2 :: SD a3 0 a1 :: LI a1 2 :: CSRW sip a1 :: (loads a0 timer_restored ++ [CSRRW a0 mscratch a0; MRET])).

(** The second half: the comparator moves on and the registers come back. *)
Lemma timer_advance h scratch cmp iv :
  priv h = Machine -> gpr h a0 = scratch -> gpr h a1 = cmp -> gpr h a2 = iv -> csrs h mideleg = MIDELEG_MASK ->
  scratch mod 8 = 0 -> cmp mod 8 = 0 -> 0 <= scratch -> scratch + 40 <= 2^64 -> 0 <= cmp < 2^64 -> cmp + 8 <= scratch \/ scratch + 40 <= cmp ->
  exists h', run cva cva timer_rest h = Some (do_mret h') /\ priv h' = Machine /\
    pm h' = st64 (pm h) cmp (u64 (u64 (ld64 (pm h) cmp) + iv)) /\
    (forall r, gpr h' r = match off_of r timer_restored with Some o => u64 (ld64 (pm h) (scratch + o)) | None => if decide (r = a0) then u64 (csrs h mscratch) else gpr h r end) /\
    csrs h' mscratch = scratch /\ bit 1 (csrs h' mip) = true /\ (forall r, r <> mip -> r <> mscratch -> csrs h' r = csrs h r).
Proof.
  intros Hp E0 E1 E2 Ed A1 A2 R1 R2 R3 Hap.
  erewrite run_machine; [|done|apply exec_ld_machine; [done|lia|rewrite E1, Z.add_0_r; done]]. rewrite E1, Z.add_0_r. set (h1 := set_x a3 _ h).
  erewrite run_machine; [|done|reflexivity]. set (h2 := set_x a3 _ h1).
  assert (gpr h2 a3 = u64 (u64 (ld64 (pm h) cmp) + iv)) as E3 by (rewrite <- E2; done).
  erewrite run_machine; [|done|apply exec_sd_machine; [done|change (gpr h2 a1) with (gpr h a1); lia|change (gpr h2 a1) with (gpr h a1); rewrite E1, Z.add_0_r; done]].
  rewrite E3. change (gpr h2 a1) with (gpr h a1). rewrite E1, Z.add_0_r. change (pm h2) with (pm h). set (m3 := st64 (pm h) cmp _). set (h3 := set_pm m3 h2).
  erewrite run_machine; [|done|reflexivity]. set (h4 := set_x a1 2 h3).
  erewrite run_machine; [|done|cbn [exec]; change (priv h4) with (priv h); rewrite Hp; reflexivity]. set (h5 := csr_write sip _ h4).
  rewrite (run_loads cva cva scratch scratch 40 scratch 40 a0 timer_restored h5); [|by apply machine_window|done|decide_list|apply (bool_decide_unpack _); vm_compute; exact I].
  destruct (load_all_rest scratch h5 timer_restored) as (Em & Ec & Epr & _).
  pose proof (fun r => load_all_gpr scratch h5 timer_restored r ltac:(decide_list)) as Eg.
  set (h6 := load_all scratch h5 timer_restored) in *. clearbody h6. cbn [app].
  erewrite run_machine; [|by rewrite Epr|cbn [exec]; rewrite Epr; change (priv h5) with (priv h); rewrite Hp; reflexivity].
  erewrite run_machine; [|by cbn; rewrite Epr|cbn [exec]; change (priv (set_x _ _ _)) with (priv h6); rewrite Epr; change (priv h5) with (priv h); rewrite Hp; reflexivity].
  eexists. split; [reflexivity|]. split_and!.
  - cbn. by rewrite Epr.
  - cbn. by rewrite Em.
  - intros r. cbn [set_x csr_write put_c gpr csr_read]. destruct (decide (r = a0)) as [->|Hne].
    + by rewrite Ec.
    + rewrite Eg. change (pm h5) with m3. destruct (off_of r timer_restored) as [o|] eqn:Eo.
      * f_equal. apply ld64_st64_out. pose proof (off_of_elem _ _ _ Eo) as Hin. unfold timer_restored in Hin. rewrite !elem_of_cons, elem_of_nil in Hin.
        destruct_or! Hin; simplify_eq; lia.
      * cbn. rewrite !decide_False by (intros ->; discriminate Eo). done.
  - cbn. rewrite Eg. cbn. rewrite E0. apply u64_small. lia.
  - cbn [set_x csr_write put_c csrs]. rewrite decide_False by done. rewrite Ec. cbn [h5 csr_write put_c csrs]. rewrite decide_True by done.
    rewrite bit_u64, bit_merge by lia. change (csrs h4 mideleg) with (csrs h mideleg). rewrite Ed. reflexivity.
  - intros r H1 H2. cbn [set_x csr_write put_c csrs]. rewrite decide_False by done. rewrite Ec. cbn [h5 csr_write put_c csrs]. by rewrite decide_False.
Qed.

Lemma timervec_run h scratch cmp iv :
  clock_ok h scratch cmp iv -> regs_ok h -> priv h = Machine ->
  exists h', run cva cva timervec h = Some (do_mret h') /\ priv h' = Machine /\ (forall r, gpr h' r = gpr h r) /\
    pm h' = st64 (st64 (st64 (st64 (pm h) scratch (gpr h a1)) (scratch + 8) (gpr h a2)) (scratch + 16) (gpr h a3)) cmp
      (u64 (u64 (ld64 (pm h) cmp) + iv)) /\
    (forall r, r <> mip -> csrs h' r = csrs h r) /\ bit 1 (csrs h' mip) = true.
Proof.
  intros [E1 E2 E3 E4 [A1 A2] [R1 [R2 [R3 R4]]] Hap] Hr Hp. rewrite timervec_shape.
  erewrite run_machine; [|done|cbn [exec]; rewrite Hp; reflexivity]. set (h0 := set_x a0 _ _).
  assert (gpr h0 a0 = scratch) as Ea by (change (u64 (csrs h mscratch) = scratch); rewrite E1; apply u64_small; lia).
  assert (csrs h0 mscratch = gpr h a0) as Em0 by (change (u64 (gpr h a0) = gpr h a0); apply u64_small, Hr).
  assert (forall r, r <> a0 -> gpr h0 r = gpr h r) as Hg0 by (intros r Hne; cbn; by rewrite decide_False).
  assert (forall r, r <> mscratch -> csrs h0 r = csrs h r) as Hc0 by (intros r Hne; cbn; by rewrite decide_False).
  assert (priv h0 = Machine /\ pm h0 = pm h) as [Hp0 Hm0] by done. clearbody h0.
  rewrite (run_saves cva cva scratch scratch 40 scratch 40 a0 timer_saved h0); [|by apply machine_window|done|decide_list].
  cbn [store_all timer_saved foldl fst snd]. rewrite Hm0, Z.add_0_r, !Hg0 by done. set (m1 := st64 _ _ _).
  rewrite (run_loads cva cva scratch scratch 40 scratch 40 a0 timer_args); [|by apply machine_window|done|decide_list|apply (bool_decide_unpack _); vm_compute; exact I].
  destruct (load_all_rest scratch (set_pm m1 h0) timer_args) as (Em & Ec & Epr & _). set (h1 := load_all _ _ _) in *.
  assert (gpr h1 a1 = cmp) as Ha1.
  { subst h1. rewrite load_all_gpr by decide_list. change (off_of a1 timer_args) with (Some 24). cbn [set_pm pm]. subst m1.
    rewrite !ld64_st64_out, E2 by lia. apply u64_small. lia. }
  assert (gpr h1 a2 = iv) as Ha2.
  { subst h1. rewrite load_all_gpr by decide_list. change (off_of a2 timer_args) with (Some 32). cbn [set_pm pm]. subst m1.
    rewrite !ld64_st64_out, E3 by lia. apply u64_small. lia. }
  assert (forall r, r <> a1 -> r <> a2 -> gpr h1 r = gpr h0 r) as Hg1.
  { intros r Hn1 Hn2. subst h1. rewrite load_all_gpr by decide_list. rewrite off_of_None; [done|]. cbn. set_solver. }
  cbn [set_pm pm csrs priv] in Em, Ec, Epr. clearbody h1. clear E2 E3.
  destruct (timer_advance h1 scratch cmp iv) as (h' & -> & Hp' & Hm' & Hg' & Hs' & Hb' & Hc'); try done; [by rewrite Epr|by rewrite Hg1|by rewrite Ec, Hc0|].
  exists h'. split; [done|]. split; [done|]. split_and!; [| | |done].
  - intros r. rewrite Hg', Em. destruct (decide (r = a1)) as [->|N1]; [|destruct (decide (r = a2)) as [->|N2]; [|destruct (decide (r = a3)) as [->|N3]]].
    + change (off_of a1 timer_restored) with (Some 0). cbv iota beta. subst m1. rewrite Z.add_0_r, !ld64_st64_out, ld64_st64 by lia. by rewrite !u64_small by (rewrite ?u64_small; apply Hr).
    + change (off_of a2 timer_restored) with (Some 8). cbv iota beta. subst m1. rewrite ld64_st64_out, ld64_st64 by lia. by rewrite !u64_small by (rewrite ?u64_small; apply Hr).
    + change (off_of a3 timer_restored) with (Some 16). cbv iota beta. subst m1. rewrite ld64_st64. by rewrite !u64_small by (rewrite ?u64_small; apply Hr).
    + rewrite off_of_None by (cbn; set_solver). destruct (decide (r = a0)) as [->|N0]; [|by rewrite Hg1, Hg0].
      rewrite Ec, Em0. apply u64_small, Hr.
  - rewrite Hm', Em. do 4 f_equal. subst m1. by rewrite !ld64_st64_out by lia.
  - intros r Hne. destruct (decide (r = mscratch)) as [->|Hns]; [congruence|]. rewrite Hc', Ec, Hc0 by done. done.
Qed.
End machine.

(** C29: a timer interrupt is invisible to the code it interrupts and the clock
    goes on.  On a hart whose clock is set up, in user or supervisor mode,
    [timervec] returns to the interrupted instruction in the same mode with
    every register unchanged; the comparator has moved on by one interval, a
    supervisor software interrupt is pending, nothing else in memory changed
    but the save area, and the clock is set up for the next interrupt. *)
Theorem timer_tick h cva scratch cmp iv :
  clock_ok h scratch cmp iv -> regs_ok h -> priv h <> Machine -> 0 <= pc h < 2^64 -> bytes_ok (pm h) ->
  exists h', run cva cva timervec (timer_trap h) = Some h' /\ clock_ok h' scratch cmp iv /\
    pc h' = pc h /\ priv h' = priv h /\ (forall r, gpr h' r = gpr h r) /\
    ld64 (pm h') cmp = u64 (ld64 (pm h) cmp + iv) /\ bit 1 (csr_read sip h') = true /\
    (forall a, ~ (scratch <= a < scratch + 24) -> ~ (cmp <= a < cmp + 8) -> Mem.ld (pm h') a = Mem.ld (pm h) a) /\
    (forall r, r <> mip -> r <> mstatus -> r <> mepc -> csrs h' r = csrs h r) /\
    (forall b, 0 <= b < 64 -> b ∉ [7; 11; 12] -> bit b (csrs h' mstatus) = bit b (csrs h mstatus)).
Proof.
  intros Hck Hr Hp Hpc Hb. set (h0 := timer_trap h). assert (clock_ok h0 scratch cmp iv) as Hck0 by (destruct Hck; by split).
  destruct (timervec_run cva h0 scratch cmp iv Hck0 Hr eq_refl) as (h1 & Hrun & Hp1 & Hg1 & Hm1 & Hc1 & Hb1).
  exists (do_mret h1). split; [done|]. change (pm h0) with (pm h) in Hm1. change (gpr h0) with (gpr h) in *.
  pose proof Hck as [E1 E2 E3 E4 [A1 A2] [R1 [R2 [R3 R4]]] Hap]. rewrite (u64_small (ld64 (pm h) cmp)) in Hm1 by (by apply ld64_range).
  assert (csrs h1 mstatus = u64 (put_mpp (priv h) (put_bit 3 false (put_bit 7 (bit 3 (csrs h mstatus)) (csrs h mstatus))))) as Ems by (by rewrite Hc1).
  assert (forall a, ~ (scratch <= a < scratch + 24) -> ~ (cmp <= a < cmp + 8) -> Mem.ld (pm h1) a = Mem.ld (pm h) a) as Hframe
    by (intros a Ha1 Ha2; rewrite Hm1; rewrite !(ld_stw_out 8) by lia; done).
  split_and!; try done.
  - split; try done; [change (csrs h1 mscratch = scratch)|change (ld64 (pm h1) (scratch + 24) = cmp)|change (ld64 (pm h1) (scratch + 32) = iv)|change (csrs h1 mideleg = MIDELEG_MASK)].
    + by rewrite Hc1.
    + rewrite <- E2. apply (ldw_ext 8). intros y Hy. apply Hframe; lia.
    + rewrite <- E3. apply (ldw_ext 8). intros y Hy. apply Hframe; lia.
    + by rewrite Hc1.
  - change (csrs h1 mepc = pc h). rewrite Hc1 by done. cbn. by apply u64_small.
  - change (mpp (csrs h1 mstatus) = priv h). by rewrite Ems, mpp_u64, mpp_put.
  - change (ld64 (pm h1) cmp = u64 (ld64 (pm h) cmp + iv)). rewrite Hm1, ld64_st64. by rewrite u64_small by apply u64_range.
  - change (bit 1 (Z.land (csrs h1 mip) (csrs h1 mideleg)) = true). rewrite bit_land, Hb1, (Hc1 mideleg) by done. change (csrs h0 mideleg) with (csrs h mideleg). by rewrite E4.
  - intros r N1 N2 N3. cbn [do_mret set_pc set_priv put_c csrs]. rewrite decide_False by done. rewrite Hc1 by done. cbn. by rewrite !decide_False by done.
  - intros b Hbr Hni. rewrite !not_elem_of_cons in Hni. destruct Hni as (N7 & N11 & N12 & _).
    change (bit b (u64 (put_mpp User (put_bit 7 true (put_bit 3 (bit 7 (csrs h1 mstatus)) (csrs h1 mstatus))))) = bit b (csrs h mstatus)).
    rewrite bit_u64, bit_put_mpp, put_bit_other by lia. destruct (decide (b = 3)) as [->|N3].
    + rewrite put_bit_same, Ems, bit_u64, bit_put_mpp, put_bit_other by lia. by apply put_bit_same.
    + rewrite put_bit_other, Ems, bit_u64, bit_put_mpp, !put_bit_other by lia. done.
Qed.

(** ** Theorems: from reset to [main] *)

Ltac csr_simpl :=
  cbn [csrs gpr pc priv pm put_c set_x set_pc set_priv set_pm csr_write csr_read do_mret];
  repeat match goal with
         | |- context [decide (?a = ?b)] => first [rewrite (decide_True (P := a = b)) by reflexivity | rewrite (decide_False (P := a = b)) by discriminate]
         end.

Section boot.
Context (main_pc timervec_pc timer_scratch stack0 : Z).
Hypothesis Hmain : 0 <= main_pc < 2^64.
Hypothesis Hvec : 0 <= timervec_pc < 2^64.
Hypothesis Hscratch : timer_scratch mod 8 = 0 /\ KERNBASE <= timer_scratch /\ timer_scratch + 40 * NCPU <= PHYSTOP.
Hypothesis Hstack : 0 <= stack0 /\ stack0 + 4096 * NCPU < 2^64.

Lemma entry_run cva h : priv h = Machine -> 0 <= csrs h mhartid < NCPU ->
  exists h0, run cva cva (entry stack0) h = Some h0 /\ gpr h0 sp = stack0 + 4096 * (csrs h mhartid + 1) /\
    csrs h0 = csrs h /\ priv h0 = Machine /\ pm h0 = pm h.
Proof using Hstack.
  intros Hp Hid. unfold entry, NCPU in *. do 6 (erewrite run_machine; [|exact Hp|cbn [exec]; cbn [priv set_x]; rewrite ?Hp; reflexivity]).
  eexists. split; [reflexivity|]. split; [|done]. csr_simpl. rewrite (u64_small stack0), (u64_small (1024 * 4)), (u64_small (csrs h mhartid)) by lia.
  rewrite (u64_small (csrs h mhartid + 1)), (u64_small (1024 * 4 * _)), u64_small; lia.
Qed.

Lemma timerinit_run h : 0 <= csrs h mhartid < NCPU ->
  let id := csrs h mhartid in let scratch := timer_scratch + 40 * id in let cmp := CLINT_MTIMECMP id in
  exists h1, timerinit timervec_pc timer_scratch (World [] h) = Ok tt (World [] h1) /\
    gpr h1 = gpr h /\ priv h1 = priv h /\
    pm h1 = st64 (st64 (st64 (pm h) cmp (ld64 (pm h) CLINT_MTIME + interval)) (scratch + 24) cmp) (scratch + 32) interval /\
    csrs h1 mscratch = scratch /\ csrs h1 mtvec = timervec_pc /\
    csrs h1 mstatus = u64 (Z.lor (csrs h mstatus) MSTATUS_MIE) /\ csrs h1 mie = u64 (Z.lor (csrs h mie) MIE_MTIE) /\
    (forall r, r ∉ [mscratch; mtvec; mstatus; mie] -> csrs h1 r = csrs h r).
Proof using Hscratch Hvec.
  intros Hid id scratch cmp. unfold timerinit.
  assert (i32 (csrs h mhartid) = id) as Ei by (apply signed_small; unfold NCPU in *; lia).
  set (h3 := set_pm (st64 (st64 (st64 (pm h) cmp (ld64 (pm h) CLINT_MTIME + interval)) (scratch + 24) cmp) (scratch + 32) interval) h).
  set (h4 := csr_write mtvec timervec_pc (csr_write mscratch scratch h3)).
  set (h5 := csr_write mstatus (Z.lor (csr_read mstatus h4) MSTATUS_MIE) h4).
  exists (csr_write mie (Z.lor (csr_read mie h5) MIE_MTIE) h5).
  split; [unfold mbind, M_bind, r_mhartid, gets; cbn [st csr_read]; rewrite Ei; reflexivity|]. subst h5 h4 h3.
  split; [done|]. split; [done|]. split; [done|]. unfold NCPU in *. change PHYSTOP with 0x88000000 in *. change KERNBASE with 0x80000000 in *.
  split_and!; csr_simpl; try (rewrite !u64_small by lia); try done.
  intros r Hr. rewrite !not_elem_of_cons in Hr. destruct Hr as (N1 & N2 & N3 & N4 & _). by rewrite !decide_False by done.
Qed.

(** The part of [start] before [timerinit]. *)
Lemma start_run h : 0 <= csrs h mhartid < NCPU ->
  let id := csrs h mhartid in let scratch := timer_scratch + 40 * id in let cmp := CLINT_MTIMECMP id in
  exists h1, start main_pc timervec_pc timer_scratch (World [] h) = Ok tt (World [] (do_mret (set_x tp id h1))) /\
    gpr h1 = gpr h /\
    pm h1 = st64 (st64 (st64 (pm h) cmp (ld64 (pm h) CLINT_MTIME + interval)) (scratch + 24) cmp) (scratch + 32) interval /\
    csrs h1 mscratch = scratch /\ csrs h1 mtvec = timervec_pc /\ csrs h1 mepc = main_pc /\ csrs h1 satp = 0 /\
    csrs h1 mideleg = MIDELEG_MASK /\ csrs h1 medeleg = MEDELEG_MASK /\
    mpp (csrs h1 mstatus) = Supervisor /\ bit 7 (csrs h1 mie) = true /\ Z.land (csrs h1 mie) MIDELEG_MASK = MIDELEG_MASK.
Proof using Hscratch Hvec Hmain.
  clear Hstack. intros Hid id scratch cmp.
  set (h0 := csr_write pmpcfg0 0xf (csr_write pmpaddr0 0x3fffffffffffff
    (let ha := csr_write mideleg 0xffff (csr_write medeleg 0xffff (csr_write satp 0 (csr_write mepc main_pc
      (csr_write mstatus (Z.lor (Z.land (csr_read mstatus h) (Z.lnot MSTATUS_MPP_MASK)) MSTATUS_MPP_S) h)))) in
     csr_write sie (Z.lor (Z.lor (Z.lor (csr_read sie ha) SIE_SEIE) SIE_STIE) SIE_SSIE) ha))).
  destruct (timerinit_run h0 Hid) as (h1 & Hrun & Hg & Hp & Hm & Es & Et & Ems & Emi & Ec). exists h1.
  assert (csrs h1 mhartid = id) as Eid by (rewrite Ec by set_solver; done).
  assert (csrs h0 mideleg = MIDELEG_MASK) as Edel by (csr_simpl; reflexivity).
  assert (csrs h0 mie = u64 (merge MIDELEG_MASK (Z.lor (Z.lor (Z.lor (Z.land (csrs h mie) MIDELEG_MASK) SIE_SEIE) SIE_STIE) SIE_SSIE) (csrs h mie))) as Emie
    by (subst h0; csr_simpl; reflexivity).
  assert (csrs h0 mstatus = u64 (Z.lor (Z.land (csrs h mstatus) (Z.lnot MSTATUS_MPP_MASK)) MSTATUS_MPP_S)) as Est by (subst h0; csr_simpl; reflexivity).
  split.
  { change (start main_pc timervec_pc timer_scratch (World [] h)) with
      ((timerinit timervec_pc timer_scratch;; id ← r_mhartid; w_tp (i32 id);; modify do_mret) (World [] h0)).
    rewrite (bind_run _ _ _ _ _ Hrun). unfold r_mhartid. rewrite gets_run. cbn [csr_read]. rewrite Eid.
    replace (i32 id) with id by (symmetry; apply signed_small; unfold NCPU in *; lia). reflexivity. }
  split_and!; try done.
  - rewrite Ec by set_solver. subst h0. csr_simpl. by apply u64_small.
  - rewrite Ec by set_solver. subst h0. csr_simpl. done.
  - rewrite Ec by set_solver. done.
  - rewrite Ec by set_solver. subst h0. csr_simpl. done.
  - rewrite Ems, mpp_u64, Est. unfold mpp. rewrite !bit_lor, !bit_u64, !bit_lor, !bit_land by lia. cbn. by rewrite !andb_false_r.
  - rewrite Emi, bit_u64, bit_lor by lia. apply orb_true_r.
  - apply Z.bits_inj'. intros n Hn. change (bit n (Z.land (csrs h1 mie) MIDELEG_MASK) = bit n MIDELEG_MASK). rewrite bit_land, Emi.
    destruct (bit n MIDELEG_MASK) eqn:En; [|apply andb_false_r]. rewrite andb_true_r.
    assert (n < 64) as Hn64.
    { destruct (decide (n < 64)); [done|]. unfold bit in En. rewrite Z.bits_above_log2 in En; [done|done|]. change (Z.log2 MIDELEG_MASK) with 9. lia. }
    rewrite bit_u64, bit_lor, Emie, bit_u64, bit_merge, En, !bit_lor by lia.
    assert (bit n (Z.lor (Z.lor SIE_SEIE SIE_STIE) SIE_SSIE) = true) as E by exact En. rewrite !bit_lor in E.
    apply orb_true_iff. left. rewrite <- !orb_assoc, (orb_assoc (bit n SIE_SEIE)), E. apply orb_true_r.
Qed.

(** C28: the boot of a hart.  From machine mode with any contents of its
    registers, entry.S gives each hart its own stack and [start] enters [main]
    in supervisor mode with paging off and its number in [tp]; the
    supervisor's interrupts are delegated and enabled, the machine timer
    interrupt is enabled, its first expiry is one interval ahead, and the
    hart's clock is set up for [timervec] with a scratch area of its own. *)
Theorem start_enters_main cva h :
  priv h = Machine -> 0 <= csrs h mhartid < NCPU ->
  let id := csrs h mhartid in
  exists h0 h1, run cva cva (entry stack0) h = Some h0 /\ start main_pc timervec_pc timer_scratch (World [] h0) = Ok tt (World [] h1) /\
    gpr h1 sp = stack0 + 4096 * (id + 1) /\ gpr h1 tp = id /\
    priv h1 = Supervisor /\ pc h1 = main_pc /\ csrs h1 satp = 0 /\
    csr_read sie h1 = Z.lor (Z.lor SIE_SEIE SIE_STIE) SIE_SSIE /\ csrs h1 mideleg = MIDELEG_MASK /\ csrs h1 medeleg = MEDELEG_MASK /\
    bit 7 (csrs h1 mie) = true /\ csrs h1 mtvec = timervec_pc /\
    clock_ok h1 (timer_scratch + 40 * id) (CLINT_MTIMECMP id) interval /\
    ld64 (pm h1) (CLINT_MTIMECMP id) = u64 (ld64 (pm h) CLINT_MTIME + interval).
Proof using Hmain Hvec Hscratch Hstack.
  intros Hp Hid id. destruct (entry_run cva h Hp Hid) as (h0 & Hrun0 & Hsp & Ec0 & Hp0 & Hm0).
  destruct (start_run h0) as (h1 & Hrun & Hg & Hm & Es & Et & Ee & Esatp & Ed & Eed & Ep & E7 & Emie); [by rewrite Ec0|].
  rewrite Ec0 in *. rewrite Hm0 in *. fold id in Hrun, Hm, Es, Hsp. change PHYSTOP with 0x88000000 in Hscratch. change KERNBASE with 0x80000000 in Hscratch. unfold NCPU in *.
  exists h0, (do_mret (set_x tp id h1)). split; [done|]. split; [done|].
  assert (CLINT_MTIMECMP id + 8 <= timer_scratch /\ CLINT_MTIMECMP id mod 8 = 0 /\ 0 <= CLINT_MTIMECMP id) as (Hc1 & Hc2 & Hc3).
  { unfold CLINT_MTIMECMP, CLINT. split; [lia|]. split; [|lia]. replace (0x2000000 + 0x4000 + 8 * id) with ((4196352 + id) * 8) by lia. apply Z.mod_mul. lia. }
  split_and!.
  - change (gpr h1 sp = stack0 + 4096 * (id + 1)). by rewrite Hg.
  - change (u64 id = id). apply u64_small. lia.
  - exact Ep.
  - exact Ee.
  - exact Esatp.
  - change (Z.land (csrs h1 mie) (csrs h1 mideleg) = Z.lor (Z.lor SIE_SEIE SIE_STIE) SIE_SSIE). rewrite Ed, Emie. reflexivity.
  - exact Ed.
  - exact Eed.
  - exact E7.
  - exact Et.
  - split; [exact Es| | |exact Ed| |unfold interval; lia|lia].
    + change (ld64 (pm h1) (timer_scratch + 40 * id + 24) = CLINT_MTIMECMP id). rewrite Hm, ld64_st64_out, ld64_st64 by lia. apply u64_small. lia.
    + change (ld64 (pm h1) (timer_scratch + 40 * id + 32) = interval). rewrite Hm, ld64_st64. by apply u64_small.
    + split; [|done]. rewrite Zplus_mod. destruct Hscratch as [-> _]. replace (40 * id) with (5 * id * 8) by lia. by rewrite Z.mod_mul.
  - change (ld64 (pm h1) (CLINT_MTIMECMP id) = u64 (ld64 (pm h) CLINT_MTIME + interval)). rewrite Hm, !ld64_st64_out, ld64_st64 by lia. done.
Qed.
End boot.

(** Hart 3 at reset, the time being 500. *)
Definition demo_reset : hart :=
  Hart (fun _ => 77) (fun r => match r with mhartid => 3 | _ => 0 end) KERNBASE Machine (st64 ∅ CLINT_MTIME 500).
Lemma start_enters_main_witness :
  exists h0 h1, run KERNBASE KERNBASE (entry 0x80010000) demo_reset = Some h0 /\
    start 0x80000d00 0x80000e00 0x80020000 (World [] h0) = Ok tt (World [] h1) /\
    gpr h1 sp = 0x80014000 /\ pc h1 = 0x80000d00 /\ priv h1 = Supervisor /\ ld64 (pm h1) (CLINT_MTIMECMP 3) = 1000500.
Proof.
  destruct (start_enters_main 0x80000d00 0x80000e00 0x80020000 0x80010000) with (cva := KERNBASE) (h := demo_reset)
    as (h0 & h1 & E0 & E1 & Esp & _ & Ep & Epc & _ & _ & _ & _ & _ & _ & _ & Ecmp).
  - lia.
  - lia.
  - split; [reflexivity|]. vm_compute. split; congruence.
  - vm_compute. split; congruence.
  - reflexivity.
  - vm_compute. split; congruence.
  - exists h0, h1. split; [exact E0|]. split; [exact E1|]. split; [exact Esp|]. split; [exact Epc|]. split; [exact Ep|].
    change (csrs demo_reset mhartid) with 3 in Ecmp. rewrite Ecmp. vm_compute. reflexivity.
Defined.

(** Its clock in a user program. *)
Definition demo_clock : hart :=
  Hart (fun r => tf_off r) (fun r => match r with mscratch => 0x80020078 | mideleg => MIDELEG_MASK | _ => 0 end) 0x1000 User
    (st64 (st64 (st64 ∅ (CLINT_MTIMECMP 3) 1000500) (0x80020078 + 24) (CLINT_MTIMECMP 3)) (0x80020078 + 32) interval).
Lemma timer_tick_witness :
  exists h', run KERNBASE KERNBASE timervec (timer_trap demo_clock) = Some h' /\ pc h' = 0x1000 /\ priv h' = User /\
    (forall r, gpr h' r = tf_off r) /\ ld64 (pm h') (CLINT_MTIMECMP 3) = 2000500.
Proof.
  destruct (timer_tick demo_clock KERNBASE 0x80020078 (CLINT_MTIMECMP 3) interval) as (h' & Hrun & _ & Hpc & Hp & Hg & Hcmp & _).
  - split; try reflexivity; try (split; reflexivity).
    + vm_compute. split_and!; congruence.
    + left. vm_compute. congruence.
  - intros r. destruct r; vm_compute; split; congruence.
  - discriminate.
  - vm_compute. split; congruence.
  - repeat apply bytes_ok_stw. apply bytes_ok_empty.
  - exists h'. split; [exact Hrun|]. split; [exact Hpc|]. split; [exact Hp|]. split; [exact Hg|]. rewrite Hcmp. vm_compute. reflexivity.
Defined.
