(* ===== verification/UserReturn.v ===== *)
(** * From the kernel to user space and back: trap.c with trampoline.S

    [Trap] models the C code of kernel/trap.c over a record of control and
    status registers, [Asm] the trampoline over a whole hart.  Here the two
    describe one machine: what [usertrapret] leaves in the registers and in
    the trapframe is what [userret] needs to reach user space, and what the
    next trap needs to come back to [usertrap]. *)

From S2P Require Import Prelude Mem Riscv Kalloc Vm VmSpec VmProps Pipe Uart Console Virtio Printf Sleeplock Bio BioSpec Log LogOps Fs File Proc Syscall Exec Trap Asm AsmProps.

Section user_return.
Context {L : Layout} {LO : LayoutOk L} {T H : Type} {BO : BlockOps T H}.
Abbreviation K := (M (kern T)).
Abbreviation TM := (M (tst T)).

(** Physical memory in the state of the kernel. *)
Definition phys (s : kern T) : mem := kmem (fk (ffs (kfsys s))).

(** The hart [h] is the one whose registers and memory [s] describes. *)
Record shows (h : hart) (s : tst T) : Prop := {
  sh_sstatus : csr_read Asm.sstatus h = Trap.sstatus (regs s);
  sh_sepc : csr_read Asm.sepc h = Trap.sepc (regs s);
  sh_stvec : csr_read Asm.stvec h = Trap.stvec (regs s);
  sh_satp : csr_read Asm.satp h = Trap.satp (regs s);
  sh_tp : gpr h tp = Trap.tp (regs s);
  sh_mem : pm h = phys (tk s)
}.

(** ** Stores to the trapframe *)

Definition same_procs (s s' : kern T) : Prop := procs s' = procs s /\ cur s' = cur s.

Lemma tf_store_run tf off v e s :
  exists s', tf_store tf off v (World e s) = Ok tt (World e s') /\ phys s' = st64 (phys s) (tf + off) v /\ same_procs s s'.
Proof. eexists. split; [reflexivity|]. done. Qed.
Lemma tf_load_run tf off e s :
  exists s', tf_load tf off (World e s) = Ok (ld64 (phys s) (tf + off)) (World e s') /\ phys s' = phys s /\ same_procs s s'.
Proof. eexists. split; [reflexivity|]. done. Qed.

Definition with_kern (s : tst T) (k : kern T) : tst T := TSt k (regs s) (claims s) (completes s) (tprst s) (tdisk s).
Lemma in_kern_run {A B} (m : K A) (f : A -> TM B) e s a k :
  m (World e (tk s)) = Ok a (World e k) -> (in_kern m ≫= f) (World e s) = f a (World e (with_kern s k)).
Proof. intros E. unfold mbind, M_bind, in_kern, zoom. cbn [held st]. by rewrite E. Qed.

(** One access to the trapframe, with what it did to memory. *)
Ltac k_access lem :=
  let k := fresh "k" in let E := fresh "E" in let Em := fresh "Em" in let Ep := fresh "Ep" in let Ec := fresh "Ec" in
  match goal with |- context [(in_kern ?m ≫= ?f) (World ?e ?s)] =>
    destruct (lem e (tk s)) as (k & E & Em & Ep & Ec);
    rewrite (in_kern_run m f e s _ k E); clear E; cbn [with_kern tk regs claims completes tprst tdisk] in *
  end.

(** The words [usertrapret] writes into a trapframe. *)
Definition kernel_words (m : mem) (tf satp sp trap_pc hartid : Z) : mem :=
  st64 (st64 (st64 (st64 m (tf + TF_kernel_satp) satp) (tf + TF_kernel_sp) sp) (tf + TF_kernel_trap) trap_pc) (tf + TF_kernel_hartid) hartid.

Lemma usertrapret_run usertrap_pc e s i :
  cur (tk s) = Some i ->
  let p := getp (tk s) i in let r := regs s in let tf := p_trapframe p in
  exists s', usertrapret usertrap_pc 0 (World e s) = Ok (MAKE_SATP (p_pagetable p)) (World e s') /\
    same_procs (tk s) (tk s') /\
    phys (tk s') = kernel_words (phys (tk s)) tf (Trap.satp r) (u64 (p_kstack p + PGSIZE)) usertrap_pc (Trap.tp r) /\
    regs s' = Csr (Z.lor (Z.land (Z.land (Trap.sstatus r) (Z.lnot SSTATUS_SIE)) (Z.lnot SSTATUS_SPP)) SSTATUS_SPIE)
      (ld64 (phys (tk s')) (tf + TF_epc)) (Trap.scause r) (Trap.stval r) TRAMPOLINE (Trap.satp r) (Trap.tp r) (Trap.sip r).
Proof.
  intros Hc p r tf. unfold usertrapret.
  rewrite (bind_run _ _ _ p (World e s)) by (unfold in_kern, curproc, myproc, zoom, mbind, M_bind, gets; cbn; rewrite Hc; by destruct s).
  unfold intr_off, w_stvec, w_sstatus, w_sepc, set_regs. rewrite bind_assoc, gets_run, !modify_run, gets_run. cbn [regs tk Trap.satp Trap.tp Trap.sstatus].
  k_access (tf_store_run tf TF_kernel_satp (Trap.satp r)). k_access (tf_store_run tf TF_kernel_sp (u64 (p_kstack p + PGSIZE))).
  k_access (tf_store_run tf TF_kernel_trap usertrap_pc). k_access (tf_store_run tf TF_kernel_hartid (Trap.tp r)). rewrite modify_run.
  k_access (tf_load_run tf TF_epc). rewrite modify_run.
  eexists. split; [reflexivity|]. cbn [tk regs with_kern] in *. split; [unfold same_procs; by rewrite Ep3, Ep2, Ep1, Ep0, Ec3, Ec2, Ec1, Ec0|].
  unfold kernel_words. rewrite <- Em, <- Em0, <- Em1, <- Em2, Em3. done.
Qed.

(** ** The trapframe after [usertrapret] *)
Section words.
Context (m : mem) (tf satp sp trap_pc hartid : Z).
Abbreviation m' := (kernel_words m tf satp sp trap_pc hartid).

Lemma words_satp : ld64 m' (tf + 0) = u64 satp.
Proof. unfold kernel_words, TF_kernel_hartid, TF_kernel_trap, TF_kernel_sp. rewrite !ld64_st64_out by lia. apply ld64_st64. Qed.
Lemma words_sp : ld64 m' (tf + 8) = u64 sp.
Proof. unfold kernel_words, TF_kernel_hartid, TF_kernel_trap. rewrite !ld64_st64_out by lia. apply ld64_st64. Qed.
Lemma words_trap : ld64 m' (tf + 16) = u64 trap_pc.
Proof. unfold kernel_words, TF_kernel_hartid. rewrite !ld64_st64_out by lia. apply ld64_st64. Qed.
Lemma words_hartid : ld64 m' (tf + 32) = u64 hartid.
Proof. apply ld64_st64. Qed.
(** The saved program counter and the registers are not touched. *)
Lemma words_other o : o = 24 \/ 40 <= o -> ld64 m' (tf + o) = ld64 m (tf + o).
Proof. intros Ho. unfold kernel_words, TF_kernel_hartid, TF_kernel_trap, TF_kernel_sp, TF_kernel_satp. by rewrite !ld64_st64_out by lia. Qed.
Lemma words_frame : same_off tf 4096 m m'.
Proof.
  unfold kernel_words. repeat (eapply same_off_trans; [|apply (st64_same_off tf 4096); unfold TF_kernel_hartid, TF_kernel_trap, TF_kernel_sp, TF_kernel_satp; lia]).
  apply same_off_refl.
Qed.
Lemma words_bytes : bytes_ok m -> bytes_ok m'.
Proof. intros Hb. unfold kernel_words. by repeat apply bytes_ok_stw. Qed.
End words.

Lemma tf_off_range r : 40 <= tf_off r.
Proof. destruct r; vm_compute; congruence. Qed.

(** The bits that [usertrapret] sets and clears, seen by [sret]. *)
Lemma sret_bits h v :
  csr_read Asm.sstatus h = Z.lor (Z.land (Z.land v (Z.lnot SSTATUS_SIE)) (Z.lnot SSTATUS_SPP)) SSTATUS_SPIE ->
  bit 8 (csrs h mstatus) = false /\ bit 5 (csrs h mstatus) = true.
Proof.
  cbn [csr_read]. intros E.
  assert (forall b, bit b SSTATUS_MASK = true -> bit b (csrs h mstatus) =
    bit b (Z.lor (Z.land (Z.land v (Z.lnot SSTATUS_SIE)) (Z.lnot SSTATUS_SPP)) SSTATUS_SPIE)) as Hb.
  { intros b Hm. rewrite <- E. unfold bit in *. by rewrite Z.land_spec, Hm, andb_true_r. }
  rewrite !Hb by reflexivity. unfold bit. rewrite !Z.lor_spec, !Z.land_spec. cbn. by rewrite !andb_false_r, !orb_true_r.
Qed.

(** ** User code *)

(** A step of a program: an instruction of [Asm]; or what any other
    instruction does, which is to put a value into a register or bytes into
    memory, where translation lets it.  The next program counter is any. *)
Inductive ustep : hart -> hart -> Prop :=
| ustep_exec i npc h h' : exec i h = Some h' -> 0 <= npc < 2^64 -> ustep h (set_pc npc h')
| ustep_set r v npc h : 0 <= npc < 2^64 -> ustep h (set_pc npc (set_x r v h))
| ustep_store va pa b npc h :
    0 <= va < 2^64 -> resolve Store va h = Some pa -> 0 <= npc < 2^64 ->
    ustep h (set_pc npc (set_pm (st8 (pm h) pa b) h)).

(** No page the user can write is a page of a table, or the trapframe. *)
Definition isolated (m : mem) (uroot tf : Z) (uown kown : gmap Z (list Z)) : Prop :=
  forall va, 0 <= va < MAXVA -> allows User Store (pte_of m uroot va) = true ->
    let q := PTE2PA (pte_of m uroot va) in q <> tf /\ uown !! q = None /\ kown !! q = None.

(** What user code can never change. *)
Record user_inv (h0 h : hart) (uroot kroot tf : Z) (uown kown : gmap Z (list Z)) : Prop := {
  ui_priv : priv h = User;
  ui_csrs : csrs h = csrs h0;
  ui_regs : regs_ok h;
  ui_pc : 0 <= pc h < 2^64;
  ui_spaces : spaces (pm h) uroot kroot tf uown kown;
  ui_isolated : isolated (pm h) uroot tf uown kown;
  ui_frame : forall o, 0 <= o < 4096 -> Mem.ld (pm h) (tf + o) = Mem.ld (pm h0) (tf + o)
}.

Lemma pages_apart p q i j : p mod 4096 = 0 -> q mod 4096 = 0 -> p <> q -> 0 <= i < 4096 -> 0 <= j < 4096 -> p + i <> q + j.
Proof. intros Hp Hq Hne Hi Hj. Z.to_euclidean_division_equations. lia. Qed.

(** Memory changes in one page the user can write. *)
Lemma user_store_inv h0 h m' uroot kroot tf uown kown va :
  user_inv h0 h uroot kroot tf uown kown -> 0 <= va < MAXVA -> allows User Store (pte_of (pm h) uroot va) = true ->
  same_off (PTE2PA (pte_of (pm h) uroot va)) 4096 (pm h) m' ->
  user_inv h0 (set_pm m' h) uroot kroot tf uown kown.
Proof.
  intros [Hp Hc Hr Hpc Hs Hi Hf] Hva Hal Hsame. destruct (Hi va Hva Hal) as (Hne & Hun & Hkn).
  set (q := PTE2PA _) in *. pose proof (PTE2PA_aligned (pte_of (pm h) uroot va) : q mod 4096 = 0) as Hq. clearbody q.
  destruct Hs as [Su Sk (Stf & Stu & Stk) E1 E2 E3].
  destruct (pt_same_off _ _ _ _ q Su Hsame Hq Hun) as [Su' Eu]. destruct (pt_same_off _ _ _ _ q Sk Hsame Hq Hkn) as [Sk' Ek].
  split; try done; cbn [pm set_pm].
  - split; try done; [rewrite (proj2 (Eu _))|rewrite (proj2 (Eu _))|rewrite (proj2 (Ek _))]; done.
  - intros va' Hva'. rewrite (proj2 (Eu _)). by apply Hi.
  - intros o Ho. rewrite <- Hf by done. apply Hsame. apply not_true_iff_false. rewrite inb_true. intros Hin.
    destruct Stf as [Htf _]. apply (pages_apart tf q o (tf + o - q) Htf Hq); [congruence|done|lia|lia].
Qed.

Lemma user_setx_inv h0 h r v uroot kroot tf uown kown :
  user_inv h0 h uroot kroot tf uown kown -> user_inv h0 (set_x r v h) uroot kroot tf uown kown.
Proof.
  intros [Hp Hc Hr Hpc Hs Hi Hf]. split; try done. intros r'. cbn. destruct (decide (r' = r)); [apply u64_range|apply Hr].
Qed.
Lemma user_setpc_inv h0 h v uroot kroot tf uown kown :
  0 <= v < 2^64 -> user_inv h0 h uroot kroot tf uown kown -> user_inv h0 (set_pc v h) uroot kroot tf uown kown.
Proof. intros Hv [Hp Hc Hr Hpc Hs Hi Hf]. by split. Qed.

Lemma aligned_in_page va : 0 <= va -> aligned va = true -> 0 <= va mod 4096 <= 4088.
Proof. unfold aligned. rewrite Z.eqb_eq. intros H0 H8. Z.to_euclidean_division_equations. lia. Qed.

Lemma resolve_user h0 h va pa uroot kroot tf uown kown :
  csrs h0 Asm.satp = MAKE_SATP uroot -> user_inv h0 h uroot kroot tf uown kown -> resolve Store va h = Some pa ->
  va < MAXVA /\ allows User Store (pte_of (pm h) uroot va) = true /\ pa = PTE2PA (pte_of (pm h) uroot va) + va mod 4096.
Proof using LO.
  intros Hsat [Hp Hc _ _ Hs _ _]. unfold resolve, translate. rewrite Hp, Hc, Hsat.
  destruct (root_range _ _ _ (sp_user _ _ _ _ _ _ Hs)) as [Hur Hual]. destruct (satp_root_MAKE uroot Hur Hual) as [Er Hpos].
  destruct (Z.eqb_spec (MAKE_SATP uroot) 0); [lia|]. destruct (Z.ltb_spec va MAXVA); cbn [negb]; [|done]. rewrite Er.
  destruct (allows User Store _); [|done]. intros E. by injection E as <-.
Qed.

Lemma ustep_inv h0 h h' uroot kroot tf uown kown :
  csrs h0 Asm.satp = MAKE_SATP uroot ->
  user_inv h0 h uroot kroot tf uown kown -> ustep h h' -> user_inv h0 h' uroot kroot tf uown kown.
Proof using LO.
  intros Hsat Hi Hstep. pose proof (ui_priv _ _ _ _ _ _ _ Hi) as Hp.
  destruct Hstep as [i npc h h' Hex Hn|r v npc h Hn|va pa b npc h Hva Hres Hn]; apply user_setpc_inv; try done.
  - destruct i; cbn [exec] in Hex; rewrite ?Hp in Hex; cbn [permitted] in Hex; try discriminate;
      try (injection Hex as <-; first [by apply user_setx_inv|apply user_setpc_inv; [apply Hi|done]]);
      (destruct (aligned _) eqn:Eal; cbn [negb] in Hex; [|discriminate]).
    + destruct (resolve Store _ h) as [pa|] eqn:Hres; [|discriminate]. cbn in Hex. injection Hex as <-. set (va := u64 _) in *.
      assert (0 <= va < 2^64) as Hva by apply u64_range. destruct (resolve_user _ _ _ _ _ _ _ _ _ Hsat Hi Hres) as (Hmax & Hal & ->).
      apply (user_store_inv h0 h _ uroot kroot tf uown kown va); [done|lia|done|].
      pose proof (aligned_in_page va ltac:(lia) Eal). apply (st64_same_off _ 4096); lia.
    + destruct (resolve _ _ _); [|discriminate]. cbn in Hex. injection Hex as <-. by apply user_setx_inv.
  - by apply user_setx_inv.
  - destruct (resolve_user _ _ _ _ _ _ _ _ _ Hsat Hi Hres) as (Hmax & Hal & ->).
    apply (user_store_inv h0 h _ uroot kroot tf uown kown va); [done|lia|done|]. pose proof (Z.mod_pos_bound va 4096 ltac:(lia)).
    intros x Hx. apply not_true_iff_false in Hx. rewrite inb_true in Hx. rewrite ld_st8_ne; [done|lia].
Qed.
Lemma user_runs_inv h0 h uroot kroot tf uown kown :
  csrs h0 Asm.satp = MAKE_SATP uroot -> user_inv h0 h0 uroot kroot tf uown kown -> rtc ustep h0 h -> user_inv h0 h uroot kroot tf uown kown.
Proof.
  intros Hsat Hi Hr. assert (forall h1 h2, rtc ustep h1 h2 -> user_inv h0 h1 uroot kroot tf uown kown -> user_inv h0 h2 uroot kroot tf uown kown) as G.
  { intros h1 h2 R. induction R as [|x y z Hxy _ IH]; [done|]. intros Hx. apply IH. by eapply ustep_inv. }
  by apply (G h0 h).
Qed.

Lemma user_inv_init h h1 uroot kroot tf uown kown :
  spaces (pm h) uroot kroot tf uown kown -> isolated (pm h) uroot tf uown kown -> bytes_ok (pm h) -> priv h1 = User ->
  resumed h h1 uroot tf -> 0 <= csrs h Asm.sepc < 2^64 -> user_inv h1 h1 uroot kroot tf uown kown.
Proof.
  intros Hs Hi Hb Hp Hre Hpc. split; try done; rewrite ?(re_mem _ _ _ _ Hre), ?(re_pc _ _ _ _ Hre); try done.
  intros r. rewrite (re_regs _ _ _ _ Hre). by apply ld64_range.
Qed.

(** The next trap, after any user code. *)
Lemma next_trap h1 h2 cause val m uroot kroot tf uown kown ksp trap_pc hartid :
  pm h1 = kernel_words m tf (MAKE_SATP kroot) ksp trap_pc hartid -> 0 <= ksp < 2^64 -> 0 <= trap_pc < 2^64 -> 0 <= hartid < 2^64 ->
  csrs h1 Asm.satp = MAKE_SATP uroot -> csrs h1 sscratch = TRAPFRAME -> csrs h1 Asm.stvec = TRAMPOLINE ->
  user_inv h1 h1 uroot kroot tf uown kown -> rtc ustep h1 h2 ->
  exists h3, pc (trap cause val h2) = TRAMPOLINE /\ run TRAMPOLINE trampoline_pa uservec (trap cause val h2) = Some h3 /\
    priv h3 = Supervisor /\ bit 1 (csrs h3 mstatus) = false /\ bit 8 (csrs h3 mstatus) = false /\
    pc h3 = trap_pc /\ csrs h3 Asm.satp = MAKE_SATP kroot /\ gpr h3 sp = ksp /\ gpr h3 tp = hartid /\
    csrs h3 Asm.scause = u64 cause /\ csrs h3 Asm.sepc = pc h2 /\ forall r, ld64 (pm h3) (tf + tf_off r) = gpr h2 r.
Proof using LO.
  intros Hm Hsp Hpc Hid Hsat Hscr Hvec Hinv Huser.
  apply (user_runs_inv h1 h2 uroot kroot tf uown kown Hsat Hinv) in Huser as [Up Uc Ur Upc Us _ Uf].
  assert (forall o, 0 <= o <= 4088 -> ld64 (pm h2) (tf + o) = ld64 (pm h1) (tf + o)) as Hw.
  { intros o Ho. apply (ldw_ext 8). intros y Hy. replace y with (tf + (y - tf)) by lia. apply Uf. lia. }
  destruct (root_range _ _ _ (sp_kernel _ _ _ _ _ _ Us)) as [Hkr Hkal]. destruct (satp_root_MAKE kroot Hkr Hkal) as [_ Hks].
  assert (ld64 (pm h2) tf = MAKE_SATP kroot) as Ek.
  { replace tf with (tf + 0) by lia. rewrite Hw, Hm, words_satp by lia. apply u64_small. lia. }
  destruct (uservec_run (trap cause val h2) uroot kroot tf uown kown) as (h3 & Hr3 & [N1 N2 N3 N4 N5 N6 _ _ N9]); try done;
    [change (csrs h2 Asm.satp = MAKE_SATP uroot)|change (csrs h2 sscratch = TRAPFRAME)|]; [congruence..|].
  change (pm (trap cause val h2)) with (pm h2) in *. rewrite Ek in N3. rewrite Hw, Hm in N2, N4, N5 by lia.
  rewrite words_trap in N2. rewrite words_sp in N4. rewrite words_hartid in N5.
  assert (csrs h3 mstatus = u64 (put_bit 8 false (put_bit 1 false (put_bit 5 (bit 1 (csrs h2 mstatus)) (csrs h2 mstatus))))) as Ems
    by (rewrite N6 by done; unfold trap; rewrite Up; reflexivity).
  exists h3. split_and!; try done.
  - change (csrs h2 Asm.stvec = TRAMPOLINE). congruence.
  - rewrite Ems, bit_u64, put_bit_other by lia. by apply put_bit_same.
  - rewrite Ems, bit_u64 by lia. by apply put_bit_same.
  - rewrite N2. by rewrite !u64_small by (rewrite ?u64_small; done).
  - rewrite N3. by rewrite u64_small by lia.
  - rewrite N4. by rewrite !u64_small by (rewrite ?u64_small; done).
  - rewrite N5. by rewrite !u64_small by (rewrite ?u64_small; done).
  - rewrite N6 by done. reflexivity.
  - rewrite N6 by done. cbn. by apply u64_small.
Qed.

(** C2: the kernel enters user space and keeps control.  [usertrapret] returns
    the argument of [userret], and [userret], run on the hart it leaves, enters
    the process in user mode with interrupts on, at the saved program counter
    and with the saved registers.  Whatever instructions the process then
    executes - provided no page it can write holds a page table or its
    trapframe - the next trap finds both page tables and the kernel's words of
    the trapframe intact: [uservec] enters [usertrap] in supervisor mode with
    interrupts off, on the kernel's page table, at the top of the process's
    kernel stack and with the number of the hart, the mode it came from (user)
    recorded, and the registers and program counter of the process saved. *)
Theorem user_space_contained usertrap_pc e (s : tst T) i kroot uown kown :
  let p := getp (tk s) i in let m := phys (tk s) in let uroot := p_pagetable p in let tf := p_trapframe p in
  cur (tk s) = Some i -> 0 <= usertrap_pc < 2^64 -> 0 <= Trap.tp (regs s) < 2^64 -> Trap.satp (regs s) = MAKE_SATP kroot ->
  bytes_ok m -> spaces m uroot kroot tf uown kown -> isolated m uroot tf uown kown ->
  exists s', usertrapret usertrap_pc 0 (World e s) = Ok (MAKE_SATP uroot) (World e s') /\
    forall h, shows h s' -> priv h = Supervisor -> gpr h a0 = TRAPFRAME -> gpr h a1 = MAKE_SATP uroot ->
    exists h1, run TRAMPOLINE trampoline_pa userret h = Some h1 /\ priv h1 = User /\ bit 1 (csrs h1 mstatus) = true /\
      pc h1 = ld64 m (tf + TF_epc) /\ (forall r, gpr h1 r = ld64 m (tf + tf_off r)) /\
      forall h2 cause val, rtc ustep h1 h2 ->
      exists h3, pc (trap cause val h2) = TRAMPOLINE /\ run TRAMPOLINE trampoline_pa uservec (trap cause val h2) = Some h3 /\
        priv h3 = Supervisor /\ bit 1 (csrs h3 mstatus) = false /\ bit 8 (csrs h3 mstatus) = false /\
        pc h3 = usertrap_pc /\ csrs h3 Asm.satp = MAKE_SATP kroot /\ gpr h3 sp = u64 (p_kstack p + PGSIZE) /\ gpr h3 tp = Trap.tp (regs s) /\
        csrs h3 Asm.scause = u64 cause /\ csrs h3 Asm.sepc = pc h2 /\ forall r, ld64 (pm h3) (tf + tf_off r) = gpr h2 r.
Proof using LO.
  intros p m uroot tf Hc Hpc Htp Hk Hb Hs Hi. destruct (usertrapret_run usertrap_pc e s i Hc) as (s' & Hrun & _ & Em & Er). fold p tf uroot m in Hrun, Em, Er.
  exists s'. split; [done|]. intros h [Hss Hsepc Hvec Hsat _ Hmem] Hp Ha0 Ha1. rewrite Er in Hss, Hsepc, Hvec, Hsat. cbn in Hsepc, Hvec, Hsat.
  rewrite Em in Hmem, Hsepc. set (m' := kernel_words _ _ _ _ _ _) in *. rewrite Hk in Hsat.
  assert (same_off tf 4096 m m') as Hsame by apply words_frame. assert (bytes_ok m') as Hb' by (by apply words_bytes).
  assert (spaces m' uroot kroot tf uown kown) as Hs' by (by apply (spaces_same_off m)).
  assert (isolated m' uroot tf uown kown) as Hi'.
  { destruct (pt_same_off m m' uroot uown tf (sp_user _ _ _ _ _ _ Hs) Hsame) as [_ Eu]; [apply (sp_tf _ _ _ _ _ _ Hs)..|].
    intros va Hva. rewrite (proj2 (Eu _)). by apply Hi. }
  destruct (userret_run h uroot kroot tf uown kown) as (h1 & Hr1 & Hre); [by rewrite Hmem|by rewrite Hmem|done..|].
  destruct (sret_bits h _ Hss) as [B8 B5].
  assert (priv h1 = User) as Hp1 by (rewrite (re_priv _ _ _ _ Hre), B8; done).
  exists h1. split_and!; [done|done|rewrite (re_ie _ _ _ _ Hre); done| | |].
  - rewrite (re_pc _ _ _ _ Hre), Hsepc. apply words_other. by left.
  - intros r. rewrite (re_regs _ _ _ _ Hre), Hmem. apply words_other. right. apply tf_off_range.
  - intros h2 cause val Huser.
    assert (user_inv h1 h1 uroot kroot tf uown kown) as Hinv.
    { apply (user_inv_init h); rewrite ?Hmem; try done. rewrite Hsepc. by apply ld64_range. }
    apply (next_trap h1 h2 cause val m uroot kroot tf uown kown); try done; try apply Hre.
    + rewrite (re_mem _ _ _ _ Hre), Hmem. subst m'. by rewrite Hk.
    + apply u64_range.
    + rewrite (re_csr _ _ _ _ Hre) by done. exact Hvec.
Qed.
End user_return.

(** A decidable form of isolation: every leaf of the user's table. *)
Definition isolated_check (m : mem) (tf : Z) (uown kown : gmap Z (list Z)) : bool :=
  forallb (fun pp : Z * list Z =>
    negb (length pp.2 =? 2)%nat ||
    forallb (fun i => let pte := ld64 m (pp.1 + 8 * i) in
      negb (allows User Store pte) || (negb (PTE2PA pte =? tf) && bool_decide (uown !! PTE2PA pte = None) && bool_decide (kown !! PTE2PA pte = None)))
      (seqZ 0 512))
    (map_to_list uown).
Lemma isolated_check_sound `{Layout} m root tf uown kown :
  pt_inv m root uown -> isolated_check m tf uown kown = true -> isolated m root tf uown kown.
Proof.
  unfold isolated_check. rewrite forallb_forall. intros Hpt Hall va Hva Hal.
  destruct (pte_walkp m root va) as (a & Hw & Ea); [unfold allows in Hal; by destruct (flag _ PTE_V)|].
  destruct (walkp_own m root uown 2 root va a Hpt) as (q & -> & Hq); [lia|exact (pt_root _ _ _ Hpt)|done|].
  specialize (Hall (q, path_of 0 va)). cbn [Datatypes.fst Datatypes.snd] in Hall. change (length (path_of 0 va) =? 2)%nat with true in Hall. cbn [negb orb] in Hall.
  rewrite forallb_forall in Hall. specialize (Hall ltac:(by apply list_elem_of_In, elem_of_map_to_list) (PX 0 va)). rewrite Ea, Hal in Hall. cbn [negb orb] in Hall.
  rewrite !andb_true_iff, negb_true_iff, Z.eqb_neq, !bool_decide_eq_true in Hall.
  destruct Hall as [[H1 H2] H3]; [|done]. apply list_elem_of_In, elem_of_seqZ. pose proof (PX_range 0 va). lia.
Qed.

(** The process of [AsmProps] with a page of its own, at 0x3fffe00000. *)
Definition demo_umem : mem := Eval vm_compute in
  let m := st64 demo_spaces 0x87ffa000 (mkpte 0x87fff000 (Z.lor (Z.lor PTE_R PTE_W) (Z.lor PTE_X PTE_U))) in
  st64 (st64 m (demo_tf + TF_epc) 0x3fffe00040) (demo_tf + tf_off a0) 7.
Lemma demo_umem_ok : spaces demo_umem 0x87ff8000 0x87ffb000 demo_tf demo_uown demo_kown.
Proof.
  split; [apply pt_check_sound; vm_compute; reflexivity..| | | |]; try (vm_compute; reflexivity).
  split; [split; [reflexivity|vm_compute; split; congruence]|]. split; reflexivity.
Qed.
Definition demo_uproc : proc := Proc RUNNING None false 0 4 None 0x3fffffd000 4096 0x87ff8000 demo_tf (0, 0) (replicate NOFILE None) (Some 0%nat) (replicate 16 0).
Definition demo_utst : tst bst :=
  TSt (Kern (Fsys (Fst (KState demo_umem 0) (Lst empty_bst (Log 0 0 0 false 0 0 [] [])) [] (Superblock 0 0 0 0 0 0 0 0) 0 0 0 []) [] ∅ false [])
    [demo_uproc] (Some 0%nat) 5 None 0 false) (Csr 0 0 0 0 0 (MAKE_SATP 0x87ffb000) 2 0) [] []
    (PrSt (Cons (KState ∅ 0) (Uart [] 0 0 false [] [] [] []) [] 0 0 0 []) true) (VDisk [] 0 [] 0 [] [] 0 [] [] [] ∅ (fun _ => 0) [] []).
(** The hart at the call of [userret]. *)
Definition demo_uhart (m : mem) : hart :=
  Hart (fun r => match r with a0 => TRAPFRAME | a1 => MAKE_SATP 0x87ff8000 | tp => 2 | _ => 0 end)
    (fun r => match r with mstatus => SSTATUS_SPIE | Asm.sepc => 0x3fffe00040 | Asm.stvec => TRAMPOLINE | Asm.satp => MAKE_SATP 0x87ffb000 | _ => 0 end)
    0 Supervisor m.

(** The process adds one to [a0] and makes a system call. *)
Lemma user_space_contained_witness :
  exists s' h1 h3, usertrapret 0x80001000 0 (World [] demo_utst) = Ok (MAKE_SATP 0x87ff8000) (World [] s') /\
    run TRAMPOLINE trampoline_pa userret (demo_uhart (phys (tk s'))) = Some h1 /\ pc h1 = 0x3fffe00040 /\ gpr h1 a0 = 7 /\
    run TRAMPOLINE trampoline_pa uservec (trap 8 0 (set_pc 0x3fffe00044 (set_x a0 (gpr h1 a0 + 1) h1))) = Some h3 /\
    pc h3 = 0x80001000 /\ priv h3 = Supervisor /\ gpr h3 sp = 0x3fffffe000 /\ gpr h3 tp = 2 /\ ld64 (pm h3) (demo_tf + tf_off a0) = 8.
Proof.
  destruct (user_space_contained 0x80001000 [] demo_utst 0 0x87ffb000 demo_uown demo_kown) as (s' & E & Hh).
  - reflexivity.
  - lia.
  - vm_compute. split; congruence.
  - reflexivity.
  - apply bytes_check. vm_compute. reflexivity.
  - exact demo_umem_ok.
  - apply isolated_check_sound; [apply demo_umem_ok|vm_compute; reflexivity].
  - assert (regs s' = Csr SSTATUS_SPIE 0x3fffe00040 0 0 TRAMPOLINE (MAKE_SATP 0x87ffb000) 2 0) as Er.
    { assert (Some (regs s') = match usertrapret 0x80001000 0 (World [] demo_utst) with Ok _ w => Some (regs (st w)) | _ => None end) as Er by (rewrite E; reflexivity).
      assert (match usertrapret 0x80001000 0 (World [] demo_utst) with Ok _ w => Some (regs (st w)) | _ => None end =
        Some (Csr SSTATUS_SPIE 0x3fffe00040 0 0 TRAMPOLINE (MAKE_SATP 0x87ffb000) 2 0)) as Er' by (vm_compute; reflexivity). congruence. }
    destruct (Hh (demo_uhart (phys (tk s')))) as (h1 & R1 & _ & _ & Hpc & Hg & Ht).
    + split; rewrite ?Er; reflexivity.
    + reflexivity.
    + reflexivity.
    + reflexivity.
    + destruct (Ht (set_pc 0x3fffe00044 (set_x a0 (gpr h1 a0 + 1) h1)) 8 0) as (h3 & _ & R3 & P3 & _ & _ & Pc3 & _ & Sp3 & Tp3 & _ & _ & Rg).
      * apply rtc_once. apply (ustep_exec (ADDI a0 a0 1) 0x3fffe00044 h1 (set_x a0 (gpr h1 a0 + 1) h1)); [reflexivity|lia].
      * assert (gpr h1 a0 = 7) as E7 by (rewrite Hg; vm_compute; reflexivity).
        assert (pc h1 = 0x3fffe00040) as Epc by (rewrite Hpc; vm_compute; reflexivity).
        assert (ld64 (pm h3) (demo_tf + tf_off a0) = 8) as E8.
        { change (p_trapframe (getp (tk demo_utst) 0)) with demo_tf in Rg. rewrite Rg. cbn [set_pc set_x gpr]. rewrite E7. reflexivity. }
        exists s', h1, h3. exact (conj E (conj R1 (conj Epc (conj E7 (conj R3 (conj Pc3 (conj P3 (conj Sp3 (conj Tp3 E8))))))))).
Defined.
