(* ===== verification/Tools.v ===== *)
(** * The small user programs: cat, wc, echo, ls, mkdir, rm, ln, kill, sleep;
    the system calls of grep

    The programs are written against an interface of the system calls they
    make ([Sys]); what the theorems rely on of those calls is [SysLaws], and
    [Demo] is a system that satisfies it, in which every read is cut as a list
    of numbers says.  A program ends by [exit] with a status.  A string is the
    list of its characters without the NUL; [printf] writes its output one
    character at a time.  The loops that read a file to its end have fuel. *)

From S2P Require Import Prelude Printf Ulib Grep.

Record ustat : Type := UStat { us_type : Z; us_ino : Z; us_size : Z }.

(** A call returns the value of the C function and the new state; [u_read]
    also the bytes it stored, [u_fstat] the structure. *)
Class Sys (S : Type) : Type := {
  u_open : list Z -> Z -> S -> Z * S;
  u_read : Z -> nat -> S -> Z * list Z * S;
  u_write : Z -> list Z -> S -> Z * S;
  u_close : Z -> S -> Z * S;
  u_mkdir : list Z -> S -> Z * S;
  u_unlink : list Z -> S -> Z * S;
  u_link : list Z -> list Z -> S -> Z * S;
  u_kill : Z -> S -> Z * S;
  u_sleep : Z -> S -> Z * S;
  u_fstat : Z -> S -> Z * ustat * S
}.

Inductive ures (S A : Type) : Type :=
| URet (a : A) (s : S)
| UExit (status : Z) (s : S)
| UFuel.
Arguments URet {S A} _ _.
Arguments UExit {S A} _ _.
Arguments UFuel {S A}.
Definition U (S A : Type) : Type := S -> ures S A.
#[export] Instance U_ret S : MRet (U S) := fun A a s => URet a s.
#[export] Instance U_bind S : MBind (U S) := fun A B k m s =>
  match m s with URet a s => k a s | UExit n s => UExit n s | UFuel => UFuel end.
Definition uexit {S A} (status : Z) : U S A := fun s => UExit status s.
Definition sys {S A} (f : S -> A * S) : U S A := fun s => let (a, s) := f s in URet a s.

Definition line (s : string) : list Z := str s ++ [10].

Section tools.
Context {S : Type} {K : Sys S}.
Abbreviation UM := (U S).

Fixpoint put_chars (fd : Z) (bs : list Z) : UM unit :=
  match bs with [] => mret tt | b :: bs => sys (u_write fd [b]);; put_chars fd bs end.
Definition fprintf_ (fd : Z) (fmt : list Z) (args : list uarg) : UM unit := put_chars fd (default [] (fprintf fmt args)).
Definition printf_ : list Z -> list uarg -> UM unit := fprintf_ 1.

(** A [main] that treats its arguments one after the other. *)
Fixpoint each (args : list (list Z)) (f : list Z -> UM unit) : UM unit :=
  match args with [] => uexit 0 | a :: args => f a;; each args f end.

(** ** user/cat.c *)
Fixpoint cat (fuel : nat) (fd : Z) : UM unit :=
  match fuel with
  | O => fun _ => UFuel
  | Datatypes.S fuel =>
      r ← sys (u_read fd 512);
      let (n, buf) := r : Z * list Z in
      if 0 <? n then
        w ← sys (u_write 1 (take (Z.to_nat n) buf));
        if negb (w =? n) then fprintf_ 2 (line "cat: write error") [];; uexit 1 else cat fuel fd
      else if n <? 0 then fprintf_ 2 (line "cat: read error") [];; uexit 1
      else mret tt
  end.
Definition cat_file (fuel : nat) (arg : list Z) : UM unit :=
  fd ← sys (u_open arg 0);
  if fd <? 0 then fprintf_ 2 (line "cat: cannot open %s") [UStr (Some arg)];; uexit 1 else
  cat fuel fd;;
  sys (u_close fd);;
  mret tt.
Definition cat_main (fuel : nat) (argv : list (list Z)) : UM unit :=
  if (length argv <=? 1)%nat then cat fuel 0;; uexit 0 else each (tl argv) (cat_file fuel).

(** ** user/wc.c *)
Record counts : Type := Counts { wl : Z; ww : Z; wc_ : Z; inword : bool }.
(** [strchr(" \r\t\n\v", c)] is not null. *)
Definition blank (c : Z) : bool := bool_decide (c ∈ [32; 13; 9; 10; 11]).
Definition wc_char (t : counts) (b : Z) : counts :=
  let c := i32 (wc_ t + 1) in
  let l := if b =? 10 then i32 (wl t + 1) else wl t in
  if blank b then Counts l (ww t) c false
  else if negb (inword t) then Counts l (i32 (ww t + 1)) c true
  else Counts l (ww t) c (inword t).
Fixpoint wc_loop (fuel : nat) (fd : Z) (t : counts) : UM (Z * counts) :=
  match fuel with
  | O => fun _ => UFuel
  | Datatypes.S fuel =>
      r ← sys (u_read fd 512);
      let (n, buf) := r : Z * list Z in
      if 0 <? n then wc_loop fuel fd (foldl wc_char t (take (Z.to_nat n) buf)) else mret (n, t)
  end.
Definition wc_format : list Z := line "%d %d %d %s".
Definition wc (fuel : nat) (fd : Z) (name : list Z) : UM unit :=
  r ← wc_loop fuel fd (Counts 0 0 0 false);
  let (n, t) := r : Z * counts in
  if n <? 0 then printf_ (line "wc: read error") [];; uexit 1 else
  printf_ wc_format [UInt (wl t); UInt (ww t); UInt (wc_ t); UStr (Some name)].
Definition wc_file (fuel : nat) (arg : list Z) : UM unit :=
  fd ← sys (u_open arg 0);
  if fd <? 0 then printf_ (line "wc: cannot open %s") [UStr (Some arg)];; uexit 1 else
  wc fuel fd arg;;
  sys (u_close fd);;
  mret tt.
Definition wc_main (fuel : nat) (argv : list (list Z)) : UM unit :=
  if (length argv <=? 1)%nat then wc fuel 0 [];; uexit 0 else each (tl argv) (wc_file fuel).

(** ** user/echo.c *)
Fixpoint echo_loop (args : list (list Z)) : UM unit :=
  match args with
  | [] => uexit 0
  | a :: rest =>
      sys (u_write 1 a);;
      sys (u_write 1 (match rest with [] => [10] | _ => [32] end));;
      echo_loop rest
  end.
Definition echo_main (argv : list (list Z)) : UM unit := echo_loop (tl argv).

(** ** user/mkdir.c, user/rm.c, user/ln.c, user/kill.c, user/sleep.c *)
Fixpoint until_fails (op : list Z -> S -> Z * S) (msg : list Z) (args : list (list Z)) : UM unit :=
  match args with
  | [] => mret tt
  | a :: args =>
      r ← sys (op a);
      if r <? 0 then fprintf_ 2 msg [UStr (Some a)] else until_fails op msg args
  end.
Definition mkdir_main (argv : list (list Z)) : UM unit :=
  if (length argv <? 2)%nat then fprintf_ 2 (line "Usage: mkdir files...") [];; uexit 1 else
  until_fails u_mkdir (line "mkdir: %s failed to create") (tl argv);;
  uexit 0.
Definition rm_main (argv : list (list Z)) : UM unit :=
  if (length argv <? 2)%nat then fprintf_ 2 (line "Usage: rm files...") [];; uexit 1 else
  until_fails u_unlink (line "rm: %s failed to delete") (tl argv);;
  uexit 0.
Definition ln_main (argv : list (list Z)) : UM unit :=
  match argv with
  | [_; old; new] =>
      r ← sys (u_link old new);
      (if r <? 0 then fprintf_ 2 (line "link %s %s: failed") [UStr (Some old); UStr (Some new)] else mret tt);;
      uexit 0
  | _ => fprintf_ 2 (line "Usage: ln old new") [];; uexit 1
  end.
Definition kill_main (argv : list (list Z)) : UM unit :=
  if (length argv <? 2)%nat then fprintf_ 2 (line "usage: kill pid...") [];; uexit 1 else
  each (tl argv) (fun a => sys (u_kill (atoi a));; mret tt).
Definition sleep_main (argv : list (list Z)) : UM unit :=
  match argv with
  | [_; n] => sys (u_sleep (atoi n));; uexit 0
  | _ => fprintf_ 2 (line "usage: sleep ticks") [];; uexit 1
  end.

(** ** user/grep.c: the calls of [grep], and its [main]

    [p] is what is left of the buffer, [buf] the bytes kept from one read to
    the next. *)
Fixpoint write_matches (fuel : nat) (pattern p : list Z) : UM (list Z) :=
  match fuel with
  | O => mret p
  | Datatypes.S fuel =>
      match break_line p with
      | Some (l, rest) =>
          (if match_ pattern l then sys (u_write 1 (l ++ [10]));; mret tt else mret tt);;
          write_matches fuel pattern rest
      | None => mret p
      end
  end.
Fixpoint grep_fd (fuel : nat) (pattern : list Z) (fd : Z) (buf : list Z) : UM unit :=
  match fuel with
  | O => fun _ => UFuel
  | Datatypes.S fuel =>
      r ← sys (u_read fd (bufsize - length buf - 1));
      let (n, bs) := r : Z * list Z in
      if 0 <? n then
        let buf := buf ++ take (Z.to_nat n) bs in
        left ← write_matches (length buf) pattern buf;
        grep_fd fuel pattern fd left
      else mret tt
  end.
Definition grep_file (fuel : nat) (pattern arg : list Z) : UM unit :=
  fd ← sys (u_open arg 0);
  if fd <? 0 then printf_ (line "grep: cannot open %s") [UStr (Some arg)];; uexit 1 else
  grep_fd fuel pattern fd [];;
  sys (u_close fd);;
  mret tt.
Definition grep_main (fuel : nat) (argv : list (list Z)) : UM unit :=
  match argv with
  | _ :: pattern :: [] => grep_fd fuel pattern 0 [];; uexit 0
  | _ :: pattern :: files => each files (grep_file fuel pattern)
  | _ => fprintf_ 2 (line "usage: grep pattern [file ...]") [];; uexit 1
  end.

(** ** user/ulib.c: [stat] *)
Definition stat (n : list Z) : UM (Z * ustat) :=
  fd ← sys (u_open n 0);
  if fd <? 0 then mret (-1, UStat 0 0 0) else
  r ← sys (u_fstat fd);
  sys (u_close fd);;
  mret r.

(** ** user/ls.c *)
Definition DIRSIZ_ : nat := 14.
(** [for(p = path + k; p >= path && *p != '/'; p--); p++;] - the index. *)
Fixpoint after_slash (path : list Z) (k : nat) : nat :=
  match k with
  | O => 0
  | Datatypes.S k' => if default 0 (path !! k') =? 47 then k else after_slash path k'
  end.
Definition fmtname (path : list Z) : list Z :=
  let p := drop (after_slash path (Datatypes.S (length path))) path in
  if (DIRSIZ_ <=? length p)%nat then p else p ++ replicate (DIRSIZ_ - length p) 32.

Fixpoint c_string (bs : list Z) : list Z :=
  match bs with [] => [] | b :: bs => if b =? 0 then [] else b :: c_string bs end.
Fixpoint ls_entries (fuel : nat) (fd : Z) (path : list Z) : UM unit :=
  match fuel with
  | O => fun _ => UFuel
  | Datatypes.S fuel =>
      r ← sys (u_read fd 16);
      let (n, de) := r : Z * list Z in
      if negb (n =? 16) then mret tt else
      if little_endian_to_Z 8 (take 2 de) =? 0 then ls_entries fuel fd path else
      let buf := path ++ [47] ++ c_string (take DIRSIZ_ (drop 2 de)) in
      r ← stat buf;
      let (r, st) := r : Z * ustat in
      (if r <? 0 then printf_ (line "ls: cannot stat %s") [UStr (Some buf)]
       else printf_ (line "%s %d %d %d") [UStr (Some (fmtname buf)); UInt (us_type st); UInt (i32 (us_ino st)); UInt (i32 (us_size st))]);;
      ls_entries fuel fd path
  end.
Definition ls (fuel : nat) (path : list Z) : UM unit :=
  fd ← sys (u_open path 0);
  if fd <? 0 then fprintf_ 2 (line "ls: cannot open %s") [UStr (Some path)] else
  r ← sys (u_fstat fd);
  let (r, st) := r : Z * ustat in
  if r <? 0 then fprintf_ 2 (line "ls: cannot stat %s") [UStr (Some path)];; sys (u_close fd);; mret tt else
  (if us_type st =? 2 then
     printf_ (line "%s %d %d %l") [UStr (Some (fmtname path)); UInt (us_type st); UInt (i32 (us_ino st)); ULong (us_size st)]
   else if us_type st =? 1 then
     (if (512 <? length path + 1 + DIRSIZ_ + 1)%nat then printf_ (line "ls: path too long") [] else ls_entries fuel fd path)
   else mret tt);;
  sys (u_close fd);;
  mret tt.
Definition ls_main (fuel : nat) (argv : list (list Z)) : UM unit :=
  if (length argv <? 2)%nat then ls fuel (str ".");; uexit 0 else each (tl argv) (ls fuel).
End tools.

(** ** What the system calls promise

    Descriptor 1 is open for writing and writes to it are complete; a read of
    a file returns some of the bytes that are left, and none only at the end;
    writing to the output does not change the files that are read. *)
Class SysLaws (S : Type) {K : Sys S} : Type := {
  rest : S -> Z -> option (list Z);
  output : S -> list Z;
  contents : S -> list Z -> option (list Z);
  read_rest fd n s bs : rest s fd = Some bs ->
    exists k s', u_read fd n s = (Z.of_nat k, take k bs, s') /\ (k <= n)%nat /\ (k <= length bs)%nat /\ ((0 < n)%nat -> bs <> [] -> (0 < k)%nat) /\
      rest s' fd = Some (drop k bs) /\ output s' = output s /\ contents s' = contents s;
  write_output bs s : exists s', u_write 1 bs s = (Z.of_nat (length bs), s') /\
    output s' = output s ++ bs /\ rest s' = rest s /\ contents s' = contents s;
  write_other fd bs s : fd <> 1 -> exists n s', u_write fd bs s = (n, s') /\ output s' = output s /\ rest s' = rest s /\ contents s' = contents s;
  open_contents path s : exists fd s', u_open path 0 s = (fd, s') /\ output s' = output s /\ contents s' = contents s /\
    match contents s path with Some bs => 0 <= fd /\ rest s' fd = Some bs | None => fd < 0 end;
  close_keeps fd s : exists r s', u_close fd s = (r, s') /\ output s' = output s /\ contents s' = contents s
}.

(** ** Theorems *)

(** What is printed, and the status, when the arguments are files that are
    treated in turn up to the first that cannot be opened. *)
Fixpoint serve (c : list Z -> option (list Z)) (good : list Z -> list Z -> list Z) (bad : list Z -> list Z) (files : list (list Z)) : Z * list Z :=
  match files with
  | [] => (0, [])
  | f :: files =>
      match c f with
      | None => (1, bad f)
      | Some bs => let (status, out) := serve c good bad files in (status, good f bs ++ out)
      end
  end.

(** Lines, words and bytes: the words are the non-empty pieces between
    blanks. *)
Fixpoint pieces (bs : list Z) : list Z * list (list Z) :=
  match bs with
  | [] => ([], [])
  | b :: bs => let (p, ps) := pieces bs in if blank b then ([], p :: ps) else (b :: p, ps)
  end.
Definition nonempty (p : list Z) : bool := match p with [] => false | _ => true end.
Definition words (bs : list Z) : list (list Z) := List.filter nonempty (let (p, ps) := pieces bs in p :: ps).
Definition newlines (bs : list Z) : list Z := List.filter (Z.eqb 10) bs.
Definition wc_report (name bs : list Z) : list Z :=
  uprintint (Z.of_nat (length (newlines bs))) 10 true ++ [32] ++ uprintint (Z.of_nat (length (words bs))) 10 true ++ [32] ++
  uprintint (Z.of_nat (length bs)) 10 true ++ [32] ++ name ++ [10].
Definition wc_cannot_open (name : list Z) : list Z := str "wc: cannot open " ++ name ++ [10].

Section theorems.
Context {S : Type} {K : Sys S} {L : SysLaws S}.
Implicit Types (s : S).

Lemma bind_ret {A B} (m : U S A) (f : A -> U S B) s a s' : m s = URet a s' -> (m ≫= f) s = f a s'.
Proof. unfold mbind, U_bind. by intros ->. Qed.
Lemma bind_exit {A B} (m : U S A) (f : A -> U S B) s n s' : m s = UExit n s' -> (m ≫= f) s = UExit n s'.
Proof. unfold mbind, U_bind. by intros ->. Qed.
Lemma sys_run {A} (f : S -> A * S) s a s' : f s = (a, s') -> sys f s = URet a s'.
Proof. unfold sys. by intros ->. Qed.

Lemma put_chars_out bs s : exists s', put_chars 1 bs s = URet tt s' /\ output s' = output s ++ bs /\ rest s' = rest s /\ contents s' = contents s.
Proof.
  revert s. induction bs as [|b bs IH]; intros s; [exists s; split_and!; [done|by rewrite app_nil_r|done..]|].
  destruct (write_output [b] s) as (s1 & E & O1 & R1 & C1). destruct (IH s1) as (s2 & E2 & O2 & R2 & C2). exists s2. split_and!; [|by rewrite O2, O1, <- app_assoc|congruence..].
  cbn [put_chars]. by rewrite (bind_ret _ _ _ _ _ (sys_run _ _ _ _ E)).
Qed.
Lemma put_chars_other fd bs s : fd <> 1 -> exists s', put_chars fd bs s = URet tt s' /\ output s' = output s /\ contents s' = contents s.
Proof.
  intros Hfd. revert s. induction bs as [|b bs IH]; intros s; [by exists s|].
  destruct (write_other fd [b] s Hfd) as (n & s1 & E & O1 & R1 & C1). destruct (IH s1) as (s2 & E2 & O2 & C2). exists s2. split_and!; [|congruence..].
  cbn [put_chars]. by rewrite (bind_ret _ _ _ _ _ (sys_run _ _ _ _ E)).
Qed.

(** A [main] that serves its arguments does so in order, given what it does
    with one of them. *)
Lemma each_serves (ok : list Z -> Prop) f good bad :
  (forall a s, match contents s a with
               | Some bs => ok bs -> exists s', f a s = URet tt s' /\ output s' = output s ++ good a bs /\ contents s' = contents s
               | None => exists s', f a s = UExit 1 s' /\ output s' = output s ++ bad a
               end) ->
  forall files s, (forall a bs, a ∈ files -> contents s a = Some bs -> ok bs) ->
  exists s', each files f s = UExit (serve (contents s) good bad files).1 s' /\ output s' = output s ++ (serve (contents s) good bad files).2.
Proof.
  intros Hf. induction files as [|a files IH]; intros s Hok; [exists s; split; [done|by rewrite app_nil_r]|].
  specialize (Hf a s). cbn [each serve]. destruct (contents s a) as [bs|] eqn:Ec.
  - destruct Hf as (s1 & E1 & O1 & C1); [apply (Hok a); [by left|done]|]. rewrite (bind_ret _ _ _ _ _ E1).
    destruct (IH s1) as (s2 & E2 & O2); [intros a' bs' Ha; rewrite C1; apply Hok; by right|]. rewrite C1 in E2, O2. exists s2.
    destruct (serve (contents s) good bad files) as [st o]. split; [done|]. cbn in *. by rewrite O2, O1, <- app_assoc.
  - destruct Hf as (s1 & E1 & O1). exists s1. split; [by apply bind_exit|done].
Qed.

(** A whole file through a loop of reads. *)
Lemma cat_run fuel fd bs s : rest s fd = Some bs -> (length bs < fuel)%nat ->
  exists s', cat fuel fd s = URet tt s' /\ output s' = output s ++ bs /\ contents s' = contents s.
Proof.
  revert bs s. induction fuel as [|fuel IH]; intros bs s Hr Hf; [lia|]. destruct (read_rest fd 512 s bs Hr) as (k & s1 & E & Hk & Hl & Hpos & R1 & O1 & C1).
  cbn [cat]. rewrite (bind_ret _ _ _ _ _ (sys_run _ _ _ _ E)). cbv beta iota. destruct (Z.ltb_spec 0 (Z.of_nat k)) as [Hk0|Hk0].
  - rewrite Nat2Z.id, take_take, Nat.min_id. destruct (write_output (take k bs) s1) as (s2 & E2 & O2 & R2 & C2).
    rewrite (bind_ret _ _ _ _ _ (sys_run _ _ _ _ E2)). rewrite length_take, Nat.min_l, Z.eqb_refl by done. cbn [negb].
    destruct (IH (drop k bs) s2) as (s3 & E3 & O3 & C3); [congruence|rewrite length_drop; lia|]. exists s3.
    split_and!; [done| |congruence]. by rewrite O3, O2, O1, <- app_assoc, take_drop.
  - assert (k = 0%nat) as -> by lia. destruct bs as [|b bs]; [|specialize (Hpos ltac:(lia) ltac:(done)); lia]. exists s1. split_and!; [done| |done]. by rewrite O1, app_nil_r.
Qed.

(** The programs [cat] and [wc], when a file can be opened and when not. *)
Theorem cat_concatenates fuel prog files s :
  files <> [] -> (forall a bs, a ∈ files -> contents s a = Some bs -> (length bs < fuel)%nat) ->
  exists s', cat_main fuel (prog :: files) s = UExit (serve (contents s) (fun _ bs => bs) (fun _ => []) files).1 s' /\
    output s' = output s ++ (serve (contents s) (fun _ bs => bs) (fun _ => []) files).2.
Proof.
  intros Hne Hf. unfold cat_main. destruct files as [|f files]; [done|]. cbn [length Nat.leb tl].
  apply (each_serves (fun bs => length bs < fuel)%nat); [clear|done]. intros a s. unfold cat_file.
  destruct (open_contents a s) as (fd & s1 & E & O1 & C1 & H). rewrite (bind_ret _ _ _ _ _ (sys_run _ _ _ _ E)). destruct (contents s a) as [bs|].
  - intros Hbs. destruct H as [Hfd Hr]. destruct (Z.ltb_spec fd 0); [lia|]. destruct (cat_run fuel fd bs s1 Hr Hbs) as (s2 & E2 & O2 & C2).
    rewrite (bind_ret _ _ _ _ _ E2). destruct (close_keeps fd s2) as (r & s3 & E3 & O3 & C3). rewrite (bind_ret _ _ _ _ _ (sys_run _ _ _ _ E3)).
    exists s3. split_and!; [done| |congruence]. by rewrite O3, O2, O1.
  - destruct (Z.ltb_spec fd 0); [|lia]. unfold fprintf_. destruct (put_chars_other 2 (default [] (fprintf (line "cat: cannot open %s") [UStr (Some a)])) s1) as (s2 & E2 & O2 & C2); [done|].
    rewrite (bind_ret _ _ _ _ _ E2). exists s2. split; [done|]. by rewrite app_nil_r, O2, O1.
Qed.

(** The counters of [wc] after some text. *)
Definition words_from (inw : bool) (bs : list Z) : list (list Z) :=
  let (p, ps) := pieces bs in List.filter nonempty (if inw then ps else p :: ps).
Lemma wc_fold bs l w c inw :
  0 <= l <= c -> 0 <= w <= c -> c + Z.of_nat (length bs) < 2^31 ->
  exists inw', foldl wc_char (Counts l w c inw) bs =
    Counts (l + Z.of_nat (length (newlines bs))) (w + Z.of_nat (length (words_from inw bs))) (c + Z.of_nat (length bs)) inw'.
Proof.
  revert l w c inw. induction bs as [|b bs IH]; intros l w c inw Hl Hw Hc.
  { exists inw. cbn. f_equal; destruct inw; cbn; lia. }
  cbn [length] in Hc. cbn [foldl].
  assert (forall x, 0 <= x <= c -> i32 (x + 1) = x + 1) as Hi by (intros; apply signed_small; lia).
  assert (10 = b -> blank b = true) as H10 by (intros <-; done).
  unfold wc_char at 2. cbn [wl ww wc_ inword]. rewrite !Hi by lia. unfold words_from, newlines. cbn [pieces List.filter length].
  rewrite (Z.eqb_sym b 10). specialize (fun l' w' i => IH l' w' (c + 1) i). unfold words_from, newlines in IH. destruct (pieces bs) as [p ps].
  destruct (Z.eqb_spec 10 b) as [Eb|Eb]; [rewrite (H10 Eb)|destruct (blank b); [|destruct inw]]; cbn [negb].
  - destruct (IH (l + 1) w false) as (i' & ->); [lia..|]. exists i'. cbn [length]. destruct inw; cbn [List.filter nonempty length] in *; f_equal; lia.
  - destruct (IH l w false) as (i' & ->); [lia..|]. exists i'. destruct inw; cbn [List.filter nonempty length] in *; f_equal; lia.
  - destruct (IH l w true) as (i' & ->); [lia..|]. exists i'. f_equal; lia.
  - destruct (IH l (w + 1) true) as (i' & ->); [lia..|]. exists i'. cbn [List.filter nonempty length]. f_equal; lia.
Qed.

Lemma wc_loop_run fuel fd bs t s : rest s fd = Some bs -> (length bs < fuel)%nat ->
  exists s', wc_loop fuel fd t s = URet (0, foldl wc_char t bs) s' /\ output s' = output s /\ contents s' = contents s.
Proof.
  revert bs t s. induction fuel as [|fuel IH]; intros bs t s Hr Hf; [lia|]. destruct (read_rest fd 512 s bs Hr) as (k & s1 & E & Hk & Hl & Hpos & R1 & O1 & C1).
  cbn [wc_loop]. rewrite (bind_ret _ _ _ _ _ (sys_run _ _ _ _ E)). cbv beta iota. destruct (Z.ltb_spec 0 (Z.of_nat k)) as [Hk0|Hk0].
  - rewrite Nat2Z.id, take_take, Nat.min_id. destruct (IH (drop k bs) (foldl wc_char t (take k bs)) s1) as (s2 & E2 & O2 & C2); [done|rewrite length_drop; lia|].
    exists s2. rewrite E2, <- foldl_app, take_drop. split_and!; [done|congruence..].
  - assert (k = 0%nat) as -> by lia. destruct bs as [|b bs]; [|specialize (Hpos ltac:(lia) ltac:(done)); lia]. by exists s1.
Qed.

Lemma wc_format_prints l w c name :
  fprintf wc_format [UInt l; UInt w; UInt c; UStr (Some name)] =
  Some (uprintint l 10 true ++ [32] ++ uprintint w 10 true ++ [32] ++ uprintint c 10 true ++ [32] ++ name ++ [10]).
Proof. change wc_format with [37; 100; 32; 37; 100; 32; 37; 100; 32; 37; 115; 10]. reflexivity. Qed.
Lemma wc_cannot_open_prints name : fprintf (line "wc: cannot open %s") [UStr (Some name)] = Some (wc_cannot_open name).
Proof. reflexivity. Qed.

Lemma wc_run fuel fd name bs s : rest s fd = Some bs -> (length bs < fuel)%nat -> Z.of_nat (length bs) < 2^31 ->
  exists s', wc fuel fd name s = URet tt s' /\ output s' = output s ++ wc_report name bs /\ contents s' = contents s.
Proof.
  intros Hr Hf Hb. destruct (wc_loop_run fuel fd bs (Counts 0 0 0 false) s Hr Hf) as (s1 & E1 & O1 & C1). unfold wc.
  rewrite (bind_ret _ _ _ _ _ E1). cbv beta iota. cbn [Z.ltb Z.compare]. destruct (wc_fold bs 0 0 0 false) as (i & ->); [lia..|]. cbn [wl ww wc_].
  unfold printf_, fprintf_. rewrite wc_format_prints. cbn [default from_option id]. destruct (put_chars_out (wc_report name bs) s1) as (s2 & E2 & O2 & _ & C2).
  exists s2. split_and!; [|by rewrite O2, O1|congruence]. rewrite <- E2. unfold wc_report, words, words_from. by destruct (pieces bs).
Qed.

(** C39: [wc] counts.  For each argument in turn [wc] terminates having printed
    the number of newlines, the number of words and the number of bytes of the
    file, however the kernel cuts the file into reads: the words are the
    non-empty pieces of the text between blanks, also when a read ends in the
    middle of one.  At the first file that cannot be opened it says so and
    exits with status 1, otherwise with 0. *)
Theorem wc_counts fuel prog files s :
  files <> [] -> (forall a bs, a ∈ files -> contents s a = Some bs -> (length bs < fuel)%nat /\ Z.of_nat (length bs) < 2^31) ->
  exists s', wc_main fuel (prog :: files) s = UExit (serve (contents s) wc_report wc_cannot_open files).1 s' /\
    output s' = output s ++ (serve (contents s) wc_report wc_cannot_open files).2.
Proof.
  intros Hne Hf. unfold wc_main. destruct files as [|f files]; [done|]. cbn [length Nat.leb tl].
  apply (each_serves (fun bs => (length bs < fuel)%nat /\ Z.of_nat (length bs) < 2^31)); [clear|done]. intros a s. unfold wc_file.
  destruct (open_contents a s) as (fd & s1 & E & O1 & C1 & H). rewrite (bind_ret _ _ _ _ _ (sys_run _ _ _ _ E)). destruct (contents s a) as [bs|].
  - intros [Hbs Hi]. destruct H as [Hfd Hr]. destruct (Z.ltb_spec fd 0); [lia|]. destruct (wc_run fuel fd a bs s1 Hr Hbs Hi) as (s2 & E2 & O2 & C2).
    rewrite (bind_ret _ _ _ _ _ E2). destruct (close_keeps fd s2) as (r & s3 & E3 & O3 & C3). rewrite (bind_ret _ _ _ _ _ (sys_run _ _ _ _ E3)).
    exists s3. split_and!; [done| |congruence]. by rewrite O3, O2, O1.
  - destruct (Z.ltb_spec fd 0); [|lia]. unfold printf_, fprintf_. rewrite wc_cannot_open_prints. cbn [default from_option id].
    destruct (put_chars_out (wc_cannot_open a) s1) as (s2 & E2 & O2 & _). rewrite (bind_ret _ _ _ _ _ E2). exists s2. split; [done|]. by rewrite O2, O1.
Qed.

(** ** grep *)
Lemma write_matches_run fuel pattern p s :
  exists s', write_matches fuel pattern p s = URet (grep_lines fuel pattern p).2 s' /\
    output s' = output s ++ (grep_lines fuel pattern p).1 /\ rest s' = rest s /\ contents s' = contents s.
Proof.
  revert p s. induction fuel as [|fuel IH]; intros p s; cbn [write_matches grep_lines]; [exists s; split_and!; [done|by rewrite app_nil_r|done..]|].
  destruct (break_line p) as [[l r]|]; [|exists s; split_and!; [done|by rewrite app_nil_r|done..]].
  destruct (match_ pattern l).
  - destruct (write_output (l ++ [10]) s) as (s1 & E1 & O1 & R1 & C1). destruct (IH r s1) as (s2 & E2 & O2 & R2 & C2). exists s2.
    rewrite (bind_ret _ _ _ tt s1) by (by rewrite (bind_ret _ _ _ _ _ (sys_run _ _ _ _ E1))). rewrite E2. destruct (grep_lines fuel pattern r) as [o lf].
    split_and!; [done| |congruence..]. cbn in *. by rewrite O2, O1, <- app_assoc.
  - destruct (IH r s) as (s2 & E2 & O2 & R2 & C2). exists s2. rewrite (bind_ret _ _ _ tt s) by done. rewrite E2.
    destruct (grep_lines fuel pattern r) as [o lf]. by split_and!.
Qed.

(** The program makes the reads that some way of cutting the input gives the
    loop of [Grep]. *)
Lemma grep_fd_run fuel pattern fd buf bs s : rest s fd = Some bs -> (length bs < fuel)%nat ->
  exists ks out s', grep_fd fuel pattern fd buf s = URet tt s' /\ grep_loop fuel ks pattern buf bs = Some out /\
    output s' = output s ++ out /\ contents s' = contents s.
Proof.
  revert buf bs s. induction fuel as [|fuel IH]; intros buf bs s Hr Hf; [lia|].
  destruct (read_rest fd (bufsize - length buf - 1) s bs Hr) as (k & s1 & E & Hk & Hl & Hpos & R1 & O1 & C1).
  cbn [grep_fd grep_loop]. rewrite (bind_ret _ _ _ _ _ (sys_run _ _ _ _ E)). cbv beta iota. destruct (Z.ltb_spec 0 (Z.of_nat k)) as [Hk0|Hk0].
  - rewrite Nat2Z.id, take_take, Nat.min_id.
    destruct (write_matches_run (length (buf ++ take k bs)) pattern (buf ++ take k bs) s1) as (s2 & E2 & O2 & R2 & C2). rewrite (bind_ret _ _ _ _ _ E2).
    destruct (IH (grep_lines (length (buf ++ take k bs)) pattern (buf ++ take k bs)).2 (drop k bs) s2) as (ks & out & s3 & E3 & G3 & O3 & C3);
      [congruence|rewrite length_drop; lia|].
    exists (k :: ks). cbn [hd tl]. assert (read_len k (bufsize - length buf - 1) bs = k) as -> by (unfold read_len; lia).
    destruct (Nat.eqb_spec k 0); [lia|]. destruct (grep_lines _ _ _) as [o lf]. cbn [fst snd] in *. rewrite G3. exists (o ++ out), s3.
    split_and!; [done|done| |congruence]. by rewrite O3, O2, O1, <- app_assoc.
  - exists [], [], s1. assert (k = 0%nat) as -> by lia.
    assert (read_len (hd bufsize []) (bufsize - length buf - 1) bs = 0%nat) as ->.
    { unfold read_len. destruct bs as [|b bs]; [cbn; lia|]. destruct (decide (0 < bufsize - length buf - 1)%nat) as [Hn|]; [specialize (Hpos Hn ltac:(done)); lia|lia]. }
    split_and!; [done|done| |done]. by rewrite O1, app_nil_r.
Qed.

Definition greppable (input : list Z) : Prop := no_nul input /\ Forall (fun l => (length l < bufsize - 1)%nat) (lines_of input).1.
Definition grep_cannot_open (name : list Z) : list Z := str "grep: cannot open " ++ name ++ [10].

(** [grep] of files prints the matching lines of each in turn, up to the first
    that cannot be opened. *)
Theorem grep_main_prints fuel prog pattern files s :
  files <> [] -> (forall a bs, a ∈ files -> contents s a = Some bs -> (length bs < fuel)%nat /\ greppable bs) ->
  let printed := serve (contents s) (fun _ bs => print_lines pattern (lines_of bs).1) grep_cannot_open files in
  exists s', grep_main fuel (prog :: pattern :: files) s = UExit printed.1 s' /\ output s' = output s ++ printed.2.
Proof.
  intros Hne Hf. unfold grep_main. destruct files as [|f files]; [done|].
  apply (each_serves (fun bs => (length bs < fuel)%nat /\ greppable bs)); [clear|done]. intros a s. unfold grep_file.
  destruct (open_contents a s) as (fd & s1 & E & O1 & C1 & H). rewrite (bind_ret _ _ _ _ _ (sys_run _ _ _ _ E)). destruct (contents s a) as [bs|].
  - intros [Hbs [Hn Hl]]. destruct H as [Hfd Hr]. destruct (Z.ltb_spec fd 0); [lia|].
    destruct (grep_fd_run fuel pattern fd [] bs s1 Hr Hbs) as (ks & out & s2 & E2 & G2 & O2 & C2).
    rewrite (grep_loop_prints fuel ks pattern [] bs) in G2 by (done || lia). injection G2 as <-.
    rewrite (bind_ret _ _ _ _ _ E2). destruct (close_keeps fd s2) as (r & s3 & E3 & O3 & C3). rewrite (bind_ret _ _ _ _ _ (sys_run _ _ _ _ E3)).
    exists s3. split_and!; [done| |congruence]. by rewrite O3, O2, O1.
  - destruct (Z.ltb_spec fd 0); [|lia]. unfold printf_, fprintf_. change (default [] (fprintf (line "grep: cannot open %s") [UStr (Some a)])) with (grep_cannot_open a).
    destruct (put_chars_out (grep_cannot_open a) s1) as (s2 & E2 & O2 & _). rewrite (bind_ret _ _ _ _ _ E2). exists s2. split; [done|]. by rewrite O2, O1.
Qed.

(** [echo] prints its arguments separated by blanks, on one line. *)
Fixpoint echoed (args : list (list Z)) : list Z :=
  match args with [] => [] | [a] => a ++ [10] | a :: args => a ++ [32] ++ echoed args end.
Theorem echo_prints prog args s : exists s', echo_main (prog :: args) s = UExit 0 s' /\ output s' = output s ++ echoed args.
Proof.
  unfold echo_main. cbn [tl]. revert s. induction args as [|a args IH]; intros s; [exists s; split; [done|by rewrite app_nil_r]|].
  cbn [echo_loop]. destruct (write_output a s) as (s1 & E1 & O1 & _). rewrite (bind_ret _ _ _ _ _ (sys_run _ _ _ _ E1)).
  destruct (write_output (match args with [] => [10] | _ => [32] end) s1) as (s2 & E2 & O2 & _). rewrite (bind_ret _ _ _ _ _ (sys_run _ _ _ _ E2)).
  destruct (IH s2) as (s3 & E3 & O3). exists s3. split; [done|]. rewrite O3, O2, O1. destruct args; cbn [echoed]; by rewrite <- ?app_assoc, ?app_nil_r.
Qed.
End theorems.

(** [fmtname] is the last component of a path, padded with blanks. *)
Lemma after_slash_S path k :
  after_slash path (Datatypes.S k) = if default 0 (path !! k) =? 47 then Datatypes.S k else after_slash path k.
Proof. reflexivity. Qed.
Lemma after_slash_plain (dir name : list Z) k :
  47 ∉ name -> (k <= Datatypes.S (length name))%nat -> after_slash (dir ++ 47 :: name) (Datatypes.S (length dir + k)) = Datatypes.S (length dir).
Proof.
  intros Hn. induction k as [|k IH]; intros Hk; rewrite after_slash_S.
  - rewrite Nat.add_0_r, lookup_app_r, Nat.sub_diag by lia. done.
  - replace (length dir + Datatypes.S k)%nat with (Datatypes.S (length dir + k)) at 1 by lia.
    rewrite lookup_app_r by lia. replace (Datatypes.S (length dir + k) - length dir)%nat with (Datatypes.S k) by lia.
    change ((47 :: name) !! Datatypes.S k) with (name !! k). destruct (name !! k) as [c|] eqn:Ec; cbn [default from_option id].
    + destruct (Z.eqb_spec c 47) as [->|_]; [destruct Hn; by eapply list_elem_of_lookup_2|].
      replace (length dir + Datatypes.S k)%nat with (Datatypes.S (length dir + k)) by lia. apply IH. lia.
    + replace (length dir + Datatypes.S k)%nat with (Datatypes.S (length dir + k)) by lia. apply IH. lia.
Qed.
Lemma fmtname_component dir name : 47 ∉ name -> (length name < 14)%nat ->
  fmtname (dir ++ 47 :: name) = name ++ replicate (14 - length name) 32.
Proof.
  intros Hn Hl. unfold fmtname. rewrite length_app. cbn [length].
  rewrite after_slash_plain by (done || lia). replace (drop (Datatypes.S (length dir)) (dir ++ 47 :: name)) with name.
  - unfold DIRSIZ_. destruct (Nat.leb_spec 14 (length name)); [lia|done].
  - replace (Datatypes.S (length dir)) with (length dir + 1)%nat by lia. rewrite <- drop_drop, drop_app_length. done.
Qed.

(** ** A system that keeps the promises *)
Module Demo.
Record t : Type := T { files : list (list Z * list Z); fds : gmap Z (list Z); out : list Z; cuts : list nat }.
Definition find (path : list Z) (s : t) : option (list Z) := snd <$> List.find (fun f => bool_decide (fst f = path)) (files s).
Definition read_len (n : nat) (bs : list Z) (s : t) : nat := Nat.min (Nat.min (Nat.max 1 (hd n (cuts s))) n) (length bs).
#[global] Instance calls : Sys t := {|
  u_open path _ s := match find path s with Some bs => (3, T (files s) (<[3 := bs]> (fds s)) (out s) (cuts s)) | None => (-1, s) end;
  u_read fd n s :=
    match fds s !! fd with
    | Some bs => let k := read_len n bs s in (Z.of_nat k, take k bs, T (files s) (<[fd := drop k bs]> (fds s)) (out s) (tl (cuts s)))
    | None => (-1, [], s)
    end;
  u_write fd bs s := (Z.of_nat (length bs), if fd =? 1 then T (files s) (fds s) (out s ++ bs) (cuts s) else s);
  u_close fd s := (0, T (files s) (delete fd (fds s)) (out s) (cuts s));
  u_mkdir _ s := (-1, s); u_unlink _ s := (-1, s); u_link _ _ s := (-1, s); u_kill _ s := (-1, s); u_sleep _ s := (0, s);
  u_fstat _ s := (-1, UStat 0 0 0, s)
|}.
#[global] Instance laws : SysLaws t.
Proof.
  refine {| rest s fd := fds s !! fd; output := out; contents s path := find path s |}.
  - intros fd n s bs E. cbn. rewrite E. eexists _, _. split; [reflexivity|]. cbn [fds files out]. rewrite lookup_insert_eq. unfold read_len.
    split_and!; try done; try lia. intros Hn Hbs. destruct bs; [done|]. cbn [length]. lia.
  - intros bs s. eexists. split; [reflexivity|]. done.
  - intros fd bs s Hfd. cbn. destruct (Z.eqb_spec fd 1); [done|]. eexists _, _. split; [reflexivity|]. done.
  - intros path s. cbn. destruct (find path s) as [bs|]; eexists _, _; (split; [reflexivity|]); [|done]. cbn. split_and!; try done. by rewrite lookup_insert_eq.
  - intros fd s. eexists _, _. split; [reflexivity|]. done.
Defined.
End Demo.

(** A file of two lines read in pieces of 3, 1 and 4 bytes and the rest, and
    one that does not exist. *)
Definition demo_tools : Demo.t := Demo.T [(str "a", str "the quick" ++ [10] ++ str "fox" ++ [10])] ∅ [] [3; 1; 4]%nat.
Lemma wc_counts_witness :
  exists s', wc_main 100 [str "wc"; str "a"; str "b"] demo_tools = UExit 1 s' /\
    output s' = str "2 3 14 a" ++ [10] ++ str "wc: cannot open b" ++ [10].
Proof.
  destruct (wc_counts 100 (str "wc") [str "a"; str "b"] demo_tools) as (s' & E & O).
  - discriminate.
  - intros a bs Ha Hc. apply elem_of_cons in Ha as [->|Ha]; [|apply elem_of_cons in Ha as [->|Ha]; [|by apply elem_of_nil in Ha]].
    + vm_compute in Hc. injection Hc as <-. split; [cbn; lia|reflexivity].
    + discriminate.
  - exists s'. split; [exact E|]. rewrite O. vm_compute. reflexivity.
Defined.
Lemma cat_concatenates_witness :
  exists s', cat_main 100 [str "cat"; str "a"; str "a"] demo_tools = UExit 0 s' /\
    output s' = str "the quick" ++ [10] ++ str "fox" ++ [10] ++ str "the quick" ++ [10] ++ str "fox" ++ [10].
Proof.
  destruct (cat_concatenates 100 (str "cat") [str "a"; str "a"] demo_tools) as (s' & E & O).
  - discriminate.
  - intros a bs Ha Hc. assert (a = str "a") as -> by (rewrite !elem_of_cons, elem_of_nil in Ha; tauto).
    vm_compute in Hc. injection Hc as <-. cbn. lia.
  - exists s'. split; [exact E|]. rewrite O. vm_compute. reflexivity.
Defined.
